(* ===== verification/_CoqProject ===== *)
-Q . S2P
Prelude.v
Bytes.v
Comparators.v
Paths.v
Atomic.v
RateTracker.v
Collector.v
Values.v
Reader.v
FieldTable.v
Properties.v
Methods.v
ClientMethods.v
Typed.v
Frames.v
Handshake.v
Users.v
Client.v
Topic.v
Args.v
Queue.v
Deliveries.v
Consumers.v
Json.v
VHost.v
Store.v
Lifecycle.v
Routing.v
Declare.v
Expiry.v
Publish.v
Settle.v
Purge.v
Preserve.v
Recovery.v
Catalogue.v
Restart.v
Reload.v
Lost.v
Loop.v
Cleanup.v
Broker.v
Transaction.v
Handlers.v
Management.v
Listing.v
Definitions.v
Roundtrip.v
Web.v
Config.v
Server.v
Invariant.v
Ledger.v
TxSpec.v
Wire.v
