(* ===== verification/Prelude.v ===== *)
(** * OtterMQ: a verification development for the broker under src/

    OtterMQ is an AMQP 0-9-1 message broker written in Go.  A client connects
    (internal/core/amqp: protocol header, handshake, frames), opens channels and
    sends methods; internal/core/broker turns them into operations on a virtual
    host (internal/core/broker/vhost), which keeps exchanges, queues, bindings,
    consumers, the unacknowledged deliveries of each channel and its open
    transaction.  One goroutine a queue, the delivery loop, hands messages to
    consumers.  What is durable is written to one JSON file a queue or exchange
    (pkg/persistence/implementations/json), and read when the broker starts.
    This development models these four layers and the metrics collector beside
    them, and proves what makes each correct and what they promise together.

    ** Conventions

    A Go function that returns [(T, error)] is a function into [res E T] (below);
    a handler of the virtual host maps a state to the new state and its result.
    A handler of the broker is in the monad [brk] of [Broker], which threads the
    broker's state and can fail, with an error the frame loop sees, or stop, with
    a Go panic, a deadlock or spent fuel.
    The critical section under a mutex is one function: what a theorem says of
    sequences of operations it says of every interleaving of those sections.  A
    request's handler is one step; the delivery loop is split in its sections,
    with whatever the other goroutines do between them as a parameter.
    Integers are [Z] with their wrap-around written out where the source can
    reach it.  A Go map of arguments is the list of its entries in any order; the
    order in which [range] visits a map is a parameter wherever it can be seen.
    A connection is its identifier, a message is copied where the source copies
    the struct.  Log lines are left out, and so are the calls to the metrics
    collector, which nothing reads back.  Definitions keep the names of the source.

    What is not under src/ is a parameter, a type class with the laws the code
    relies on: [Runtime] (VHost: texts that encoding/json gives to floats and
    times, the order of map iteration), [JsonReader] (Store: the way back),
    [Sha256] (Paths), [FrameSender] (Settle: which writes to a connection succeed)
    and [Environment] (Broker: the same for sockets, the clock, what is drawn at
    random).  The concrete instances are for examples only.

    ** The wire format (internal/core/amqp)

    - [Bytes], [Values], [Reader]: big-endian integers, Go's [any] values, and
      readers on a byte buffer with Go's errors and run-time panics.
    - [FieldTable] (encode.go, decode.go): field tables and arrays.  The recursion
      is on fuel, one more than the length of the payload; [decoders_total]
      shows it is always enough and [table_round_trip] that decoding inverts
      encoding.
    - [Properties] (basic.go, framing.go): the property list of a content header.
    - [Methods] (the parse* functions, parsers.go) and [ClientMethods]: every
      method a client can send, and the grammar it is compared with
      ([client_methods_read_back]); [Typed]: every payload that parses gives a
      request with the Go types its handler casts to ([parsed_requests_are_typed]).
    - [Frames] (message.go, framing.go, parsers.go, close_reply_text.go): what the
      broker writes reads back as it was meant ([method_frame_round_trip],
      [header_frame_round_trip], [body_frames_reassemble]).
    - [Handshake] (handshake.go, tuning.go): the handshake over a list of input
      bytes and a list of frames written.  [handshake_admits] is its safety,
      [handshake_completes] its liveness for a client that follows the protocol,
      [negotiated_limits] is about tuning.  The user database and the peer's
      address are parameters.

    ** The virtual host (internal/core/broker/vhost)

    - [Topic] (exchange.go): topic patterns, against an inductive definition.
    - [Args] (helpers.go): numbers in queue arguments.
    - [Queue] (queue.go): the FIFO and priority buffers of a queue, against the
      list of its messages in the order consumers get them.
    - [Deliveries] (delivery.go, ack.go, recover.go): the unacknowledged
      deliveries of a channel: what an ack settles, the consistency of the
      indexes, the prefetch window.
    - [Consumers] (consumer.go): the registry of consumers and its two indexes,
      which list the same consumers ([wf_index]).
    - [Json] (encoding/json as [equalArgs] uses it): argument comparison.
    - [VHost] (exchange.go, binding.go): the state of the vhost, exchanges and
      bindings.  The calls to the persistence layer are recorded in the state,
      the last one first, as [persist_call]s.
    - [Lifecycle] (queue.go, consumer.go, vhost.go): declaring and deleting
      queues, registering and cancelling consumers; [wf_names] is the invariant
      of a vhost, [queue_deletion_complete] what a deletion leaves.
    - [Routing] (message.go): where a message goes ([routing_follows_bindings]).
    - [Declare] (queue.go, binding.go): binding and unbinding, and the privacy of
      exclusive queues.
    - [Expiry] (ttl.go, message.go): times to live.
    - [Publish] (message.go, queue.go, qll.go, dead-letter.go): pushing evicts,
      evicting dead-letters, dead-lettering publishes.  The recursion is on fuel:
      [publish_returns] shows that more fuel than the rank of the queues is
      enough when dead-letter exchanges form no cycle of limited queues
      ([ranked], with an executable check), [max_length_kept] that the limit
      holds, [publish_reaches_targets] that every target gets the message once.
    - [Settle] (ack.go, recover.go, delivery.go, message.go): delivering to a
      consumer, acknowledging, rejecting, recovering, basic.get.
    - [Purge] (queue.go): purging, which can wait for its own lock.
    - [Cleanup] (consumer.go): what closing a channel or connection gives back.
    - [Loop] (queue.go): the delivery loop.  The loop's [for] is fuel here, as it
      runs for ever; the theorems are about any number of turns, every fate of a
      message ([one_fate_each]) and progress ([ready_message_is_delivered]).
    - [Preserve]: every operation keeps the names, counts and indexes together.
    - [Ledger]: an abstract queue, a ledger of messages ready, in hand and
      outstanding, which the operations implement ([vhost_implements_ledger]).

    ** The broker (internal/core/broker)

    - [Broker] (broker.go, conn_state.go, connection.go, channel.go): the state and
      its accessors, closing channels and connections, creating and deleting
      virtual hosts.
    - [Transaction] (transaction.go, tx.go) and [TxSpec]: a transaction's
      acknowledgements and publishes have the effect of making them one by one
      at the commit ([transaction_defers]).
    - [Handlers] (basic.go, queue.go, exchange.go): a function a method.
    - [Server] (basic.go, broker.go, connection.go): assembling a published
      message from its frames, dispatching requests, the loop over the frames of
      a connection; [closed_channel_is_quiet].
    - [Invariant]: the broker as a step relation, from its start on any data
      directory; every vhost stays well formed ([broker_stays_well_formed]).
    - [Wire]: the layers composed, from the bytes of a basic.publish to the queues
      ([publish_end_to_end]).

    ** Persistence (pkg/persistence, vhost.go)

    - [Paths] (paths.go): file names of queues and exchanges; a name
      comes back and shares its file with no other ([stored_names_come_back]).
    - [Atomic] (atomic.go): replacing a file on a file system that may crash at
      any point and whose calls may fail ([atomic_write_is_atomic]).
    - [Store] (json.go): the data directory as a value, a file being the data
      [json.Unmarshal] gives for it, and the operations on it.
    - [Catalogue]: the abstract store those operations implement
      ([store_implements_catalogue]).
    - [Recovery] (vhost.go, message.go): starting a vhost from the files.
    - [Restart], [Reload]: the files always mirror the durable part of a vhost, so
      that starting from them gives it back
      ([durable_topology_survives_restart]).
    - [Lost]: what does not survive a restart.

    ** Metrics (pkg/metrics)

    - [RateTracker] (rate_tracker.go): the rate of a counter over its last
      samples, in float64 arithmetic; [tracker_keeps_window].
    - [Collector] (collector.go): the counters and rates of the broker, its
      exchanges, queues and channels; [gauges_add_up] says when the gauges of the
      broker are the sums of the others, and lemmas how the calls the broker makes
      let them drift apart.

    Some lemmas state where the code departs from what it means to do, next to
    the definitions they are about: [short_close_text_refused],
    [empty_header_frame_panics], [push_panics_at_priority_255],
    [star_hash_refuses_one_word], [max_length_truncated], [fanout_bind_repeated],
    [priority_queue_not_limited], [dead_letter_cycle_not_limited],
    [huge_ttl_expires_at_once], [purge_deadlocks], [window_overrun],
    [restart_forgets_limits], [recovered_message_expires] and others.

    ** What is not modelled

    Sockets, heartbeats and deadlines (client.go), accepting connections, the
    lifecycle monitor and the broadcast of a shutdown, and what happens after a
    panic inside a handler, where the model stops.  Failing calls of the
    persistence layer, which the modelled operations only log, but for the
    replacement of a file in [Atomic]; creating directories, and the striped locks
    that make each operation on a file one step.  The recovery of
    state_recovery.go and recovery.go, which nothing calls.  The user database
    (SQL), the ticker that samples the metrics, the management API, the web server
    and the command line.  The messages of errors are kept where they are a constant text, otherwise by their
    code. *)

From stdpp Require Import base list gmap strings.
From Stdlib Require Import ZArith Lia.

(** ** Results of fallible code

    A Go function that returns [(T, error)] is a function into [res E T]:
    the early [return ..., err] is [Err], the normal return is [Ok]. *)

Inductive res (E A : Type) : Type :=
| Ok (a : A)
| Err (e : E).
Arguments Ok {E A} _.
Arguments Err {E A} _.

Definition res_bind {E A B} (r : res E A) (f : A → res E B) : res E B :=
  match r with
  | Ok a => f a
  | Err e => Err e
  end.

Definition res_map {E A B} (f : A → B) (r : res E A) : res E B :=
  match r with
  | Ok a => Ok (f a)
  | Err e => Err e
  end.

(** [fmt.Errorf("...: %v", err)]: the error is replaced by one that wraps it. *)
Definition map_err {E F A} (f : E → F) (r : res E A) : res F A :=
  match r with
  | Ok a => Ok a
  | Err e => Err (f e)
  end.

Definition guard_err {E} (e : E) (b : bool) : res E unit :=
  if b then Ok tt else Err e.

Definition is_ok {E A} (r : res E A) : bool :=
  match r with Ok _ => true | Err _ => false end.

(** [res E] is a monad of stdpp: [x ← r; k] is Go's [x, err := r; if err != nil
    { return ..., err }; k]. *)
#[export] Instance res_mret {E} : MRet (res E) := fun A a => Ok a.
#[export] Instance res_mbind {E} : MBind (res E) := fun A B f r => res_bind r f.

#[export] Instance res_eq_dec E A `{EqDecision E, EqDecision A} : EqDecision (res E A).
Proof. solve_decision. Defined.

(** The hint database of the development, used as [eauto with otter]; the
    rewrite database collects the computation lemmas of the codecs. *)
Create HintDb otter.

Lemma res_bind_ok {E A B} (r : res E A) (f : A → res E B) b :
  (r ≫= f) = Ok b ↔ ∃ a, r = Ok a ∧ f a = Ok b.
Proof. destruct r; cbn; naive_solver. Qed.

#[export] Instance Ok_inj {E A} : Inj (=) (=) (@Ok E A).
Proof. intros a b H. by injection H. Qed.

Lemma map_err_ok {E F A} (f : E → F) (r : res E A) a :
  map_err f r = Ok a ↔ r = Ok a.
Proof. destruct r; cbn; naive_solver. Qed.

(** Inverts every [... = Ok _] hypothesis of the error monad. *)
Ltac inv_ok :=
  repeat match goal with
  | H : mbind _ _ = Ok _ |- _ => apply res_bind_ok in H as (? & ? & ?)
  | H : map_err _ _ = Ok _ |- _ => apply map_err_ok in H
  | H : mret _ = Ok _ |- _ => apply (inj Ok) in H; subst
  | H : Ok _ = Ok _ |- _ => apply (inj Ok) in H; subst
  | H : Err _ = Ok _ |- _ => discriminate H
  | H : Ok _ = Err _ |- _ => discriminate H
  | x : (_ * _)%type |- _ => destruct x
  end; simplify_eq.

(** Splits the innermost scrutinee of the goal, remembering the equation. *)
Ltac case_match_goal :=
  match goal with
  | |- context [match ?x with _ => _ end] =>
      lazymatch x with
      | context [match _ with _ => _ end] => fail
      | _ => destruct x eqn:?
      end
  end.

(** [for _, x := range l { s, err = f(x, s) ... }]: a loop that threads a state
    and stops at the first error. *)
Fixpoint for_each {E S A} (f : A → S → res E S) (l : list A) (s : S) : res E S :=
  match l with
  | [] => Ok s
  | x :: l => s ← f x s; for_each f l s
  end.

Lemma for_each_app {E S A} (f : A → S → res E S) l1 l2 s :
  for_each f (l1 ++ l2) s = (s ← for_each f l1 s; for_each f l2 s).
Proof.
  revert s. induction l1 as [|x l1 IH]; intros s; [done|]. cbn.
  destruct (f x s); cbn; [apply IH|done].
Qed.

(** A loop whose body keeps an invariant runs to its end and keeps it. *)
Lemma for_each_ok {E S A} (P : S → Prop) (f : A → S → res E S) l s :
  P s → (∀ x s, x ∈ l → P s → ∃ s', f x s = Ok s' ∧ P s') →
  ∃ s', for_each f l s = Ok s' ∧ P s'.
Proof.
  revert s. induction l as [|x l IH]; intros s Hs Hf; [by exists s|]. cbn.
  destruct (Hf x s) as (s1 & -> & Hs1); [by left|done|]. cbn.
  apply IH; [done|]. intros y s2 Hy. apply Hf. by right.
Qed.

(** ** Lists *)

Section lists.
Context {A : Type}.
Implicit Types l : list A.

Lemma take_app_length' l1 l2 n : n = length l1 → take n (l1 ++ l2) = l1.
Proof. intros ->. apply take_app_length. Qed.

Lemma drop_app_length' l1 l2 n : n = length l1 → drop n (l1 ++ l2) = l2.
Proof. intros ->. apply drop_app_length. Qed.
End lists.

Lemma filter_all {A} (P : A → Prop) `{∀ x, Decision (P x)} l : Forall P l → filter P l = l.
Proof. induction 1 as [|x l Hx Hl IH]; [done|]. rewrite filter_cons_True by done. by rewrite IH. Qed.

Lemma existsb_elem {A} (f : A → bool) l : existsb f l = true ↔ ∃ x, x ∈ l ∧ f x = true.
Proof. rewrite existsb_exists. by setoid_rewrite list_elem_of_In. Qed.

Section sums.
Context {A : Type}.

(** Sum of a measure over a list. *)
Definition sum_of (f : A → nat) (l : list A) : nat := sum_list_with f l.

Lemma sum_of_le f l x : x ∈ l → f x ≤ sum_of f l.
Proof.
  unfold sum_of. induction 1 as [|? ? ? ? IH]; simpl; lia.
Qed.
End sums.

#[export] Hint Resolve sum_of_le : otter.

Lemma foldl_keeps {A S} (P : S → Prop) (f : S → A → S) l s : (∀ s a, P s → P (f s a)) → P s → P (foldl f s l).
Proof. intros Hf. revert s. induction l as [|a l IH]; intros s Hs; [done|]. by apply IH, Hf. Qed.
