(* ===== verification/Bytes.v ===== *)
(** * Bytes and big-endian integers

    Go's [byte] is [Byte.byte]; a Go [string] is [String.string], converted to
    and from [[]byte] as Go does.  [be_enc w z] is [binary.Write] /
    [binary.BigEndian.PutUintN] of a [8*w]-bit integer (the value is taken
    modulo [2^(8w)], the conversion [uintN(x)] of the source) and [be_dec] is
    [binary.BigEndian.UintN] / the unsigned [binary.Read]. *)

From stdpp Require Import base list strings.
From Stdlib Require Import ZArith Lia.
From Stdlib Require Import Strings.Byte.
From S2P Require Import Prelude.

Local Open Scope Z_scope.

(** ** Bytes as integers *)

Definition Z_of_byte (b : byte) : Z := Z.of_N (Byte.to_N b).

Definition byte_of_Z (z : Z) : byte :=
  match Byte.of_N (Z.to_N (z mod 256)) with
  | Some b => b
  | None => x00
  end.

Lemma Z_of_byte_range b : 0 <= Z_of_byte b < 256.
Proof.
  unfold Z_of_byte. pose proof (Byte.to_N_bounded b). lia.
Qed.

Lemma Z_of_byte_of_Z z : Z_of_byte (byte_of_Z z) = z mod 256.
Proof.
  unfold byte_of_Z, Z_of_byte.
  pose proof (Z.mod_pos_bound z 256 ltac:(lia)) as Hb.
  destruct (Byte.of_N (Z.to_N (z mod 256))) as [b|] eqn:E.
  - apply Byte.to_of_N in E. rewrite E. lia.
  - apply Byte.of_N_None_iff in E. lia.
Qed.

Lemma byte_of_Z_of_byte b : byte_of_Z (Z_of_byte b) = b.
Proof.
  unfold byte_of_Z. rewrite Z.mod_small by apply Z_of_byte_range.
  unfold Z_of_byte. rewrite N2Z.id, Byte.of_to_N. done.
Qed.

Lemma Z_of_byte_inj b1 b2 : Z_of_byte b1 = Z_of_byte b2 → b1 = b2.
Proof. intros H. rewrite <-(byte_of_Z_of_byte b1), H. apply byte_of_Z_of_byte. Qed.

#[export] Instance byte_eq_dec : EqDecision byte := Byte.byte_eq_dec.

(** ** Strings *)

Definition bytes_of (s : string) : list byte := String.list_byte_of_string s.
Definition string_of (l : list byte) : string := String.string_of_list_byte l.

Lemma string_of_bytes_of s : string_of (bytes_of s) = s.
Proof. apply String.string_of_list_byte_of_string. Qed.

Lemma bytes_of_string_of l : bytes_of (string_of l) = l.
Proof. apply String.list_byte_of_string_of_list_byte. Qed.

(** [len(s)] of a Go string: its number of bytes. *)
Definition slen (s : string) : Z := Z.of_nat (length (bytes_of s)).

Lemma bytes_of_inj s1 s2 : bytes_of s1 = bytes_of s2 → s1 = s2.
Proof. intros H. rewrite <-(string_of_bytes_of s1), H. apply string_of_bytes_of. Qed.

(** ** Splitting *)

(** [strings.Split(s, sep)] for a separator of one byte. *)
Fixpoint split_on (sep : byte) (s : list byte) : list (list byte) :=
  match s with
  | [] => [[]]
  | b :: s' =>
      if decide (b = sep) then [] :: split_on sep s'
      else match split_on sep s' with
           | [] => [[b]]
           | w :: ws => (b :: w) :: ws
           end
  end.

Lemma split_on_nil sep s : split_on sep s ≠ [].
Proof. destruct s as [|b s]; [done|]. simpl. case_decide; [done|]. by destruct (split_on sep s). Qed.

Lemma split_on_no_sep sep s : sep ∉ s → split_on sep s = [s].
Proof.
  induction s as [|b s IH]; [done|]. intros [Hb Hs]%not_elem_of_cons. simpl.
  rewrite decide_False by done. by rewrite IH.
Qed.

Lemma split_on_app sep a s : sep ∉ a → split_on sep (a ++ sep :: s) = a :: split_on sep s.
Proof.
  induction a as [|b a IH]; simpl.
  - intros _. by rewrite decide_True.
  - intros [Hb Ha]%not_elem_of_cons. rewrite decide_False by done. by rewrite IH.
Qed.

(** The words of a split contain no separator and join to the text. *)
Fixpoint join_with (sep : byte) (ws : list (list byte)) : list byte :=
  match ws with
  | [] => []
  | [w] => w
  | w :: ws' => w ++ sep :: join_with sep ws'
  end.

Lemma split_on_spec sep s :
  join_with sep (split_on sep s) = s ∧ Forall (λ w, sep ∉ w) (split_on sep s).
Proof.
  induction s as [|b s [IH1 IH2]]; [by repeat constructor; apply not_elem_of_nil|].
  simpl. pose proof (split_on_nil sep s). case_decide as Hb.
  - subst. split.
    + destruct (split_on sep s) as [|w ws]; [done|]. cbn [join_with app]. by f_equal.
    + constructor; [apply not_elem_of_nil|done].
  - destruct (split_on sep s) as [|w ws]; [done|]. split.
    + destruct ws; cbn [join_with app] in *; by rewrite <-IH1.
    + inversion_clear IH2. constructor; [|done]. by apply not_elem_of_cons.
Qed.

(** [strings.Split] on strings. *)
Definition Split (s : string) (sep : byte) : list string := string_of <$> split_on sep (bytes_of s).

(** ** Big-endian integers of [w] bytes *)

Fixpoint be_enc (w : nat) (z : Z) : list byte :=
  match w with
  | O => []
  | S w' => be_enc w' (z / 256) ++ [byte_of_Z z]
  end.

Definition be_dec (l : list byte) : Z :=
  fold_left (fun acc b => acc * 256 + Z_of_byte b) l 0.

(** The two's-complement reading of a [w]-byte unsigned value. *)
Definition to_signed (w : nat) (z : Z) : Z :=
  if decide (z < 2 ^ (8 * Z.of_nat w - 1)) then z else z - 2 ^ (8 * Z.of_nat w).

Lemma length_be_enc w z : length (be_enc w z) = w.
Proof. revert z. induction w; intros z; simpl; [done|]. rewrite length_app, IHw. simpl. lia. Qed.

Lemma be_dec_snoc l b : be_dec (l ++ [b]) = be_dec l * 256 + Z_of_byte b.
Proof. unfold be_dec. rewrite fold_left_app. done. Qed.

Lemma be_dec_range l : 0 <= be_dec l < 256 ^ Z.of_nat (length l).
Proof.
  induction l as [|b l IH] using rev_ind; [done|].
  rewrite be_dec_snoc, length_app. simpl.
  rewrite Nat2Z.inj_add, Z.pow_add_r by lia. pose proof (Z_of_byte_range b).
  change (256 ^ Z.of_nat 1) with 256. nia.
Qed.

Lemma be_dec_enc w z : be_dec (be_enc w z) = z mod 256 ^ Z.of_nat w.
Proof.
  revert z. induction w as [|w IH]; intros z; simpl be_enc.
  - simpl. rewrite Z.mod_1_r. done.
  - rewrite be_dec_snoc, IH, Z_of_byte_of_Z.
    rewrite Nat2Z.inj_succ, Z.pow_succ_r by lia.
    assert (0 < 256 ^ Z.of_nat w) by (apply Z.pow_pos_nonneg; lia).
    rewrite (Z.rem_mul_r z 256) by lia. ring.
Qed.

Lemma be_dec_enc_small w z : 0 <= z < 256 ^ Z.of_nat w → be_dec (be_enc w z) = z.
Proof. intros. rewrite be_dec_enc. by apply Z.mod_small. Qed.

Lemma be_enc_dec l : be_enc (length l) (be_dec l) = l.
Proof.
  induction l as [|b l IH] using rev_ind; [done|].
  rewrite length_app, be_dec_snoc. simpl.
  rewrite Nat.add_comm. simpl.
  pose proof (Z_of_byte_range b).
  rewrite Z.div_add_l, Z.div_small, Z.add_0_r, IH by lia. f_equal. f_equal.
  apply Z_of_byte_inj. rewrite Z_of_byte_of_Z.
  rewrite Z.add_comm, Z_mod_plus_full, Z.mod_small; lia.
Qed.

Lemma pow_256 w : 256 ^ Z.of_nat w = 2 ^ (8 * Z.of_nat w).
Proof. change 256 with (2 ^ 8). rewrite <-Z.pow_mul_r by lia. done. Qed.

(** A signed [8w]-bit integer survives the trip through its unsigned bytes. *)
Lemma to_signed_enc w z :
  (0 < w)%nat →
  - 2 ^ (8 * Z.of_nat w - 1) <= z < 2 ^ (8 * Z.of_nat w - 1) →
  to_signed w (be_dec (be_enc w z)) = z.
Proof.
  intros Hw Hz. rewrite be_dec_enc, pow_256. unfold to_signed.
  assert (2 ^ (8 * Z.of_nat w) = 2 * 2 ^ (8 * Z.of_nat w - 1)) as Hp.
  { rewrite <-Z.pow_succ_r by lia. f_equal. lia. }
  assert (0 < 2 ^ (8 * Z.of_nat w - 1)) by (apply Z.pow_pos_nonneg; lia).
  destruct (decide (0 <= z)).
  - rewrite Z.mod_small by lia. rewrite decide_True by lia. done.
  - assert (z mod 2 ^ (8 * Z.of_nat w) = z + 2 ^ (8 * Z.of_nat w)) as ->.
    { symmetry. apply Z.mod_unique_pos with (-1); lia. }
    rewrite decide_False by lia. lia.
Qed.

(** ** Machine-width ranges *)

Definition u8 (z : Z) : Prop := 0 <= z < 2 ^ 8.
Definition u16 (z : Z) : Prop := 0 <= z < 2 ^ 16.
Definition u32 (z : Z) : Prop := 0 <= z < 2 ^ 32.
Definition u64 (z : Z) : Prop := 0 <= z < 2 ^ 64.

#[export] Instance u8_dec z : Decision (u8 z).
Proof. unfold u8. apply _. Defined.
#[export] Instance u16_dec z : Decision (u16 z).
Proof. unfold u16. apply _. Defined.
#[export] Instance u32_dec z : Decision (u32 z).
Proof. unfold u32. apply _. Defined.
#[export] Instance u64_dec z : Decision (u64 z).
Proof. unfold u64. apply _. Defined.

#[global] Arguments be_enc : simpl never.
