(* ===== verification/Comparators.v ===== *)
(** * Comparators: management/sort.go

    The comparison functions the management sorts its lists with, the laws a sort
    needs of them ([Ordered]), which [key] and [compareBy] preserve, and a stable
    sort. *)

From stdpp Require Import base list strings sorting.
From Stdlib Require Import ZArith Lia.
From S2P Require Import Prelude.

Local Open Scope Z_scope.
Local Open Scope list_scope.

(** ** Comparing and sorting *)

Definition comparator (T : Type) : Type := T → T → comparison.

(** [cmp.Compare] of an extracted field. *)
Definition key {T K} (compare : comparator K) (extract : T → K) : comparator T :=
  λ a b, compare (extract a) (extract b).

Fixpoint compareBy {T} (keys : list (comparator T)) (a b : T) : comparison :=
  match keys with
  | [] => Eq
  | k :: keys => match k a b with Eq => compareBy keys a b | c => c end
  end.

(** [slices.SortStableFunc]: equal elements stay in their order. *)
Fixpoint insert_sorted {T} (cmp : comparator T) (x : T) (l : list T) : list T :=
  match l with
  | [] => [x]
  | y :: l => match cmp y x with Lt => y :: insert_sorted cmp x l | _ => x :: y :: l end
  end.
Definition SortStableFunc {T} (cmp : comparator T) (l : list T) : list T := foldr (insert_sorted cmp) [] l.

(** A comparison that sorting can rely on. *)
Class Ordered {T} (cmp : comparator T) : Prop := {
  ordered_flip a b : cmp a b = CompOpp (cmp b a);
  ordered_trans a b c : cmp a b ≠ Gt → cmp b c ≠ Gt → cmp a c ≠ Gt;
}.

Section ordered.
Context {T : Type} (cmp : comparator T) `{!Ordered cmp}.
Definition not_after : T → T → Prop := λ a b, cmp a b ≠ Gt.

Lemma ordered_refl a : cmp a a = Eq.
Proof. pose proof (ordered_flip (cmp := cmp) a a) as Hf. by destruct (cmp a a). Qed.
Lemma not_after_flip a b : cmp a b ≠ Lt → not_after b a.
Proof. unfold not_after. rewrite (ordered_flip (cmp := cmp) b a). by destruct (cmp a b). Qed.
(** Elements that compare equal are interchangeable. *)
Lemma ordered_eq a b c : cmp a b = Eq → cmp a c = cmp b c.
Proof.
  intros Hab. assert (Hba : cmp b a = Eq) by by rewrite (ordered_flip (cmp := cmp) b a), Hab.
  pose proof (ordered_trans (cmp := cmp) a b c) as H1. pose proof (ordered_trans (cmp := cmp) b a c) as H2.
  pose proof (ordered_trans (cmp := cmp) c a b) as H3. pose proof (ordered_trans (cmp := cmp) c b a) as H4.
  rewrite Hab in H1, H3. rewrite Hba in H2, H4.
  rewrite (ordered_flip (cmp := cmp) c a), (ordered_flip (cmp := cmp) c b) in H3, H4.
  destruct (cmp a c), (cmp b c); try done; exfalso; cbn in *;
    solve [by apply H1|by apply H2|by apply H3|by apply H4].
Qed.

Lemma insert_sorted_perm x l : insert_sorted cmp x l ≡ₚ x :: l.
Proof.
  induction l as [|y l IH]; [done|]. cbn. destruct (cmp y x); [done| |done].
  rewrite IH. apply Permutation_swap.
Qed.
Lemma sort_perm l : SortStableFunc cmp l ≡ₚ l.
Proof. induction l as [|x l IH]; [done|]. cbn. by rewrite insert_sorted_perm, IH. Qed.

Lemma insert_sorted_sorted x l :
  StronglySorted not_after l → StronglySorted not_after (insert_sorted cmp x l).
Proof.
  induction 1 as [|y l Hl IH Hy]; cbn; [by repeat constructor|].
  destruct (cmp y x) eqn:E.
  - apply SSorted_cons; [by apply SSorted_cons|]. assert (Hxy : not_after x y) by (apply not_after_flip; congruence).
    constructor; [done|]. eapply Forall_impl; [exact Hy|]. intros z. by apply (ordered_trans (cmp := cmp)).
  - apply SSorted_cons; [done|]. rewrite insert_sorted_perm. constructor; [unfold not_after; congruence|done].
  - apply SSorted_cons; [by apply SSorted_cons|]. assert (Hxy : not_after x y) by (apply not_after_flip; congruence).
    constructor; [done|]. eapply Forall_impl; [exact Hy|]. intros z. by apply (ordered_trans (cmp := cmp)).
Qed.
Lemma sort_sorted l : StronglySorted not_after (SortStableFunc cmp l).
Proof. induction l as [|x l IH]; [constructor|]. by apply insert_sorted_sorted. Qed.

(** Where no two elements compare equal, the order of the input does not matter. *)
Lemma sort_canonical l l' :
  (∀ a b, a ∈ l → b ∈ l → cmp a b = Eq → a = b) → l ≡ₚ l' → SortStableFunc cmp l = SortStableFunc cmp l'.
Proof.
  intros Heq Hp. apply (StronglySorted_unique_strong not_after); [|apply sort_sorted..|by rewrite !sort_perm].
  intros a b Ha Hb Hab Hba. rewrite sort_perm in Ha, Hb. rewrite <- Hp in Hb. apply Heq; [done..|].
  unfold not_after in *. rewrite (ordered_flip (cmp := cmp) b a) in Hba. by destruct (cmp a b).
Qed.
End ordered.

(** Bytes decide between strings. *)
#[export] Instance string_ordered : Ordered String.compare.
Proof.
  split; [apply String.compare_antisym|].
  induction a as [|x a IH]; intros [|y b] [|z c]; cbn; try done.
  unfold Ascii.compare. intros H1 H2.
  destruct (N.compare_spec (Ascii.N_of_ascii x) (Ascii.N_of_ascii y)) as [E1|L1|G1]; [| |done];
  destruct (N.compare_spec (Ascii.N_of_ascii y) (Ascii.N_of_ascii z)) as [E2|L2|G2]; try done;
  destruct (N.compare_spec (Ascii.N_of_ascii x) (Ascii.N_of_ascii z)); try done; try lia.
  by apply (IH b).
Qed.
#[export] Instance number_ordered : Ordered Z.compare.
Proof.
  split; [intros a b; apply Z.compare_antisym|]. intros a b c.
  destruct (Z.compare_spec a b), (Z.compare_spec b c), (Z.compare_spec a c); try done; lia.
Qed.
#[export] Instance key_ordered {T K} (compare : comparator K) (extract : T → K) :
  Ordered compare → Ordered (key compare extract).
Proof. intros Ho. split; unfold key; [intros; apply ordered_flip|intros a b c; apply ordered_trans]. Qed.
#[export] Instance compareBy_nil {T} : Ordered (compareBy (T := T) []).
Proof. by split. Qed.
#[export] Instance compareBy_cons {T} (k : comparator T) keys :
  Ordered k → Ordered (compareBy keys) → Ordered (compareBy (k :: keys)).
Proof.
  intros Hk Hks. split; cbn.
  - intros a b. rewrite (ordered_flip (cmp := k) a b). destruct (k b a); cbn; [apply (ordered_flip (cmp := compareBy keys))|done..].
  - intros a b c. destruct (k a b) eqn:E1; [| |done].
    + rewrite (ordered_eq k a b c E1). destruct (k b c) eqn:E2; [apply (ordered_trans (cmp := compareBy keys))|done|done].
    + intros _. destruct (k b c) eqn:E2; [| |done].
      * assert (E3 : k c b = Eq) by by rewrite (ordered_flip (cmp := k) c b), E2.
        rewrite (ordered_flip (cmp := k) a c), (ordered_eq k c b a E3), (ordered_flip (cmp := k) b a), E1. done.
      * intros _. pose proof (ordered_trans (cmp := k) a b c) as Ht. rewrite E1, E2 in Ht.
        destruct (k a c) eqn:E3; [|done|by destruct Ht].
        rewrite (ordered_eq k a c b E3), (ordered_flip (cmp := k) c b), E2 in E1. done.
Qed.
