(* ===== verification/Paths.v ===== *)
(** * Names on disk: pkg/persistence/implementations/json/paths.go

    The names of queues, exchanges and virtual hosts come from clients and can
    hold any bytes; [encodeName] makes a file name of them.  SHA-256 is a
    parameter of 32 bytes. *)

From stdpp Require Import base list strings.
From Stdlib Require Import ZArith Lia.
From Stdlib Require Import Strings.Byte.
From S2P Require Import Prelude Bytes.

Local Open Scope Z_scope.
Local Open Scope string_scope.
Local Open Scope list_scope.

(** ** Numbers in a base *)

(** The [n] low digits of a number, the most significant one first, and back. *)
Fixpoint digits_of (base : Z) (n : nat) (v : Z) : list Z :=
  match n with
  | O => []
  | S n => digits_of base n (v / base) ++ [v mod base]
  end.

Definition of_digits (base : Z) (ds : list Z) : Z := foldl (λ v d, v * base + d) 0 ds.

(** ** encoding/base32, HexEncoding without padding *)

(** The digits that a last group of one to five bytes takes, and the bytes that
    a last group of digits gives: [Decode] writes none for one, three or six
    digits, and does not complain. *)
Definition group_digits (bytes : nat) : nat :=
  match bytes with 0 => 0 | 1 => 2 | 2 => 4 | 3 => 5 | 4 => 7 | _ => 8 end%nat.

Definition group_bytes (digits : nat) : nat :=
  match digits with 2 => 1 | 4 => 2 | 5 => 3 | 7 => 4 | 8 => 5 | _ => 0 end%nat.

Definition encode_group (bs : list Z) : list Z :=
  take (group_digits (length bs))
    (digits_of 32 8 (of_digits 256 (bs ++ replicate (5 - length bs) 0))).

Definition decode_group (ds : list Z) : list Z :=
  take (group_bytes (length ds))
    (digits_of 256 5 (of_digits 32 (ds ++ replicate (8 - length ds) 0))).

Fixpoint base32_encode (bs : list Z) : list Z :=
  match bs with
  | b0 :: b1 :: b2 :: b3 :: b4 :: bs' => encode_group [b0; b1; b2; b3; b4] ++ base32_encode bs'
  | _ => encode_group bs
  end.

Fixpoint base32_decode (ds : list Z) : list Z :=
  match ds with
  | d0 :: d1 :: d2 :: d3 :: d4 :: d5 :: d6 :: d7 :: ds' =>
      decode_group [d0; d1; d2; d3; d4; d5; d6; d7] ++ base32_decode ds'
  | _ => decode_group ds
  end.

(** The alphabet 0-9A-V, in upper case and in the lower case the source wants. *)
Definition digit_char (first_letter d : Z) : Z := if decide (d < 10) then 48 + d else first_letter + (d - 10).
Definition upper_digit : Z → Z := digit_char 65.
Definition lower_digit : Z → Z := digit_char 97.

Definition digit_value (c : Z) : option Z :=
  if decide (48 <= c <= 57) then Some (c - 48)
  else if decide (65 <= c <= 86) then Some (c - 55)
  else None.

(** [DecodeString] skips line breaks. *)
Definition strip_newlines (cs : list Z) : list Z := filter (λ c, c ≠ 10 ∧ c ≠ 13) cs.

Definition base32_DecodeString (cs : list Z) : option (list Z) :=
  base32_decode <$> mapM digit_value (strip_newlines cs).

(** [strings.ToUpper], as far as the result can be a digit of the alphabet: the
    ASCII letters and the two other letters whose upper case is one, U+0131 and
    U+017F.  Every other rune beyond ASCII stays beyond ASCII. *)
Definition upper_ascii (c : Z) : Z := if decide (97 <= c <= 122) then c - 32 else c.

Fixpoint ToUpper (cs : list Z) : list Z :=
  match cs with
  | [] => []
  | [c] => [upper_ascii c]
  | c :: ((c' :: cs'') as cs') =>
      if decide (c = 196 ∧ c' = 177) then 73 :: ToUpper cs''
      else if decide (c = 197 ∧ c' = 191) then 83 :: ToUpper cs''
      else upper_ascii c :: ToUpper cs'
  end.

(** ** Go strings as character codes *)

Definition char_codes (s : string) : list Z := Z_of_byte <$> bytes_of s.
Definition of_char_codes (cs : list Z) : string := string_of (byte_of_Z <$> cs).

(** [strings.CutPrefix] and [strings.TrimSuffix] on character codes. *)
Fixpoint CutPrefix (prefix cs : list Z) : option (list Z) :=
  match prefix, cs with
  | [], _ => Some cs
  | p :: prefix, c :: cs => if decide (p = c) then CutPrefix prefix cs else None
  | _ :: _, [] => None
  end.

Definition HasPrefix (prefix s : string) : bool :=
  bool_decide (is_Some (CutPrefix (char_codes prefix) (char_codes s))).

Definition CutSuffix (suffix s : string) : option string :=
  (λ cs, of_char_codes (reverse cs)) <$>
  CutPrefix (reverse (char_codes suffix)) (reverse (char_codes s)).

Definition HasSuffix (suffix s : string) : bool := bool_decide (is_Some (CutSuffix suffix s)).
Definition TrimSuffix (suffix s : string) : string := default s (CutSuffix suffix s).

(** [hex.EncodeToString]. *)
Definition hex_encode (bs : list Z) : list Z :=
  b ← bs; [lower_digit (b / 16); lower_digit (b mod 16)].

(** ** File names *)

Class Sha256 : Type := {
  sha256 : list Z → list Z;
  sha256_length : ∀ bs, length (sha256 bs) = 32%nat;
  sha256_bytes : ∀ bs, Forall (λ b, 0 <= b < 256) (sha256 bs);
}.

Definition maxEncodedLen : nat := 200.

Section paths.
Context `{Sha256}.

Definition base32_name (name : string) : list Z := lower_digit <$> base32_encode (char_codes name).

Definition encodeName (name : string) : string :=
  let enc := base32_name name in
  if decide (1 + length enc <= maxEncodedLen)%nat then of_char_codes (110 :: enc)
  else of_char_codes (104 :: hex_encode (sha256 (char_codes name))).

Definition decodeName (component : string) : option string :=
  match CutPrefix [110] (char_codes component) with
  | None => None
  | Some enc => of_char_codes <$> base32_DecodeString (ToUpper enc)
  end.

(** [recorded] is the name in the file; the file itself is named [file]. *)
Definition entityName (file recorded : string) : option string :=
  let component := TrimSuffix ".json" file in
  match decodeName component with
  | Some name => Some name
  | None =>
      if HasPrefix "h" component && bool_decide (encodeName recorded = component)
      then Some recorded else None
  end.

(** [vhost_json] is the name in the directory's vhost.json, when it can be read. *)
Definition vhostName (dir : string) (vhost_json : option string) : option string :=
  match decodeName dir with
  | Some name => Some name
  | None =>
      match vhost_json with
      | Some name => if decide (encodeName name = dir) then Some name else None
      | None => None
      end
  end.
End paths.

(** ** Numbers in a base *)

Lemma length_digits_of base n v : length (digits_of base n v) = n.
Proof. revert v. induction n as [|n IH]; intros v; [done|]. cbn. rewrite length_app, IH. cbn. lia. Qed.

Lemma digits_of_range base n v : 0 < base → Forall (λ d, 0 <= d < base) (digits_of base n v).
Proof.
  intros Hb. revert v. induction n as [|n IH]; intros v; cbn; [done|].
  apply Forall_app. split; [apply IH|]. apply Forall_singleton. by apply Z.mod_pos_bound.
Qed.

Lemma of_digits_snoc base ds d : of_digits base (ds ++ [d]) = of_digits base ds * base + d.
Proof. unfold of_digits. by rewrite foldl_app. Qed.

Lemma of_digits_app_zeros base ds n :
  of_digits base (ds ++ replicate n 0) = of_digits base ds * base ^ Z.of_nat n.
Proof.
  induction n as [|n IH]; [cbn; rewrite app_nil_r; lia|].
  rewrite replicate_S_end, app_assoc, of_digits_snoc, IH, Nat2Z.inj_succ, Z.pow_succ_r by lia. lia.
Qed.

Lemma of_digits_of base n v : 0 < base → of_digits base (digits_of base n v) = v mod base ^ Z.of_nat n.
Proof.
  intros Hb. revert v. induction n as [|n IH]; intros v; [cbn; by rewrite Z.mod_1_r|].
  cbn [digits_of]. rewrite of_digits_snoc, IH, Nat2Z.inj_succ, Z.pow_succ_r by lia.
  rewrite (Z.rem_mul_r v base) by lia. lia.
Qed.

Lemma of_digits_range base ds :
  0 < base → Forall (λ d, 0 <= d < base) ds → 0 <= of_digits base ds < base ^ Z.of_nat (length ds).
Proof.
  intros Hb. induction ds as [|d ds IH] using rev_ind; [cbn; lia|].
  intros [Hds Hd]%Forall_app. rewrite Forall_singleton in Hd. specialize (IH Hds).
  rewrite of_digits_snoc, length_app. cbn [length].
  rewrite Nat.add_1_r, Nat2Z.inj_succ, Z.pow_succ_r by lia.
  set (o := of_digits base ds) in *. set (p := base ^ Z.of_nat (length ds)) in *.
  assert ((o + 1) * base <= p * base) by (apply Z.mul_le_mono_nonneg_r; lia). nia.
Qed.

Lemma digits_of_of_digits base ds :
  0 < base → Forall (λ d, 0 <= d < base) ds → digits_of base (length ds) (of_digits base ds) = ds.
Proof.
  intros Hb. induction ds as [|d ds IH] using rev_ind; [done|].
  intros [Hds Hd]%Forall_app. rewrite Forall_singleton in Hd.
  rewrite of_digits_snoc, length_app, Nat.add_1_r. cbn [digits_of].
  rewrite Z.div_add_l, Z.div_small, Z.add_0_r, IH by (done || lia).
  do 2 f_equal. rewrite (Z.add_comm _ d), Z.mod_add by lia. by apply Z.mod_small.
Qed.

(** The low digits of a multiple of a power of the base are zeros. *)
Lemma digits_of_shift base n m v :
  0 < base → digits_of base (n + m) (v * base ^ Z.of_nat m) = digits_of base n v ++ replicate m 0.
Proof.
  intros Hb. induction m as [|m IH].
  - cbn. by rewrite Nat.add_0_r, Z.mul_1_r, app_nil_r.
  - rewrite Nat.add_succ_r. cbn [digits_of].
    rewrite Nat2Z.inj_succ, Z.pow_succ_r by lia.
    replace (v * (base * base ^ Z.of_nat m)) with (v * base ^ Z.of_nat m * base) by lia.
    rewrite Z.div_mul, Z.mod_mul, IH by lia. by rewrite replicate_S_end, app_assoc.
Qed.

(** ** base32 *)

Definition is_byte (b : Z) : Prop := 0 <= b < 256.

(** A group of [k] bytes is a multiple of a power of 32 that leaves as many
    digits as are written; the rest are zeros. *)
Lemma encode_group_value bs : (length bs <= 5)%nat → Forall is_byte bs →
  let n := group_digits (length bs) in
  digits_of 32 8 (of_digits 256 (bs ++ replicate (5 - length bs) 0)) =
  encode_group bs ++ replicate (8 - n) 0 ∧ length (encode_group bs) = n.
Proof.
  intros Hl Hbs n. subst n. unfold encode_group.
  rewrite length_take, length_digits_of, of_digits_app_zeros. set (v := of_digits 256 bs).
  assert (∃ w, v * 256 ^ Z.of_nat (5 - length bs) = w * 32 ^ Z.of_nat (8 - group_digits (length bs))) as [w ->].
  { destruct (length bs) as [|[|[|[|[|[|]]]]]]; cbn [group_digits Nat.sub];
      [exists v|exists (v * 4)|exists (v * 16)|exists (v * 2)|exists (v * 8)|exists v|lia]; cbn; lia. }
  assert (group_digits (length bs) <= 8)%nat as Hn
    by (destruct (length bs) as [|[|[|[|[|[|]]]]]]; cbn; lia).
  replace 8%nat with (group_digits (length bs) + (8 - group_digits (length bs)))%nat at 1 3 by lia.
  rewrite digits_of_shift by lia. rewrite take_app_length' by by rewrite length_digits_of.
  split; [done|lia].
Qed.

Lemma decode_encode_group bs : (length bs <= 5)%nat → Forall is_byte bs →
  decode_group (encode_group bs) = bs.
Proof.
  intros Hl Hbs. destruct (encode_group_value bs Hl Hbs) as [Hv Hn].
  unfold decode_group. rewrite Hn, <-Hv, of_digits_of by lia.
  assert (Forall is_byte (bs ++ replicate (5 - length bs) 0)) as Hall.
  { apply Forall_app. split; [done|]. apply Forall_replicate. unfold is_byte. lia. }
  assert (length (bs ++ replicate (5 - length bs) 0) = 5%nat) as Hlen
    by (rewrite length_app, length_replicate; lia).
  pose proof (of_digits_range 256 _ ltac:(lia) Hall) as Hr. rewrite Hlen in Hr.
  rewrite Z.mod_small by (change (32 ^ Z.of_nat 8) with (256 ^ Z.of_nat 5); lia).
  pose proof (digits_of_of_digits 256 _ ltac:(lia) Hall) as E. rewrite Hlen in E. rewrite E.
  rewrite take_app_length'; [done|]. by destruct (length bs) as [|[|[|[|[|[|]]]]]]; cbn; try lia.
Qed.

(** Induction five elements at a time. *)
Lemma groups_ind (P : list Z → Prop) :
  (∀ bs, (length bs < 5)%nat → P bs) →
  (∀ b0 b1 b2 b3 b4 bs, P bs → P (b0 :: b1 :: b2 :: b3 :: b4 :: bs)) → ∀ bs, P bs.
Proof.
  intros Hshort Hgroup bs. remember (length bs) as n eqn:E. revert bs E.
  induction (lt_wf n) as [n _ IH]. intros bs ->.
  destruct bs as [|b0 [|b1 [|b2 [|b3 [|b4 bs]]]]]; [apply Hshort; cbn; lia..|].
  apply Hgroup, (IH (length bs)); [cbn; lia|done].
Qed.

Lemma base32_decode_encode bs : Forall is_byte bs → base32_decode (base32_encode bs) = bs.
Proof.
  induction bs as [bs Hl|b0 b1 b2 b3 b4 bs IH] using groups_ind; intros Hbs.
  - destruct bs as [|b0 [|b1 [|b2 [|b3 [|b4 bs]]]]]; [done|..|cbn in Hl; lia].
    all: match goal with |- base32_decode (base32_encode ?l) = _ =>
      transitivity (decode_group (encode_group l)); [done|apply decode_encode_group; [cbn; lia|done]] end.
  - cbn [base32_encode]. change (b0 :: b1 :: b2 :: b3 :: b4 :: bs) with ([b0; b1; b2; b3; b4] ++ bs) in Hbs |- *.
    apply Forall_app in Hbs as [Hg Hbs].
    destruct (encode_group_value [b0; b1; b2; b3; b4] ltac:(cbn; lia) Hg) as [_ Hn].
    assert (Hd := decode_encode_group [b0; b1; b2; b3; b4] ltac:(cbn; lia) Hg).
    destruct (encode_group [b0; b1; b2; b3; b4]) as [|? [|? [|? [|? [|? [|? [|? [|? [|]]]]]]]]]; try discriminate Hn.
    cbn [app base32_decode]. rewrite Hd. cbn [app]. do 5 f_equal. by apply IH.
Qed.

Lemma base32_encode_range bs : Forall (λ d, 0 <= d < 32) (base32_encode bs).
Proof.
  assert (∀ g, Forall (λ d, 0 <= d < 32) (encode_group g)) as Hg
    by (intros g; apply Forall_take, digits_of_range; lia).
  induction bs as [bs Hl|b0 b1 b2 b3 b4 bs IH] using groups_ind.
  - destruct bs as [|b0 [|b1 [|b2 [|b3 [|b4 bs]]]]]; [done|apply Hg..|cbn in Hl; lia].
  - cbn [base32_encode]. apply Forall_app. split; [apply Hg|done].
Qed.

(** ** Characters *)

Lemma lower_digit_cases d : 0 <= d < 32 →
  48 <= lower_digit d <= 57 ∧ upper_digit d = lower_digit d ∨
  97 <= lower_digit d <= 118 ∧ upper_digit d = lower_digit d - 32.
Proof. unfold lower_digit, upper_digit, digit_char. intros. case_decide; [left|right]; lia. Qed.

Lemma upper_digit_value d : 0 <= d < 32 →
  digit_value (upper_digit d) = Some d ∧ upper_digit d ≠ 10 ∧ upper_digit d ≠ 13.
Proof.
  unfold upper_digit, digit_char, digit_value. intros. repeat case_decide; try lia; (split; [f_equal|]); lia.
Qed.

Lemma ToUpper_ascii cs : Forall (λ c, c < 128) cs → ToUpper cs = upper_ascii <$> cs.
Proof.
  induction 1 as [|c cs Hc Hcs IH]; [done|]. destruct cs as [|c' cs]; [done|].
  change (ToUpper (c :: c' :: cs)) with
    (if decide (c = 196 ∧ c' = 177) then 73 :: ToUpper cs
     else if decide (c = 197 ∧ c' = 191) then 83 :: ToUpper cs
     else upper_ascii c :: ToUpper (c' :: cs)).
  rewrite !decide_False by lia. by rewrite IH.
Qed.

Lemma DecodeString_encoded bs : Forall is_byte bs →
  base32_DecodeString (ToUpper (lower_digit <$> base32_encode bs)) = Some bs.
Proof.
  intros Hbs. pose proof (base32_encode_range bs) as Hr.
  assert (ToUpper (lower_digit <$> base32_encode bs) = upper_digit <$> base32_encode bs) as ->.
  { rewrite ToUpper_ascii.
    - rewrite <-list_fmap_compose. apply list_fmap_ext. intros i d Hd%(Forall_lookup_1 _ _ _ _ Hr).
      unfold compose, upper_ascii. destruct (lower_digit_cases d Hd) as [[? ->]|[? ->]];
        [rewrite decide_False by lia|rewrite decide_True by lia]; done.
    - apply Forall_fmap, (Forall_impl _ _ _ Hr). intros d Hd. cbn.
      destruct (lower_digit_cases d Hd); lia. }
  unfold base32_DecodeString, strip_newlines.
  rewrite filter_all.
  - rewrite (mapM_fmap_Forall_Some _ upper_digit (base32_encode bs)).
    + cbn. by rewrite base32_decode_encode.
    + apply (Forall_impl _ _ _ Hr). intros d Hd. apply (upper_digit_value d Hd).
  - apply Forall_fmap, (Forall_impl _ _ _ Hr). intros d Hd. apply (upper_digit_value d Hd).
Qed.

Lemma char_codes_bytes s : Forall is_byte (char_codes s).
Proof. apply Forall_fmap, Forall_true. intros b. apply Z_of_byte_range. Qed.

Lemma of_char_codes_codes s : of_char_codes (char_codes s) = s.
Proof.
  unfold of_char_codes, char_codes. rewrite <-list_fmap_compose.
  rewrite (list_fmap_ext _ id) by (intros; apply byte_of_Z_of_byte). by rewrite list_fmap_id, string_of_bytes_of.
Qed.

Lemma char_codes_of cs : Forall is_byte cs → char_codes (of_char_codes cs) = cs.
Proof.
  intros Hcs. unfold of_char_codes, char_codes. rewrite bytes_of_string_of, <-list_fmap_compose.
  rewrite (list_fmap_ext _ id); [by rewrite list_fmap_id|].
  intros i c Hc%(Forall_lookup_1 _ _ _ _ Hcs). unfold compose. rewrite Z_of_byte_of_Z. by apply Z.mod_small.
Qed.

Lemma char_codes_app s1 s2 : char_codes (s1 +:+ s2) = char_codes s1 ++ char_codes s2.
Proof.
  unfold char_codes. rewrite <-fmap_app. f_equal. induction s1 as [|a s1 IH]; [done|].
  change (Ascii.byte_of_ascii a :: bytes_of (s1 +:+ s2) = Ascii.byte_of_ascii a :: bytes_of s1 ++ bytes_of s2).
  by rewrite IH.
Qed.

Lemma char_codes_inj s1 s2 : char_codes s1 = char_codes s2 → s1 = s2.
Proof. intros E. by rewrite <-(of_char_codes_codes s1), E, of_char_codes_codes. Qed.

Lemma CutPrefix_app p cs : CutPrefix p (p ++ cs) = Some cs.
Proof. induction p as [|c p IH]; [done|]. cbn. by rewrite decide_True. Qed.

Lemma CutPrefix_Some p cs rest : CutPrefix p cs = Some rest → cs = p ++ rest.
Proof.
  revert cs. induction p as [|c p IH]; intros [|c' cs]; cbn; try done; [congruence..|].
  case_decide; [|done]. subst. by intros ->%IH.
Qed.

Lemma CutSuffix_app s suffix : CutSuffix suffix (s +:+ suffix) = Some s.
Proof.
  unfold CutSuffix. rewrite char_codes_app, reverse_app, CutPrefix_app. cbn.
  by rewrite reverse_involutive, of_char_codes_codes.
Qed.

Lemma TrimSuffix_app s suffix : TrimSuffix suffix (s +:+ suffix) = s.
Proof. unfold TrimSuffix. by rewrite CutSuffix_app. Qed.

(** ** Stored names *)

Section names.
Context `{Sha256}.

(** A character of a file name [encodeName] makes: 0-9 or a-v. *)
Definition safe_char (c : Z) : Prop := 48 <= c <= 57 ∨ 97 <= c <= 118.

Lemma lower_digit_safe d : 0 <= d < 32 → safe_char (lower_digit d).
Proof. intros Hd. unfold safe_char. destruct (lower_digit_cases d Hd); lia. Qed.

Lemma hex_encode_safe bs : Forall is_byte bs →
  Forall safe_char (hex_encode bs) ∧ length (hex_encode bs) = (2 * length bs)%nat.
Proof.
  induction 1 as [|b bs Hb Hbs [IH1 IH2]]; [done|]. unfold hex_encode in *. cbn. split; [|lia].
  unfold is_byte in Hb. pose proof (Z.mod_pos_bound b 16 ltac:(lia)).
  assert (0 <= b / 16 < 16) by (split; [apply Z.div_pos; lia|apply Z.div_lt_upper_bound; lia]).
  apply Forall_cons_2; [apply lower_digit_safe; lia|].
  apply Forall_cons_2; [apply lower_digit_safe; lia|done].
Qed.

Lemma base32_name_safe name : Forall safe_char (base32_name name).
Proof. apply Forall_fmap, (Forall_impl _ _ _ (base32_encode_range _)). apply lower_digit_safe. Qed.

Lemma safe_bytes cs : Forall safe_char cs → Forall is_byte cs.
Proof. intros Hcs. apply (Forall_impl _ _ _ Hcs). unfold safe_char, is_byte. lia. Qed.

(** What [encodeName] writes: the marker and the characters after it. *)
Lemma encodeName_chars name :
  char_codes (encodeName name) = 110 :: base32_name name ∧ (length (base32_name name) < 200)%nat ∨
  char_codes (encodeName name) = 104 :: hex_encode (sha256 (char_codes name)) ∧
  (200 <= length (base32_name name))%nat.
Proof.
  pose proof (base32_name_safe name) as Hn.
  destruct (hex_encode_safe _ (sha256_bytes (char_codes name))) as [Hh _].
  unfold encodeName, maxEncodedLen. cbv zeta.
  case_decide; [left|right]; (split; [|lia]); apply char_codes_of;
    (constructor; [unfold is_byte; lia|by apply safe_bytes]).
Qed.

Lemma decode_encodeName name :
  decodeName (encodeName name) = if decide (length (base32_name name) < 200)%nat then Some name else None.
Proof.
  unfold decodeName. destruct (encodeName_chars name) as [[-> Hl]|[-> Hl]]; cbn [CutPrefix].
  - rewrite decide_True by done. unfold base32_name. rewrite DecodeString_encoded by apply char_codes_bytes.
    cbn. rewrite of_char_codes_codes. by rewrite decide_True.
  - rewrite (decide_False (P := 110 = 104)) by done. by rewrite decide_False by lia.
Qed.

Lemma encodeName_hashed name : decodeName (encodeName name) = None → HasPrefix "h" (encodeName name) = true.
Proof.
  rewrite decode_encodeName. case_decide; [done|]. intros _.
  destruct (encodeName_chars name) as [[_ ?]|[E _]]; [lia|].
  unfold HasPrefix. rewrite E. apply bool_decide_true. by eexists.
Qed.

Lemma base32_encode_length bs : length (base32_encode bs) = ((8 * length bs + 4) / 5)%nat.
Proof.
  induction bs as [bs Hl|b0 b1 b2 b3 b4 bs IH] using groups_ind.
  - destruct bs as [|b0 [|b1 [|b2 [|b3 [|b4 bs]]]]]; [done|..|cbn in Hl; lia];
      unfold base32_encode, encode_group; by rewrite length_take, length_digits_of.
  - cbn [base32_encode]. rewrite length_app, IH. unfold encode_group at 1.
    rewrite length_take, length_digits_of. cbn [length group_digits].
    replace (8 * S (S (S (S (S (length bs))))) + 4)%nat with (8 * length bs + 4 + 8 * 5)%nat by lia.
    rewrite Nat.div_add by lia. change (8 `min` 8)%nat with 8%nat. lia.
Qed.

Lemma base32_name_short name : (length (base32_name name) < 200)%nat ↔ slen name <= 124.
Proof.
  unfold base32_name, slen. rewrite length_fmap, base32_encode_length. unfold char_codes. rewrite length_fmap.
  set (n := length (bytes_of name)). pose proof (Nat.div_mod_eq (8 * n + 4) 5).
  pose proof (Nat.mod_upper_bound (8 * n + 4) 5). lia.
Qed.

Lemma entityName_encoded name : entityName (encodeName name +:+ ".json") name = Some name.
Proof.
  unfold entityName. rewrite TrimSuffix_app. cbv zeta.
  destruct (decodeName (encodeName name)) eqn:E.
  - rewrite decode_encodeName in E. by case_decide.
  - by rewrite (encodeName_hashed name E), bool_decide_true.
Qed.

Lemma vhostName_encoded name : vhostName (encodeName name) (Some name) = Some name.
Proof.
  unfold vhostName. destruct (decodeName (encodeName name)) eqn:E; [|by rewrite decide_True].
  rewrite decode_encodeName in E. by case_decide.
Qed.

Lemma lower_digit_inj d d' : 0 <= d < 32 → 0 <= d' < 32 → lower_digit d = lower_digit d' → d = d'.
Proof. unfold lower_digit, digit_char. intros. repeat case_decide; lia. Qed.

Lemma hex_encode_inj bs bs' : Forall is_byte bs → Forall is_byte bs' → hex_encode bs = hex_encode bs' → bs = bs'.
Proof.
  intros Hbs. revert bs'. induction Hbs as [|b bs Hb Hbs IH]; intros [|b' bs'] Hbs'; unfold hex_encode; cbn;
    try done. apply Forall_cons in Hbs' as [Hb' Hbs']. intros [= E1 E2 E]. unfold is_byte in *.
  f_equal; [|by apply IH].
  pose proof (Z.mod_pos_bound b 16 ltac:(lia)). pose proof (Z.mod_pos_bound b' 16 ltac:(lia)).
  assert (∀ c, 0 <= c < 256 → 0 <= c / 16 < 16) as Hdiv
    by (intros; split; [apply Z.div_pos; lia|apply Z.div_lt_upper_bound; lia]).
  pose proof (Hdiv b Hb). pose proof (Hdiv b' Hb').
  apply lower_digit_inj in E1; [|lia..]. apply lower_digit_inj in E2; [|lia..].
  rewrite (Z.div_mod b 16), (Z.div_mod b' 16) by lia. congruence.
Qed.

Lemma encodeName_inj name name' : encodeName name = encodeName name' →
  (sha256 (char_codes name) = sha256 (char_codes name') → name = name') → name = name'.
Proof.
  intros E Hsha. destruct (decodeName (encodeName name)) as [n|] eqn:Ed.
  - pose proof Ed as Ed'. rewrite E in Ed'. rewrite decode_encodeName in Ed, Ed'.
    repeat case_decide; congruence.
  - pose proof Ed as Ed'. rewrite E in Ed'. rewrite decode_encodeName in Ed, Ed'.
    apply (f_equal char_codes) in E.
    destruct (encodeName_chars name) as [[_ ?]|[E1 _]]; [by rewrite decide_True in Ed|].
    destruct (encodeName_chars name') as [[_ ?]|[E' _]]; [by rewrite decide_True in Ed'|].
    rewrite E1, E' in E. apply Hsha. apply (inj (cons 104)) in E.
    by apply hex_encode_inj in E; [|apply sha256_bytes..].
Qed.

End names.

(** A digest for concrete examples: the length of the name, then zeros. *)
Definition sample_digest (bs : list Z) : list Z := Z.of_nat (length bs) mod 256 :: replicate 31 0.

Definition sample_sha256 : Sha256.
Proof.
  refine {| sha256 := sample_digest |}.
  - intros bs. unfold sample_digest. by rewrite length_cons, length_replicate.
  - intros bs. unfold sample_digest. constructor; [by apply Z.mod_pos_bound|].
    by apply Forall_replicate.
Defined.

Example encoded_names :
  encodeName (H := sample_sha256) "orders" = "ndtp68pbiec" ∧
  encodeName (H := sample_sha256) "../../etc" = "n5on2ubhe5tin8oo" ∧
  decodeName "ndtp68pbiec" = Some "orders" ∧ decodeName "n" = Some "" ∧ decodeName "nw0" = None ∧
  (** [Decode] ignores the bits and the digits that make no byte. *)
  decodeName "ndtp68pbied" = Some "orders" ∧ decodeName "n0" = Some "".
Proof. by vm_compute. Qed.

