(* ===== verification/Atomic.v ===== *)
(** * Replacing a file: pkg/persistence/implementations/json/atomic.go

    The files of one directory, as the program sees them and as a crash may
    leave them: a change of the directory is durable once the directory is
    synced, the bytes of a file once the file is.  Each system call may fail.
    [tmpPath] and [atomicWriteFile] are about the entries of one directory, so a
    path is the name of an entry. *)

From stdpp Require Import base list gmap strings.
From Stdlib Require Import ZArith Lia.
From S2P Require Import Prelude Bytes Paths.

Local Open Scope string_scope.
Local Open Scope list_scope.

(** ** The directory *)

Record inode : Type := MkInode { i_data : list Byte.byte; i_synced : bool }.

(** [fs_past] holds the earlier states of the directory that may still be what
    is on the disk. *)
Record fs : Type := MkFs {
  fs_now : gmap string nat;
  fs_past : list (gmap string nat);
  fs_inodes : gmap nat inode;
}.

Definition states (s : fs) : list (gmap string nat) := fs_now s :: fs_past s.

Definition read_file (s : fs) (path : string) : option (list Byte.byte) :=
  i ← fs_now s !! path; i_data <$> fs_inodes s !! i.

(** What [path] may hold after a crash: what one of the possible states of the
    directory says, with any bytes for a file that was not synced. *)
Definition crash_content (s : fs) (path : string) (content : option (list Byte.byte)) : Prop :=
  ∃ d, d ∈ states s ∧
    match d !! path with
    | None => content = None
    | Some i => ∃ node b, fs_inodes s !! i = Some node ∧ content = Some b ∧
        (i_synced node = true → b = i_data node)
    end.

(** ** System calls *)

Definition set_inode (i : nat) (node : inode) (s : fs) : fs :=
  MkFs (fs_now s) (fs_past s) (<[i := node]> (fs_inodes s)).
Definition set_dir (d : gmap string nat) (s : fs) : fs :=
  MkFs d (fs_now s :: fs_past s) (fs_inodes s).

(** [os.OpenFile] with O_CREATE and O_TRUNC. *)
Definition open_truncated (path : string) (s : fs) : nat * fs :=
  match fs_now s !! path with
  | Some i => (i, set_inode i (MkInode [] false) s)
  | None =>
      let i := fresh (dom (fs_inodes s)) in
      (i, set_dir (<[path := i]> (fs_now s)) (set_inode i (MkInode [] false) s))
  end.

Definition write_inode (i : nat) (b : list Byte.byte) (s : fs) : fs := set_inode i (MkInode b false) s.
Definition sync_inode (i : nat) (s : fs) : fs :=
  MkFs (fs_now s) (fs_past s) (alter (λ node, MkInode (i_data node) true) i (fs_inodes s)).
Definition rename (old new : string) (s : fs) : fs :=
  match fs_now s !! old with
  | Some i => set_dir (<[new := i]> (delete old (fs_now s))) s
  | None => s
  end.
Definition remove (path : string) (s : fs) : fs := set_dir (delete path (fs_now s)) s.
Definition sync_dir (s : fs) : fs := MkFs (fs_now s) [] (fs_inodes s).

(** ** A program that makes system calls

    The states it goes through, the one it ends in, and whether it succeeds. *)

Definition io : Type := fs → list fs * (fs * bool).

Definition finish (ok : bool) : io := λ s, ([], (s, ok)).

Definition then_do (f : fs → fs) (k : io) : io := λ s,
  let '(trace, r) := k (f s) in (f s :: trace, r).

(** ** atomic.go *)

Definition tmpSuffix : string := ".tmp".
Definition maxFileNameLen : Z := 255.

Section atomic.
Context `{Sha256}.

Definition tmpPath (dir path : string) : string :=
  if decide (slen path + slen tmpSuffix <= maxFileNameLen)%Z then path +:+ tmpSuffix
  else of_char_codes (hex_encode (take 16 (sha256 (char_codes (dir +:+ "/" +:+ path))))) +:+ tmpSuffix.

(** Which calls succeed; [o_written] is how much a failing write writes. *)
Record outcomes : Type := MkOutcomes {
  o_open : bool;
  o_write : bool;
  o_written : nat;
  o_sync : bool;
  o_close : bool;
  o_rename : bool;
  o_remove : bool;
  o_syncDir : bool;
}.

(** [os.Remove(tmp)], its error ignored, and the error that led to it. *)
Definition give_up_on (o : outcomes) (tmp : string) : io :=
  if o_remove o then then_do (remove tmp) (finish false) else finish false.

(** Nothing is synced on Windows. *)
Definition syncDir (windows : bool) (o : outcomes) : io :=
  if windows then finish true
  else if o_syncDir o then then_do sync_dir (finish true) else finish false.

Definition atomicWriteFile (windows : bool) (o : outcomes) (dir path : string)
    (data : list Byte.byte) : io := λ s,
  let tmp := tmpPath dir path in
  if negb (o_open o) then finish false s else
  let f := (open_truncated tmp s).1 in
  then_do (λ s, (open_truncated tmp s).2) (
  if negb (o_write o)
  then then_do (write_inode f (take (o_written o) data)) (give_up_on o tmp) else
  then_do (write_inode f data) (
  if negb (o_sync o) then give_up_on o tmp else
  then_do (sync_inode f) (
  if negb (o_close o) then give_up_on o tmp else
  if negb (o_rename o) then give_up_on o tmp else
  then_do (rename tmp path) (syncDir windows o)))) s.

(** [removeStrayTempFiles] on the entries of a queue or exchange directory. *)
Definition removeStrayTempFiles {A} (entries : gmap string A) : gmap string A :=
  filter (λ kv, HasSuffix tmpSuffix kv.1 = false) entries.
End atomic.

(** ** Invariants *)

(** Every entry has a file, and the file of a temporary name has no other name. *)
Record wf_fs (s : fs) : Prop := {
  entries_exist : ∀ d p i, d ∈ states s → d !! p = Some i → is_Some (fs_inodes s !! i);
  temp_private : ∀ t i d p, HasSuffix tmpSuffix t = true → fs_now s !! t = Some i →
    d ∈ states s → d !! p = Some i → p = t;
}.

Section proofs.
Context (tmp : string) (i : nat) (s0 : fs).

(** A directory that differs from a possible one only in the temporary name. *)
Definition derived (d : gmap string nat) : Prop :=
  ∃ d0, d0 ∈ states s0 ∧ (∀ p, p ≠ tmp → d !! p = d0 !! p) ∧
    (d !! tmp = d0 !! tmp ∨ d !! tmp = Some i ∨ d !! tmp = None).

(** While the temporary file, [i], is written. *)
Record preparing (s : fs) : Prop := {
  prep_now : ∀ p, p ≠ tmp → fs_now s !! p = fs_now s0 !! p;
  prep_tmp : fs_now s !! tmp = Some i ∨ fs_now s !! tmp = None;
  prep_past : ∀ d, d ∈ fs_past s → derived d;
  prep_inodes : ∀ j, j ≠ i → fs_inodes s !! j = fs_inodes s0 !! j;
  prep_file : is_Some (fs_inodes s !! i);
  prep_private : ∀ d p, d ∈ states s0 → d !! p = Some i → p = tmp;
}.

(** Once it has been renamed to [path]. *)
Record renamed (path : string) (data : list Byte.byte) (s : fs) : Prop := {
  ren_path : fs_now s !! path = Some i;
  ren_now : ∀ p, p ≠ tmp → p ≠ path → fs_now s !! p = fs_now s0 !! p;
  ren_tmp : fs_now s !! tmp = None;
  ren_past : ∀ d, d ∈ fs_past s → derived d;
  ren_inodes : ∀ j, j ≠ i → fs_inodes s !! j = fs_inodes s0 !! j;
  ren_file : fs_inodes s !! i = Some (MkInode data true);
  ren_private : ∀ d p, d ∈ states s0 → d !! p = Some i → p = tmp;
}.

Lemma preparing_derived s d : preparing s → d ∈ states s → derived d.
Proof.
  intros Hp [->|Hd]%elem_of_cons; [|by apply (prep_past s)].
  exists (fs_now s0). split; [by left|]. split; [apply (prep_now s Hp)|]. right. apply (prep_tmp s Hp).
Qed.

(** What a derived directory says of another name, [s0] may hold as well. *)
Lemma derived_crash s d p c :
  (∀ j, j ≠ i → fs_inodes s !! j = fs_inodes s0 !! j) →
  (∀ d p, d ∈ states s0 → d !! p = Some i → p = tmp) → derived d → p ≠ tmp →
  match d !! p with
  | None => c = None
  | Some j => ∃ node b, fs_inodes s !! j = Some node ∧ c = Some b ∧ (i_synced node = true → b = i_data node)
  end → crash_content s0 p c.
Proof.
  intros Hi Hpriv (d0 & Hd0 & Hsame & _) Hp Hc. exists d0. split; [done|].
  rewrite Hsame in Hc by done. destruct (d0 !! p) as [j|] eqn:E; [|done].
  rewrite Hi in Hc; [done|]. intros ->. by apply Hp, (Hpriv d0).
Qed.

Lemma preparing_crash s p c : preparing s → p ≠ tmp → crash_content s p c → crash_content s0 p c.
Proof.
  intros Hs Hp (d & Hd & Hc).
  by apply (derived_crash s d p c (prep_inodes s Hs) (prep_private s Hs) (preparing_derived s d Hs Hd)).
Qed.

Lemma preparing_read s p : preparing s → p ≠ tmp → read_file s p = read_file s0 p.
Proof.
  intros Hs Hp. unfold read_file. rewrite (prep_now s Hs) by done.
  destruct (fs_now s0 !! p) as [j|] eqn:E; [cbn|done]. rewrite (prep_inodes s Hs); [done|].
  intros ->. by apply Hp, (prep_private s Hs (fs_now s0)); [left|].
Qed.

Lemma renamed_crash path data s p c :
  renamed path data s → p ≠ tmp → crash_content s p c →
  crash_content s0 p c ∨ p = path ∧ c = Some data.
Proof.
  intros Hs Hp (d & [->|Hd]%elem_of_cons & Hc).
  - destruct (decide (p = path)) as [->|Hne]; [right|left].
    + rewrite (ren_path _ _ s Hs) in Hc. destruct Hc as (node & b & Hn & -> & Hb).
      rewrite (ren_file _ _ s Hs) in Hn. injection Hn as <-. by rewrite Hb.
    + exists (fs_now s0). split; [by left|]. rewrite (ren_now _ _ s Hs) in Hc by done.
      destruct (fs_now s0 !! p) as [j|] eqn:E; [|done]. rewrite (ren_inodes _ _ s Hs) in Hc; [done|].
      intros ->. by apply Hp, (ren_private _ _ s Hs (fs_now s0)); [left|].
  - left. apply (derived_crash s d p c (ren_inodes _ _ s Hs) (ren_private _ _ s Hs)); [|done..].
    by apply (ren_past _ _ s Hs).
Qed.

Lemma renamed_read path data s p : renamed path data s → p ≠ tmp →
  read_file s p = if decide (p = path) then Some data else read_file s0 p.
Proof.
  intros Hs Hp. unfold read_file. case_decide as Hpath; [subst|].
  - rewrite (ren_path _ _ s Hs). cbn. by rewrite (ren_file _ _ s Hs).
  - rewrite (ren_now _ _ s Hs) by done. destruct (fs_now s0 !! p) as [j|] eqn:E; [cbn|done].
    rewrite (ren_inodes _ _ s Hs); [done|]. intros ->.
    by apply Hp, (ren_private _ _ s Hs (fs_now s0)); [left|].
Qed.
End proofs.

(** ** Steps *)

Section steps.
Context `{Sha256}.
Context (tmp : string) (s0 : fs).
Hypothesis Hwf : wf_fs s0.
Hypothesis Htmp : HasSuffix tmpSuffix tmp = true.

Lemma derived_past i d : d ∈ states s0 → derived tmp i s0 d.
Proof. intros Hd. exists d. split; [done|]. split; [done|]. by left. Qed.

Lemma open_preparing :
  let '(i, s) := open_truncated tmp s0 in preparing tmp i s0 s ∧ fs_now s !! tmp = Some i.
Proof.
  unfold open_truncated. destruct (fs_now s0 !! tmp) as [i|] eqn:E.
  - split; [|done]. split; cbn.
    + done.
    + by left.
    + intros d Hd. apply derived_past. by right.
    + intros j Hj. by rewrite lookup_insert_ne.
    + rewrite lookup_insert_eq. by eexists.
    + intros d p Hd Hp. by apply (temp_private s0 Hwf tmp i d p).
  - set (i := fresh (dom (fs_inodes s0))).
    assert (fs_inodes s0 !! i = None) as Hi by (apply not_elem_of_dom, is_fresh).
    cbn. split; [|by rewrite lookup_insert_eq]. split; cbn.
    + intros p Hp. by rewrite lookup_insert_ne.
    + left. by rewrite lookup_insert_eq.
    + intros d Hd. apply derived_past. exact Hd.
    + intros j Hj. by rewrite lookup_insert_ne.
    + rewrite lookup_insert_eq. by eexists.
    + intros d p Hd Hp. destruct (entries_exist s0 Hwf d p i Hd Hp). congruence.
Qed.

Lemma set_inode_preparing i node s :
  preparing tmp i s0 s → preparing tmp i s0 (set_inode i node s).
Proof.
  intros [????? Hpriv]. split; cbn; try done.
  - intros j Hj. rewrite lookup_insert_ne by done. auto.
  - rewrite lookup_insert_eq. by eexists.
Qed.

Lemma sync_inode_preparing i s : preparing tmp i s0 s → preparing tmp i s0 (sync_inode i s).
Proof.
  intros [???? Hfile Hpriv]. split; cbn; try done.
  - intros j Hj. rewrite lookup_alter_ne by done. auto.
  - rewrite lookup_alter_eq. destruct Hfile as [node ->]. by eexists.
Qed.

Lemma remove_preparing i s : preparing tmp i s0 s → preparing tmp i s0 (remove tmp s).
Proof.
  intros Hs. pose proof Hs as [Hnow ?????]. split; cbn; try done.
  - intros p Hp. rewrite lookup_delete_ne by done. auto.
  - right. by rewrite lookup_delete_eq.
  - intros d Hd. by apply (preparing_derived tmp i s0 s).
Qed.

Lemma rename_renamed i path data s : path ≠ tmp → preparing tmp i s0 s →
  fs_now s !! tmp = Some i → fs_inodes s !! i = Some (MkInode data true) →
  renamed tmp i s0 path data (rename tmp path s).
Proof.
  intros Hpath Hs Hi Hdata. pose proof Hs as [Hnow ?????]. unfold rename. rewrite Hi. split; cbn.
  - by rewrite lookup_insert_eq.
  - intros p Hp Hne. rewrite lookup_insert_ne, lookup_delete_ne by done. auto.
  - rewrite lookup_insert_ne by done. by rewrite lookup_delete_eq.
  - intros d Hd. by apply (preparing_derived tmp i s0 s).
  - done.
  - done.
  - done.
Qed.

Lemma sync_dir_renamed i path data s :
  renamed tmp i s0 path data s → renamed tmp i s0 path data (sync_dir s).
Proof. intros [????? ? ?]. split; cbn; try done. by intros d ?%elem_of_nil. Qed.

(** ** The invariant is kept *)

(** [d] is one of the directories of a state the write goes through. *)
Lemma derived_private i t j d p :
  (∀ d p, d ∈ states s0 → d !! p = Some i → p = tmp) →
  HasSuffix tmpSuffix t = true → t ≠ tmp → fs_now s0 !! t = Some j →
  derived tmp i s0 d → d !! p = Some j → p = t.
Proof.
  intros Hpriv Ht Hne Hj (d0 & Hd0 & Hsame & Hd) Hp.
  assert (j ≠ i) by (intros ->; apply Hne, (Hpriv (fs_now s0)); [by left|done]).
  destruct (decide (p = tmp)) as [->|Hp'].
  - destruct Hd as [E|[E|E]]; [|congruence..]. rewrite E in Hp.
    by destruct Hne; rewrite (temp_private s0 Hwf t j d0 tmp).
  - rewrite Hsame in Hp by done. by apply (temp_private s0 Hwf t j d0).
Qed.

Lemma derived_exist i d p j s :
  (∀ j, j ≠ i → fs_inodes s !! j = fs_inodes s0 !! j) → is_Some (fs_inodes s !! i) →
  derived tmp i s0 d → d !! p = Some j → is_Some (fs_inodes s !! j).
Proof.
  intros Hi Hfile (d0 & Hd0 & Hsame & Hd) Hp. destruct (decide (j = i)) as [->|Hj]; [done|].
  rewrite Hi by done. apply (entries_exist s0 Hwf d0 p); [done|].
  destruct (decide (p = tmp)) as [->|Hp']; [|by rewrite <-Hsame].
  destruct Hd as [E|[E|E]]; congruence.
Qed.

Lemma preparing_wf i s : preparing tmp i s0 s → wf_fs s.
Proof.
  intros Hs. split.
  - intros d p j Hd. apply (derived_exist i d); [apply Hs..|]. by apply (preparing_derived tmp i s0 s).
  - intros t j d p Ht Hj Hd Hp. pose proof (preparing_derived tmp i s0 s d Hs Hd) as Hder.
    destruct (decide (t = tmp)) as [->|Hne].
    + destruct (prep_tmp _ _ _ _ Hs) as [E|E]; [|congruence]. assert (j = i) as -> by congruence.
      destruct (decide (p = tmp)) as [|Hp']; [done|]. destruct Hder as (d0 & Hd0 & Hsame & _).
      rewrite Hsame in Hp by done. by apply (prep_private _ _ _ _ Hs d0).
    + rewrite (prep_now _ _ _ _ Hs) in Hj by done.
      by apply (derived_private i t j d p (prep_private _ _ _ _ Hs)).
Qed.

Lemma renamed_wf i path data s :
  HasSuffix tmpSuffix path = false → renamed tmp i s0 path data s → wf_fs s.
Proof.
  intros Hpath Hs. assert (is_Some (fs_inodes s !! i)) as Hfile by (rewrite (ren_file _ _ _ _ _ _ Hs); by eexists).
  assert (path ≠ tmp) as Hne by congruence.
  assert (∀ p j, p ≠ path → fs_now s !! p = Some j → p ≠ tmp ∧ fs_now s0 !! p = Some j) as Hback.
  { intros p j Hp E. assert (p ≠ tmp) by (intros ->; rewrite (ren_tmp _ _ _ _ _ _ Hs) in E; done).
    by rewrite (ren_now _ _ _ _ _ _ Hs) in E. }
  split.
  - intros d p j [->|Hd]%elem_of_cons Hp.
    + destruct (decide (p = path)) as [->|Hp']; [rewrite (ren_path _ _ _ _ _ _ Hs) in Hp; congruence|].
      destruct (Hback p j Hp' Hp) as [_ E].
      apply (derived_exist i (fs_now s0) p j s); [apply Hs|done| |done]. apply derived_past. by left.
    + apply (derived_exist i d p j s); [apply Hs|done| |done]. by apply (ren_past _ _ _ _ _ _ Hs).
  - intros t j d p Ht Hj Hd Hp. destruct (Hback t j) as [Htt E]; [congruence|done|].
    apply elem_of_cons in Hd as [->|Hd].
    + destruct (decide (p = path)) as [->|Hp'].
      * rewrite (ren_path _ _ _ _ _ _ Hs) in Hp. assert (j = i) as -> by congruence.
        destruct Htt. apply (ren_private _ _ _ _ _ _ Hs (fs_now s0)); [by left|done].
      * destruct (Hback p j Hp' Hp) as [_ E']. apply (temp_private s0 Hwf t j (fs_now s0)); [done..|by left|done].
    + apply (derived_private i t j d p (ren_private _ _ _ _ _ _ Hs)); [done..| |done].
      by apply (ren_past _ _ _ _ _ _ Hs).
Qed.
End steps.

(** ** Every state of a write *)

Section writes.
Context `{Sha256}.
Context (tmp path : string) (i : nat) (data : list Byte.byte) (s0 : fs).

Definition writing (s : fs) : Prop := preparing tmp i s0 s ∨ renamed tmp i s0 path data s.

(** How a write ends: it gave up, or the file has its new name. *)
Definition ended (windows : bool) (r : fs * bool) : Prop :=
  let '(s, ok) := r in
  preparing tmp i s0 s ∧ ok = false ∨
  renamed tmp i s0 path data s ∧ (ok = true → windows = false → fs_past s = []).

Definition good_run (windows : bool) (s : fs) (r : list fs * (fs * bool)) : Prop :=
  let '(trace, (s', ok)) := r in
  Forall writing trace ∧ ended windows (s', ok) ∧ last (s :: trace) = Some s'.

Lemma good_step windows f k s : writing (f s) → good_run windows (f s) (k (f s)) →
  good_run windows s (then_do f k s).
Proof.
  unfold then_do, good_run. destruct (k (f s)) as [trace [s' ok]]. intros Hf (Ht & He & Hl).
  split; [by constructor|]. split; [done|]. by rewrite last_cons_cons.
Qed.

Lemma good_finish windows ok s : ended windows (s, ok) → good_run windows s (finish ok s).
Proof. by split. Qed.

Lemma good_give_up windows o s : preparing tmp i s0 s → good_run windows s (give_up_on o tmp s).
Proof.
  intros Hs. unfold give_up_on. destruct (o_remove o); [|apply good_finish; by left].
  pose proof (remove_preparing tmp s0 i s Hs). apply good_step; [by left|]. apply good_finish. by left.
Qed.

Lemma good_syncDir windows o s :
  renamed tmp i s0 path data s → good_run windows s (syncDir windows o s).
Proof.
  intros Hs. unfold syncDir. destruct windows; [apply good_finish; by right|].
  destruct (o_syncDir o); [|apply good_finish; by right].
  pose proof (sync_dir_renamed tmp s0 i path data s Hs).
  apply good_step; [by right|]. apply good_finish. by right.
Qed.
End writes.

Section atomic_writes.
Context `{Sha256}.

Lemma atomicWriteFile_run windows o dir path data s :
  wf_fs s → HasSuffix tmpSuffix (tmpPath dir path) = true → path ≠ tmpPath dir path →
  o_open o = true → ∃ i,
  good_run (tmpPath dir path) path i data s windows s (atomicWriteFile windows o dir path data s).
Proof.
  intros Hwf Hsuf Hpath Hopen. set (tmp := tmpPath dir path) in *.
  pose proof (open_preparing tmp s Hwf Hsuf) as Ho.
  unfold atomicWriteFile. fold tmp. rewrite Hopen. cbn [negb].
  destruct (open_truncated tmp s) as [i s1] eqn:E1. destruct Ho as [Hs1 Hi]. exists i.
  cbn [fst]. apply good_step; rewrite E1; cbn [snd]; [by left|].
  pose proof (set_inode_preparing tmp s i (MkInode (take (o_written o) data) false) s1 Hs1) as Hs2.
  destruct (o_write o); cbn [negb]; [clear Hs2|apply good_step; [by left|by apply good_give_up]].
  pose proof (set_inode_preparing tmp s i (MkInode data false) s1 Hs1) as Hs2.
  apply good_step; [by left|].
  destruct (o_sync o); cbn [negb]; [|by apply good_give_up].
  pose proof (sync_inode_preparing tmp s i _ Hs2) as Hs3.
  apply good_step; [by left|].
  destruct (o_close o); cbn [negb]; [|by apply good_give_up].
  destruct (o_rename o); cbn [negb]; [|by apply good_give_up].
  assert (renamed tmp i s path data (rename tmp path (sync_inode i (write_inode i data s1)))) as Hs4.
  { apply rename_renamed; [done..| |].
    - exact Hi.
    - cbn. rewrite lookup_alter_eq. unfold write_inode. cbn. by rewrite lookup_insert_eq. }
  apply good_step; [by right|by apply good_syncDir].
Qed.

Lemma atomicWriteFile_ok windows o dir path data s :
  (atomicWriteFile windows o dir path data s).2.2 =
  o_open o && o_write o && o_sync o && o_close o && o_rename o && (windows || o_syncDir o).
Proof.
  unfold atomicWriteFile, syncDir, give_up_on, then_do, finish.
  destruct o as [[] [] n [] [] [] [] []], windows; reflexivity.
Qed.

Lemma HasSuffix_app s suffix : HasSuffix suffix (s +:+ suffix) = true.
Proof. unfold HasSuffix. rewrite CutSuffix_app. by apply bool_decide_true. Qed.

Lemma tmpPath_suffix dir path : HasSuffix tmpSuffix (tmpPath dir path) = true.
Proof. unfold tmpPath. case_decide; apply HasSuffix_app. Qed.

(** C8. Replacing a file is atomic.  Whatever system calls fail, a crash at any
    point of [atomicWriteFile] leaves under the path what a crash before it could
    have left there, or the new bytes in full, and under every other name but the
    temporary one what was there.  When it reports success the path reads as the
    new bytes, and no crash afterwards brings the old ones back; when it reports
    an error the path reads as the old content or the new.  It succeeds exactly
    when each call it makes does, and leaves the directory fit for the next one. *)
Theorem atomic_write_is_atomic (windows : bool) (o : outcomes) (dir path : string)
    (data : list Byte.byte) (s : fs) :
  wf_fs s → HasSuffix tmpSuffix path = false →
  let '(trace, (s', ok)) := atomicWriteFile windows o dir path data s in
  last (s :: trace) = Some s' ∧
  (∀ s1 content, s1 ∈ trace → crash_content s1 path content →
    crash_content s path content ∨ content = Some data) ∧
  (∀ s1 other content, s1 ∈ trace → other ≠ path → other ≠ tmpPath dir path →
    crash_content s1 other content → crash_content s other content) ∧
  ok = o_open o && o_write o && o_sync o && o_close o && o_rename o && (windows || o_syncDir o) ∧
  (if ok
   then read_file s' path = Some data ∧
        (windows = false → ∀ content, crash_content s' path content → content = Some data)
   else read_file s' path = read_file s path ∨ read_file s' path = Some data) ∧
  (∀ other, other ≠ path → other ≠ tmpPath dir path → read_file s' other = read_file s other) ∧
  wf_fs s'.
Proof.
  intros Hwf Hpath. pose proof (tmpPath_suffix dir path) as Hsuf.
  assert (path ≠ tmpPath dir path) as Hne by congruence.
  pose proof (atomicWriteFile_ok windows o dir path data s) as Hok.
  pose proof (atomicWriteFile_run windows o dir path data s Hwf Hsuf Hne) as Hrun.
  destruct (atomicWriteFile windows o dir path data s) as [trace [s' ok]] eqn:E. cbn in Hok.
  destruct (o_open o) eqn:Ho; cycle 1.
  { unfold atomicWriteFile in E. rewrite Ho in E. injection E as <- <- <-.
    split; [done|]. split; [by intros ? ? ?%elem_of_nil|]. split; [by intros ? ? ? ?%elem_of_nil|].
    split; [done|]. split; [by left|]. done. }
  destruct (Hrun eq_refl) as (i & Ht & He & Hl). rewrite Forall_forall in Ht.
  split; [done|]. split; [|split; [|split; [done|]]].
  - intros s1 c Hs1 Hc. destruct (Ht s1 Hs1) as [Hp|Hr].
    + left. by apply (preparing_crash (tmpPath dir path) i s s1).
    + destruct (renamed_crash (tmpPath dir path) i s path data s1 path c Hr) as [|[_ ?]]; auto.
  - intros s1 other c Hs1 Hother Htmp Hc. destruct (Ht s1 Hs1) as [Hp|Hr].
    + by apply (preparing_crash (tmpPath dir path) i s s1).
    + destruct (renamed_crash (tmpPath dir path) i s path data s1 other c Hr) as [|[? _]]; done || auto.
  - destruct He as [[Hp ->]|[Hr Hsync]].
    + split; [left; by apply (preparing_read (tmpPath dir path) i)|].
      split; [intros; by apply (preparing_read (tmpPath dir path) i)|]. by apply (preparing_wf (tmpPath dir path) s Hwf i).
    + split; [|split; [|by apply (renamed_wf (tmpPath dir path) s Hwf Hsuf i path data)]].
      * assert (read_file s' path = Some data) as Hread
          by (rewrite (renamed_read (tmpPath dir path) i s path data s' path Hr) by done; by rewrite decide_True).
        destruct ok; [|by right]. split; [done|]. intros Hw c (d & Hd & Hc).
        unfold states in Hd. rewrite Hsync in Hd by done.
        apply list_elem_of_singleton in Hd as ->. rewrite (ren_path _ _ _ _ _ _ Hr) in Hc.
        destruct Hc as (node & b & Hn & -> & Hb). rewrite (ren_file _ _ _ _ _ _ Hr) in Hn.
        injection Hn as <-. by rewrite Hb.
      * intros other Hp Htmp. rewrite (renamed_read (tmpPath dir path) i s path data s' other Hr) by done.
        by rewrite decide_False.
Qed.
End atomic_writes.

(** ** A write that loses power before its rename *)

Definition sample_dir : fs :=
  MkFs {[ "a.json" := 0%nat; "b.json.tmp" := 1%nat ]} []
    {[ 0%nat := MkInode (bytes_of "old") true; 1%nat := MkInode (bytes_of "stray") false ]}.

Lemma sample_dir_wf : wf_fs sample_dir.
Proof.
  assert (∀ p i, fs_now sample_dir !! p = Some i → p = "a.json" ∧ i = 0%nat ∨ p = "b.json.tmp" ∧ i = 1%nat) as Hall.
  { intros p i. unfold sample_dir. cbn [fs_now]. rewrite lookup_insert_Some, lookup_singleton_Some. naive_solver. }
  split.
  - intros d p i Hd. apply list_elem_of_singleton in Hd as ->.
    intros [[_ ->]|[_ ->]]%Hall; by eexists.
  - intros t i d p Ht Hi Hd Hp. apply list_elem_of_singleton in Hd as ->.
    apply Hall in Hi as [[-> ->]|[-> ->]], Hp as [[-> Hi]|[-> Hi]]; done.
Qed.

Definition all_succeed : outcomes := MkOutcomes true true 0 true true true true true.

Lemma atomic_write_is_atomic_witness :
  wf_fs sample_dir ∧ HasSuffix tmpSuffix "a.json" = false ∧
  ∀ s1 content,
    s1 ∈ (atomicWriteFile (H := sample_sha256) false all_succeed "queues" "a.json" (bytes_of "new") sample_dir).1 →
    crash_content s1 "a.json" content →
    crash_content sample_dir "a.json" content ∨ content = Some (bytes_of "new").
Proof.
  split; [exact sample_dir_wf|]. split; [by vm_compute|].
  pose proof (atomic_write_is_atomic (H := sample_sha256) false all_succeed "queues" "a.json" (bytes_of "new")
    sample_dir sample_dir_wf ltac:(by vm_compute)) as Ht.
  destruct (atomicWriteFile false all_succeed "queues" "a.json" (bytes_of "new") sample_dir) as [trace [s' ok]].
  exact (proj1 (proj2 Ht)).
Defined.

(** Startup cleanup leaves the files proper and drops the temporary ones. *)
Lemma stray_files_removed {A} (entries : gmap string A) (name : string) :
  removeStrayTempFiles entries !! name =
  (if HasSuffix tmpSuffix name then None else entries !! name).
Proof.
  unfold removeStrayTempFiles. destruct (HasSuffix tmpSuffix name) eqn:E.
  - apply map_lookup_filter_None. right. intros x _. cbn. congruence.
  - destruct (entries !! name) as [x|] eqn:Ex.
    + by apply map_lookup_filter_Some.
    + apply map_lookup_filter_None. by left.
Qed.
