(* ===== verification/RateTracker.v ===== *)
(** * Rates: pkg/metrics/rate_tracker.go

    A rate tracker keeps the last samples of a counter, at most [rt_maxSamples]
    of them and none older than [rt_windowSize] before the last.  A time is in
    nanoseconds, and the clock an argument.  A float64 is Go's, from its bits: a
    [spec_float] with 53 bits of mantissa. *)

From stdpp Require Import base list sorting.
From Stdlib Require Import ZArith Lia SpecFloat.
From S2P Require Import Prelude.

Local Open Scope Z_scope.
Local Open Scope list_scope.

(** ** float64 *)

Definition float64 : Type := spec_float.
Definition float_of (n : Z) : float64 := binary_normalize 53 1024 n 0 false.
Definition zero : float64 := S754_zero false.

(** [time.Time.Sub] saturates. *)
Definition Sub (t u : Z) : Z := Z.max (- 2 ^ 63) (Z.min (2 ^ 63 - 1) (t - u)).

(** [time.Duration.Seconds]. *)
Definition Seconds (d : Z) : float64 :=
  SFadd 53 1024 (float_of (Z.quot d 1000000000))
    (SFdiv 53 1024 (float_of (Z.rem d 1000000000)) (float_of 1000000000)).

(** ** The tracker *)

Record Sample : Type := MkSample { s_Count : Z; s_Timestamp : Z }.

Record RateTracker : Type := MkRateTracker {
  rt_samples : list Sample;
  rt_windowSize : Z;
  rt_maxSamples : Z;
}.

Definition set_samples (samples : list Sample) (rt : RateTracker) : RateTracker :=
  MkRateTracker samples (rt_windowSize rt) (rt_maxSamples rt).

(** Go panics when the capacity [maxSamples] is negative. *)
Definition NewRateTracker (windowSize maxSamples : Z) : RateTracker := MkRateTracker [] windowSize maxSamples.

(** Drops what comes before the first sample in the window. *)
Definition prune (cutoff : Z) (samples : list Sample) : list Sample :=
  match list_find (λ s, cutoff < s_Timestamp s) samples with
  | Some (validIdx, _) => drop validIdx samples
  | None => samples
  end.

(** The last [n] elements. *)
Definition lastn {A} (n : nat) (l : list A) : list A := drop (length l - n) l.

Definition cap (maxSamples : Z) (samples : list Sample) : list Sample :=
  if decide (maxSamples < Z.of_nat (length samples)) then lastn (Z.to_nat maxSamples) samples else samples.

Definition Record_sample (now totalCount : Z) (rt : RateTracker) : RateTracker :=
  let samples := rt_samples rt ++ [MkSample totalCount now] in
  let cutoff := now - rt_windowSize rt in
  set_samples (cap (rt_maxSamples rt) (prune cutoff samples)) rt.

(** Between the first sample and the last. *)
Definition rate_between (oldest newest : Sample) : float64 :=
  let elapsed := Seconds (Sub (s_Timestamp newest) (s_Timestamp oldest)) in
  if SFleb elapsed zero then zero
  else SFdiv 53 1024 (float_of (s_Count newest - s_Count oldest)) elapsed.

Definition Rate (rt : RateTracker) : float64 :=
  match rt_samples rt, last (rt_samples rt) with
  | oldest :: _ :: _, Some newest => rate_between oldest newest
  | _, _ => zero
  end.

Definition GetStats (rt : RateTracker) : Z * float64 :=
  match rt_samples rt, last (rt_samples rt) with
  | oldest :: others, Some newest =>
      let elapsed := Seconds (Sub (s_Timestamp newest) (s_Timestamp oldest)) in
      let rate :=
        if decide (others ≠ []) then
          if SFltb zero elapsed then SFdiv 53 1024 (float_of (s_Count newest - s_Count oldest)) elapsed else zero
        else zero in
      (s_Count newest, rate)
  | _, _ => (0, zero)
  end.

Definition GetSamples (rt : RateTracker) : list Sample := rt_samples rt.
Definition Clear_samples (rt : RateTracker) : RateTracker := set_samples [] rt.

Definition GetSamplesForDuration (now duration : Z) (rt : RateTracker) : list Sample :=
  if decide (duration <= 0) then rt_samples rt
  else filter (λ s, now - duration < s_Timestamp s) (rt_samples rt).

(** ** Examples *)

Definition minute : Z := 60 * 1000000000.
Example rate_of_three : Rate (Record_sample (2 * minute) 240 (Record_sample minute 60
  (Record_sample 0 0 (NewRateTracker (5 * minute) 60)))) = float_of 2.
Proof. by vm_compute. Qed.
Example rate_of_one : Rate (Record_sample minute 60 (NewRateTracker (5 * minute) 60)) = zero.
Proof. by vm_compute. Qed.

(** ** The window *)

Section lists.
Context {A : Type}.
Implicit Types l : list A.

Lemma lastn_app_r n l1 l2 : (n <= length l2)%nat → lastn n (l1 ++ l2) = lastn n l2.
Proof.
  intros Hn. unfold lastn. rewrite length_app, drop_app_ge by lia. f_equal. lia.
Qed.
Lemma lastn_all n l : (length l <= n)%nat → lastn n l = l.
Proof. intros Hn. unfold lastn. by replace (length l - n)%nat with 0%nat by lia. Qed.
Lemma lastn_length n l : length (lastn n l) = (n `min` length l)%nat.
Proof. unfold lastn. rewrite length_drop. lia. Qed.

(** What the last elements of a list are followed by, is followed by the same
    last elements. *)
Lemma lastn_snoc n l x : lastn n (lastn n l ++ [x]) = lastn n (l ++ [x]).
Proof.
  destruct (decide (length l <= n)%nat) as [|Hn]; [by rewrite (lastn_all n l)|].
  destruct n as [|n]; [unfold lastn; rewrite !drop_ge; [done|..]; rewrite ?length_app; cbn; lia|].
  unfold lastn. rewrite !length_app, length_drop. cbn [length].
  rewrite !drop_app_le by (rewrite ?length_drop; lia). rewrite drop_drop. do 2 f_equal. lia.
Qed.
End lists.

(** What the last elements that pass a test are among the last elements of a
    list, when those that pass come last. *)
Lemma lastn_filter {A} (P : A → Prop) `{∀ x, Decision (P x)} n l1 l2 :
  Forall (λ x, ¬ P x) l1 → Forall P l2 → lastn n (filter P (lastn n (l1 ++ l2))) = lastn n l2.
Proof.
  intros H1 H2. destruct (decide (n <= length l2)%nat) as [Hn|Hn].
  - rewrite lastn_app_r by done. rewrite filter_all by (by apply Forall_drop). apply lastn_all.
    rewrite lastn_length. lia.
  - unfold lastn at 2. rewrite drop_app_le by (rewrite length_app; lia). rewrite filter_app.
    rewrite (filter_all _ l2) by done. f_equal.
    assert (filter P (drop (length (l1 ++ l2) - n) l1) = []) as ->; [|done].
    apply (Forall_drop _ (length (l1 ++ l2) - n)) in H1. induction H1 as [|x l Hx _ IH]; [done|].
    by rewrite filter_cons_False.
Qed.

(** Times in the order they were read. *)
Definition in_order : list Sample → Prop := StronglySorted (λ s t, s_Timestamp s <= s_Timestamp t).

Definition in_window (cutoff : Z) (samples : list Sample) : list Sample :=
  filter (λ s, cutoff < s_Timestamp s) samples.

Lemma window_split cutoff l : in_order l →
  ∃ old, l = old ++ in_window cutoff l ∧ Forall (λ s, ¬ cutoff < s_Timestamp s) old.
Proof.
  induction 1 as [|s l Hl IH Hs]; [by exists []|]. unfold in_window. rewrite filter_cons.
  case_decide as Hc.
  - exists []. split; [|done]. cbn. f_equal. symmetry. apply filter_all.
    eapply Forall_impl; [exact Hs|]. cbn. lia.
  - destruct IH as (old & E & Hold). exists (s :: old). split; [|by constructor]. cbn. by f_equal.
Qed.

(** Cutting at the first sample in the window leaves the samples in the window,
    when there is one. *)
Lemma prune_window cutoff l : in_order l → in_window cutoff l ≠ [] → prune cutoff l = in_window cutoff l.
Proof.
  intros Ho Hne. destruct (window_split cutoff l Ho) as (old & E & Hold).
  destruct (in_window cutoff l) as [|s new] eqn:Ew; [done|].
  assert (cutoff < s_Timestamp s) as Hs.
  { assert (s ∈ in_window cutoff l) as Hin by (rewrite Ew; by left). by apply list_elem_of_filter in Hin as [? _]. }
  unfold prune. assert (list_find (λ s, cutoff < s_Timestamp s) l = Some (length old, s)) as ->.
  { apply list_find_Some. rewrite E. split; [by rewrite list_lookup_middle|]. split; [done|].
    intros j y Hy Hj. rewrite lookup_app_l in Hy by done. rewrite Forall_lookup in Hold. by eapply Hold. }
  rewrite E. by rewrite drop_app_length.
Qed.

Lemma in_window_order cutoff l : in_order l → in_order (in_window cutoff l).
Proof.
  intros Ho. destruct (window_split cutoff l Ho) as (old & E & _). rewrite E in Ho.
  by apply StronglySorted_app_1_r in Ho.
Qed.
Lemma lastn_order n l : in_order l → in_order (lastn n l).
Proof. unfold lastn. intros Ho. rewrite <-(take_drop (length l - n) l) in Ho. by apply StronglySorted_app_1_r in Ho. Qed.

Lemma in_window_later cutoff l : Forall (λ s, cutoff < s_Timestamp s) (in_window cutoff l).
Proof. apply Forall_forall. by intros s [? _]%list_elem_of_filter. Qed.
Lemma lastn_elem {A} n (l : list A) x : x ∈ lastn n l → x ∈ l.
Proof. intros Hx. rewrite <-(take_drop (length l - n) l). apply elem_of_app. by right. Qed.

Lemma cap_lastn maxSamples l : 0 <= maxSamples → cap maxSamples l = lastn (Z.to_nat maxSamples) l.
Proof. intros Hm. unfold cap. case_decide; [done|]. rewrite lastn_all by lia. done. Qed.

(** One more reading, after the ones whose window is kept. *)
Lemma window_snoc n cutoff cutoff' l s :
  in_order (l ++ [s]) → cutoff <= cutoff' → cutoff' < s_Timestamp s →
  lastn n (prune cutoff' (lastn n (in_window cutoff l) ++ [s])) = lastn n (in_window cutoff' (l ++ [s])).
Proof.
  intros Ho Hc Hs. apply StronglySorted_app in Ho as (Hle & Hl & _).
  assert (Hone : in_window cutoff' [s] = [s]) by (apply filter_all; by repeat constructor).
  rewrite prune_window; cycle 1.
  - apply StronglySorted_app_2; [|by apply lastn_order, in_window_order|by repeat constructor].
    intros t u Ht%lastn_elem Hu. apply list_elem_of_filter in Ht as [_ Ht]. by apply Hle.
  - unfold in_window at 1. rewrite filter_app. fold (in_window cutoff' [s]). rewrite Hone. by destruct (filter _ _).
  - unfold in_window at 1 3. rewrite !filter_app. fold (in_window cutoff' [s]). rewrite Hone.
    rewrite <-lastn_snoc, <-(lastn_snoc n (filter _ l)). do 2 f_equal.
    destruct (window_split cutoff' (in_window cutoff l)) as (old & E & Hold); [by apply in_window_order|].
    rewrite E at 1. rewrite lastn_filter; [|done|by apply in_window_later]. unfold in_window at 1 2.
    rewrite list_filter_filter_l by (intros x; lia). done.
Qed.

(** ** What a tracker holds *)

(** The readings of a counter, each with its time, the last one last. *)
Definition readings (rs : list (Z * Z)) (rt : RateTracker) : RateTracker :=
  foldl (λ rt r, Record_sample r.1 r.2 rt) rt rs.
Definition sample_of (r : Z * Z) : Sample := MkSample r.2 r.1.

Lemma readings_settings rs rt :
  rt_windowSize (readings rs rt) = rt_windowSize rt ∧ rt_maxSamples (readings rs rt) = rt_maxSamples rt.
Proof. revert rt. induction rs as [|r rs IH]; intros rt; [done|]. apply (IH (Record_sample r.1 r.2 rt)). Qed.
Lemma readings_snoc rs r rt : readings (rs ++ [r]) rt = Record_sample r.1 r.2 (readings rs rt).
Proof. unfold readings. by rewrite foldl_app. Qed.

(** C40. A rate is over the samples in its window.  However long a tracker has
    recorded readings of a counter, with a clock that does not go back, the
    samples it keeps are the last ones of all its readings that are within the
    window before the last one, as many as it may keep: none older, none
    missing, and never more than its maximum. *)
Theorem tracker_keeps_window (windowSize maxSamples now count : Z) (rs : list (Z * Z)) :
  0 < windowSize → 0 <= maxSamples → in_order (sample_of <$> rs ++ [(now, count)]) →
  let rt := readings (rs ++ [(now, count)]) (NewRateTracker windowSize maxSamples) in
  GetSamples rt = lastn (Z.to_nat maxSamples)
    (in_window (now - windowSize) (sample_of <$> rs ++ [(now, count)])) ∧
  Z.of_nat (length (GetSamples rt)) <= maxSamples.
Proof.
  intros Hw Hm Ho rt. assert (GetSamples rt = lastn (Z.to_nat maxSamples)
    (in_window (now - windowSize) (sample_of <$> rs ++ [(now, count)]))) as E.
  { subst rt. revert now count Ho. induction rs as [|[now' count'] rs IH] using rev_ind; intros now count Ho;
      rewrite readings_snoc; unfold GetSamples, Record_sample; cbn [rt_samples set_samples fst snd];
      rewrite ?(proj1 (readings_settings _ _)), ?(proj2 (readings_settings _ _)).
    - cbn. rewrite cap_lastn by done. f_equal. unfold prune, in_window. cbn. by rewrite !decide_True by lia.
    - rewrite fmap_app in Ho |- *. pose proof Ho as Ho'. apply StronglySorted_app in Ho' as (Hle & Hl & _).
      unfold GetSamples in IH. rewrite (IH now' count' Hl). cbn [rt_windowSize rt_maxSamples NewRateTracker].
      rewrite cap_lastn by done. apply window_snoc; [done| |cbn; lia].
      assert (now' <= now); [|lia].
      apply (Hle (sample_of (now', count')) (sample_of (now, count))); [|by left].
      rewrite fmap_app. apply elem_of_app. right. by left. }
  split; [done|]. rewrite E, lastn_length. lia.
Qed.

(** [GetStats] gives the last count, and the rate [Rate] gives. *)
Lemma stats_are_rate rt oldest newest :
  head (rt_samples rt) = Some oldest → last (rt_samples rt) = Some newest →
  Seconds (Sub (s_Timestamp newest) (s_Timestamp oldest)) ≠ S754_nan →
  GetStats rt = (s_Count newest, Rate rt).
Proof.
  unfold GetStats, Rate. destruct (rt_samples rt) as [|s [|t l]]; [done|..]; intros [= ->] -> Hn; [done|].
  rewrite decide_True by done. unfold rate_between. by destruct (Seconds _) as [|[]| |[] ? ?].
Qed.

(** ** Example *)

Lemma tracker_keeps_window_witness :
  let rs := [(0, 0); (minute, 10); (2 * minute, 20); (3 * minute, 30)] in
  in_order (sample_of <$> rs ++ [(5 * minute, 60)]) ∧
  GetSamples (readings (rs ++ [(5 * minute, 60)]) (NewRateTracker (4 * minute) 2)) =
    [MkSample 30 (3 * minute); MkSample 60 (5 * minute)].
Proof.
  intros rs. assert (Ho : in_order (sample_of <$> rs ++ [(5 * minute, 60)]))
    by (unfold rs, minute; cbn; repeat constructor; cbn; lia).
  split; [exact Ho|].
  rewrite (proj1 (tracker_keeps_window (4 * minute) 2 (5 * minute) 60 rs eq_refl ltac:(lia) Ho)). by vm_compute.
Defined.
