(* ===== verification/Collector.v ===== *)
(** * Metrics: pkg/metrics/collector.go

    The counters and rates the broker keeps beside its state.  The collector's
    counters are atomic and its maps are [sync.Map]s, so a method is a sequence of
    atomic steps, which commute with those of the other recording methods; here a
    method is one step.  The clock is an argument, read once by a method.

    The counters of a struct are a function of their names, those the struct has
    not being left at zero; so are its rates. *)

From stdpp Require Import base list gmap strings pretty.
From Stdlib Require Import ZArith Lia SpecFloat.
From S2P Require Import Prelude RateTracker.

Local Open Scope Z_scope.
Local Open Scope string_scope.
Local Open Scope list_scope.

(** ** Counters and rates by their names *)

Inductive counter : Type :=
| PublishCount | DeliveryCount | AckCount | Depth | UnackedCount | ConsumerCount
| ConfirmCount | UnroutableCount | DeliverCount | PrefetchCount.
#[export] Instance counter_eq_dec : EqDecision counter.
Proof. solve_decision. Defined.

Inductive rate : Type :=
| PublishRate | DeliveryRate | AckRate | ConfirmRate | UnroutableRate | DeliverRate.

Inductive broker_counter : Type :=
| messageCount | consumerCount | connectionCount | channelCount | queueCount | exchangeCount
| readyDepth | unackedDepth
| totalPublishCount | totalDeliverAutoAckCount | totalDeliverManualAckCount | totalAckCount
| totalNackCount | connectionPanicCount.
#[export] Instance broker_counter_eq_dec : EqDecision broker_counter.
Proof. solve_decision. Defined.

Inductive broker_rate : Type :=
| publishRate | deliveryAutoAckRate | deliveryManualAckRate | acksRate | nacksRate
| connectionRate | channelRate | totalReadyRate | totalUnackedRate | totalRate.

Section names.
Context {K : Type} `{EqDecision K}.

Definition store (k : K) (v : Z) (f : K → Z) : K → Z := λ k', if decide (k' = k) then v else f k'.
Definition add (k : K) (d : Z) (f : K → Z) : K → Z := store k (f k + d) f.
End names.

(** ** The structs *)

Record Config : Type := MkConfig {
  Enabled : bool;
  WindowSize : Z;
  MaxSamples : Z;
  SamplesInterval : Z;
}.
Definition DefaultConfig : Config := MkConfig true (5 * minute) 60 5.

Record ExchangeMetrics : Type := MkExchangeMetrics {
  em_Name : string;
  em_Type : string;
  em_CreatedAt : Z;
  em_counts : counter → Z;
  em_rates : rate → RateTracker;
}.
Definition em_update (f : (counter → Z) → counter → Z) (em : ExchangeMetrics) : ExchangeMetrics :=
  MkExchangeMetrics (em_Name em) (em_Type em) (em_CreatedAt em) (f (em_counts em)) (em_rates em).

Record QueueMetrics : Type := MkQueueMetrics {
  qm_Name : string;
  qm_CreatedAt : Z;
  qm_counts : counter → Z;
  qm_rates : rate → RateTracker;
}.
Definition qm_update (f : (counter → Z) → counter → Z) (qm : QueueMetrics) : QueueMetrics :=
  MkQueueMetrics (qm_Name qm) (qm_CreatedAt qm) (f (qm_counts qm)) (qm_rates qm).

Record ChannelMetrics : Type := MkChannelMetrics {
  cm_ConnectionName : string;
  cm_VHostName : string;
  cm_ChannelNumber : Z;
  cm_User : string;
  cm_State : string;
  cm_CreatedAt : Z;
  cm_counts : counter → Z;
  cm_rates : rate → RateTracker;
}.
Definition cm_update (f : (counter → Z) → counter → Z) (cm : ChannelMetrics) : ChannelMetrics :=
  MkChannelMetrics (cm_ConnectionName cm) (cm_VHostName cm) (cm_ChannelNumber cm) (cm_User cm) (cm_State cm)
    (cm_CreatedAt cm) (f (cm_counts cm)) (cm_rates cm).
Definition set_State (state : string) (cm : ChannelMetrics) : ChannelMetrics :=
  MkChannelMetrics (cm_ConnectionName cm) (cm_VHostName cm) (cm_ChannelNumber cm) (cm_User cm) state
    (cm_CreatedAt cm) (cm_counts cm) (cm_rates cm).

Record Collector : Type := MkCollector {
  exchangeMetrics : gmap string ExchangeMetrics;
  queueMetrics : gmap string QueueMetrics;
  channelMetrics : gmap string ChannelMetrics;
  col_rates : broker_rate → RateTracker;
  col_counts : broker_counter → Z;
  col_config : Config;
}.
Definition set_exchangeMetrics (m : gmap string ExchangeMetrics) (c : Collector) : Collector :=
  MkCollector m (queueMetrics c) (channelMetrics c) (col_rates c) (col_counts c) (col_config c).
Definition set_queueMetrics (m : gmap string QueueMetrics) (c : Collector) : Collector :=
  MkCollector (exchangeMetrics c) m (channelMetrics c) (col_rates c) (col_counts c) (col_config c).
Definition set_channelMetrics (m : gmap string ChannelMetrics) (c : Collector) : Collector :=
  MkCollector (exchangeMetrics c) (queueMetrics c) m (col_rates c) (col_counts c) (col_config c).
Definition set_rates (rates : broker_rate → RateTracker) (c : Collector) : Collector :=
  MkCollector (exchangeMetrics c) (queueMetrics c) (channelMetrics c) rates (col_counts c) (col_config c).
Definition set_counts (counts : broker_counter → Z) (c : Collector) : Collector :=
  MkCollector (exchangeMetrics c) (queueMetrics c) (channelMetrics c) (col_rates c) counts (col_config c).

(** [atomic.Int64.Add] on a counter of the broker. *)
Definition count (k : broker_counter) (d : Z) (c : Collector) : Collector :=
  set_counts (add k d (col_counts c)) c.

Definition new_tracker (config : Config) : RateTracker := NewRateTracker (WindowSize config) (MaxSamples config).

Definition NewCollector (config : option Config) : Collector :=
  let config := default DefaultConfig config in
  MkCollector ∅ ∅ ∅ (λ _, new_tracker config) (λ _, 0) config.

Definition on_enabled (f : Collector → Collector) (c : Collector) : Collector :=
  if Enabled (col_config c) then f c else c.

(** ** Exchanges *)

Definition getOrCreateExchangeMetrics (name exchangeType : string) (now : Z) (c : Collector) : Collector :=
  match exchangeMetrics c !! name with
  | Some _ => c
  | None =>
      let em := MkExchangeMetrics name exchangeType now (λ _, 0) (λ _, new_tracker (col_config c)) in
      count exchangeCount 1 (set_exchangeMetrics (<[name := em]> (exchangeMetrics c)) c)
  end.
Definition update_exchange (name : string) (f : (counter → Z) → counter → Z) (c : Collector) : Collector :=
  set_exchangeMetrics (alter (em_update f) name (exchangeMetrics c)) c.

Definition RecordExchangePublish (name exchangeType : string) (now : Z) : Collector → Collector :=
  on_enabled (λ c,
    let c := getOrCreateExchangeMetrics name exchangeType now c in
    let c := update_exchange name (add PublishCount 1) c in
    count totalPublishCount 1 (count messageCount 1 c)).

Definition RecordExchangeDelivery (name : string) (now : Z) : Collector → Collector :=
  on_enabled (λ c, update_exchange name (add DeliveryCount 1) (getOrCreateExchangeMetrics name "" now c)).

Definition GetExchangeMetrics (name : string) (c : Collector) : option ExchangeMetrics := exchangeMetrics c !! name.

Definition RemoveExchange (name : string) (c : Collector) : Collector :=
  count exchangeCount (-1) (set_exchangeMetrics (delete name (exchangeMetrics c)) c).

Definition sampleExchangeMetrics (now : Z) (em : ExchangeMetrics) : ExchangeMetrics :=
  MkExchangeMetrics (em_Name em) (em_Type em) (em_CreatedAt em) (em_counts em) (λ r,
    match r with
    | PublishRate => Record_sample now (em_counts em PublishCount) (em_rates em PublishRate)
    | DeliveryRate => Record_sample now (em_counts em DeliveryCount) (em_rates em DeliveryRate)
    | r => em_rates em r
    end).

(** ** Queues *)

Definition getOrCreateQueueMetrics (name : string) (now : Z) (c : Collector) : Collector :=
  match queueMetrics c !! name with
  | Some _ => c
  | None =>
      let qm := MkQueueMetrics name now (λ _, 0) (λ _, new_tracker (col_config c)) in
      count queueCount 1 (set_queueMetrics (<[name := qm]> (queueMetrics c)) c)
  end.
Definition update_queue (name : string) (f : (counter → Z) → counter → Z) (c : Collector) : Collector :=
  set_queueMetrics (alter (qm_update f) name (queueMetrics c)) c.

Definition RecordQueuePublish (name : string) (now : Z) : Collector → Collector :=
  on_enabled (λ c,
    let c := getOrCreateQueueMetrics name now c in
    count readyDepth 1 (update_queue name (add PublishCount 1) (update_queue name (add Depth 1) c))).

Definition RecordQueueRequeue (name : string) (now : Z) : Collector → Collector := RecordQueuePublish name now.

Definition RecordQueueDelivery (name : string) (autoAck : bool) (now : Z) : Collector → Collector :=
  on_enabled (λ c,
    let c := getOrCreateQueueMetrics name now c in
    let c := update_queue name (add DeliveryCount 1) (update_queue name (add Depth (-1)) c) in
    let c := count readyDepth (-1) c in
    if autoAck then
      let c := count messageCount (-1) (update_queue name (add AckCount 1) c) in
      count totalDeliverAutoAckCount 1 (count totalAckCount 1 c)
    else
      let c := count unackedDepth 1 (update_queue name (add UnackedCount 1) c) in
      count totalDeliverManualAckCount 1 c).

Definition RecordQueueAck (name : string) (now : Z) : Collector → Collector :=
  on_enabled (λ c,
    let c := getOrCreateQueueMetrics name now c in
    let c := update_queue name (add AckCount 1) (update_queue name (add UnackedCount (-1)) c) in
    count unackedDepth (-1) (count totalAckCount 1 (count messageCount (-1) c))).

Definition RecordQueueNack (name : string) (discard : bool) (now : Z) : Collector → Collector :=
  on_enabled (λ c,
    let c := getOrCreateQueueMetrics name now c in
    let c := update_queue name (add UnackedCount (-1)) c in
    let c := count totalNackCount 1 (count unackedDepth (-1) c) in
    if discard then count messageCount (-1) c else c).

Definition SetQueueDepth (name : string) (depth now : Z) : Collector → Collector :=
  on_enabled (λ c, update_queue name (store Depth depth) (getOrCreateQueueMetrics name now c)).

Definition RecordConsumerAdded (name : string) (now : Z) : Collector → Collector :=
  on_enabled (λ c,
    count consumerCount 1 (update_queue name (add ConsumerCount 1) (getOrCreateQueueMetrics name now c))).
Definition RecordConsumerRemoved (name : string) (now : Z) : Collector → Collector :=
  on_enabled (λ c,
    count consumerCount (-1) (update_queue name (add ConsumerCount (-1)) (getOrCreateQueueMetrics name now c))).

Definition GetQueueMetrics (name : string) (c : Collector) : option QueueMetrics := queueMetrics c !! name.

Definition RemoveQueue (name : string) (c : Collector) : Collector :=
  let c :=
    match GetQueueMetrics name c with
    | Some qm => count consumerCount (- qm_counts qm ConsumerCount) (count messageCount (- qm_counts qm Depth) c)
    | None => c
    end in
  count queueCount (-1) (set_queueMetrics (delete name (queueMetrics c)) c).

Definition sampleQueueMetrics (now : Z) (qm : QueueMetrics) : QueueMetrics :=
  MkQueueMetrics (qm_Name qm) (qm_CreatedAt qm) (qm_counts qm) (λ r,
    match r with
    | PublishRate => Record_sample now (qm_counts qm PublishCount) (qm_rates qm PublishRate)
    | DeliveryRate => Record_sample now (qm_counts qm DeliveryCount) (qm_rates qm DeliveryRate)
    | AckRate => Record_sample now (qm_counts qm AckCount) (qm_rates qm AckRate)
    | r => qm_rates qm r
    end).

(** ** Channels *)

Definition buildChannelName (connName : string) (channelNumber : Z) : string :=
  connName +:+ "(" +:+ pretty channelNumber +:+ ")".

Definition getOrCreateChannelMetrics (connName vhost user : string) (channelNumber now : Z) (c : Collector)
    : Collector :=
  let name := buildChannelName connName channelNumber in
  match channelMetrics c !! name with
  | Some _ => c
  | None =>
      let cm := MkChannelMetrics connName vhost channelNumber user "idle" now (λ _, 0)
        (λ _, new_tracker (col_config c)) in
      set_channelMetrics (<[name := cm]> (channelMetrics c)) c
  end.
Definition update_channel (connName : string) (channelNumber : Z) (f : ChannelMetrics → ChannelMetrics)
    (c : Collector) : Collector :=
  set_channelMetrics (alter f (buildChannelName connName channelNumber) (channelMetrics c)) c.

Definition RecordChannelConsumer (connName vhost user : string) (channelNumber now : Z) : Collector → Collector :=
  on_enabled (getOrCreateChannelMetrics connName vhost user channelNumber now).
Definition RecordChannelPublish (connName vhost user : string) (channelNumber now : Z) : Collector → Collector :=
  on_enabled (λ c, update_channel connName channelNumber (cm_update (add PublishCount 1))
    (getOrCreateChannelMetrics connName vhost user channelNumber now c)).
Definition RecordChannelUnroutable (connName vhost user : string) (channelNumber now : Z)
    : Collector → Collector :=
  on_enabled (λ c, update_channel connName channelNumber (cm_update (add UnroutableCount 1))
    (getOrCreateChannelMetrics connName vhost user channelNumber now c)).

(** The methods below leave out a channel that is not there. *)
Definition RecordChannelDeliver (connName : string) (channelNumber : Z) (autoAck : bool) : Collector → Collector :=
  on_enabled (update_channel connName channelNumber (λ cm,
    cm_update (add (if autoAck then AckCount else UnackedCount) 1) (cm_update (add DeliverCount 1) cm))).
Definition RecordChannelAck (connName : string) (channelNumber : Z) : Collector → Collector :=
  on_enabled (update_channel connName channelNumber (λ cm,
    let cm := cm_update (add AckCount 1) cm in
    if decide (0 < cm_counts cm UnackedCount) then cm_update (add UnackedCount (-1)) cm else cm)).
Definition RecordChannelFlow (connName : string) (channelNumber : Z) (flowActive : bool) : Collector → Collector :=
  on_enabled (update_channel connName channelNumber (set_State (if flowActive then "flow" else "idle"))).

Definition sampleChannelMetrics (now : Z) (cm : ChannelMetrics) : ChannelMetrics :=
  let sampled r k := Record_sample now (cm_counts cm k) (cm_rates cm r) in
  let cm := MkChannelMetrics (cm_ConnectionName cm) (cm_VHostName cm) (cm_ChannelNumber cm) (cm_User cm)
    (cm_State cm) (cm_CreatedAt cm) (cm_counts cm) (λ r,
      match r with
      | PublishRate => sampled PublishRate PublishCount
      | ConfirmRate => sampled ConfirmRate ConfirmCount
      | UnroutableRate => sampled UnroutableRate UnroutableCount
      | DeliverRate => sampled DeliverRate DeliverCount
      | AckRate => sampled AckRate AckCount
      | r => cm_rates cm r
      end) in
  if decide (cm_State cm = "flow") then cm else
  if SFltb zero (Rate (cm_rates cm PublishRate)) || SFltb zero (Rate (cm_rates cm DeliverRate))
  then set_State "running" cm else set_State "idle" cm.

Definition GetChannelMetrics (connName : string) (channelNumber : Z) (c : Collector) : option ChannelMetrics :=
  channelMetrics c !! buildChannelName connName channelNumber.

(** ** The broker *)

Definition RecordConnection : Collector → Collector := on_enabled (count connectionCount 1).
Definition RecordConnectionClose : Collector → Collector := on_enabled (count connectionCount (-1)).
Definition RecordConnectionPanic : Collector → Collector := on_enabled (count connectionPanicCount 1).

Definition RecordChannelOpen (connName vhost user : string) (channelNumber now : Z) : Collector → Collector :=
  on_enabled (λ c, getOrCreateChannelMetrics connName vhost user channelNumber now (count channelCount 1 c)).
Definition RecordChannelClose (connName : string) (channelNumber : Z) : Collector → Collector :=
  on_enabled (λ c,
    let c := count channelCount (-1) c in
    set_channelMetrics (delete (buildChannelName connName channelNumber) (channelMetrics c)) c).

(** What a broker's rate follows. *)
Definition sampled_counter (c : Collector) (r : broker_rate) : Z :=
  match r with
  | totalReadyRate => col_counts c readyDepth
  | totalUnackedRate => col_counts c unackedDepth
  | totalRate => col_counts c readyDepth + col_counts c unackedDepth
  | publishRate => col_counts c totalPublishCount
  | deliveryAutoAckRate => col_counts c totalDeliverAutoAckCount
  | deliveryManualAckRate => col_counts c totalDeliverManualAckCount
  | acksRate => col_counts c totalAckCount
  | nacksRate => col_counts c totalNackCount
  | connectionRate => col_counts c connectionCount
  | channelRate => col_counts c channelCount
  end.

Definition sampleBrokerMetrics (now : Z) (c : Collector) : Collector :=
  let c := set_rates (λ r, Record_sample now (sampled_counter c r) (col_rates c r)) c in
  let c := set_queueMetrics (sampleQueueMetrics now <$> queueMetrics c) c in
  let c := set_exchangeMetrics (sampleExchangeMetrics now <$> exchangeMetrics c) c in
  set_channelMetrics (sampleChannelMetrics now <$> channelMetrics c) c.

(** Resets what the source resets. *)
Definition Clear (c : Collector) : Collector :=
  let c := set_queueMetrics ∅ (set_exchangeMetrics ∅ c) in
  let c := set_rates (λ r, Clear_samples (col_rates c r)) c in
  set_counts (λ k,
    match k with
    | messageCount | consumerCount | connectionCount | channelCount | queueCount | exchangeCount
    | connectionPanicCount => 0
    | k => col_counts c k
    end) c.

(** ** Snapshots *)

Record BrokerSnapshot : Type := MkBrokerSnapshot {
  bs_PublishRate : float64;
  bs_DeliveryRate : float64;
  bs_AckRate : float64;
  bs_NackRate : float64;
  bs_ConnectionRate : float64;
  bs_ChannelRate : float64;
  bs_TotalReadyDepth : RateTracker;
  bs_TotalUnackedDepth : RateTracker;
  bs_TotalDepth : RateTracker;
  bs_MessageCount : Z;
  bs_ConsumerCount : Z;
  bs_ConnectionCount : Z;
  bs_ChannelCount : Z;
  bs_QueueCount : Z;
  bs_ExchangeCount : Z;
  bs_PublishedTotal : Z;
  bs_TotalDeliverAutoAckCount : Z;
  bs_TotalDeliverManualAckCount : Z;
  bs_DeliveredTotal : Z;
  bs_AckedTotal : Z;
  bs_NackedTotal : Z;
  bs_ConnectionPanicsTotal : Z;
}.

Definition GetBrokerSnapshot (c : Collector) : BrokerSnapshot :=
  let rates := col_rates c in
  let counts := col_counts c in
  MkBrokerSnapshot (Rate (rates publishRate)) (Rate (rates deliveryAutoAckRate)) (Rate (rates acksRate))
    (Rate (rates nacksRate)) (Rate (rates connectionRate)) (Rate (rates channelRate))
    (rates totalReadyRate) (rates totalUnackedRate) (rates totalRate)
    (counts messageCount) (counts consumerCount) (counts connectionCount) (counts channelCount)
    (counts queueCount) (counts exchangeCount) (counts totalPublishCount)
    (counts totalDeliverAutoAckCount) (counts totalDeliverManualAckCount)
    (counts totalDeliverAutoAckCount + counts totalDeliverManualAckCount)
    (counts totalAckCount) (counts totalNackCount) (counts connectionPanicCount).

Record ExchangeSnapshot : Type := MkExchangeSnapshot {
  xs_Name : string;
  xs_Type : string;
  xs_PublishRate : float64;
  xs_PublishCount : Z;
  xs_DeliveryRate : float64;
  xs_DeliveryCount : Z;
  xs_Uptime : float64;
  xs_CreatedAt : Z;
}.
Definition GetExchangeSnapshot (name : string) (now : Z) (c : Collector) : option ExchangeSnapshot :=
  (λ em, MkExchangeSnapshot (em_Name em) (em_Type em) (Rate (em_rates em PublishRate)) (em_counts em PublishCount)
    (Rate (em_rates em DeliveryRate)) (em_counts em DeliveryCount) (Seconds (Sub now (em_CreatedAt em)))
    (em_CreatedAt em)) <$> GetExchangeMetrics name c.

Record QueueSnapshot : Type := MkQueueSnapshot {
  qs_Name : string;
  qs_MessageRate : float64;
  qs_DeliveryRate : float64;
  qs_AckRate : float64;
  qs_AckCount : Z;
  qs_UnackedCount : Z;
  qs_MessageCount : Z;
  qs_ConsumerCount : Z;
  qs_Uptime : float64;
  qs_CreatedAt : Z;
}.
Definition GetQueueSnapshot (name : string) (now : Z) (c : Collector) : option QueueSnapshot :=
  (λ qm, MkQueueSnapshot (qm_Name qm) (Rate (qm_rates qm PublishRate)) (Rate (qm_rates qm DeliveryRate))
    (Rate (qm_rates qm AckRate)) (qm_counts qm AckCount) (qm_counts qm UnackedCount) (qm_counts qm Depth)
    (qm_counts qm ConsumerCount) (Seconds (Sub now (qm_CreatedAt qm))) (qm_CreatedAt qm)) <$> GetQueueMetrics name c.

Record ChannelSnapshot : Type := MkChannelSnapshot {
  cs_ConnectionName : string;
  cs_ChannelNumber : Z;
  cs_VHostName : string;
  cs_User : string;
  cs_State : string;
  cs_PublishRate : float64;
  cs_ConfirmRate : float64;
  cs_UnroutableRate : float64;
  cs_DeliverRate : float64;
  cs_AckRate : float64;
  cs_UnackedCount : Z;
  cs_PrefetchCount : Z;
  cs_CreatedAt : Z;
}.
Definition GetChannelSnapshot (connName : string) (channelNumber : Z) (c : Collector) : option ChannelSnapshot :=
  (λ cm, MkChannelSnapshot (cm_ConnectionName cm) (cm_ChannelNumber cm) (cm_VHostName cm) (cm_User cm) (cm_State cm)
    (Rate (cm_rates cm PublishRate)) (Rate (cm_rates cm ConfirmRate)) (Rate (cm_rates cm UnroutableRate))
    (Rate (cm_rates cm DeliverRate)) (Rate (cm_rates cm AckRate)) (cm_counts cm UnackedCount)
    (cm_counts cm PrefetchCount) (cm_CreatedAt cm)) <$> GetChannelMetrics connName channelNumber c.

(** ** What the gauges of the broker add up to *)

Definition total (k : counter) (m : gmap string QueueMetrics) : Z :=
  map_fold (λ _ qm n, qm_counts qm k + n) 0 m.

Definition counts_of (n : string) (m : gmap string QueueMetrics) : counter → Z :=
  match m !! n with
  | Some qm => qm_counts qm
  | None => λ _, 0
  end.

(** How far the gauges of the broker are from the gauges of the queues and
    exchanges it has metrics of. *)
Record gap : Type := MkGap {
  gap_ready : Z;
  gap_unacked : Z;
  gap_consumers : Z;
  gap_queues : Z;
  gap_exchanges : Z;
}.
Definition no_gap : gap := MkGap 0 0 0 0 0.
Definition gap_of (c : Collector) : gap :=
  MkGap (col_counts c readyDepth - total Depth (queueMetrics c))
    (col_counts c unackedDepth - total UnackedCount (queueMetrics c))
    (col_counts c consumerCount - total ConsumerCount (queueMetrics c))
    (col_counts c queueCount - Z.of_nat (size (queueMetrics c)))
    (col_counts c exchangeCount - Z.of_nat (size (exchangeMetrics c))).
Definition widen (ready unacked queues exchanges : Z) (g : gap) : gap :=
  MkGap (gap_ready g + ready) (gap_unacked g + unacked) (gap_consumers g) (gap_queues g + queues)
    (gap_exchanges g + exchanges).

(** The recording methods, and the sampling. *)
Inductive records : (Collector → Collector) → Prop :=
| r_exchange_publish n t now : records (RecordExchangePublish n t now)
| r_exchange_delivery n now : records (RecordExchangeDelivery n now)
| r_queue_publish n now : records (RecordQueuePublish n now)
| r_queue_requeue n now : records (RecordQueueRequeue n now)
| r_queue_delivery n autoAck now : records (RecordQueueDelivery n autoAck now)
| r_queue_ack n now : records (RecordQueueAck n now)
| r_queue_nack n discard now : records (RecordQueueNack n discard now)
| r_consumer_added n now : records (RecordConsumerAdded n now)
| r_consumer_removed n now : records (RecordConsumerRemoved n now)
| r_channel_consumer conn vh user ch now : records (RecordChannelConsumer conn vh user ch now)
| r_channel_publish conn vh user ch now : records (RecordChannelPublish conn vh user ch now)
| r_channel_unroutable conn vh user ch now : records (RecordChannelUnroutable conn vh user ch now)
| r_channel_deliver conn ch autoAck : records (RecordChannelDeliver conn ch autoAck)
| r_channel_ack conn ch : records (RecordChannelAck conn ch)
| r_channel_flow conn ch active : records (RecordChannelFlow conn ch active)
| r_connection : records RecordConnection
| r_connection_close : records RecordConnectionClose
| r_connection_panic : records RecordConnectionPanic
| r_channel_open conn vh user ch now : records (RecordChannelOpen conn vh user ch now)
| r_channel_close conn ch : records (RecordChannelClose conn ch)
| r_sample now : records (sampleBrokerMetrics now).

(** What removing a queue or an exchange leaves in the gauges of the broker: the
    messages of a queue that had metrics; one too few when there were none. *)
Definition queue_leaves (name : string) (c : Collector) : gap → gap :=
  match queueMetrics c !! name with
  | Some qm => widen (qm_counts qm Depth) (qm_counts qm UnackedCount) 0 0
  | None => widen 0 0 (-1) 0
  end.
Definition exchange_leaves (name : string) (c : Collector) : gap → gap :=
  match exchangeMetrics c !! name with
  | Some _ => λ g, g
  | None => widen 0 0 0 (-1)
  end.

Definition depth_leaves (name : string) (depth : Z) (c : Collector) : gap → gap :=
  if Enabled (col_config c) then widen (counts_of name (queueMetrics c) Depth - depth) 0 0 0 else λ g, g.

(** Everything that can happen to a collector, and the gap it makes. *)
Inductive metrics_step : Collector * gap → Collector * gap → Prop :=
| ms_record f c g : records f → metrics_step (c, g) (f c, g)
| ms_remove_queue n c g : metrics_step (c, g) (RemoveQueue n c, queue_leaves n c g)
| ms_remove_exchange n c g : metrics_step (c, g) (RemoveExchange n c, exchange_leaves n c g)
| ms_set_depth n depth now c g : metrics_step (c, g) (SetQueueDepth n depth now c, depth_leaves n depth c g)
| ms_clear c g : metrics_step (c, g)
    (Clear c, MkGap (col_counts c readyDepth) (col_counts c unackedDepth) 0 0 0).

Section totals.
Implicit Types m : gmap string QueueMetrics.

Lemma total_insert k n qm m : m !! n = None → total k (<[n := qm]> m) = qm_counts qm k + total k m.
Proof. intros Hn. unfold total. rewrite map_fold_insert_L; [done|intros; lia|done]. Qed.
Lemma total_delete k n qm m : m !! n = Some qm → total k m = qm_counts qm k + total k (delete n m).
Proof. intros Hn. unfold total. rewrite (map_fold_delete_L _ _ n qm); [done|intros; lia|done]. Qed.
Lemma total_fmap k f m : (∀ qm, qm_counts (f qm) k = qm_counts qm k) → total k (f <$> m) = total k m.
Proof.
  intros Hf. unfold total. rewrite map_fold_fmap, !map_fold_foldr.
  induction (map_to_list m) as [|[n qm] l IH]; [done|]. cbn. unfold compose in *. by rewrite Hf, IH.
Qed.

Lemma total_update k n f m : is_Some (m !! n) →
  total k (alter (qm_update f) n m) = total k m + (f (counts_of n m) k - counts_of n m k).
Proof.
  intros [qm Hn]. unfold counts_of. rewrite Hn.
  rewrite (total_delete k n (qm_update f qm)) by (by rewrite lookup_alter_eq, Hn).
  rewrite delete_alter_eq, (total_delete k n qm m) by done. cbn. lia.
Qed.
Lemma counts_of_update n f m : is_Some (m !! n) → counts_of n (alter (qm_update f) n m) = f (counts_of n m).
Proof. intros [qm Hn]. unfold counts_of. by rewrite lookup_alter_eq, Hn. Qed.
Lemma update_is_Some n f m : is_Some (m !! n) → is_Some (alter (qm_update f) n m !! n).
Proof. intros [qm Hn]. rewrite lookup_alter_eq, Hn. by eexists. Qed.
Lemma size_update n f m : size (alter (qm_update f) n m) = size m.
Proof. rewrite <-!(size_dom (D := gset string)). by rewrite dom_alter_L. Qed.
End totals.

Section names_lemmas.
Context {K : Type} `{EqDecision K}.
Implicit Types f : K → Z.

Lemma store_eq k v f : store k v f k = v.
Proof. unfold store. by rewrite decide_True. Qed.
Lemma store_ne k v f k' : k' ≠ k → store k v f k' = f k'.
Proof. intros Hk. unfold store. by rewrite decide_False. Qed.
Lemma add_eq k d f : add k d f k = f k + d.
Proof. apply store_eq. Qed.
Lemma add_ne k d f k' : k' ≠ k → add k d f k' = f k'.
Proof. apply store_ne. Qed.
End names_lemmas.

(** Computes the gauges after some updates of a queue that has metrics. *)
Ltac gauges :=
  unfold gap_of, count, update_queue, update_exchange, update_channel; cbn;
  repeat first [rewrite total_update by eauto using update_is_Some
               |rewrite counts_of_update by eauto using update_is_Some
               |rewrite size_update | rewrite add_eq | rewrite store_eq
               |rewrite add_ne by discriminate | rewrite store_ne by discriminate];
  f_equal; lia.

Lemma exchange_size_update n f (m : gmap string ExchangeMetrics) : size (alter (em_update f) n m) = size m.
Proof. rewrite <-!(size_dom (D := gset string)). by rewrite dom_alter_L. Qed.

Lemma getOrCreateQueue_gap n now c : gap_of (getOrCreateQueueMetrics n now c) = gap_of c.
Proof.
  unfold getOrCreateQueueMetrics. destruct (queueMetrics c !! n) as [qm|] eqn:Hn; [done|].
  unfold gap_of, count. cbn. rewrite !total_insert, map_size_insert_None by done. cbn.
  rewrite add_eq, !add_ne by discriminate. f_equal; lia.
Qed.
Lemma getOrCreateQueue_there n now c : is_Some (queueMetrics (getOrCreateQueueMetrics n now c) !! n).
Proof.
  unfold getOrCreateQueueMetrics. destruct (queueMetrics c !! n) as [qm|] eqn:Hn; [by eexists|].
  cbn. rewrite lookup_insert_eq. by eexists.
Qed.
Lemma getOrCreateQueue_counts n now c :
  counts_of n (queueMetrics (getOrCreateQueueMetrics n now c)) = counts_of n (queueMetrics c).
Proof.
  unfold getOrCreateQueueMetrics, counts_of. destruct (queueMetrics c !! n) as [qm|] eqn:Hn; [by rewrite Hn|].
  cbn. by rewrite lookup_insert_eq.
Qed.
Lemma getOrCreateExchange_gap n t now c : gap_of (getOrCreateExchangeMetrics n t now c) = gap_of c.
Proof.
  unfold getOrCreateExchangeMetrics. destruct (exchangeMetrics c !! n) as [em|] eqn:Hn; [done|].
  unfold gap_of, count. cbn. rewrite map_size_insert_None by done.
  rewrite add_eq, !add_ne by discriminate. f_equal; lia.
Qed.
Lemma getOrCreateChannel_gap conn vh user ch now c :
  gap_of (getOrCreateChannelMetrics conn vh user ch now c) = gap_of c.
Proof. unfold getOrCreateChannelMetrics. by destruct (channelMetrics c !! _). Qed.

Lemma on_enabled_gap f c : gap_of (f c) = gap_of c → gap_of (on_enabled f c) = gap_of c.
Proof. unfold on_enabled. by destruct (Enabled _). Qed.

(** A recording method of a queue, after its metrics were found. *)
Ltac queue_gauges :=
  apply on_enabled_gap; cbv beta zeta;
  match goal with
  | |- context [getOrCreateQueueMetrics ?n ?now ?c] =>
      rewrite <-(getOrCreateQueue_gap n now c); pose proof (getOrCreateQueue_there n now c);
      generalize dependent (getOrCreateQueueMetrics n now c); intros; try gauges
  end.

(** Recording an event of a queue changes the gauges of the broker as it changes
    the gauges of the queue. *)
Lemma queue_records_gap n autoAck discard now c :
  gap_of (RecordQueuePublish n now c) = gap_of c ∧
  gap_of (RecordQueueDelivery n autoAck now c) = gap_of c ∧
  gap_of (RecordQueueAck n now c) = gap_of c ∧
  gap_of (RecordQueueNack n discard now c) = gap_of c ∧
  gap_of (RecordConsumerAdded n now c) = gap_of c ∧
  gap_of (RecordConsumerRemoved n now c) = gap_of c.
Proof.
  split_and!.
  - queue_gauges.
  - queue_gauges. destruct autoAck; gauges.
  - queue_gauges.
  - queue_gauges. destruct discard; gauges.
  - queue_gauges.
  - queue_gauges.
Qed.

Lemma exchange_records_gap n t now c :
  gap_of (RecordExchangePublish n t now c) = gap_of c ∧ gap_of (RecordExchangeDelivery n now c) = gap_of c.
Proof.
  split; apply on_enabled_gap; cbv beta zeta.
  - rewrite <-(getOrCreateExchange_gap n t now c). generalize (getOrCreateExchangeMetrics n t now c). intros c'.
    unfold gap_of, count, update_exchange. cbn. rewrite exchange_size_update, !add_ne by discriminate. done.
  - rewrite <-(getOrCreateExchange_gap n "" now c). generalize (getOrCreateExchangeMetrics n "" now c). intros c'.
    unfold gap_of, update_exchange. cbn. by rewrite exchange_size_update.
Qed.

Lemma sample_gap now c : gap_of (sampleBrokerMetrics now c) = gap_of c.
Proof. unfold gap_of, sampleBrokerMetrics. cbn. rewrite !total_fmap by done. by rewrite !map_size_fmap. Qed.

Lemma records_gap f c : records f → gap_of (f c) = gap_of c.
Proof.
  intros Hf. destruct Hf; try apply (exchange_records_gap n t now c); try apply (exchange_records_gap n "" now c);
    try apply (queue_records_gap n false false);
    try apply (queue_records_gap n autoAck false); try apply (queue_records_gap n false discard);
    try apply sample_gap; apply on_enabled_gap;
    first [apply getOrCreateChannel_gap
          |rewrite getOrCreateChannel_gap; reflexivity
          |cbv beta zeta; rewrite <-(getOrCreateChannel_gap conn vh user ch now); reflexivity|reflexivity].
Qed.

Lemma remove_queue_gap n c : gap_of (RemoveQueue n c) = queue_leaves n c (gap_of c).
Proof.
  unfold RemoveQueue, queue_leaves, GetQueueMetrics. destruct (queueMetrics c !! n) as [qm|] eqn:Hn.
  - unfold gap_of, count, widen. cbn. rewrite !(total_delete _ n qm (queueMetrics c)) by done.
    rewrite (map_size_delete_Some n) by done. pose proof (map_size_ne_0_lookup_2 (queueMetrics c) n) as Hs.
    repeat first [rewrite add_eq|rewrite add_ne by discriminate].
    assert (size (queueMetrics c) ≠ 0%nat) by (apply Hs; by eexists). f_equal; lia.
  - unfold gap_of, count, widen. cbn. rewrite delete_id by done.
    repeat first [rewrite add_eq|rewrite add_ne by discriminate]. f_equal; lia.
Qed.
Lemma remove_exchange_gap n c : gap_of (RemoveExchange n c) = exchange_leaves n c (gap_of c).
Proof.
  unfold RemoveExchange, exchange_leaves. destruct (exchangeMetrics c !! n) as [em|] eqn:Hn.
  - unfold gap_of, count. cbn. rewrite (map_size_delete_Some n) by done.
    pose proof (map_size_ne_0_lookup_2 (exchangeMetrics c) n) as Hs.
    repeat first [rewrite add_eq|rewrite add_ne by discriminate].
    assert (size (exchangeMetrics c) ≠ 0%nat) by (apply Hs; by eexists). f_equal; lia.
  - unfold gap_of, count, widen. cbn. rewrite delete_id by done.
    repeat first [rewrite add_eq|rewrite add_ne by discriminate]. f_equal; lia.
Qed.
Lemma set_depth_gap n depth now c : gap_of (SetQueueDepth n depth now c) = depth_leaves n depth c (gap_of c).
Proof.
  unfold SetQueueDepth, depth_leaves, on_enabled. destruct (Enabled _); [|done].
  rewrite <-(getOrCreateQueue_counts n now c), <-(getOrCreateQueue_gap n now c).
  pose proof (getOrCreateQueue_there n now c) as Hq. generalize dependent (getOrCreateQueueMetrics n now c).
  intros c' Hq. unfold widen. gauges.
Qed.

Lemma metrics_step_gap s s' : metrics_step s s' → gap_of s.1 = s.2 → gap_of s'.1 = s'.2.
Proof.
  intros Hs. destruct Hs; cbn [fst snd]; intros <-.
  - by apply records_gap.
  - apply remove_queue_gap.
  - apply remove_exchange_gap.
  - apply set_depth_gap.
  - unfold gap_of, Clear. cbn. f_equal; unfold total; rewrite map_fold_empty; lia.
Qed.

Definition gap_shape (g : gap) : Prop := gap_consumers g = 0 ∧ gap_queues g <= 0 ∧ gap_exchanges g <= 0.

Lemma metrics_step_shape s s' : metrics_step s s' → gap_shape s.2 → gap_shape s'.2.
Proof.
  unfold gap_shape. intros Hs (Hc & Hq & He). destruct Hs; cbn [snd] in *;
    unfold queue_leaves, exchange_leaves, depth_leaves; repeat case_match; cbn; split_and!; done || lia.
Qed.

Lemma metrics_steps_gap s s' : rtc metrics_step s s' →
  gap_of s.1 = s.2 → gap_shape s.2 → gap_of s'.1 = s'.2 ∧ gap_shape s'.2.
Proof.
  induction 1 as [s|s1 s2 s3 Hs _ IH]; [done|]. intros Hg Hsh.
  apply IH; [by eapply metrics_step_gap|by eapply metrics_step_shape].
Qed.

(** C26. The gauges of the broker add up.  Whatever is recorded, sampled, removed,
    set or cleared, in any order, from a new collector on: the broker's number of
    consumers is the sum of those of its queues, and its ready and unacknowledged
    messages, queues and exchanges are the sums over the queues and exchanges it
    has metrics of, but for the messages that were in a queue when it was
    removed, depths that were set, and one queue or exchange less for each one
    removed that had no metrics.  Recording alone never opens a gap. *)
Theorem gauges_add_up (config : option Config) (c : Collector) (g : gap) :
  rtc metrics_step (NewCollector config, no_gap) (c, g) →
  col_counts c consumerCount = total ConsumerCount (queueMetrics c) ∧
  col_counts c readyDepth = total Depth (queueMetrics c) + gap_ready g ∧
  col_counts c unackedDepth = total UnackedCount (queueMetrics c) + gap_unacked g ∧
  col_counts c queueCount = Z.of_nat (size (queueMetrics c)) + gap_queues g ∧
  col_counts c exchangeCount = Z.of_nat (size (exchangeMetrics c)) + gap_exchanges g ∧
  gap_queues g <= 0 ∧ gap_exchanges g <= 0.
Proof.
  intros Hs. destruct (metrics_steps_gap _ _ Hs) as [Hg (Hc & Hq & He)]; [done|done|].
  cbn [fst snd] in *. subst g.
  cbn [gap_of gap_ready gap_unacked gap_consumers gap_queues gap_exchanges] in *. split_and!; lia.
Qed.

(** ** Examples *)

Definition recorded (fs : list (Collector → Collector)) : Collector :=
  foldl (λ c f, f c) (NewCollector None) fs.
Definition of_queue (name : string) (k : counter) (c : Collector) : Z := counts_of name (queueMetrics c) k.

Lemma recording fs c g : Forall records fs → rtc metrics_step (c, g) (foldl (λ c f, f c) c fs, g).
Proof.
  intros Hf. revert c. induction Hf as [|f fs Hf _ IH]; intros c; [apply rtc_refl|].
  eapply rtc_l; [by apply (ms_record f)|]. apply IH.
Qed.

(** A message that waits in a queue, and one that a consumer has; the queue is
    deleted. *)
Definition busy_queue : list (Collector → Collector) :=
  [RecordConsumerAdded "orders" 0; RecordQueuePublish "orders" 1; RecordQueuePublish "orders" 2;
   RecordQueueDelivery "orders" false 3].

Lemma gauges_add_up_witness :
  let c := RemoveQueue "bills" (recorded busy_queue) in
  rtc metrics_step (NewCollector None, no_gap) (c, widen 0 0 (-1) 0 no_gap) ∧
  col_counts c consumerCount = 1 ∧ col_counts c readyDepth = 1 ∧ col_counts c unackedDepth = 1 ∧
  col_counts c queueCount = 0.
Proof.
  intros c. assert (Hs : rtc metrics_step (NewCollector None, no_gap) (c, widen 0 0 (-1) 0 no_gap)).
  { eapply rtc_r; [apply (recording busy_queue); repeat constructor|].
    exact (ms_remove_queue "bills" (recorded busy_queue) no_gap). }
  split; [exact Hs|].
  destruct (gauges_add_up None c _ Hs) as (-> & -> & -> & -> & _).
  split_and!; by vm_compute.
Defined.

(** The messages of a deleted queue stay in the broker's depths. *)
Lemma deleted_queue_keeps_depth :
  let c := RemoveQueue "orders" (recorded busy_queue) in
  size (queueMetrics c) = 0%nat ∧ col_counts c readyDepth = 1 ∧ col_counts c unackedDepth = 1 ∧
  col_counts c queueCount = 0.
Proof. split_and!; by vm_compute. Qed.

(** Deleting a queue without traffic counts one queue less than there are. *)
Lemma deleted_idle_queue_miscounts : col_counts (RemoveQueue "orders" (NewCollector None)) queueCount = -1.
Proof. by vm_compute. Qed.

(** The calls for a message that the delivery loop takes, pushes back
    (queue.go:249), takes again and delivers: one is left in an empty queue. *)
Lemma pushed_back_counts_twice :
  of_queue "orders" Depth (recorded [RecordQueuePublish "orders" 0; RecordQueueRequeue "orders" 1;
    RecordQueueDelivery "orders" true 2]) = 1.
Proof. by vm_compute. Qed.

(** The calls for a message that is delivered, requeued by basic.recover
    (recover.go:87), delivered again and acknowledged: one stays outstanding. *)
Lemma recovered_message_stays_unacked :
  of_queue "orders" UnackedCount (recorded [RecordQueuePublish "orders" 0; RecordQueueDelivery "orders" false 1;
    RecordQueueRequeue "orders" 2; RecordQueueDelivery "orders" false 3; RecordQueueAck "orders" 4]) = 1.
Proof. by vm_compute. Qed.

(** Deliveries that are to be acknowledged have no part in the delivery rate. *)
Lemma manual_deliveries_not_in_rate :
  let c := recorded [sampleBrokerMetrics 0; RecordQueuePublish "orders" 1; RecordQueueDelivery "orders" false 2;
    sampleBrokerMetrics minute] in
  bs_DeliveredTotal (GetBrokerSnapshot c) = 1 ∧ bs_DeliveryRate (GetBrokerSnapshot c) = zero.
Proof. split; by vm_compute. Qed.

(** Clearing leaves the depths and the totals. *)
Lemma clear_keeps_depths : col_counts (Clear (recorded busy_queue)) readyDepth = 1.
Proof. by vm_compute. Qed.

(** A channel whose client sends channel.flow with active = true is never shown
    as running again. *)
Lemma resumed_channel_never_runs now cm :
  cm_State (sampleChannelMetrics now (set_State "flow" cm)) = "flow".
Proof. by destruct cm. Qed.
