(* ===== verification/Values.v ===== *)
(** * Go's dynamically typed values as the broker uses them

    A value of type [any] in an AMQP table, message header or queue argument
    (internal/core/amqp/types.go, encode.go, decode.go).  A map is the list of
    its entries in the order in which Go happens to iterate over it: theorems
    quantify over the list, so over every iteration order. *)

From stdpp Require Import base list strings.
From Stdlib Require Import ZArith Lia.
From S2P Require Import Prelude.

(** [VDec] is the named type [decimal] of types.go; [VAnonDec] is the anonymous
    struct that [DecodeTable] builds for a 'D' field.  They are different Go
    types.  Floats are kept as their IEEE bit patterns, a [time.Time] as Unix
    seconds and nanoseconds. *)
Inductive value : Type :=
| VNil
| VBool (b : bool)
| VI8 (z : Z) | VU8 (z : Z)
| VI16 (z : Z) | VU16 (z : Z)
| VI32 (z : Z) | VU32 (z : Z)
| VI64 (z : Z) | VU64 (z : Z)
| VInt (z : Z)
| VF32 (bits : Z) | VF64 (bits : Z)
| VDec (scale val : Z)
| VAnonDec (scale val : Z)
| VStr (s : string)
| VTime (sec nsec : Z)
| VTable (t : list (string * value))
| VArr (l : list value)
| VStrs (l : list string)
| VTables (l : list (list (string * value))).

(** [map[string]any]; a field that can be a nil map is an [option table]. *)
Definition table : Type := list (string * value).

Fixpoint tbl_get (k : string) (t : table) : option value :=
  match t with
  | [] => None
  | (k', v) :: t' => if decide (k' = k) then Some v else tbl_get k t'
  end.

(** [t[k] = v]: replaces the entry of [k], or adds one. *)
Fixpoint tbl_set (k : string) (v : value) (t : table) : table :=
  match t with
  | [] => [(k, v)]
  | (k', v') :: t' => if decide (k' = k) then (k, v) :: t' else (k', v') :: tbl_set k v t'
  end.

(** Lookup in a possibly nil map: reading a nil map finds nothing. *)
Definition args_get (k : string) (a : option table) : option value :=
  match a with Some t => tbl_get k t | None => None end.

(** Structural induction through the nested lists. *)
Section value_rect.
Variable P : value → Prop.
Hypothesis Hflat : ∀ v,
  match v with VTable _ | VArr _ | VTables _ => True | _ => P v end.
Hypothesis Htable : ∀ t, Forall (λ kv, P kv.2) t → P (VTable t).
Hypothesis Harr : ∀ l, Forall P l → P (VArr l).
Hypothesis Htables : ∀ l, Forall (Forall (λ kv, P kv.2)) l → P (VTables l).

Fixpoint value_ind' (v : value) : P v :=
  let tbl := fix tbl (t : table) : Forall (λ kv, P kv.2) t :=
    match t with
    | [] => @Forall_nil_2 _ _
    | kv :: t' => Forall_cons_2 _ kv t' (value_ind' kv.2) (tbl t')
    end in
  match v with
  | VTable t => Htable t (tbl t)
  | VArr l => Harr l ((fix arr l : Forall P l :=
      match l with
      | [] => @Forall_nil_2 _ _
      | v :: l' => Forall_cons_2 _ v l' (value_ind' v) (arr l')
      end) l)
  | VTables l => Htables l ((fix tbls l : Forall (Forall (λ kv, P kv.2)) l :=
      match l with
      | [] => @Forall_nil_2 _ _
      | t :: l' => Forall_cons_2 _ t l' (tbl t) (tbls l')
      end) l)
  | v => Hflat v
  end.
End value_rect.

(** ** Table lemmas *)

Lemma tbl_get_set_eq k v t : tbl_get k (tbl_set k v t) = Some v.
Proof.
  induction t as [|[k' v'] t IH]; simpl; [by rewrite decide_True|].
  case_decide; simpl; [by rewrite decide_True|]. by rewrite decide_False.
Qed.

Lemma tbl_get_set_ne k k' v t : k ≠ k' → tbl_get k (tbl_set k' v t) = tbl_get k t.
Proof.
  intros Hne. induction t as [|[k2 v2] t IH]; simpl; [by rewrite decide_False|].
  destruct (decide (k2 = k')) as [->|]; simpl.
  - by rewrite !decide_False.
  - by rewrite IH.
Qed.

Lemma tbl_set_fresh k v t : k ∉ t.*1 → tbl_set k v t = t ++ [(k, v)].
Proof.
  induction t as [|[k' v'] t IH]; simpl; [done|].
  rewrite not_elem_of_cons. intros [??]. rewrite decide_False by done.
  by rewrite IH.
Qed.
