(* ===== verification/Reader.v ===== *)
(** * Reading a payload: the primitive decoders of decode.go

    A [bytes.Reader] is the list of bytes still unread; a decoder is a [reader],
    which returns its value and what is left, or Go's error.  The field-level
    readers of internal/core/amqp/decode.go are here. *)

From stdpp Require Import base list strings.
From Stdlib Require Import ZArith Lia.
From Stdlib Require Import Strings.Byte.
From S2P Require Import Prelude Bytes Values.

Local Open Scope Z_scope.

(** The errors of the parsers: [io.EOF], [io.ErrUnexpectedEOF], an error text,
    an error text that wraps another error, a Go run-time panic (no error value:
    it unwinds the caller too), and the model's own [OutOfFuel], which
    [FieldTable.decoders_total] shows never to occur. *)
Inductive perr : Type :=
| EOF
| UnexpectedEOF
| Msg (text : string)
| Wrap (text : string) (e : perr)
| Panic (text : string)
| OutOfFuel.

#[export] Instance perr_eq_dec : EqDecision perr.
Proof. solve_decision. Defined.

Definition reader (A : Type) : Type := list byte → res perr (A * list byte).

#[export] Instance reader_mret : MRet reader := fun A a buf => Ok (a, buf).
#[export] Instance reader_fmap : FMap reader := fun A B f r buf =>
  match r buf with
  | Ok (a, buf') => Ok (f a, buf')
  | Err e => Err e
  end.
#[export] Instance reader_mbind : MBind reader := fun A B f r buf =>
  match r buf with
  | Ok (a, buf') => f a buf'
  | Err e => Err e
  end.

Definition rfail {A} (e : perr) : reader A := fun _ => Err e.

(** A computation that does not touch the reader. *)
Definition lift {A} (r : res perr A) : reader A := fun buf =>
  match r with Ok a => Ok (a, buf) | Err e => Err e end.

(** [fmt.Errorf("failed to decode ...: %v", err)] *)
Definition wrap {A} (text : string) (r : reader A) : reader A := fun buf =>
  map_err (Wrap text) (r buf).

(** [buf.Len()] *)
Definition remaining : reader Z := fun buf => Ok (Z.of_nat (length buf), buf).

(** Runs a reader over a whole payload and keeps its value. *)
Definition run {A} (r : reader A) (payload : list byte) : res perr A := res_map fst (r payload).

(** [buf.ReadByte()] *)
Definition ReadByte : reader byte := fun buf =>
  match buf with
  | [] => Err EOF
  | b :: buf' => Ok (b, buf')
  end.

(** [readN]: the length is checked against what is left before anything is
    allocated. *)
Definition readN (n : Z) : reader (list byte) := fun buf =>
  if decide (Z.of_nat (length buf) < n) then Err UnexpectedEOF
  else Ok (take (Z.to_nat n) buf, drop (Z.to_nat n) buf).

(** [sliceN] returns a sub-slice instead of a copy: the same bytes. *)
Definition sliceN (n : Z) : reader (list byte) := fun buf =>
  if decide (Z.of_nat (length buf) < n) then Err UnexpectedEOF
  else Ok (take (Z.to_nat n) buf, drop (Z.to_nat n) buf).

(** [binary.Read] of a [w]-byte big-endian integer. *)
Definition read_be (w : nat) : reader Z := fun buf =>
  if decide (length buf < w)%nat
  then Err (match buf with [] => EOF | _ => UnexpectedEOF end)
  else Ok (be_dec (take w buf), drop w buf).

Definition read_be_signed (w : nat) : reader Z := z ← read_be w; mret (to_signed w z).

Definition DecodeShortInt : reader Z := read_be 2.
Definition DecodeLongInt : reader Z := read_be_signed 4.
Definition DecodeLongUInt : reader Z := read_be 4.
Definition DecodeLongLongInt : reader Z := read_be_signed 8.
Definition DecodeLongLongUInt : reader Z := read_be 8.

Definition DecodeBoolean : reader bool :=
  v ← read_be 1;
  mret (negb (bool_decide (v = 0))).

(** [time.Unix(timestamp, 0)] *)
Definition DecodeTimestamp : reader value :=
  ts ← wrap "failed to decode timestamp" (read_be_signed 8);
  mret (VTime ts 0).

Definition DecodeLongStr : reader string :=
  strLen ← read_be 4;
  if decide (strLen = 0) then mret EmptyString
  else (strData ← readN strLen; mret (string_of strData)).

Definition DecodeShortStr : reader string :=
  strLen ← read_be 1;
  strData ← readN strLen;
  mret (string_of strData).

(** [DecodeFlags(octet, names, lsbFirst)[names[i]]], for one flag: the parsers
    build the map and look every name up once. *)
Definition flag_bit (octet : byte) (i : Z) (lsbFirst : bool) : bool :=
  Z.testbit (Z_of_byte octet) (if lsbFirst then i else 7 - i).

Fixpoint flags_from (octet : byte) (i : Z) (lsbFirst : bool) (names : list string)
    : list (string * bool) :=
  match names with
  | [] => []
  | n :: ns => (n, flag_bit octet i lsbFirst) :: flags_from octet (i + 1) lsbFirst ns
  end.

(** [DecodeFlags]: names after the eighth are ignored.  The map is the list of
    its entries; every caller passes distinct names. *)
Definition DecodeFlags (octet : byte) (names : list string) (lsbFirst : bool)
    : list (string * bool) :=
  flags_from octet 0 lsbFirst (take 8 names).

(** [flags[name]]: [false] for a missing key. *)
Fixpoint get_flag (flags : list (string * bool)) (name : string) : bool :=
  match flags with
  | [] => false
  | (n, b) :: fs => if decide (n = name) then b else get_flag fs name
  end.

(** ** The readers on the bytes their encoders write *)

Lemma bind_reader {A B} (r : reader A) (f : A → reader B) buf :
  (r ≫= f) buf = match r buf with Ok (a, buf') => f a buf' | Err e => Err e end.
Proof. done. Qed.

Lemma ReadByte_cons b buf : ReadByte (b :: buf) = Ok (b, buf).
Proof. done. Qed.

Lemma readN_app n l buf : n = Z.of_nat (length l) → readN n (l ++ buf) = Ok (l, buf).
Proof.
  intros ->. unfold readN. rewrite length_app. rewrite decide_False by lia.
  by rewrite Nat2Z.id, take_app_length, drop_app_length.
Qed.

Lemma sliceN_app n l buf : n = Z.of_nat (length l) → sliceN n (l ++ buf) = Ok (l, buf).
Proof. apply readN_app. Qed.

Lemma read_be_enc w z buf :
  read_be w (be_enc w z ++ buf) = Ok (z mod 256 ^ Z.of_nat w, buf).
Proof.
  unfold read_be. rewrite length_app, length_be_enc, decide_False by lia.
  rewrite take_app_length', drop_app_length' by (by rewrite length_be_enc).
  by rewrite be_dec_enc.
Qed.

Lemma read_be_enc_small w z buf :
  0 <= z < 2 ^ (8 * Z.of_nat w) → read_be w (be_enc w z ++ buf) = Ok (z, buf).
Proof. intros. rewrite read_be_enc, Z.mod_small; [done|]. by rewrite pow_256. Qed.

Lemma read_be_signed_enc w z buf :
  (0 < w)%nat → - 2 ^ (8 * Z.of_nat w - 1) <= z < 2 ^ (8 * Z.of_nat w - 1) →
  read_be_signed w (be_enc w z ++ buf) = Ok (z, buf).
Proof.
  intros Hw Hz. unfold read_be_signed. rewrite bind_reader, read_be_enc. cbn.
  by rewrite <-be_dec_enc, to_signed_enc.
Qed.

(** Every successful read consumes a prefix of the payload. *)
Definition consumes {A} (r : reader A) : Prop :=
  ∀ buf a buf', r buf = Ok (a, buf') → (length buf' ≤ length buf)%nat.

Lemma consumes_ret {A} (a : A) : consumes (mret a : reader A).
Proof. intros ???. by intros [= <- <-]. Qed.

Lemma consumes_bind {A B} (r : reader A) (f : A → reader B) :
  consumes r → (∀ a, consumes (f a)) → consumes (r ≫= f).
Proof.
  intros Hr Hf buf b buf'. rewrite bind_reader.
  destruct (r buf) as [[a buf1]|] eqn:E; [|done]. intros H.
  apply Hr in E. apply Hf in H. lia.
Qed.

Lemma consumes_lift {A} (r : res perr A) : consumes (lift r).
Proof. intros ??? H. unfold lift in H. destruct r; by simplify_eq. Qed.

Lemma consumes_fail {A} e : consumes (@rfail A e).
Proof. by intros ???. Qed.

Lemma consumes_wrap {A} t (r : reader A) : consumes r → consumes (wrap t r).
Proof. intros Hr ??? H%map_err_ok. eauto. Qed.

Lemma consumes_ReadByte : consumes ReadByte.
Proof. intros [|b buf] ?? H; simplify_eq/=. lia. Qed.

Lemma consumes_readN n : consumes (readN n).
Proof.
  intros buf ?? H. unfold readN in H. case_decide; simplify_eq.
  rewrite length_drop. lia.
Qed.

Lemma consumes_read_be w : consumes (read_be w).
Proof.
  intros buf ?? H. unfold read_be in H. case_decide; simplify_eq.
  rewrite length_drop. lia.
Qed.

#[export] Hint Resolve consumes_ret consumes_bind consumes_lift consumes_fail consumes_wrap
  consumes_ReadByte consumes_readN consumes_read_be : otter.

(** Reduces the goal [consumes (... ≫= ...)] to its reads. *)
Ltac consumes_tac :=
  repeat first
    [ apply consumes_bind; [|intros ?]
    | apply consumes_wrap
    | apply consumes_ret | apply consumes_fail | apply consumes_lift
    | apply consumes_ReadByte | apply consumes_readN | apply consumes_read_be
    | case_decide
    | progress case_match ].
