(* ===== verification/FieldTable.v ===== *)
(** * AMQP field tables: encode.go and decode.go

    The encoders [encodeValueToBuffer], [EncodeTable], [EncodeArray] and the
    decoders [DecodeTable], [DecodeArray].  The decoders recurse over the bytes
    of nested tables and arrays; the model runs them with fuel, and
    [decoders_total] shows that one more than the payload's length is always
    enough, whatever the bytes are. *)

From stdpp Require Import base list strings.
From Stdlib Require Import ZArith Lia.
From Stdlib Require Import Strings.Byte.
From S2P Require Import Prelude Bytes Values Reader.

Local Open Scope Z_scope.

(** ** Encoding *)

(** The only errors of the encoders: a short string over 255 bytes, directly or
    as a field name. *)
Inductive enc_err : Type :=
| ShortStrTooLong (len : Z)
| EncodeFieldName (e : enc_err).

#[export] Instance enc_err_eq_dec : EqDecision enc_err.
Proof. solve_decision. Defined.

Definition tag (c : string) : byte :=
  match bytes_of c with b :: _ => b | [] => x00 end.

Definition EncodeShortStr (s : string) : res enc_err (list byte) :=
  if decide (255 < slen s) then Err (ShortStrTooLong (slen s))
  else Ok (be_enc 1 (slen s) ++ bytes_of s).

(** [uint32(len(data))]: [be_enc 4] keeps the low 32 bits. *)
Definition EncodeLongStr (data : list byte) : list byte :=
  be_enc 4 (Z.of_nat (length data)) ++ data.

#[global] Arguments EncodeLongStr : simpl never.

Lemma length_EncodeLongStr d : length (EncodeLongStr d) = (4 + length d)%nat.
Proof. unfold EncodeLongStr. by rewrite length_app, length_be_enc. Qed.

Section encode_containers.
Variable enc : value → res enc_err (list byte).

Fixpoint EncodeTable_with (t : table) : res enc_err (list byte) :=
  match t with
  | [] => mret []
  | (key, v) :: t' =>
      name ← map_err EncodeFieldName (EncodeShortStr key);
      field ← enc v;
      rest ← EncodeTable_with t';
      mret (name ++ field ++ rest)
  end.

Fixpoint EncodeArray_with (l : list value) : res enc_err (list byte) :=
  match l with
  | [] => mret []
  | v :: l' =>
      item ← enc v;
      rest ← EncodeArray_with l';
      mret (item ++ rest)
  end.
End encode_containers.

(** [[]string] and [[]map[string]any] are first converted to [[]any]; their
    elements are then encoded as strings and as tables. *)
Fixpoint encodeValueToBuffer (v : value) : res enc_err (list byte) :=
  let encodeTableField := fun t : table =>
    data ← EncodeTable_with encodeValueToBuffer t;
    mret (tag "F" :: EncodeLongStr data) in
  match v with
  | VBool b => mret [tag "t"; if b then x01 else x00]
  | VI8 z => mret (tag "b" :: be_enc 1 z)
  | VU8 z => mret (tag "B" :: be_enc 1 z)
  | VI16 z => mret (tag "U" :: be_enc 2 z)
  | VU16 z => mret (tag "u" :: be_enc 2 z)
  | VI32 z => mret (tag "I" :: be_enc 4 z)
  (* [binary.Write] refuses an [int], which has no fixed size, and the error
     is discarded: only the type octet is written. *)
  | VInt _ => mret [tag "I"]
  | VU32 z => mret (tag "i" :: be_enc 4 z)
  | VI64 z => mret (tag "L" :: be_enc 8 z)
  | VU64 z => mret (tag "l" :: be_enc 8 z)
  | VF32 bits => mret (tag "f" :: be_enc 4 bits)
  | VF64 bits => mret (tag "d" :: be_enc 8 bits)
  | VDec scale val => mret (tag "D" :: be_enc 1 scale ++ be_enc 4 val)
  | VStr s => mret (tag "S" :: EncodeLongStr (bytes_of s))
  | VTable t => encodeTableField t
  | VTables l =>
      data ← (fix arr (l : list table) : res enc_err (list byte) :=
        match l with
        | [] => mret []
        | t :: l' =>
            item ← encodeTableField t;
            rest ← arr l';
            mret (item ++ rest)
        end) l;
      mret (tag "A" :: EncodeLongStr data)
  | VStrs l =>
      data ← EncodeArray_with (λ v, match v with
        | VStr s => mret (tag "S" :: EncodeLongStr (bytes_of s))
        | _ => mret []
        end) (VStr <$> l);
      mret (tag "A" :: EncodeLongStr data)
  | VTime sec _ => mret (tag "T" :: be_enc 8 sec)
  | VArr l =>
      data ← EncodeArray_with encodeValueToBuffer l;
      mret (tag "A" :: EncodeLongStr data)
  | VAnonDec _ _ | VNil => mret [tag "V"]
  end.

Definition EncodeTable : table → res enc_err (list byte) :=
  EncodeTable_with encodeValueToBuffer.
Definition EncodeArray : list value → res enc_err (list byte) :=
  EncodeArray_with encodeValueToBuffer.

(** [encodeHeaders] *)
Definition encodeHeaders (t : table) : res enc_err (list byte) :=
  encodedTable ← EncodeTable t;
  mret (EncodeLongStr encodedTable).

(** ** Decoding *)

(** The cases that [DecodeTable] and [DecodeArray] share. *)
Definition decode_scalar (c : byte) : option (reader value) :=
  if decide (c = tag "t") then Some (VBool <$> DecodeBoolean) else
  if decide (c = tag "b") then Some (VI8 <$> read_be_signed 1) else
  if decide (c = tag "B") then Some (VU8 <$> read_be 1) else
  if decide (c = tag "U") then Some (VI16 <$> read_be_signed 2) else
  if decide (c = tag "u") then Some (VU16 <$> read_be 2) else
  if decide (c = tag "I") then Some (VI32 <$> DecodeLongInt) else
  if decide (c = tag "i") then Some (VU32 <$> DecodeLongUInt) else
  if decide (c = tag "L") then Some (VI64 <$> DecodeLongLongInt) else
  if decide (c = tag "l") then Some (VU64 <$> DecodeLongLongUInt) else
  if decide (c = tag "f") then Some (VF32 <$> read_be 4) else
  if decide (c = tag "d") then Some (VF64 <$> read_be 8) else
  if decide (c = tag "s") then Some (VStr <$> DecodeShortStr) else
  if decide (c = tag "S") then Some (VStr <$> DecodeLongStr) else
  if decide (c = tag "T") then Some DecodeTimestamp else
  if decide (c = tag "V") then Some (mret VNil) else None.

(** ['D']: a scale octet and a 32-bit value, in an anonymous struct.  Only
    [DecodeTable] has this case. *)
Definition decode_decimal : reader value :=
  scale ← read_be 1;
  val ← read_be 4;
  mret (VAnonDec scale val).

(** The value of a field of a table, given how its nested containers decode. *)
Definition decode_field (decT : list byte → res perr table)
    (decA : list byte → res perr (list value)) (fieldType : byte) : reader value :=
  match decode_scalar fieldType with
  | Some r => r
  | None =>
      if decide (fieldType = tag "D") then decode_decimal
      else if decide (fieldType = tag "A") then
        arrayLength ← read_be 4;
        arrayData ← sliceN arrayLength;
        VArr <$> lift (decA arrayData)
      else if decide (fieldType = tag "F") then
        strLength ← read_be 4;
        strValue ← sliceN strLength;
        VTable <$> lift (decT strValue)
      else rfail (Wrap "unknown field type" (Msg (string_of [fieldType])))
  end.

(** The value of an element of an array. *)
Definition decode_element (decT : list byte → res perr table)
    (decA : list byte → res perr (list value)) (valueType : byte) : reader value :=
  match decode_scalar valueType with
  | Some r => r
  | None =>
      if decide (valueType = tag "F") then
        tableLength ← read_be 4;
        tableData ← sliceN tableLength;
        VTable <$> lift (decT tableData)
      else if decide (valueType = tag "A") then
        arrayLength ← read_be 4;
        arrayData ← sliceN arrayLength;
        VArr <$> lift (decA arrayData)
      else rfail (Wrap "unknown array element type" (Msg (string_of [valueType])))
  end.

(** One iteration of each loop: a named field, and an array element. *)
Definition decode_entry (decT : list byte → res perr table)
    (decA : list byte → res perr (list value)) : reader (string * value) :=
  fieldNameLength ← ReadByte;
  fieldName ← readN (Z_of_byte fieldNameLength);
  fieldType ← ReadByte;
  v ← decode_field decT decA fieldType;
  mret (string_of fieldName, v).

Definition decode_item (decT : list byte → res perr table)
    (decA : list byte → res perr (list value)) : reader value :=
  valueType ← ReadByte;
  decode_element decT decA valueType.

(** The loops [for buf.Len() > 0 { ... }]; the accumulators are [table] and
    [result] of the source. *)
Fixpoint decode_table_loop (fuel : nat) (acc : table) (data : list byte) : res perr table :=
  match fuel with
  | O => Err OutOfFuel
  | S fuel' =>
      match data with
      | [] => Ok acc
      | _ =>
          '(fieldName, v, data') ←
            decode_entry (decode_table_loop fuel' []) (decode_array_loop fuel' []) data;
          decode_table_loop fuel' (tbl_set fieldName v acc) data'
      end
  end
with decode_array_loop (fuel : nat) (acc : list value) (data : list byte) : res perr (list value) :=
  match fuel with
  | O => Err OutOfFuel
  | S fuel' =>
      match data with
      | [] => Ok acc
      | _ =>
          '(v, data') ←
            decode_item (decode_table_loop fuel' []) (decode_array_loop fuel' []) data;
          decode_array_loop fuel' (acc ++ [v]) data'
      end
  end.

Definition DecodeTable (data : list byte) : res perr table :=
  decode_table_loop (S (length data)) [] data.
Definition DecodeArray (data : list byte) : res perr (list value) :=
  decode_array_loop (S (length data)) [] data.

Example decode_nested_example :
  DecodeTable ([x01] ++ bytes_of "k" ++ [tag "F"] ++ be_enc 4 4 ++ [x01] ++ bytes_of "b"
    ++ [tag "t"; x01]) = Ok [("k", VTable [("b", VBool true)])].
Proof. vm_compute. reflexivity. Qed.

(** ** Termination of the decoders *)

Definition never_oof {A} (n : nat) (r : reader A) : Prop :=
  ∀ buf, (length buf ≤ n)%nat → r buf ≠ Err OutOfFuel.

Lemma never_oof_bind {A B} n (r : reader A) (f : A → reader B) :
  never_oof n r → consumes r → (∀ a, never_oof n (f a)) → never_oof n (r ≫= f).
Proof.
  intros Hr Hc Hf buf Hb. rewrite bind_reader.
  destruct (r buf) as [[a buf']|e] eqn:E.
  - apply Hf. apply Hc in E. lia.
  - intros [= ->]. by apply (Hr buf Hb).
Qed.

Lemma never_oof_fmap {A B} n (r : reader A) (f : A → B) : never_oof n r → never_oof n (f <$> r).
Proof.
  intros Hr buf Hb H. unfold fmap, reader_fmap in H. specialize (Hr buf Hb).
  destruct (r buf) as [[]|]; congruence.
Qed.

Lemma never_oof_read_be n w : never_oof n (read_be w).
Proof. intros buf _. unfold read_be. case_decide; [by destruct buf|done]. Qed.

Lemma never_oof_readN n k : never_oof n (readN k).
Proof. intros buf _. unfold readN. by case_decide. Qed.

Lemma never_oof_wrap {A} n t (r : reader A) : never_oof n (wrap t r).
Proof. intros buf _. unfold wrap. by destruct (r buf) as [[]|]. Qed.

Lemma never_oof_ret {A} n (a : A) : never_oof n (mret a : reader A).
Proof. by intros ??. Qed.

Ltac never_oof_tac :=
  repeat first
    [ apply never_oof_fmap
    | apply never_oof_bind; [| |intros ?]
    | apply never_oof_read_be | apply never_oof_readN | apply never_oof_wrap
    | apply never_oof_ret
    | progress case_decide ];
  eauto with otter.

Lemma decode_scalar_never_oof c r n : decode_scalar c = Some r → never_oof n r.
Proof.
  unfold decode_scalar. intros H.
  repeat (case_decide; [injection H as <-; unfold DecodeBoolean, DecodeTimestamp,
    DecodeShortStr, DecodeLongStr, read_be_signed; never_oof_tac; consumes_tac|]).
  done.
Qed.

(** A length-prefixed container decodes a slice of what is left. *)
Lemma never_oof_slice {A} n (len : Z) (f : list byte → res perr A) :
  (∀ d, (length d ≤ n)%nat → f d ≠ Err OutOfFuel) →
  never_oof n (d ← sliceN len; lift (f d)).
Proof.
  intros Hf buf Hb. rewrite bind_reader. unfold sliceN. case_decide; [done|].
  unfold lift. specialize (Hf (take (Z.to_nat len) buf)).
  rewrite length_take in Hf. destruct (f _); [done|]. intros [= ->]. apply Hf; [lia|done].
Qed.

Lemma never_oof_slice_fmap {A B} n len (f : list byte → res perr A) (g : A → B) :
  (∀ d, (length d ≤ n)%nat → f d ≠ Err OutOfFuel) →
  never_oof n (d ← sliceN len; g <$> lift (f d)).
Proof.
  intros Hf buf Hb H. apply (never_oof_slice n len f Hf buf Hb).
  unfold mbind, reader_mbind in H |- *. destruct (sliceN len buf) as [[d b]|]; [|congruence].
  unfold fmap, reader_fmap in H. destruct (lift (f d) b) as [[]|]; congruence.
Qed.

Lemma decode_field_never_oof n decT decA c :
  (∀ d, (length d ≤ n)%nat → decT d ≠ Err OutOfFuel) →
  (∀ d, (length d ≤ n)%nat → decA d ≠ Err OutOfFuel) →
  never_oof n (decode_field decT decA c) ∧ never_oof n (decode_element decT decA c).
Proof.
  intros HT HA. unfold decode_field, decode_element, decode_decimal.
  destruct (decode_scalar c) as [r|] eqn:E; [eauto using decode_scalar_never_oof|].
  split; repeat case_decide; try (by intros ??); try (by never_oof_tac);
    (apply never_oof_bind; [apply never_oof_read_be|eauto with otter|intros ?];
     by apply never_oof_slice_fmap).
Qed.

(** What is left after a field is shorter than the payload. *)
Lemma consumes_field decT decA c :
  consumes (decode_field decT decA c) ∧ consumes (decode_element decT decA c).
Proof.
  assert (∀ A B (f : A → B) (r : reader A), consumes r → consumes (f <$> r)) as Hmap.
  { intros A B f r Hr buf b buf' H. unfold fmap, reader_fmap in H.
    destruct (r buf) as [[a b1]|] eqn:E; simplify_eq. by apply Hr in E. }
  assert (∀ r, decode_scalar c = Some r → consumes r) as Hsc.
  { intros r H. unfold decode_scalar in H.
    repeat (case_decide; [injection H as <-; unfold DecodeBoolean, DecodeTimestamp,
      DecodeShortStr, DecodeLongStr, DecodeLongInt, DecodeLongUInt, DecodeLongLongInt,
      DecodeLongLongUInt, read_be_signed;
      repeat apply Hmap; consumes_tac|]). done. }
  unfold decode_field, decode_element, decode_decimal.
  destruct (decode_scalar c) as [r|]; [eauto|].
  split; repeat case_decide; consumes_tac; try apply Hmap; consumes_tac;
    apply consumes_readN.
Qed.

Lemma decode_loops_never_oof fuel :
  (∀ data acc, (length data < fuel)%nat → decode_table_loop fuel acc data ≠ Err OutOfFuel) ∧
  (∀ data acc, (length data < fuel)%nat → decode_array_loop fuel acc data ≠ Err OutOfFuel).
Proof.
  induction fuel as [|fuel [IHT IHA]]; [split; intros; lia|].
  assert (∀ c n, (n < fuel)%nat →
    never_oof n (decode_field (decode_table_loop fuel []) (decode_array_loop fuel []) c) ∧
    never_oof n (decode_element (decode_table_loop fuel []) (decode_array_loop fuel []) c)) as Hf.
  { intros c n Hn. apply decode_field_never_oof; intros d Hd; [apply IHT|apply IHA]; lia. }
  split; intros [|b data] acc Hlen; simpl; try done; simpl in Hlen.
  - unfold decode_entry. rewrite bind_reader. cbn [ReadByte].
    assert (∀ r : reader (string * value), never_oof (length data) r → consumes r →
      ('(fieldName, v, data') ← r data;
       decode_table_loop fuel (tbl_set fieldName v acc) data') ≠ Err OutOfFuel) as Hgen.
    { intros r Hr Hc. specialize (Hr data (le_n _)).
      destruct (r data) as [[[nm v] data']|e] eqn:E; cbn; [|congruence].
      apply IHT. apply Hc in E. lia. }
    apply Hgen.
    + apply never_oof_bind; [apply never_oof_readN|eauto with otter|intros nm].
      apply never_oof_bind; [by intros [] ?|eauto with otter|intros c].
      apply never_oof_bind; [apply Hf; lia|apply consumes_field|intros v].
      apply never_oof_ret.
    + apply consumes_bind; [eauto with otter|intros nm].
      apply consumes_bind; [eauto with otter|intros c].
      apply consumes_bind; [apply consumes_field|eauto with otter].
  - unfold decode_item. rewrite bind_reader. cbn [ReadByte].
    destruct (Hf b (length data) ltac:(lia)) as [_ Hne].
    specialize (Hne data (le_n _)).
    destruct (decode_element _ _ b data) as [[v data']|e] eqn:E; cbn; [|congruence].
    apply IHA. apply consumes_field in E. lia.
Qed.

(** ** Round trip

    [relay v] is what a client reads after the broker has decoded [v] from
    another client and encoded it again: the wire has no sub-second times, one
    array type, and no decimal once it has been decoded. *)

Fixpoint relay (v : value) : value :=
  match v with
  | VDec scale val => VAnonDec scale val
  | VAnonDec _ _ => VNil
  | VTime sec _ => VTime sec 0
  | VTable t => VTable ((λ kv, (kv.1, relay kv.2)) <$> t)
  | VArr l => VArr (relay <$> l)
  | VStrs l => VArr (VStr <$> l)
  | VTables l => VArr ((λ t, VTable ((λ kv, (kv.1, relay kv.2)) <$> t)) <$> l)
  | v => v
  end.

Definition relay_table (t : table) : table := (λ kv, (kv.1, relay kv.2)) <$> t.

Definition signed_range (w z : Z) : Prop := - 2 ^ (w - 1) <= z < 2 ^ (w - 1).

(** The values that fit their Go types.  [VInt] is excluded: its encoding has
    no payload ([encode_int_has_no_payload]).  So is a [decimal] inside an
    array: [DecodeArray] has no case for it. *)
Fixpoint wf_value (in_array : bool) (v : value) : Prop :=
  match v with
  | VI8 z => signed_range 8 z | VU8 z => u8 z
  | VI16 z => signed_range 16 z | VU16 z => u16 z
  | VI32 z => signed_range 32 z | VU32 z => u32 z
  | VI64 z => signed_range 64 z | VU64 z => u64 z
  | VInt _ => False
  | VF32 b => u32 b | VF64 b => u64 b
  | VDec s v => in_array = false ∧ u8 s ∧ u32 v
  | VTime sec _ => signed_range 64 sec
  | VTable t => NoDup t.*1 ∧ Forall id ((λ kv, wf_value false kv.2) <$> t)
  | VArr l => Forall id (wf_value true <$> l)
  | VTables l => Forall id ((λ t, NoDup t.*1 ∧
      Forall id ((λ kv, wf_value false kv.2) <$> t)) <$> l)
  | _ => True
  end.

Definition wf_table (t : table) : Prop :=
  NoDup t.*1 ∧ Forall (λ kv, wf_value false kv.2) t.

Lemma encode_decimal_lost scale val :
  encodeValueToBuffer (VAnonDec scale val) = Ok [tag "V"].
Proof. done. Qed.

Lemma encode_int_has_no_payload z : encodeValueToBuffer (VInt z) = Ok [tag "I"].
Proof. done. Qed.

Lemma EncodeArray_with_ext f g l :
  (∀ v, v ∈ l → f v = g v) → EncodeArray_with f l = EncodeArray_with g l.
Proof.
  induction l as [|v l IH]; intros H; [done|]. simpl.
  rewrite H by (by left). rewrite IH; [done|]. intros. apply H. by right.
Qed.

(** [[]map[string]any] and [[]string] are written as the [[]any] of their elements. *)
Lemma encode_tables_as_array l :
  encodeValueToBuffer (VTables l) = encodeValueToBuffer (VArr (VTable <$> l)).
Proof.
  simpl. f_equal. induction l as [|t l IH]; [done|]. simpl. by rewrite IH.
Qed.

Lemma encode_strings_as_array l :
  encodeValueToBuffer (VStrs l) = encodeValueToBuffer (VArr (VStr <$> l)).
Proof.
  simpl. f_equal. apply EncodeArray_with_ext.
  intros v (s & -> & _)%list_elem_of_fmap. done.
Qed.

Lemma EncodeShortStr_ok s bs :
  EncodeShortStr s = Ok bs → bs = byte_of_Z (slen s) :: bytes_of s ∧ slen s <= 255.
Proof. unfold EncodeShortStr. case_decide; [done|]. intros [= <-]. split; [done|lia]. Qed.

Lemma Z_of_byte_small z : 0 <= z < 256 → Z_of_byte (byte_of_Z z) = z.
Proof. intros. rewrite Z_of_byte_of_Z. by apply Z.mod_small. Qed.

Lemma slen_nonneg s : 0 <= slen s.
Proof. unfold slen. lia. Qed.

Lemma readN_bytes_of n s buf :
  n = slen s → readN n (bytes_of s ++ buf) = Ok (bytes_of s, buf).
Proof. intros ->. by apply readN_app. Qed.

Lemma DecodeShortStr_enc s bs buf :
  EncodeShortStr s = Ok bs → DecodeShortStr (bs ++ buf) = Ok (s, buf).
Proof.
  intros [-> Hle]%EncodeShortStr_ok. pose proof (slen_nonneg s).
  unfold DecodeShortStr. rewrite bind_reader.
  change ((byte_of_Z (slen s) :: bytes_of s) ++ buf)
    with (be_enc 1 (slen s) ++ (bytes_of s ++ buf)).
  rewrite read_be_enc_small by (simpl; lia). rewrite bind_reader.
  rewrite readN_bytes_of by done. cbn. by rewrite string_of_bytes_of.
Qed.

Lemma DecodeLongStr_enc s buf :
  slen s < 2 ^ 32 → DecodeLongStr (EncodeLongStr (bytes_of s) ++ buf) = Ok (s, buf).
Proof.
  intros Hlt. unfold DecodeLongStr, EncodeLongStr. rewrite <-app_assoc, bind_reader.
  fold (slen s). pose proof (slen_nonneg s).
  rewrite read_be_enc_small by (simpl; lia). case_decide as Hz.
  - assert (bytes_of s = []) as Hn.
    { unfold slen in Hz. destruct (bytes_of s); [done|simpl in Hz; lia]. }
    rewrite Hn. cbn. rewrite <-(string_of_bytes_of s), Hn. done.
  - rewrite bind_reader, readN_bytes_of by done. cbn. by rewrite string_of_bytes_of.
Qed.

Lemma long_container d buf :
  Z.of_nat (length d) < 2 ^ 32 →
  (n ← read_be 4; sliceN n : reader (list byte)) (EncodeLongStr d ++ buf) = Ok (d, buf).
Proof.
  intros. unfold EncodeLongStr. rewrite <-app_assoc, bind_reader.
  rewrite read_be_enc_small by (simpl; lia). by apply sliceN_app.
Qed.

Lemma long_container_lift {A B} d buf (f : list byte → res perr A) (g : A → B) a :
  Z.of_nat (length d) < 2 ^ 32 → f d = Ok a →
  (n ← read_be 4; x ← sliceN n; g <$> lift (f x) : reader B) (EncodeLongStr d ++ buf)
    = Ok (g a, buf).
Proof.
  intros Hd Hf. unfold EncodeLongStr. rewrite <-app_assoc, bind_reader.
  rewrite read_be_enc_small by (simpl; lia). rewrite bind_reader, sliceN_app by done.
  unfold fmap, reader_fmap, lift. by rewrite Hf.
Qed.

(** The decoder of a value where it stands: in an array or in a table. *)
Definition decode_at (in_array : bool) (fuel : nat) : byte → reader value :=
  (if in_array then decode_element else decode_field)
    (decode_table_loop fuel []) (decode_array_loop fuel []).

(** Decoding the encoding of [v], anywhere in a payload, with enough fuel. *)
Definition decodes (v : value) : Prop := ∀ in_array bs,
  wf_value in_array v → encodeValueToBuffer v = Ok bs → Z.of_nat (length bs) < 2 ^ 32 →
  ∃ c p, bs = c :: p ∧ ∀ fuel rest, (length bs ≤ fuel)%nat →
    decode_at in_array fuel c (p ++ rest) = Ok (relay v, rest).

Lemma decode_at_scalar in_array fuel c r :
  decode_scalar c = Some r → decode_at in_array fuel c = r.
Proof. intros H. unfold decode_at, decode_element, decode_field. by destruct in_array; rewrite H. Qed.

Lemma fmap_reader {A B} (f : A → B) (r : reader A) buf a buf' :
  r buf = Ok (a, buf') → (f <$> r) buf = Ok (f a, buf').
Proof. intros H. unfold fmap, reader_fmap. by rewrite H. Qed.

Lemma decode_table_step fuel acc b data nm v data' :
  decode_entry (decode_table_loop fuel []) (decode_array_loop fuel []) (b :: data)
    = Ok ((nm, v), data') →
  decode_table_loop (S fuel) acc (b :: data) = decode_table_loop fuel (tbl_set nm v acc) data'.
Proof. intros H. cbn [decode_table_loop]. by rewrite H. Qed.

Lemma decode_array_step fuel acc b data v data' :
  decode_item (decode_table_loop fuel []) (decode_array_loop fuel []) (b :: data)
    = Ok (v, data') →
  decode_array_loop (S fuel) acc (b :: data) = decode_array_loop fuel (acc ++ [v]) data'.
Proof. intros H. cbn [decode_array_loop]. by rewrite H. Qed.

Lemma decode_table_loop_enc t : Forall (λ kv, decodes kv.2) t →
  ∀ bs acc fuel, Forall (λ kv, wf_value false kv.2) t → NoDup (acc.*1 ++ t.*1) →
  EncodeTable t = Ok bs → Z.of_nat (length bs) < 2 ^ 32 → (length bs < fuel)%nat →
  decode_table_loop fuel acc bs = Ok (acc ++ relay_table t).
Proof.
  induction 1 as [|[k v] t Hv _ IH]; intros bs acc fuel Hwf Hnd Henc Hlen Hf.
  - injection Henc as <-. destruct fuel; [lia|]. simpl. by rewrite app_nil_r.
  - apply Forall_cons in Hwf as [Hwv Hwt]. simpl in *.
    inv_ok. apply EncodeShortStr_ok in H as [-> Hk]. pose proof (slen_nonneg k).
    rename x0 into field, x1 into rest. rename H0 into Hfield, H1 into Hrest.
    cbn [app] in Hlen, Hf |- *. rewrite !length_cons, !length_app in Hlen, Hf.
    destruct (Hv false field Hwv Hfield ltac:(lia)) as (c & p & -> & Hdec).
    unfold decode_at in Hdec. destruct fuel as [|fuel]; [lia|].
    erewrite decode_table_step.
    2: { unfold decode_entry. rewrite bind_reader. cbn [ReadByte].
         rewrite bind_reader, readN_bytes_of by (apply Z_of_byte_small; lia).
         rewrite bind_reader. cbn [app ReadByte]. rewrite bind_reader.
         rewrite (Hdec fuel) by (simpl in *; lia). by rewrite string_of_bytes_of. }
    rewrite tbl_set_fresh. 2: { apply NoDup_app in Hnd as (_ & Hd & _). intros Hin. apply (Hd k); [done|by left]. }
    rewrite IH with (bs := rest); [|done| |done|simpl in *; lia|simpl in *; lia].
    + by rewrite <-app_assoc.
    + rewrite fmap_app. simpl. by rewrite <-app_assoc.
Qed.

Lemma decode_array_loop_enc l : Forall decodes l →
  ∀ bs acc fuel, Forall (wf_value true) l →
  EncodeArray l = Ok bs → Z.of_nat (length bs) < 2 ^ 32 → (length bs < fuel)%nat →
  decode_array_loop fuel acc bs = Ok (acc ++ (relay <$> l)).
Proof.
  induction 1 as [|v l Hv _ IH]; intros bs acc fuel Hwf Henc Hlen Hf.
  - injection Henc as <-. destruct fuel; [lia|]. simpl. by rewrite app_nil_r.
  - apply Forall_cons in Hwf as [Hwv Hwl]. simpl in *. inv_ok.
    rename x into item, x0 into rest. rename H into Hitem, H0 into Hrest.
    rewrite !length_app in Hlen, Hf.
    destruct (Hv true item Hwv Hitem ltac:(lia)) as (c & p & -> & Hdec).
    unfold decode_at in Hdec. destruct fuel as [|fuel]; [lia|]. cbn [app].
    erewrite decode_array_step.
    2: { unfold decode_item. rewrite bind_reader. cbn [ReadByte].
         apply (Hdec fuel). simpl in *; lia. }
    rewrite IH with (bs := rest); [|done|done|simpl in *; lia|simpl in *; lia].
    by rewrite <-app_assoc.
Qed.

(** Scalars: their decoder reads back exactly what was written. *)
Lemma decodes_scalar v c p r :
  encodeValueToBuffer v = Ok (c :: p) → decode_scalar c = Some r →
  (∀ in_array, wf_value in_array v → Z.of_nat (length (c :: p)) < 2 ^ 32 →
    ∀ rest, r (p ++ rest) = Ok (relay v, rest)) →
  decodes v.
Proof.
  intros Henc Hc Hr in_array bs Hwf Hbs Hlen. rewrite Henc in Hbs. injection Hbs as <-.
  exists c, p. split; [done|]. intros fuel rest _. rewrite (decode_at_scalar _ _ _ _ Hc). eauto.
Qed.

Lemma decodes_str s : decodes (VStr s).
Proof.
  eapply decodes_scalar; [done|done|]. intros _ _ Hlen rest.
  apply (fmap_reader VStr). apply DecodeLongStr_enc. revert Hlen.
  unfold EncodeLongStr, slen. rewrite length_cons, length_app, length_be_enc. lia.
Qed.

Lemma decodes_array l : Forall decodes l → decodes (VArr l).
Proof.
  intros Hl in_array bs Hwf Henc Hlen. cbn [encodeValueToBuffer] in Henc. inv_ok. fold (EncodeArray l) in H.
  rewrite length_cons, length_EncodeLongStr in Hlen.
  cbn [wf_value] in Hwf. rewrite Forall_fmap in Hwf.
  eexists _, _. split; [done|]. intros fuel rest Hf.
  rewrite length_cons, length_EncodeLongStr in Hf.
  pose proof (decode_array_loop_enc l Hl x [] fuel Hwf H ltac:(lia) ltac:(lia)) as Hd.
  destruct in_array; cbn [decode_at];
    apply (long_container_lift x rest (decode_array_loop fuel []) VArr _ ltac:(lia) Hd).
Qed.

Lemma decodes_table t : Forall (λ kv, decodes kv.2) t → decodes (VTable t).
Proof.
  intros Ht in_array bs Hwf Henc Hlen. cbn [encodeValueToBuffer] in Henc. inv_ok. fold (EncodeTable t) in H.
  rewrite length_cons, length_EncodeLongStr in Hlen.
  cbn [wf_value] in Hwf. destruct Hwf as [Hnd Hwf].
  rewrite Forall_fmap in Hwf.
  eexists _, _. split; [done|]. intros fuel rest Hf.
  rewrite length_cons, length_EncodeLongStr in Hf.
  pose proof (decode_table_loop_enc t Ht x [] fuel Hwf Hnd H ltac:(lia) ltac:(lia)) as Hd.
  destruct in_array; cbn [decode_at];
    apply (long_container_lift x rest (decode_table_loop fuel []) VTable _ ltac:(lia) Hd).
Qed.

(** Two values with the same encoding and the same reading. *)
Lemma decodes_as v v' :
  encodeValueToBuffer v = encodeValueToBuffer v' → relay v = relay v' →
  (∀ a, wf_value a v → wf_value a v') → decodes v' → decodes v.
Proof. intros He Hr Hw Hv a bs Hwf Henc Hlen. rewrite Hr. apply (Hv a bs); [auto|congruence|done]. Qed.

Lemma decodes_flat v :
  match v with VTable _ | VArr _ | VTables _ => True | _ => decodes v end.
Proof.
  destruct v; try done; try (by intros ? ? []);
    try (eapply decodes_scalar; [done|done|]; intros in_array Hwf Hlen rest;
      cbn [relay]; apply fmap_reader; cbn [wf_value] in Hwf; unfold signed_range, u8, u16, u32, u64 in Hwf).
  - eapply decodes_scalar; [done|done|]. by intros.
  - by destruct b.
  - by apply (read_be_signed_enc 1); [lia|].
  - by apply (read_be_enc_small 1).
  - by apply (read_be_signed_enc 2); [lia|].
  - by apply (read_be_enc_small 2).
  - by apply (read_be_signed_enc 4); [lia|].
  - by apply (read_be_enc_small 4).
  - by apply (read_be_signed_enc 8); [lia|].
  - by apply (read_be_enc_small 8).
  - by apply (read_be_enc_small 4).
  - by apply (read_be_enc_small 8).
  - intros in_array bs (-> & Hs & Hv) [= <-] _. unfold u8, u32 in *.
    exists (tag "D"), (be_enc 1 scale ++ be_enc 4 val). split; [done|]. intros fuel rest _.
    change (decode_at false fuel (tag "D")) with decode_decimal.
    unfold decode_decimal. rewrite <-app_assoc, bind_reader, read_be_enc_small by done.
    rewrite bind_reader, read_be_enc_small by done. done.
  - eapply decodes_scalar; [done|done|]. by intros.
  - apply DecodeLongStr_enc. revert Hlen. unfold EncodeLongStr, slen.
    rewrite length_cons, length_app, length_be_enc. lia.
  - eapply decodes_scalar; [done|done|]. intros in_array Hwf _ rest.
    unfold DecodeTimestamp. rewrite bind_reader. unfold wrap.
    by rewrite read_be_signed_enc by (done || lia).
  - apply (decodes_as _ (VArr (VStr <$> l))).
    + apply encode_strings_as_array.
    + simpl. by rewrite <-list_fmap_compose.
    + intros a _. cbn [wf_value]. rewrite <-list_fmap_compose, Forall_fmap. by apply Forall_true.
    + apply decodes_array. rewrite Forall_fmap. apply Forall_true. intros. apply decodes_str.
Qed.

Lemma decodes_all v : decodes v.
Proof.
  revert v. apply value_ind'.
  - apply decodes_flat.
  - apply decodes_table.
  - apply decodes_array.
  - intros l Hl. apply (decodes_as _ (VArr (VTable <$> l))).
    + apply encode_tables_as_array.
    + simpl. by rewrite <-list_fmap_compose.
    + intros a. cbn [wf_value]. rewrite <-list_fmap_compose, !Forall_fmap. done.
    + apply decodes_array. rewrite Forall_fmap. eapply Forall_impl; [done|].
      intros t Ht. by apply decodes_table.
Qed.

Lemma DecodeTable_enc t bs :
  wf_table t → EncodeTable t = Ok bs → Z.of_nat (length bs) < 2 ^ 32 →
  DecodeTable bs = Ok (relay_table t).
Proof.
  intros [Hnd Hwf] Henc Hlen. unfold DecodeTable.
  apply (decode_table_loop_enc t) with (acc := []); try done; [|lia].
  apply Forall_true. intros. apply decodes_all.
Qed.

(** C27. Decoding a well-formed field table from its encoding gives the table
    back, entry for entry and in the iteration order of the encoder, up to what
    the wire cannot carry ([relay]): nested tables and arrays of any depth,
    every integer width and sign, strings up to the 4 GiB limit. *)
Theorem table_round_trip (t : table) (bs : list byte) :
  wf_table t → EncodeTable t = Ok bs → Z.of_nat (length bs) < 2 ^ 32 →
  DecodeTable bs = Ok (relay_table t).
Proof. apply DecodeTable_enc. Qed.

Definition sample_table : table :=
  [("x-max-priority", VI32 (-5)); ("nested", VTable [("a", VArr [VU8 7; VStr "x"])]);
   ("price", VDec 2 1999); ("when", VTime 1700000000 5)].

Lemma sample_table_wf : wf_table sample_table.
Proof.
  split; [by apply (bool_decide_unpack _)|].
  repeat (apply Forall_cons_2 || apply Forall_nil_2 || split || exact I);
    cbn; unfold signed_range, u8, u32; (lia || by apply (bool_decide_unpack _)).
Qed.

Lemma table_round_trip_witness :
  ∃ bs, EncodeTable sample_table = Ok bs ∧ DecodeTable bs = Ok (relay_table sample_table).
Proof.
  destruct (EncodeTable sample_table) as [bs|] eqn:E; [|by vm_compute in E].
  exists bs. split; [done|]. apply table_round_trip; [apply sample_table_wf|done|].
  vm_compute in E. injection E as <-. done.
Defined.

(** C38. The decoders return on every input: for any bytes a peer can send, one
    unit of fuel more than their number is enough, whatever the nesting of
    tables and arrays and however wrong their declared lengths are. *)
Theorem decoders_total (data : list byte) :
  DecodeTable data ≠ Err OutOfFuel ∧ DecodeArray data ≠ Err OutOfFuel.
Proof. split; apply decode_loops_never_oof; lia. Qed.
