(* ===== verification/Properties.v ===== *)
(** * Basic properties and content headers

    [BasicProperties] (internal/core/amqp/basic.go), its encoding
    [encodeBasicProperties], the property flags [decodeBasicHeaderFlags], the
    decoder [createContentPropertiesTable] of framing.go and the content header
    [parseBasicHeader]. *)

From stdpp Require Import base list strings.
From Stdlib Require Import ZArith Lia.
From Stdlib Require Import Strings.Byte.
From S2P Require Import Prelude Bytes Values Reader FieldTable.

Local Open Scope Z_scope.
Local Open Scope string_scope.
Local Open Scope list_scope.

(** ** Delivery modes (constants.go) *)

Definition DEFAULT : Z := 0.
Definition NON_PERSISTENT : Z := 1.
Definition PERSISTENT : Z := 2.

Definition DeliveryMode_Validate (dm : Z) : res perr unit :=
  if decide (dm ≠ 0 ∧ dm ≠ 1 ∧ dm ≠ 2) then Err (Msg "invalid delivery mode") else Ok tt.

Definition DeliveryMode_Normalize (dm : Z) : Z :=
  if decide (dm = 0) then NON_PERSISTENT else dm.

(** ** The record *)

(** [Headers] can be a nil map; [Timestamp] is Unix seconds and nanoseconds. *)
Record BasicProperties : Type := MkProps {
  ContentType : string;
  ContentEncoding : string;
  Headers : option table;
  DeliveryMode : Z;
  Priority : Z;
  CorrelationID : string;
  ReplyTo : string;
  Expiration : string;
  MessageID : string;
  Timestamp : Z * Z;
  Type_ : string;
  UserID : string;
  AppID : string;
  Reserved : string
}.

Definition set_ContentType (v : string) (p : BasicProperties) : BasicProperties :=
  let '(MkProps _ a1 a2 a3 a4 a5 a6 a7 a8 a9 a10 a11 a12 a13) := p in
  MkProps v a1 a2 a3 a4 a5 a6 a7 a8 a9 a10 a11 a12 a13.
Definition set_ContentEncoding (v : string) (p : BasicProperties) : BasicProperties :=
  let '(MkProps a0 _ a2 a3 a4 a5 a6 a7 a8 a9 a10 a11 a12 a13) := p in
  MkProps a0 v a2 a3 a4 a5 a6 a7 a8 a9 a10 a11 a12 a13.
Definition set_Headers (v : option table) (p : BasicProperties) : BasicProperties :=
  let '(MkProps a0 a1 _ a3 a4 a5 a6 a7 a8 a9 a10 a11 a12 a13) := p in
  MkProps a0 a1 v a3 a4 a5 a6 a7 a8 a9 a10 a11 a12 a13.
Definition set_DeliveryMode (v : Z) (p : BasicProperties) : BasicProperties :=
  let '(MkProps a0 a1 a2 _ a4 a5 a6 a7 a8 a9 a10 a11 a12 a13) := p in
  MkProps a0 a1 a2 v a4 a5 a6 a7 a8 a9 a10 a11 a12 a13.
Definition set_Priority (v : Z) (p : BasicProperties) : BasicProperties :=
  let '(MkProps a0 a1 a2 a3 _ a5 a6 a7 a8 a9 a10 a11 a12 a13) := p in
  MkProps a0 a1 a2 a3 v a5 a6 a7 a8 a9 a10 a11 a12 a13.
Definition set_CorrelationID (v : string) (p : BasicProperties) : BasicProperties :=
  let '(MkProps a0 a1 a2 a3 a4 _ a6 a7 a8 a9 a10 a11 a12 a13) := p in
  MkProps a0 a1 a2 a3 a4 v a6 a7 a8 a9 a10 a11 a12 a13.
Definition set_ReplyTo (v : string) (p : BasicProperties) : BasicProperties :=
  let '(MkProps a0 a1 a2 a3 a4 a5 _ a7 a8 a9 a10 a11 a12 a13) := p in
  MkProps a0 a1 a2 a3 a4 a5 v a7 a8 a9 a10 a11 a12 a13.
Definition set_Expiration (v : string) (p : BasicProperties) : BasicProperties :=
  let '(MkProps a0 a1 a2 a3 a4 a5 a6 _ a8 a9 a10 a11 a12 a13) := p in
  MkProps a0 a1 a2 a3 a4 a5 a6 v a8 a9 a10 a11 a12 a13.
Definition set_MessageID (v : string) (p : BasicProperties) : BasicProperties :=
  let '(MkProps a0 a1 a2 a3 a4 a5 a6 a7 _ a9 a10 a11 a12 a13) := p in
  MkProps a0 a1 a2 a3 a4 a5 a6 a7 v a9 a10 a11 a12 a13.
Definition set_Timestamp (v : Z * Z) (p : BasicProperties) : BasicProperties :=
  let '(MkProps a0 a1 a2 a3 a4 a5 a6 a7 a8 _ a10 a11 a12 a13) := p in
  MkProps a0 a1 a2 a3 a4 a5 a6 a7 a8 v a10 a11 a12 a13.
Definition set_Type_ (v : string) (p : BasicProperties) : BasicProperties :=
  let '(MkProps a0 a1 a2 a3 a4 a5 a6 a7 a8 a9 _ a11 a12 a13) := p in
  MkProps a0 a1 a2 a3 a4 a5 a6 a7 a8 a9 v a11 a12 a13.
Definition set_UserID (v : string) (p : BasicProperties) : BasicProperties :=
  let '(MkProps a0 a1 a2 a3 a4 a5 a6 a7 a8 a9 a10 _ a12 a13) := p in
  MkProps a0 a1 a2 a3 a4 a5 a6 a7 a8 a9 a10 v a12 a13.
Definition set_AppID (v : string) (p : BasicProperties) : BasicProperties :=
  let '(MkProps a0 a1 a2 a3 a4 a5 a6 a7 a8 a9 a10 a11 _ a13) := p in
  MkProps a0 a1 a2 a3 a4 a5 a6 a7 a8 a9 a10 a11 v a13.
Definition set_Reserved (v : string) (p : BasicProperties) : BasicProperties :=
  let '(MkProps a0 a1 a2 a3 a4 a5 a6 a7 a8 a9 a10 a11 a12 _) := p in
  MkProps a0 a1 a2 a3 a4 a5 a6 a7 a8 a9 a10 a11 a12 v.

(** The zero [time.Time] is 1 January of year 1, UTC. *)
Definition zero_time : Z * Z := (-62135596800, 0).
Definition IsZero (t : Z * Z) : bool := bool_decide (t = zero_time).

Definition empty_props : BasicProperties :=
  MkProps "" "" None 0 0 "" "" "" "" zero_time "" "" "" "".

(** ** Encoding *)

(** One [if props.X != "" { flags |= 1 << bit; encode }] of
    [encodeBasicProperties]; the accumulator is [buf] and [flags]. *)
Definition enc_field (bit : Z) (present : bool) (enc : res enc_err (list byte))
    (acc : list byte * Z) : res enc_err (list byte * Z) :=
  if present
  then bs ← enc; mret (acc.1 ++ bs, Z.lor acc.2 (Z.shiftl 1 bit))
  else mret acc.

Definition nonempty (s : string) : bool := negb (bool_decide (s = "")).

(** [EncodeOctet] and [EncodeTimestamp]: writing to a buffer never fails. *)
Definition EncodeOctet (v : Z) : res enc_err (list byte) := Ok (be_enc 1 v).
Definition EncodeTimestamp (t : Z * Z) : res enc_err (list byte) := Ok (be_enc 8 t.1).

Definition encodeBasicProperties (p : BasicProperties) : res enc_err (list byte * Z) :=
  s ← enc_field 15 (nonempty (ContentType p)) (EncodeShortStr (ContentType p)) ([], 0);
  s ← enc_field 14 (nonempty (ContentEncoding p)) (EncodeShortStr (ContentEncoding p)) s;
  s ← enc_field 13 (bool_decide (is_Some (Headers p)))
        (encodeHeaders (default [] (Headers p))) s;
  s ← enc_field 12 (negb (bool_decide (DeliveryMode p = 0))) (EncodeOctet (DeliveryMode p)) s;
  s ← enc_field 11 (negb (bool_decide (Priority p = 0))) (EncodeOctet (Priority p)) s;
  s ← enc_field 10 (nonempty (CorrelationID p)) (EncodeShortStr (CorrelationID p)) s;
  s ← enc_field 9 (nonempty (ReplyTo p)) (EncodeShortStr (ReplyTo p)) s;
  s ← enc_field 8 (nonempty (Expiration p)) (EncodeShortStr (Expiration p)) s;
  s ← enc_field 7 (nonempty (MessageID p)) (EncodeShortStr (MessageID p)) s;
  s ← enc_field 6 (negb (IsZero (Timestamp p))) (EncodeTimestamp (Timestamp p)) s;
  s ← enc_field 5 (nonempty (Type_ p)) (EncodeShortStr (Type_ p)) s;
  s ← enc_field 4 (nonempty (UserID p)) (EncodeShortStr (UserID p)) s;
  s ← enc_field 3 (nonempty (AppID p)) (EncodeShortStr (AppID p)) s;
  enc_field 2 (nonempty (Reserved p)) (EncodeShortStr (Reserved p)) s.

(** ** Decoding *)

Definition flag_names : list string :=
  ["contentType"; "contentEncoding"; "headers"; "deliveryMode"; "priority";
   "correlationID"; "replyTo"; "expiration"; "messageID"; "timestamp"; "type";
   "userID"; "appID"; "reserved"].

(** The loop [for i := 0; i < len(flagNames); i++] from index [i] on. *)
Fixpoint header_flags_from (short i : Z) (names : list string) : list string :=
  match names with
  | [] => []
  | n :: ns =>
      (if Z.testbit short (15 - i) then [n] else []) ++ header_flags_from short (i + 1) ns
  end.

Definition decodeBasicHeaderFlags (short : Z) : list string :=
  header_flags_from short 0 flag_names.

(** One case of the switch of [createContentPropertiesTable]. *)
Definition decode_property (flag : string) (props : BasicProperties) : reader BasicProperties :=
  let shortstr := fun text (set : string → BasicProperties → BasicProperties) =>
    v ← wrap text DecodeShortStr; mret (set v props) in
  if decide (flag = "contentType") then shortstr "failed to decode content type" set_ContentType else
  if decide (flag = "contentEncoding") then
    shortstr "failed to decode content encoding" set_ContentEncoding else
  if decide (flag = "headers") then
    headersStr ← wrap "failed to decode headers" DecodeLongStr;
    headers ← wrap "failed to decode headers" (lift (DecodeTable (bytes_of headersStr)));
    mret (set_Headers (Some headers) props) else
  if decide (flag = "deliveryMode") then
    val ← wrap "failed to decode delivery mode" ReadByte;
    _ ← lift (DeliveryMode_Validate (Z_of_byte val));
    mret (set_DeliveryMode (DeliveryMode_Normalize (Z_of_byte val)) props) else
  if decide (flag = "priority") then
    priority ← wrap "failed to decode priority" ReadByte;
    if decide (Z_of_byte priority < 0 ∨ 9 < Z_of_byte priority)
    then rfail (Msg "priority must be between 0 and 9")
    else mret (set_Priority (Z_of_byte priority) props) else
  if decide (flag = "correlationID") then shortstr "failed to decode correlation ID" set_CorrelationID else
  if decide (flag = "replyTo") then shortstr "failed to decode reply to" set_ReplyTo else
  if decide (flag = "expiration") then shortstr "failed to decode expiration" set_Expiration else
  if decide (flag = "messageID") then shortstr "failed to decode message ID" set_MessageID else
  if decide (flag = "timestamp") then
    ts ← wrap "failed to decode timestamp" (wrap "failed to decode timestamp" (read_be_signed 8));
    mret (set_Timestamp (ts, 0) props) else
  if decide (flag = "type") then shortstr "failed to decode type" set_Type_ else
  if decide (flag = "userID") then shortstr "failed to decode user ID" set_UserID else
  if decide (flag = "appID") then shortstr "failed to decode app ID" set_AppID else
  if decide (flag = "reserved") then shortstr "failed to decode reserved" set_Reserved else
  rfail (Wrap "unknown flag" (Msg flag)).

(** The loop [for _, flag := range flags]. *)
Fixpoint decode_properties (flags : list string) (props : BasicProperties)
    : reader BasicProperties :=
  match flags with
  | [] => mret props
  | flag :: flags' =>
      props' ← decode_property flag props;
      decode_properties flags' props'
  end.

Definition createContentPropertiesTable (flags : list string) : reader BasicProperties :=
  decode_properties flags empty_props.

(** ** Content headers *)

Record HeaderFrame : Type := MkHeader {
  hf_Channel : Z;
  hf_ClassID : Z;
  hf_BodySize : Z;
  hf_Properties : BasicProperties
}.

(** [parseBasicHeader]; [hf_Channel] is filled in by the caller. *)
Definition parseBasicHeader (headerPayload : list byte) : res perr HeaderFrame :=
  run (
    classID ← wrap "failed to decode class ID" DecodeShortInt;
    weight ← wrap "failed to decode weight" DecodeShortInt;
    if decide (weight ≠ 0) then rfail (Msg "weight must be 0") else
    bodySize ← wrap "failed to decode body size" DecodeLongLongUInt;
    shortFlags ← wrap "failed to decode flags" DecodeShortInt;
    properties ← wrap "failed to decode properties"
      (createContentPropertiesTable (decodeBasicHeaderFlags shortFlags));
    mret (MkHeader 0 classID bodySize properties)) headerPayload.

(** The payload that [createHeaderFrame] (message.go) builds for a message. *)
Definition header_payload (classID : Z) (body : list byte) (p : BasicProperties)
    : res enc_err (list byte) :=
  '(flag_list, flags) ← encodeBasicProperties p;
  mret (be_enc 2 classID ++ be_enc 2 0 ++ be_enc 8 (Z.of_nat (length body))
    ++ be_enc 2 flags ++ flag_list).

(** ** Round trip of the properties *)

(** What a receiver reads of [p]: whole seconds, and headers as they survive the
    wire. *)
Definition relay_props (p : BasicProperties) : BasicProperties :=
  set_Headers (relay_table <$> Headers p) (set_Timestamp ((Timestamp p).1, 0) p).

(** The properties a client can have sent: a known delivery mode, a priority up
    to 9, headers that fit their types. *)
Definition wf_props (p : BasicProperties) : Prop :=
  (DeliveryMode p = 0 ∨ DeliveryMode p = 1 ∨ DeliveryMode p = 2) ∧
  0 <= Priority p <= 9 ∧ signed_range 64 (Timestamp p).1 ∧
  match Headers p with Some t => wf_table t | None => True end.

Lemma enc_field_ok bit present enc acc acc' :
  enc_field bit present enc acc = Ok acc' →
  ∃ part, acc'.1 = acc.1 ++ part ∧ (present = true → enc = Ok part) ∧
    (present = false → part = []) ∧
    acc'.2 = Z.lor acc.2 (if present then Z.shiftl 1 bit else 0).
Proof.
  unfold enc_field. destruct present; intros H; inv_ok.
  - eexists. split_and!; try done.
  - exists []. rewrite app_nil_r, Z.lor_0_r. done.
Qed.

Lemma testbit_field (n : Z) (present : bool) (b : Z) : 0 <= b →
  Z.testbit (if present then Z.shiftl 1 b else 0) n = (present && (n =? b)%Z)%bool.
Proof.
  intros. destruct present; [|by rewrite Z.testbit_0_l].
  rewrite Z.shiftl_1_l. destruct (Z.eqb_spec n b) as [->|].
  - by rewrite Z.pow2_bits_true.
  - by rewrite Z.pow2_bits_false.
Qed.

(** One property of the loop: present, it is decoded from its own part of the
    payload; absent, it has no part and changes nothing. *)
Lemma decode_properties_field (present : bool) name flags part props props' rest :
  (present = true → decode_property name props (part ++ rest) = Ok (props', rest)) →
  (present = false → part = [] ∧ props' = props) →
  decode_properties ((if present then [name] else []) ++ flags) props (part ++ rest)
    = decode_properties flags props' rest.
Proof.
  intros Ht Hf. destruct present; simpl.
  - by rewrite bind_reader, Ht.
  - by destruct Hf as [-> ->].
Qed.

Lemma nonempty_false s : nonempty s = false → s = "".
Proof. unfold nonempty. case_bool_decide; done. Qed.

Lemma shortstr_property s part rest t (set : string → BasicProperties → BasicProperties) p :
  EncodeShortStr s = Ok part →
  (v ← wrap t DecodeShortStr; mret (set v p) : reader BasicProperties) (part ++ rest)
    = Ok (set s p, rest).
Proof.
  intros H. rewrite bind_reader. unfold wrap.
  by rewrite (DecodeShortStr_enc _ _ _ H).
Qed.

Lemma octet_property z t rest :
  0 <= z < 256 → wrap t ReadByte (be_enc 1 z ++ rest) = Ok (byte_of_Z z, rest).
Proof. done. Qed.

Lemma decode_property_headers props :
  decode_property "headers" props =
    (headersStr ← wrap "failed to decode headers" DecodeLongStr;
     headers ← wrap "failed to decode headers" (lift (DecodeTable (bytes_of headersStr)));
     mret (set_Headers (Some headers) props)).
Proof. reflexivity. Qed.

Lemma headers_property t part rest props :
  wf_table t → encodeHeaders t = Ok part → Z.of_nat (length part) < 2 ^ 32 →
  decode_property "headers" props (part ++ rest) = Ok (set_Headers (Some (relay_table t)) props, rest).
Proof.
  intros [Hnd Hwf] Henc Hlen. unfold encodeHeaders in Henc. inv_ok.
  rewrite decode_property_headers, bind_reader. unfold wrap at 1.
  rewrite <-(bytes_of_string_of x), DecodeLongStr_enc.
  2: { revert Hlen. unfold slen. rewrite bytes_of_string_of, length_EncodeLongStr. lia. }
  cbn [map_err]. rewrite bind_reader. unfold wrap, lift.
  rewrite bytes_of_string_of.
  assert (DecodeTable x = Ok (relay_table t)) as ->; [|done].
  unfold DecodeTable. rewrite (decode_table_loop_enc t) with (acc := []); try done; [| |lia].
  - apply Forall_true. intros. apply decodes_all.
  - revert Hlen. rewrite length_EncodeLongStr. lia.
Qed.

(** The bit of a field in the flag word, and every other bit. *)
Lemma header_flags_fields flags : decodeBasicHeaderFlags flags =
  (if Z.testbit flags 15 then ["contentType"] else []) ++
  (if Z.testbit flags 14 then ["contentEncoding"] else []) ++
  (if Z.testbit flags 13 then ["headers"] else []) ++
  (if Z.testbit flags 12 then ["deliveryMode"] else []) ++
  (if Z.testbit flags 11 then ["priority"] else []) ++
  (if Z.testbit flags 10 then ["correlationID"] else []) ++
  (if Z.testbit flags 9 then ["replyTo"] else []) ++
  (if Z.testbit flags 8 then ["expiration"] else []) ++
  (if Z.testbit flags 7 then ["messageID"] else []) ++
  (if Z.testbit flags 6 then ["timestamp"] else []) ++
  (if Z.testbit flags 5 then ["type"] else []) ++
  (if Z.testbit flags 4 then ["userID"] else []) ++
  (if Z.testbit flags 3 then ["appID"] else []) ++
  (if Z.testbit flags 2 then ["reserved"] else []) ++ [].
Proof. reflexivity. Qed.

Ltac inv_fields :=
  repeat match goal with
  | H : enc_field _ _ _ _ = Ok _ |- _ =>
      apply enc_field_ok in H as (? & ? & ? & ? & ?)
  end.

Lemma IsZero_true t : IsZero t = true → t = zero_time.
Proof. unfold IsZero. by case_bool_decide. Qed.

Lemma shortstr_step name (set : string → BasicProperties → BasicProperties) s t flags part props rest :
  decode_property name props = (v ← wrap t DecodeShortStr; mret (set v props)) →
  (nonempty s = true → EncodeShortStr s = Ok part) → (nonempty s = false → part = []) →
  set "" props = props →
  decode_properties ((if nonempty s then [name] else []) ++ flags) props (part ++ rest)
    = decode_properties flags (set s props) rest.
Proof.
  intros Hd He Hn Hs. apply decode_properties_field.
  - intros Hp. rewrite Hd. by apply shortstr_property, He.
  - intros Ha. split; [by apply Hn|]. by rewrite (nonempty_false _ Ha).
Qed.

(** Reads the next field, a short string. *)
Ltac shortstr_field name set s :=
  erewrite (shortstr_step name set s); [|reflexivity|assumption|assumption|reflexivity];
  cbn [set].

Lemma deliveryMode_step dm flags part props rest :
  dm = 0 ∨ dm = 1 ∨ dm = 2 → DeliveryMode props = 0 →
  (negb (bool_decide (dm = 0)) = true → EncodeOctet dm = Ok part) →
  (negb (bool_decide (dm = 0)) = false → part = []) →
  decode_properties ((if negb (bool_decide (dm = 0)) then ["deliveryMode"] else []) ++ flags)
    props (part ++ rest) = decode_properties flags (set_DeliveryMode dm props) rest.
Proof.
  intros Hdm Hz He Hn. apply decode_properties_field.
  - intros Hp. apply He in Hp as Hpart. injection Hpart as <-.
    by destruct Hdm as [->|[->| ->]].
  - intros Ha. split; [by apply Hn|]. apply negb_false_iff, bool_decide_eq_true_1 in Ha as ->.
    destruct props. cbn in *. by subst.
Qed.

Lemma priority_step pr flags part props rest :
  0 <= pr <= 9 → Priority props = 0 →
  (negb (bool_decide (pr = 0)) = true → EncodeOctet pr = Ok part) →
  (negb (bool_decide (pr = 0)) = false → part = []) →
  decode_properties ((if negb (bool_decide (pr = 0)) then ["priority"] else []) ++ flags)
    props (part ++ rest) = decode_properties flags (set_Priority pr props) rest.
Proof.
  intros Hpr Hz He Hn. apply decode_properties_field.
  - intros Hp. apply He in Hp as Hpart. injection Hpart as <-.
    change (decode_property "priority" props) with
      (priority ← wrap "failed to decode priority" ReadByte;
       if decide (Z_of_byte priority < 0 ∨ 9 < Z_of_byte priority)
       then rfail (Msg "priority must be between 0 and 9")
       else mret (set_Priority (Z_of_byte priority) props)).
    rewrite bind_reader, octet_property by lia. rewrite Z_of_byte_small by lia.
    by rewrite decide_False by lia.
  - intros Ha. split; [by apply Hn|]. apply negb_false_iff, bool_decide_eq_true_1 in Ha as ->.
    destruct props. cbn in *. by subst.
Qed.

Lemma timestamp_step t flags part props rest :
  signed_range 64 t.1 → Timestamp props = zero_time →
  (negb (IsZero t) = true → EncodeTimestamp t = Ok part) →
  (negb (IsZero t) = false → part = []) →
  decode_properties ((if negb (IsZero t) then ["timestamp"] else []) ++ flags)
    props (part ++ rest) = decode_properties flags (set_Timestamp (t.1, 0) props) rest.
Proof.
  intros Ht Hz He Hn. apply decode_properties_field.
  - intros Hp. apply He in Hp as Hpart. injection Hpart as <-.
    change (decode_property "timestamp" props) with
      (ts ← wrap "failed to decode timestamp"
         (wrap "failed to decode timestamp" (read_be_signed 8));
       mret (set_Timestamp (ts, 0) props)).
    rewrite bind_reader. unfold wrap. by rewrite read_be_signed_enc by (done || lia).
  - intros Ha. split; [by apply Hn|]. apply negb_false_iff, IsZero_true in Ha as ->.
    destruct props. cbn in *. by subst.
Qed.

Lemma headers_step hd flags part props rest :
  match hd with Some t => wf_table t | None => True end → Headers props = None →
  Z.of_nat (length part) < 2 ^ 32 →
  (bool_decide (is_Some hd) = true → encodeHeaders (default [] hd) = Ok part) →
  (bool_decide (is_Some hd) = false → part = []) →
  decode_properties ((if bool_decide (is_Some hd) then ["headers"] else []) ++ flags)
    props (part ++ rest) = decode_properties flags (set_Headers (relay_table <$> hd) props) rest.
Proof.
  intros Hwf Hz Hlen He Hn. apply decode_properties_field.
  - intros Hp. apply He in Hp as Hpart. destruct hd as [t|]; [|done].
    by apply headers_property.
  - intros Ha. split; [by apply Hn|]. destruct hd as [t|]; [done|].
    destruct props. cbn in *. by subst.
Qed.

Lemma encodeBasicProperties_sound p bs flags rest :
  wf_props p → encodeBasicProperties p = Ok (bs, flags) → Z.of_nat (length bs) < 2 ^ 32 →
  createContentPropertiesTable (decodeBasicHeaderFlags flags) (bs ++ rest)
    = Ok (relay_props p, rest).
Proof.
  intros (Hdm & Hpr & Hts & Hhd) Henc Hlen.
  destruct p as [ct ce hd dm pr cid rt ex mid [sec nsec] ty uid aid rsv].
  cbn in Hdm, Hpr, Hts, Hhd. unfold encodeBasicProperties in Henc.
  cbn [ContentType ContentEncoding Headers DeliveryMode Priority CorrelationID ReplyTo
    Expiration MessageID Timestamp Type_ UserID AppID Reserved] in Henc.
  inv_ok. inv_fields. cbn [fst snd] in *. subst.
  rewrite header_flags_fields.
  rewrite !Z.lor_spec, !testbit_field by lia. rewrite !Z.testbit_0_l.
  cbn [Z.eqb Pos.eqb]. rewrite ?andb_false_r, ?andb_true_r, ?orb_false_r, ?orb_false_l.
  rewrite <-!app_assoc. cbn [app]. unfold createContentPropertiesTable, empty_props.
  rewrite !length_app in Hlen.
  shortstr_field "contentType" set_ContentType ct.
  shortstr_field "contentEncoding" set_ContentEncoding ce.
  rewrite headers_step by (done || lia). cbn [set_Headers].
  rewrite deliveryMode_step by done. cbn [set_DeliveryMode].
  rewrite priority_step by done. cbn [set_Priority].
  shortstr_field "correlationID" set_CorrelationID cid.
  shortstr_field "replyTo" set_ReplyTo rt.
  shortstr_field "expiration" set_Expiration ex.
  shortstr_field "messageID" set_MessageID mid.
  rewrite timestamp_step by done. cbn [set_Timestamp].
  shortstr_field "type" set_Type_ ty.
  shortstr_field "userID" set_UserID uid.
  shortstr_field "appID" set_AppID aid.
  shortstr_field "reserved" set_Reserved rsv.
  done.
Qed.

Lemma decodeBasicHeaderFlags_mod flags :
  decodeBasicHeaderFlags (flags mod 256 ^ Z.of_nat 2) = decodeBasicHeaderFlags flags.
Proof.
  rewrite pow_256, !header_flags_fields. rewrite !Z.mod_pow2_bits_low by lia. done.
Qed.

Lemma parseBasicHeader_payload classID body p payload :
  u16 classID → u64 (Z.of_nat (length body)) → wf_props p →
  header_payload classID body p = Ok payload → Z.of_nat (length payload) < 2 ^ 32 →
  parseBasicHeader payload
    = Ok (MkHeader 0 classID (Z.of_nat (length body)) (relay_props p)).
Proof.
  intros Hc Hb Hwf Hp Hlen. unfold header_payload in Hp. inv_ok. rename l into bs.
  rewrite !length_app in Hlen. unfold u16, u64 in *.
  unfold parseBasicHeader, run.
  rewrite bind_reader. unfold wrap at 1, DecodeShortInt at 1.
  rewrite read_be_enc_small by (simpl; lia). cbn [map_err].
  rewrite bind_reader. unfold wrap at 1, DecodeShortInt at 1.
  rewrite read_be_enc_small by (simpl; lia). cbn [map_err].
  rewrite decide_False by lia.
  rewrite bind_reader. unfold wrap at 1, DecodeLongLongUInt.
  rewrite read_be_enc_small by (simpl; lia). cbn [map_err].
  rewrite bind_reader. unfold wrap at 1, DecodeShortInt.
  rewrite read_be_enc. cbn [map_err].
  rewrite bind_reader, decodeBasicHeaderFlags_mod. unfold wrap.
  rewrite <-(app_nil_r bs). erewrite encodeBasicProperties_sound by (done || lia). done.
Qed.

(** The priorities 10 to 255 that a queue may be declared with cannot be used:
    a content header carrying one does not parse. *)
Lemma priority_above_9_refused z props rest :
  9 < z < 256 → decode_property "priority" props (be_enc 1 z ++ rest)
    = Err (Msg "priority must be between 0 and 9").
Proof.
  intros Hz.
  change (decode_property "priority" props) with
    (priority ← wrap "failed to decode priority" ReadByte;
     if decide (Z_of_byte priority < 0 ∨ 9 < Z_of_byte priority)
     then rfail (Msg "priority must be between 0 and 9")
     else mret (set_Priority (Z_of_byte priority) props)).
  rewrite bind_reader, octet_property by lia. rewrite Z_of_byte_small by lia.
  rewrite decide_True by lia. done.
Qed.

(** A message's properties as a client sets them, used by the witnesses. *)
Definition sample_props : BasicProperties :=
  MkProps "text/plain" "" (Some sample_table) 2 5 "c-1" "" "60000" "" (1700000000, 250) "" "" "app" "".

Lemma sample_props_wf : wf_props sample_props.
Proof.
  split; [by right; right|]. split; [done|]. split; [by apply (bool_decide_unpack _)|].
  apply sample_table_wf.
Qed.
