(* ===== verification/Methods.v ===== *)
(** * Client methods: the parsers of internal/core/amqp

    One parser per method a client may send ([parse...Frame] of basic.go,
    queue.go, exchange.go, channel.go, connection.go and tx.go) and the
    dispatch of each class ([parse...Method]).  A parser takes the method's
    arguments, the payload after the class and method identifiers. *)

From stdpp Require Import base list strings.
From Stdlib Require Import ZArith Lia.
From Stdlib Require Import Strings.Byte.
From S2P Require Import Prelude Bytes Values Reader FieldTable.

Local Open Scope Z_scope.
Local Open Scope string_scope.
Local Open Scope list_scope.

(** ** Class and method identifiers (constants.go) *)

Definition CONNECTION : Z := 10.
Definition CHANNEL : Z := 20.
Definition EXCHANGE : Z := 40.
Definition QUEUE : Z := 50.
Definition BASIC : Z := 60.
Definition TX : Z := 90.

Definition CONNECTION_START : Z := 10.
Definition CONNECTION_START_OK : Z := 11.
Definition CONNECTION_TUNE : Z := 30.
Definition CONNECTION_TUNE_OK : Z := 31.
Definition CONNECTION_OPEN : Z := 40.
Definition CONNECTION_OPEN_OK : Z := 41.
Definition CONNECTION_CLOSE : Z := 50.
Definition CONNECTION_CLOSE_OK : Z := 51.
Definition CHANNEL_OPEN : Z := 10.
Definition CHANNEL_OPEN_OK : Z := 11.
Definition CHANNEL_FLOW : Z := 20.
Definition CHANNEL_FLOW_OK : Z := 21.
Definition CHANNEL_CLOSE : Z := 40.
Definition CHANNEL_CLOSE_OK : Z := 41.
Definition EXCHANGE_DECLARE : Z := 10.
Definition EXCHANGE_DECLARE_OK : Z := 11.
Definition EXCHANGE_DELETE : Z := 20.
Definition EXCHANGE_DELETE_OK : Z := 21.
Definition QUEUE_DECLARE : Z := 10.
Definition QUEUE_DECLARE_OK : Z := 11.
Definition QUEUE_BIND : Z := 20.
Definition QUEUE_BIND_OK : Z := 21.
Definition QUEUE_PURGE : Z := 30.
Definition QUEUE_PURGE_OK : Z := 31.
Definition QUEUE_DELETE : Z := 40.
Definition QUEUE_DELETE_OK : Z := 41.
Definition QUEUE_UNBIND : Z := 50.
Definition QUEUE_UNBIND_OK : Z := 51.
Definition BASIC_QOS : Z := 10.
Definition BASIC_QOS_OK : Z := 11.
Definition BASIC_CONSUME : Z := 20.
Definition BASIC_CONSUME_OK : Z := 21.
Definition BASIC_CANCEL : Z := 30.
Definition BASIC_CANCEL_OK : Z := 31.
Definition BASIC_PUBLISH : Z := 40.
Definition BASIC_RETURN : Z := 50.
Definition BASIC_DELIVER : Z := 60.
Definition BASIC_GET : Z := 70.
Definition BASIC_GET_OK : Z := 71.
Definition BASIC_GET_EMPTY : Z := 72.
Definition BASIC_ACK : Z := 80.
Definition BASIC_REJECT : Z := 90.
Definition BASIC_RECOVER_ASYNC : Z := 100.
Definition BASIC_RECOVER : Z := 110.
Definition BASIC_RECOVER_OK : Z := 111.
Definition BASIC_NACK : Z := 120.
Definition TX_SELECT : Z := 10.
Definition TX_SELECT_OK : Z := 11.
Definition TX_COMMIT : Z := 20.
Definition TX_COMMIT_OK : Z := 21.
Definition TX_ROLLBACK : Z := 30.
Definition TX_ROLLBACK_OK : Z := 31.

(** ** The messages *)

(** [Content] of a [RequestMethodMessage].  [None] is a nil map of arguments. *)
Inductive method_content : Type :=
| CNil
| ConnectionStartFrame (VersionMajor VersionMinor : Z) (ServerProperties : table)
    (Mechanisms Locales : string)
| ConnectionStartOk (ClientProperties : table) (Mechanism Response Locale : string)
| ConnectionTune (ChannelMax FrameMax Heartbeat : Z)
| ConnectionOpen (VirtualHost : string)
| ConnectionClose (ReplyCode : Z) (ReplyText : string) (ClassID MethodID : Z)
| ConnectionCloseOk (payload : list byte)
| ChannelFlow (Active : bool)
| ChannelFlowOk (Active : bool)
| ChannelClose (ReplyCode : Z) (ReplyText : string) (ClassID MethodID : Z)
| ExchangeDeclare (ExchangeName ExchangeType : string)
    (Passive Durable AutoDelete Internal NoWait : bool) (Arguments : option table)
| ExchangeDelete (ExchangeName : string) (IfUnused NoWait : bool)
| QueueDeclare (QueueName : string) (Passive Durable Exclusive AutoDelete NoWait : bool)
    (Arguments : option table)
| QueueBind (Queue Exchange RoutingKey : string) (NoWait : bool) (Arguments : option table)
| QueueUnbind (Queue Exchange RoutingKey : string) (Arguments : option table)
| QueuePurge (QueueName : string) (NoWait : bool)
| QueueDelete (QueueName : string) (IfUnused IfEmpty NoWait : bool)
| BasicQos (PrefetchSize PrefetchCount : Z) (Global : bool)
| BasicConsume (Queue ConsumerTag : string) (NoLocal NoAck Exclusive NoWait : bool)
    (Arguments : option table)
| BasicCancel (ConsumerTag : string) (NoWait : bool)
| BasicPublish (Exchange RoutingKey : string) (Mandatory Immediate : bool)
| BasicGet (Reserved1 : Z) (Queue : string) (NoAck : bool)
| BasicAck (DeliveryTag : Z) (Multiple : bool)
| BasicReject (DeliveryTag : Z) (Requeue : bool)
| BasicNack (DeliveryTag : Z) (Multiple Requeue : bool)
| BasicRecover (Requeue Async : bool)
| TxSelect | TxCommit | TxRollback.

(** [if len(payload) < n { return nil, fmt.Errorf("payload too short") }] *)
Definition at_least {A} (n : nat) (payload : list byte) (r : reader A) : res perr A :=
  if decide (length payload < n)%nat then Err (Msg "payload too short") else run r payload.

(** The octet of bits that ends most methods, decoded low bit first. *)
Definition read_flags (names : list string) : reader (list (string * bool)) :=
  octet ← wrap "failed to read octet" ReadByte;
  mret (DecodeFlags octet names true).

(** [if buf.Len() > 4 { DecodeLongStr; DecodeTable }], else a nil map. *)
Definition read_arguments : reader (option table) :=
  n ← remaining;
  if decide (4 < n) then
    argumentsStr ← wrap "failed to decode arguments" DecodeLongStr;
    Some <$> wrap "failed to read arguments" (lift (DecodeTable (bytes_of argumentsStr)))
  else mret None.

(** [argumentsStr, _ := DecodeLongStr(buf)]: on an error the string is empty. *)
Definition DecodeLongStr_lenient : reader string := fun buf =>
  match DecodeLongStr buf with
  | Ok r => Ok r
  | Err _ => Ok (EmptyString, buf)
  end.

(** The arguments of queue.bind and queue.unbind: an error of [DecodeLongStr]
    is dropped, and the map is never nil. *)
Definition read_arguments_lenient : reader (option table) :=
  n ← remaining;
  if decide (4 < n) then
    argumentsStr ← DecodeLongStr_lenient;
    Some <$> wrap "failed to read arguments" (lift (DecodeTable (bytes_of argumentsStr)))
  else mret (Some []).

(** [reserved1 must be 0] *)
Definition read_reserved1 : reader unit :=
  reserved1 ← wrap "failed to decode reserved1" DecodeShortInt;
  if decide (reserved1 ≠ 0) then rfail (Msg "reserved1 must be 0") else mret tt.

(** ** queue.go *)

Definition parseQueueDeclareFrame (payload : list byte) : res perr method_content :=
  at_least 6 payload (
    _ ← read_reserved1;
    queueName ← wrap "failed to decode exchange name" DecodeShortStr;
    flags ← read_flags ["passive"; "durable"; "exclusive"; "autoDelete"; "noWait"];
    arguments ← read_arguments;
    mret (QueueDeclare queueName (get_flag flags "passive") (get_flag flags "durable")
      (get_flag flags "exclusive") (get_flag flags "autoDelete") (get_flag flags "noWait")
      arguments)).

Definition parseQueueBindFrame (payload : list byte) : res perr method_content :=
  at_least 6 payload (
    _ ← read_reserved1;
    queue ← wrap "failed to decode queue name" DecodeShortStr;
    exchange ← wrap "failed to decode exchange name" DecodeShortStr;
    routingKey ← wrap "failed to decode routing key" DecodeShortStr;
    flags ← read_flags ["noWait"];
    arguments ← read_arguments_lenient;
    mret (QueueBind queue exchange routingKey (get_flag flags "noWait") arguments)).

(** queue.unbind has no bits. *)
Definition parseQueueUnbindFrame (payload : list byte) : res perr method_content :=
  at_least 6 payload (
    _ ← wrap "failed to decode reserved1" DecodeShortInt;
    queue ← wrap "failed to decode queue name" DecodeShortStr;
    exchange ← wrap "failed to decode exchange name" DecodeShortStr;
    routingKey ← wrap "failed to decode routing key" DecodeShortStr;
    arguments ← read_arguments_lenient;
    mret (QueueUnbind queue exchange routingKey arguments)).

Definition parseQueuePurgeFrame (payload : list byte) : res perr method_content :=
  at_least 4 payload (
    _ ← wrap "failed to decode reserved1" DecodeShortInt;
    queueName ← wrap "failed to decode queue name" DecodeShortStr;
    flags ← read_flags ["noWait"];
    mret (QueuePurge queueName (get_flag flags "noWait"))).

Definition parseQueueDeleteFrame (payload : list byte) : res perr method_content :=
  at_least 6 payload (
    _ ← read_reserved1;
    queueName ← wrap "failed to decode exchange name" DecodeShortStr;
    flags ← read_flags ["ifUnused"; "ifEmpty"; "noWait"];
    mret (QueueDelete queueName (get_flag flags "ifUnused") (get_flag flags "ifEmpty")
      (get_flag flags "noWait"))).

Definition parseQueueMethod (methodID : Z) (payload : list byte) : res perr method_content :=
  if decide (methodID = QUEUE_DECLARE) then parseQueueDeclareFrame payload else
  if decide (methodID = QUEUE_DECLARE_OK) then
    Err (Msg "server should not receive QUEUE_DECLARE_OK frames from clients") else
  if decide (methodID = QUEUE_BIND) then parseQueueBindFrame payload else
  if decide (methodID = QUEUE_PURGE) then parseQueuePurgeFrame payload else
  if decide (methodID = QUEUE_DELETE) then parseQueueDeleteFrame payload else
  if decide (methodID = QUEUE_UNBIND) then parseQueueUnbindFrame payload else
  Err (Msg "unknown method ID").

(** ** exchange.go *)

Definition parseExchangeDeclareFrame (payload : list byte) : res perr method_content :=
  at_least 6 payload (
    _ ← read_reserved1;
    exchangeName ← wrap "failed to decode exchange name" DecodeShortStr;
    exchangeType ← wrap "failed to decode exchange type" DecodeShortStr;
    flags ← read_flags ["passive"; "durable"; "autoDelete"; "internal"; "noWait"];
    arguments ← read_arguments;
    mret (ExchangeDeclare exchangeName exchangeType (get_flag flags "passive")
      (get_flag flags "durable") (get_flag flags "autoDelete") (get_flag flags "internal")
      (get_flag flags "noWait") arguments)).

Definition parseExchangeDeleteFrame (payload : list byte) : res perr method_content :=
  at_least 6 payload (
    _ ← read_reserved1;
    exchangeName ← wrap "failed to decode exchange name" DecodeShortStr;
    flags ← read_flags ["ifUnused"; "noWait"];
    mret (ExchangeDelete exchangeName (get_flag flags "ifUnused") (get_flag flags "noWait"))).

Definition parseExchangeMethod (methodID : Z) (payload : list byte) : res perr method_content :=
  if decide (methodID = EXCHANGE_DECLARE) then parseExchangeDeclareFrame payload else
  if decide (methodID = EXCHANGE_DELETE) then parseExchangeDeleteFrame payload else
  Err (Msg "unknown method ID").

(** ** basic.go *)

Definition parseBasicQosFrame (payload : list byte) : res perr method_content :=
  at_least 7 payload (
    prefetchSize ← wrap "failed to decode prefetch size" DecodeLongUInt;
    prefetchCount ← wrap "failed to decode prefetch count" DecodeShortInt;
    flags ← read_flags ["global"];
    mret (BasicQos prefetchSize prefetchCount (get_flag flags "global"))).

(** [if buf.Len() >= 4]: an empty table gives an empty map, not a nil one. *)
Definition read_consume_arguments : reader (option table) :=
  n ← remaining;
  if decide (4 <= n) then
    argumentsStr ← wrap "failed to decode arguments" DecodeLongStr;
    if decide (0 < slen argumentsStr)
    then Some <$> wrap "failed to read arguments" (lift (DecodeTable (bytes_of argumentsStr)))
    else mret (Some [])
  else mret None.

Definition parseBasicConsumeFrame (payload : list byte) : res perr method_content :=
  at_least 5 payload (
    _ ← wrap "failed to decode reserved1" DecodeShortInt;
    queue ← wrap "failed to decode queue" DecodeShortStr;
    consumerTag ← wrap "failed to decode consumer tag" DecodeShortStr;
    flags ← read_flags ["noLocal"; "noAck"; "exclusive"; "nowait"];
    arguments ← read_consume_arguments;
    mret (BasicConsume queue consumerTag (get_flag flags "noLocal") (get_flag flags "noAck")
      (get_flag flags "exclusive") (get_flag flags "nowait") arguments)).

Definition parseBasicCancelFrame (payload : list byte) : res perr method_content :=
  at_least 2 payload (
    consumerTag ← wrap "failed to decode consumer tag" DecodeShortStr;
    flags ← read_flags ["nowait"];
    mret (BasicCancel consumerTag (get_flag flags "nowait"))).

Definition parseBasicPublishFrame (payload : list byte) : res perr method_content :=
  at_least 5 payload (
    _ ← wrap "failed to decode reserved1" DecodeShortInt;
    exchange ← wrap "failed to decode exchange" DecodeShortStr;
    routingKey ← wrap "failed to decode routing key" DecodeShortStr;
    flags ← read_flags ["mandatory"; "immediate"];
    mret (BasicPublish exchange routingKey (get_flag flags "mandatory")
      (get_flag flags "immediate"))).

Definition parseBasicGetFrame (payload : list byte) : res perr method_content :=
  run (
    reserved1 ← wrap "failed to decode reserved1" DecodeShortInt;
    if decide (reserved1 ≠ 0) then rfail (Msg "reserved1 must be 0") else
    queue ← wrap "failed to decode exchange" DecodeShortStr;
    flags ← read_flags ["noAck"];
    mret (BasicGet reserved1 queue (get_flag flags "noAck"))) payload.

Definition parseBasicAckFrame (payload : list byte) : res perr method_content :=
  at_least 9 payload (
    deliveryTag ← wrap "failed to decode deliveryTag" DecodeLongLongUInt;
    flags ← read_flags ["multiple"];
    mret (BasicAck deliveryTag (get_flag flags "multiple"))).

Definition parseBasicRejectFrame (payload : list byte) : res perr method_content :=
  at_least 9 payload (
    deliveryTag ← wrap "failed to decode deliveryTag" DecodeLongLongUInt;
    flags ← read_flags ["requeue"];
    mret (BasicReject deliveryTag (get_flag flags "requeue"))).

Definition parseBasicRecoverFrame (payload : list byte) : res perr method_content :=
  at_least 1 payload (
    flags ← read_flags ["requeue"];
    mret (BasicRecover (get_flag flags "requeue") false)).

Definition parseBasicRecoverAsyncFrame (payload : list byte) : res perr method_content :=
  content ← parseBasicRecoverFrame payload;
  match content with
  | BasicRecover requeue _ => Ok (BasicRecover requeue true)
  | _ => Ok content
  end.

Definition parseBasicNackFrame (payload : list byte) : res perr method_content :=
  at_least 9 payload (
    deliveryTag ← wrap "failed to decode deliveryTag" DecodeLongLongUInt;
    flags ← read_flags ["multiple"; "requeue"];
    mret (BasicNack deliveryTag (get_flag flags "multiple") (get_flag flags "requeue"))).

Definition parseBasicMethod (methodID : Z) (payload : list byte) : res perr method_content :=
  if decide (methodID = BASIC_QOS) then parseBasicQosFrame payload else
  if decide (methodID = BASIC_CONSUME) then parseBasicConsumeFrame payload else
  if decide (methodID = BASIC_CANCEL) then parseBasicCancelFrame payload else
  if decide (methodID = BASIC_CANCEL_OK) then
    Err (Msg "server should not receive BASIC_CANCEL_OK frames from clients") else
  if decide (methodID = BASIC_PUBLISH) then parseBasicPublishFrame payload else
  if decide (methodID = BASIC_RETURN) then Err (Msg " basic.return not implemented") else
  if decide (methodID = BASIC_DELIVER) then
    Err (Msg "server should not receive BASIC_DELIVER frames from clients") else
  if decide (methodID = BASIC_GET) then parseBasicGetFrame payload else
  if decide (methodID = BASIC_ACK) then parseBasicAckFrame payload else
  if decide (methodID = BASIC_REJECT) then parseBasicRejectFrame payload else
  if decide (methodID = BASIC_RECOVER_ASYNC) then parseBasicRecoverAsyncFrame payload else
  if decide (methodID = BASIC_RECOVER) then parseBasicRecoverFrame payload else
  if decide (methodID = BASIC_NACK) then parseBasicNackFrame payload else
  Err (Msg "unknown method ID").

(** ** channel.go *)

Definition parseChannelOpenFrame (payload : list byte) : res perr method_content :=
  if decide (length payload < 1)%nat then Err (Msg "payload too short") else Ok CNil.

Definition parseChannelOpenOkFrame (payload : list byte) : res perr method_content :=
  if decide (length payload < 1)%nat then Err (Msg "payload too short") else Ok CNil.

Definition parseChannelFlowFrame (payload : list byte) : res perr method_content :=
  at_least 1 payload (
    octet ← wrap "failed reading active octet" ReadByte;
    mret (ChannelFlow (get_flag (DecodeFlags octet ["active"] true) "active"))).

Definition parseChannelFlowOkFrame (payload : list byte) : res perr method_content :=
  at_least 1 payload (
    octet ← wrap "failed reading active octet" ReadByte;
    mret (ChannelFlowOk (get_flag (DecodeFlags octet ["active"] true) "active"))).

Definition parseChannelCloseFrame (payload : list byte) : res perr method_content :=
  if decide (length payload < 6)%nat then Err (Msg "frame too short") else
  run (
    replyCode ← wrap "failed decoding reply code" DecodeShortInt;
    replyText ← wrap "failed decoding reply text" DecodeShortStr;
    classID ← wrap "failed decoding class id" DecodeShortInt;
    methodID ← wrap "failed decoding method id" DecodeShortInt;
    mret (ChannelClose replyCode replyText classID methodID)) payload.

Definition parseChannelCloseOkFrame (payload : list byte) : res perr method_content :=
  if decide (1 < length payload)%nat then Err (Msg "unexxpected payload length") else Ok CNil.

Definition parseChannelMethod (methodID : Z) (payload : list byte) : res perr method_content :=
  if decide (methodID = CHANNEL_OPEN) then parseChannelOpenFrame payload else
  if decide (methodID = CHANNEL_OPEN_OK) then parseChannelOpenOkFrame payload else
  if decide (methodID = CHANNEL_FLOW) then parseChannelFlowFrame payload else
  if decide (methodID = CHANNEL_FLOW_OK) then parseChannelFlowOkFrame payload else
  if decide (methodID = CHANNEL_CLOSE) then parseChannelCloseFrame payload else
  if decide (methodID = CHANNEL_CLOSE_OK) then parseChannelCloseOkFrame payload else
  Err (Msg "unknown method ID").

(** ** connection.go *)

Definition parseConnectionStartFrame (payload : list byte) : res perr method_content :=
  at_least 6 payload (
    versionMajor ← wrap "failed to decode version-major" ReadByte;
    versionMinor ← wrap "failed to decode version-minor" ReadByte;
    serverPropertiesStr ← wrap "failed to decode client properties" DecodeLongStr;
    serverProperties ← wrap "failed to decode client properties"
      (lift (DecodeTable (bytes_of serverPropertiesStr)));
    mechanismsStr ← wrap "failed to decode mechanism" DecodeLongStr;
    localesStr ← wrap "failed to decode locale" DecodeLongStr;
    mret (ConnectionStartFrame (Z_of_byte versionMajor) (Z_of_byte versionMinor)
      serverProperties mechanismsStr localesStr)).

Definition parseConnectionStartOkFrame (payload : list byte) : res perr method_content :=
  at_least 6 payload (
    clientPropertiesStr ← wrap "failed to decode client properties" DecodeLongStr;
    clientProperties ← wrap "failed to decode client properties"
      (lift (DecodeTable (bytes_of clientPropertiesStr)));
    mechanism ← wrap "failed to decode mechanism" DecodeShortStr;
    if decide (mechanism ≠ "PLAIN"%string) then rfail (Msg "unsupported mechanism") else
    security ← wrap "failed to decode security" DecodeLongStr;
    locale ← wrap "failed to decode locale" DecodeShortStr;
    mret (ConnectionStartOk clientProperties mechanism security locale)).

Definition parseConnectionTuneOkFrame (payload : list byte) : res perr method_content :=
  at_least 6 payload (
    channelMax ← wrap "failed to decode channel max" DecodeShortInt;
    frameMax ← wrap "failed to decode frame max" DecodeLongUInt;
    heartbeat ← wrap "failed to decode heartbeat" DecodeShortInt;
    mret (ConnectionTune channelMax frameMax heartbeat)).

Definition parseConnectionOpenFrame (payload : list byte) : res perr method_content :=
  at_least 1 payload (
    virtualHost ← wrap "failed to decode virtual host" DecodeShortStr;
    mret (ConnectionOpen virtualHost)).

Definition parseConnectionOpenOkFrame (payload : list byte) : res perr method_content :=
  if decide (length payload < 1)%nat then Err (Msg "payload too short") else Ok CNil.

(** [payload[i:j]], for [i <= j <= len(payload)]. *)
Definition slice (i j : nat) (payload : list byte) : list byte := take (j - i) (drop i payload).

Definition parseConnectionCloseFrame (payload : list byte) : res perr method_content :=
  if decide (length payload < 12)%nat then Err (Msg "frame too short") else
  let replyCode := be_dec (slice 0 2 payload) in
  let replyTextLen := Z.to_nat (be_dec (slice 2 3 payload)) in
  let index := 3%nat in
  if decide (length payload < index + replyTextLen + 4)%nat then Err (Msg "frame too short") else
  let replyText := string_of (slice index (index + replyTextLen) payload) in
  let index := (index + replyTextLen)%nat in
  let classID := be_dec (slice index (index + 2) payload) in
  let index := (index + 2)%nat in
  let methodID := be_dec (slice index (index + 2) payload) in
  Ok (ConnectionClose replyCode replyText classID methodID).

Definition parseConnectionCloseOkFrame (payload : list byte) : res perr method_content :=
  Ok (ConnectionCloseOk payload).

(** The source stores the parsed connection.close and close-ok as messages
    inside the message; here their content is stored directly. *)
Definition parseConnectionMethod (methodID : Z) (payload : list byte) : res perr method_content :=
  if decide (methodID = CONNECTION_START) then parseConnectionStartFrame payload else
  if decide (methodID = CONNECTION_START_OK) then parseConnectionStartOkFrame payload else
  if decide (methodID = CONNECTION_TUNE_OK) then parseConnectionTuneOkFrame payload else
  if decide (methodID = CONNECTION_OPEN) then parseConnectionOpenFrame payload else
  if decide (methodID = CONNECTION_OPEN_OK) then parseConnectionOpenOkFrame payload else
  if decide (methodID = CONNECTION_CLOSE) then
    map_err (Wrap "failed to parse connection.close frame") (parseConnectionCloseFrame payload) else
  if decide (methodID = CONNECTION_CLOSE_OK) then
    map_err (Wrap "failed to parse CONNECTION_CLOSE_OK frame")
      (parseConnectionCloseOkFrame payload) else
  Err (Msg "unknown method ID").

(** ** tx.go *)

Definition parseTxMethod (methodID : Z) (payload : list byte) : res perr method_content :=
  if decide (methodID = TX_SELECT) then Ok TxSelect else
  if decide (methodID = TX_SELECT_OK) then
    Err (Msg "server should not receive TX_SELECT_OK frames from clients") else
  if decide (methodID = TX_COMMIT) then Ok TxCommit else
  if decide (methodID = TX_COMMIT_OK) then
    Err (Msg "server should not receive TX_COMMIT_OK frames from clients") else
  if decide (methodID = TX_ROLLBACK) then Ok TxRollback else
  if decide (methodID = TX_ROLLBACK_OK) then
    Err (Msg "server should not receive TX_ROLLBACK_OK frames from clients") else
  Err (Msg "unknown method ID").

(** ** parsers.go: a method frame's payload *)

Record RequestMethodMessage : Type := MkRequest {
  rm_Channel : Z;
  rm_ClassID : Z;
  rm_MethodID : Z;
  rm_Content : method_content;
}.

(** The class's parser, [None] for a class the broker does not know. *)
Definition parse_class (classID methodID : Z) (methodPayload : list byte)
    : option (res perr method_content) :=
  if decide (classID = CONNECTION) then Some (parseConnectionMethod methodID methodPayload) else
  if decide (classID = CHANNEL) then Some (parseChannelMethod methodID methodPayload) else
  if decide (classID = EXCHANGE) then Some (parseExchangeMethod methodID methodPayload) else
  if decide (classID = QUEUE) then Some (parseQueueMethod methodID methodPayload) else
  if decide (classID = BASIC) then Some (parseBasicMethod methodID methodPayload) else
  if decide (classID = TX) then Some (parseTxMethod methodID methodPayload) else None.

Definition parseMethodFrame (channel : Z) (payload : list byte) : res perr RequestMethodMessage :=
  if decide (length payload < 4)%nat then Err (Msg "payload too short") else
  let classID := be_dec (slice 0 2 payload) in
  let methodID := be_dec (slice 2 4 payload) in
  let methodPayload := drop 4 payload in
  match parse_class classID methodID methodPayload with
  | None => Err (Msg "unknown class ID")
  | Some r => content ← r; Ok (MkRequest channel classID methodID content)
  end.
