(* ===== verification/ClientMethods.v ===== *)
(** * The methods of a client, as AMQP 0-9-1 writes them

    A specification of the wire format, independent of the parsers of
    Methods.v: the class and method identifiers of each client method and its
    arguments in the order and types of the AMQP 0-9-1 grammar.  The theorem
    says that the parsers of internal/core/amqp read every client method of
    the grammar back, except for the ones their length checks refuse. *)

From stdpp Require Import base list strings.
From Stdlib Require Import ZArith Lia.
From Stdlib Require Import Strings.Byte.
From S2P Require Import Prelude Bytes Values Reader FieldTable Methods.

Local Open Scope Z_scope.
Local Open Scope string_scope.
Local Open Scope list_scope.

(** ** The grammar *)

Definition shortstr (s : string) : list byte := byte_of_Z (slen s) :: bytes_of s.
Definition longstr (s : string) : list byte := EncodeLongStr (bytes_of s).

(** Bits are packed into one octet, the first one in the low bit. *)
Fixpoint bits_value (bs : list bool) : Z :=
  match bs with
  | [] => 0
  | b :: bs' => Z.b2z b + 2 * bits_value bs'
  end.

Definition bits (bs : list bool) : list byte := be_enc 1 (bits_value bs).

(** A table of arguments; [enc] is its encoding. *)
Definition encoded (t : option table) : list byte :=
  match EncodeTable (default [] t) with Ok bs => bs | Err _ => [] end.
Definition field_table (t : option table) : list byte := EncodeLongStr (encoded t).

Definition short : Z → list byte := be_enc 2.
Definition long : Z → list byte := be_enc 4.
Definition longlong : Z → list byte := be_enc 8.

Definition class_of (c : method_content) : Z :=
  match c with
  | ConnectionStartFrame _ _ _ _ _ | ConnectionStartOk _ _ _ _ | ConnectionTune _ _ _
  | ConnectionOpen _ | ConnectionClose _ _ _ _ | ConnectionCloseOk _ => CONNECTION
  | CNil | ChannelFlow _ | ChannelFlowOk _ | ChannelClose _ _ _ _ => CHANNEL
  | ExchangeDeclare _ _ _ _ _ _ _ _ | ExchangeDelete _ _ _ => EXCHANGE
  | QueueDeclare _ _ _ _ _ _ _ | QueueBind _ _ _ _ _ | QueueUnbind _ _ _ _ | QueuePurge _ _
  | QueueDelete _ _ _ _ => QUEUE
  | TxSelect | TxCommit | TxRollback => TX
  | _ => BASIC
  end.

Definition method_of (c : method_content) : Z :=
  match c with
  | CNil => CHANNEL_OPEN
  | ConnectionStartFrame _ _ _ _ _ => CONNECTION_START
  | ConnectionStartOk _ _ _ _ => CONNECTION_START_OK
  | ConnectionTune _ _ _ => CONNECTION_TUNE_OK
  | ConnectionOpen _ => CONNECTION_OPEN
  | ConnectionClose _ _ _ _ => CONNECTION_CLOSE
  | ConnectionCloseOk _ => CONNECTION_CLOSE_OK
  | ChannelFlow _ => CHANNEL_FLOW
  | ChannelFlowOk _ => CHANNEL_FLOW_OK
  | ChannelClose _ _ _ _ => CHANNEL_CLOSE
  | ExchangeDeclare _ _ _ _ _ _ _ _ => EXCHANGE_DECLARE
  | ExchangeDelete _ _ _ => EXCHANGE_DELETE
  | QueueDeclare _ _ _ _ _ _ _ => QUEUE_DECLARE
  | QueueBind _ _ _ _ _ => QUEUE_BIND
  | QueueUnbind _ _ _ _ => QUEUE_UNBIND
  | QueuePurge _ _ => QUEUE_PURGE
  | QueueDelete _ _ _ _ => QUEUE_DELETE
  | BasicQos _ _ _ => BASIC_QOS
  | BasicConsume _ _ _ _ _ _ _ => BASIC_CONSUME
  | BasicCancel _ _ => BASIC_CANCEL
  | BasicPublish _ _ _ _ => BASIC_PUBLISH
  | BasicGet _ _ _ => BASIC_GET
  | BasicAck _ _ => BASIC_ACK
  | BasicReject _ _ => BASIC_REJECT
  | BasicNack _ _ _ => BASIC_NACK
  | BasicRecover _ async => if async then BASIC_RECOVER_ASYNC else BASIC_RECOVER
  | TxSelect => TX_SELECT
  | TxCommit => TX_COMMIT
  | TxRollback => TX_ROLLBACK
  end.

(** The arguments of each method.  channel.open carries one reserved short
    string, connection.open a reserved short string and a bit. *)
Definition arguments_of (c : method_content) : list byte :=
  match c with
  | CNil => shortstr ""
  | ConnectionStartFrame major minor props mech loc =>
      be_enc 1 major ++ be_enc 1 minor ++ field_table (Some props) ++ longstr mech ++ longstr loc
  | ConnectionStartOk props mech resp loc =>
      field_table (Some props) ++ shortstr mech ++ longstr resp ++ shortstr loc
  | ConnectionTune cm fm hb => short cm ++ long fm ++ short hb
  | ConnectionOpen vh => shortstr vh ++ shortstr "" ++ bits [false]
  | ConnectionClose code text cid mid => short code ++ shortstr text ++ short cid ++ short mid
  | ConnectionCloseOk payload => payload
  | ChannelFlow active | ChannelFlowOk active => bits [active]
  | ChannelClose code text cid mid => short code ++ shortstr text ++ short cid ++ short mid
  | ExchangeDeclare name type passive durable autoDelete internal noWait args =>
      short 0 ++ shortstr name ++ shortstr type
        ++ bits [passive; durable; autoDelete; internal; noWait] ++ field_table args
  | ExchangeDelete name ifUnused noWait => short 0 ++ shortstr name ++ bits [ifUnused; noWait]
  | QueueDeclare name passive durable exclusive autoDelete noWait args =>
      short 0 ++ shortstr name ++ bits [passive; durable; exclusive; autoDelete; noWait]
        ++ field_table args
  | QueueBind queue exchange key noWait args =>
      short 0 ++ shortstr queue ++ shortstr exchange ++ shortstr key ++ bits [noWait]
        ++ field_table args
  | QueueUnbind queue exchange key args =>
      short 0 ++ shortstr queue ++ shortstr exchange ++ shortstr key ++ field_table args
  | QueuePurge name noWait => short 0 ++ shortstr name ++ bits [noWait]
  | QueueDelete name ifUnused ifEmpty noWait =>
      short 0 ++ shortstr name ++ bits [ifUnused; ifEmpty; noWait]
  | BasicQos size count global => long size ++ short count ++ bits [global]
  | BasicConsume queue tag noLocal noAck exclusive noWait args =>
      short 0 ++ shortstr queue ++ shortstr tag ++ bits [noLocal; noAck; exclusive; noWait]
        ++ field_table args
  | BasicCancel tag noWait => shortstr tag ++ bits [noWait]
  | BasicPublish exchange key mandatory immediate =>
      short 0 ++ shortstr exchange ++ shortstr key ++ bits [mandatory; immediate]
  | BasicGet _ queue noAck => short 0 ++ shortstr queue ++ bits [noAck]
  | BasicAck dtag multiple => longlong dtag ++ bits [multiple]
  | BasicReject dtag requeue => longlong dtag ++ bits [requeue]
  | BasicNack dtag multiple requeue => longlong dtag ++ bits [multiple; requeue]
  | BasicRecover requeue _ => bits [requeue]
  | TxSelect | TxCommit | TxRollback => []
  end.

Definition method_payload (c : method_content) : list byte :=
  short (class_of c) ++ short (method_of c) ++ arguments_of c.

(** ** What can be written *)

Definition wf_short (s : string) : Prop := slen s <= 255.
Definition wf_long (s : string) : Prop := slen s < 2 ^ 32.

Definition wf_args (t : option table) : Prop :=
  wf_table (default [] t) ∧ is_ok (EncodeTable (default [] t)) = true ∧
  Z.of_nat (length (encoded t)) < 2 ^ 32.

(** The fields fit their wire types; and the limits of the parsers: the name in
    queue.delete and exchange.delete is at least two bytes long, connection.close
    has a reply text of at least five, and the mechanism is PLAIN. *)
Definition wf_method (c : method_content) : Prop :=
  match c with
  | CNil | ChannelFlow _ | ChannelFlowOk _ | ConnectionCloseOk _ | BasicRecover _ _
  | TxSelect | TxCommit | TxRollback => True
  | ConnectionStartFrame major minor props mech loc =>
      u8 major ∧ u8 minor ∧ wf_args (Some props) ∧ wf_long mech ∧ wf_long loc
  | ConnectionStartOk props mech resp loc =>
      wf_args (Some props) ∧ mech = "PLAIN" ∧ wf_long resp ∧ wf_short loc
  | ConnectionTune cm fm hb => u16 cm ∧ u32 fm ∧ u16 hb
  | ConnectionOpen vh => wf_short vh
  | ConnectionClose code text cid mid => u16 code ∧ 5 <= slen text ∧ wf_short text ∧ u16 cid ∧ u16 mid
  | ChannelClose code text cid mid => u16 code ∧ wf_short text ∧ u16 cid ∧ u16 mid
  | ExchangeDeclare name type _ _ _ _ _ args => wf_short name ∧ wf_short type ∧ wf_args args
  | ExchangeDelete name _ _ | QueueDelete name _ _ _ => wf_short name ∧ 2 <= slen name
  | QueueDeclare name _ _ _ _ _ args => wf_short name ∧ wf_args args
  | QueueBind q x k _ args | QueueUnbind q x k args =>
      wf_short q ∧ wf_short x ∧ wf_short k ∧ wf_args args
  | QueuePurge name _ => wf_short name
  | BasicQos size count _ => u32 size ∧ u16 count
  | BasicConsume q t _ _ _ _ args => wf_short q ∧ wf_short t ∧ wf_args args
  | BasicCancel t _ => wf_short t
  | BasicPublish x k _ _ => wf_short x ∧ wf_short k
  | BasicGet r q _ => r = 0 ∧ wf_short q
  | BasicAck d _ | BasicReject d _ | BasicNack d _ _ => u64 d
  end.

(** What the parsers make of the tables: values as [relay]ed; an empty table
    is a nil map in the declarations and an empty one elsewhere. *)
Definition read_declared (t : option table) : option table :=
  match relay_table (default [] t) with [] => None | t' => Some t' end.
Definition read_present (t : option table) : option table := Some (relay_table (default [] t)).

Definition read_back (c : method_content) : method_content :=
  match c with
  | ConnectionStartFrame a b props m l => ConnectionStartFrame a b (relay_table props) m l
  | ConnectionStartOk props m r l => ConnectionStartOk (relay_table props) m r l
  | ExchangeDeclare n t a b c d e args => ExchangeDeclare n t a b c d e (read_declared args)
  | QueueDeclare n a b c d e args => QueueDeclare n a b c d e (read_declared args)
  | QueueBind q x k a args => QueueBind q x k a (read_present args)
  | QueueUnbind q x k args => QueueUnbind q x k (read_present args)
  | BasicConsume q t a b c d args => BasicConsume q t a b c d (read_present args)
  | _ => c
  end.

(** ** Reading the grammar back *)

(** [r] reads [bs] as [a] and leaves what follows. *)
Definition reads {A} (r : reader A) (bs : list byte) (a : A) : Prop :=
  ∀ rest, r (bs ++ rest) = Ok (a, rest).

(** [r] reads the value [a] off [bs], the parsers ignoring what is left. *)
Definition parses {A} (r : reader A) (bs : list byte) (a : A) : Prop :=
  ∃ rest, r bs = Ok (a, rest).

Lemma reads_bind {A B} (r : reader A) (f : A → reader B) bs bs' a b :
  reads r bs a → reads (f a) bs' b → reads (r ≫= f) (bs ++ bs') b.
Proof. intros Hr Hf rest. by rewrite <-app_assoc, bind_reader, Hr. Qed.

Lemma parses_bind {A B} (r : reader A) (f : A → reader B) bs bs' a b :
  reads r bs a → parses (f a) bs' b → parses (r ≫= f) (bs ++ bs') b.
Proof. intros Hr [rest Hf]. exists rest. by rewrite bind_reader, Hr. Qed.

Lemma parses_bind_nil {A B} (r : reader A) (f : A → reader B) bs a b :
  reads r [] a → parses (f a) bs b → parses (r ≫= f) bs b.
Proof. apply (parses_bind r f []). Qed.

Lemma parses_last {A B} (r : reader A) (f : A → reader B) bs a b :
  parses r bs a → (∀ rest, f a rest = Ok (b, rest)) → parses (r ≫= f) bs b.
Proof. intros [rest Hr] Hf. exists rest. by rewrite bind_reader, Hr. Qed.

Lemma parses_reads {A} (r : reader A) bs a : reads r bs a → parses r bs a.
Proof. intros Hr. exists []. by rewrite <-(app_nil_r bs), Hr. Qed.

Lemma parses_run {A} (r : reader A) bs a : parses r bs a → run r bs = Ok a.
Proof. intros [rest Hr]. unfold run. by rewrite Hr. Qed.

Lemma parses_at_least {A} n (r : reader A) bs a :
  (n ≤ length bs)%nat → parses r bs a → at_least n bs r = Ok a.
Proof. intros. unfold at_least. rewrite decide_False by lia. by apply parses_run. Qed.

Lemma reads_wrap {A} t (r : reader A) bs a : reads r bs a → reads (wrap t r) bs a.
Proof. intros Hr rest. unfold wrap. by rewrite Hr. Qed.

Lemma reads_shortstr s : wf_short s → reads DecodeShortStr (shortstr s) s.
Proof.
  intros Hs rest. apply DecodeShortStr_enc. unfold EncodeShortStr, wf_short in *.
  by rewrite decide_False by lia.
Qed.

Lemma reads_longstr s : wf_long s → reads DecodeLongStr (longstr s) s.
Proof. intros Hs rest. by apply DecodeLongStr_enc. Qed.

Lemma reads_short z : u16 z → reads DecodeShortInt (short z) z.
Proof. intros Hz rest. by apply (read_be_enc_small 2). Qed.

Lemma reads_long z : u32 z → reads DecodeLongUInt (long z) z.
Proof. intros Hz rest. by apply (read_be_enc_small 4). Qed.

Lemma reads_longlong z : u64 z → reads DecodeLongLongUInt (longlong z) z.
Proof. intros Hz rest. by apply (read_be_enc_small 8). Qed.

Lemma reads_octet z : reads ReadByte (be_enc 1 z) (byte_of_Z z).
Proof. by intros rest. Qed.

Lemma reads_reserved1 : reads read_reserved1 (short 0) tt.
Proof. by intros rest. Qed.

Lemma bits_value_range bs : 0 <= bits_value bs < 2 ^ Z.of_nat (length bs).
Proof.
  induction bs as [|b bs IH]; [done|]. cbn [bits_value]. rewrite length_cons.
  rewrite Nat2Z.inj_succ, Z.pow_succ_r by lia. destruct b; simpl Z.b2z; lia.
Qed.

Lemma bits_value_testbit bs i :
  Z.testbit (bits_value bs) (Z.of_nat i) = nth i bs false.
Proof.
  revert i. induction bs as [|b bs IH]; intros i.
  - simpl. rewrite Z.testbit_0_l. by destruct i.
  - cbn [bits_value]. destruct i as [|i].
    + change (Z.of_nat 0) with 0. by rewrite Z.add_comm, Z.testbit_0_r.
    + rewrite Nat2Z.inj_succ, Z.add_comm, Z.testbit_succ_r by lia. apply IH.
Qed.

Lemma flags_from_bits bs : (length bs ≤ 8)%nat → ∀ names k,
  (length names + k = length bs)%nat →
  flags_from (byte_of_Z (bits_value bs)) (Z.of_nat k) true names = zip names (drop k bs).
Proof.
  intros Hbs. induction names as [|n names IH]; intros k Hk; [done|].
  cbn [flags_from]. rewrite (drop_S _ (nth k bs false) k).
  2: { destruct (nth_lookup_or_length bs k false) as [|H]; [done|]. simpl in Hk. lia. }
  cbn [zip zip_with]. f_equal.
  - unfold flag_bit. rewrite Z_of_byte_small.
    + by rewrite bits_value_testbit.
    + pose proof (bits_value_range bs).
      assert (2 ^ Z.of_nat (length bs) <= 2 ^ 8) by (apply Z.pow_le_mono_r; lia). lia.
  - replace (Z.of_nat k + 1) with (Z.of_nat (S k)) by lia. apply IH. simpl in Hk. lia.
Qed.

Lemma reads_flags names bs :
  length names = length bs → (length bs ≤ 8)%nat → reads (read_flags names) (bits bs) (zip names bs).
Proof.
  intros Hn Hb rest. unfold read_flags. rewrite bind_reader. unfold wrap, bits.
  rewrite reads_octet. cbn [map_err]. unfold DecodeFlags. rewrite take_ge by lia.
  pose proof (flags_from_bits bs Hb names 0 ltac:(lia)) as H.
  change (Z.of_nat 0) with 0 in H. by rewrite H.
Qed.

Lemma reads_table_value t :
  wf_args t → DecodeTable (bytes_of (string_of (encoded t))) = Ok (relay_table (default [] t)).
Proof.
  intros (Hwf & Henc & Hlen). rewrite bytes_of_string_of. unfold encoded in *.
  destruct (EncodeTable _) as [bs|] eqn:E; [|done]. by apply DecodeTable_enc.
Qed.

Lemma reads_table t :
  wf_args t → reads DecodeLongStr (field_table t) (string_of (encoded t)).
Proof.
  intros (Hwf & Henc & Hlen) rest. unfold field_table.
  rewrite <-(bytes_of_string_of (encoded t)) at 1. apply DecodeLongStr_enc.
  unfold slen. by rewrite bytes_of_string_of.
Qed.

Lemma reads_lift_table text t :
  wf_args t → reads (wrap text (lift (DecodeTable (bytes_of (string_of (encoded t))))))
    [] (relay_table (default [] t)).
Proof. intros Hwf rest. unfold wrap, lift. by rewrite reads_table_value. Qed.

Lemma length_field_table t : length (field_table t) = (4 + length (encoded t))%nat.
Proof. apply length_EncodeLongStr. Qed.

Lemma slen_string_of l : slen (string_of l) = Z.of_nat (length l).
Proof. unfold slen. by rewrite bytes_of_string_of. Qed.

Lemma EncodeTable_nil t : EncodeTable t = Ok [] → t = [].
Proof.
  destruct t as [|[k v] t]; [done|]. unfold EncodeTable. cbn [EncodeTable_with]. intros H.
  inv_ok. apply EncodeShortStr_ok in H as [-> _]. done.
Qed.

Lemma encoded_nil t : wf_args t → encoded t = [] → default [] t = [].
Proof.
  intros (_ & Hok & _) H. unfold encoded in H.
  destruct (EncodeTable _) eqn:E; [|done]. subst. by apply EncodeTable_nil in E.
Qed.

Lemma parses_fmap {A B} (f : A → B) (r : reader A) bs a :
  parses r bs a → parses (f <$> r) bs (f a).
Proof. intros [rest H]. exists rest. by apply fmap_reader. Qed.

Lemma parses_table text t :
  wf_args t → parses (argumentsStr ← wrap text DecodeLongStr;
    Some <$> wrap "failed to read arguments" (lift (DecodeTable (bytes_of argumentsStr))))
    (field_table t) (read_present t).
Proof.
  intros Hwf. rewrite <-(app_nil_r (field_table t)).
  eapply parses_bind; [by apply reads_wrap, reads_table|].
  apply (parses_fmap Some), parses_reads. by apply reads_lift_table.
Qed.

Lemma parses_arguments t : wf_args t → parses read_arguments (field_table t) (read_declared t).
Proof.
  intros Hwf. unfold parses, read_arguments. rewrite bind_reader. cbn [remaining].
  rewrite length_field_table. destruct (encoded t) as [|b l] eqn:E.
  - rewrite decide_False by (simpl; lia). eexists. unfold read_declared.
    by rewrite (encoded_nil t Hwf E).
  - rewrite decide_True by (simpl; lia).
    destruct (parses_table "failed to decode arguments" t Hwf) as [rest ->]. exists rest.
    unfold read_declared, read_present.
    destruct (default [] t) eqn:Ed; [|done]. unfold encoded in E. by rewrite Ed in E.
Qed.

Lemma DecodeLongStr_lenient_ok buf r : DecodeLongStr buf = Ok r → DecodeLongStr_lenient buf = Ok r.
Proof. intros H. unfold DecodeLongStr_lenient. by rewrite H. Qed.

Lemma parses_arguments_lenient t :
  wf_args t → parses read_arguments_lenient (field_table t) (read_present t).
Proof.
  intros Hwf. unfold parses, read_arguments_lenient. rewrite bind_reader. cbn [remaining].
  rewrite length_field_table. destruct (encoded t) as [|b l] eqn:E.
  - rewrite decide_False by (simpl; lia). eexists. unfold read_present.
    by rewrite (encoded_nil t Hwf E).
  - rewrite decide_True by (simpl; lia). rewrite <-(app_nil_r (field_table t)).
    eapply parses_bind.
    + intros rest. apply DecodeLongStr_lenient_ok. by apply reads_table.
    + apply (parses_fmap Some), parses_reads. by apply reads_lift_table.
Qed.

Lemma parses_consume_arguments t :
  wf_args t → parses read_consume_arguments (field_table t) (read_present t).
Proof.
  intros Hwf. unfold parses, read_consume_arguments. rewrite bind_reader. cbn [remaining].
  rewrite length_field_table. rewrite decide_True by lia.
  rewrite <-(app_nil_r (field_table t)).
  apply (parses_bind _ _ _ _ (string_of (encoded t))); [by apply reads_wrap, reads_table|].
  rewrite slen_string_of. case_decide.
  - apply (parses_fmap Some), parses_reads. by apply reads_lift_table.
  - eexists. unfold read_present. destruct (encoded t) eqn:E; [|simpl in *; lia].
    by rewrite (encoded_nil t Hwf E).
Qed.

Ltac reads_tac :=
  lazymatch goal with
  | |- reads (wrap _ _) _ _ => apply reads_wrap; reads_tac
  | |- reads DecodeShortStr _ _ => apply reads_shortstr; done
  | |- reads DecodeLongStr (field_table _) _ => apply reads_table; done
  | |- reads DecodeLongStr _ _ => apply reads_longstr; done
  | |- reads read_reserved1 _ _ => apply reads_reserved1
  | |- reads DecodeShortInt _ _ => apply reads_short; first [done | unfold u16; lia]
  | |- reads DecodeLongUInt _ _ => apply reads_long; done
  | |- reads DecodeLongLongUInt _ _ => apply reads_longlong; done
  | |- reads ReadByte _ _ => apply reads_octet
  | |- reads (read_flags _) _ _ => apply reads_flags; [reflexivity | simpl; lia]
  end.

(** Reads a method's arguments one after the other. *)
Ltac parses_tac :=
  repeat lazymatch goal with
    | |- parses (mbind _ (wrap _ (lift _))) _ _ =>
        eapply parses_bind_nil; [apply reads_lift_table; done|]
    | |- parses (if decide (?x ≠ ?x) then _ else _) _ _ => rewrite decide_False by tauto
    | |- parses (mbind _ _) (_ ++ _) _ => eapply parses_bind; [reads_tac|]
    end;
  first
    [ eapply parses_last;
      [ lazymatch goal with
        | |- parses read_arguments _ _ => apply parses_arguments; done
        | |- parses read_arguments_lenient _ _ => apply parses_arguments_lenient; done
        | |- parses read_consume_arguments _ _ => apply parses_consume_arguments; done
        | |- _ => apply parses_reads; reads_tac
        end
      | intros ?; rewrite ?Z_of_byte_small by (unfold u8 in *; lia); reflexivity ] ].

Lemma length_shortstr s : length (shortstr s) = S (length (bytes_of s)).
Proof. done. Qed.

Ltac arguments_length :=
  unfold longstr, short, long, longlong, bits;
  rewrite ?length_app, ?length_shortstr, ?length_field_table, ?length_EncodeLongStr, ?length_be_enc;
  unfold slen in *; lia.

Lemma parse_basic c :
  wf_method c → class_of c = BASIC → parseBasicMethod (method_of c) (arguments_of c) = Ok (read_back c).
Proof.
  destruct c; try done; intros Hwf _; cbn [wf_method] in Hwf;
    repeat match goal with H : _ ∧ _ |- _ => destruct H end; cbn [arguments_of method_of read_back].
  - apply (parses_at_least 7); [arguments_length|]. parses_tac.
  - apply (parses_at_least 5); [arguments_length|]. parses_tac.
  - apply (parses_at_least 2); [arguments_length|]. parses_tac.
  - apply (parses_at_least 5); [arguments_length|]. parses_tac.
  - subst. apply parses_run. parses_tac.
  - apply (parses_at_least 9); [arguments_length|]. parses_tac.
  - apply (parses_at_least 9); [arguments_length|]. parses_tac.
  - apply (parses_at_least 9); [arguments_length|]. parses_tac.
  - destruct Async, Requeue; reflexivity.
Qed.

Ltac split_method :=
  let Hwf := fresh in
  intros Hwf _; cbn [wf_method] in Hwf;
  repeat match goal with H : _ ∧ _ |- _ => destruct H end;
  cbn [arguments_of method_of read_back].

Lemma parse_queue c :
  wf_method c → class_of c = QUEUE → parseQueueMethod (method_of c) (arguments_of c) = Ok (read_back c).
Proof.
  destruct c; try done; split_method.
  - apply (parses_at_least 6); [arguments_length|]. parses_tac.
  - apply (parses_at_least 6); [arguments_length|]. parses_tac.
  - apply (parses_at_least 6); [arguments_length|]. parses_tac.
  - apply (parses_at_least 4); [arguments_length|]. parses_tac.
  - apply (parses_at_least 6); [arguments_length|]. parses_tac.
Qed.

Lemma parse_exchange c :
  wf_method c → class_of c = EXCHANGE →
  parseExchangeMethod (method_of c) (arguments_of c) = Ok (read_back c).
Proof.
  destruct c; try done; split_method.
  - apply (parses_at_least 6); [arguments_length|]. parses_tac.
  - apply (parses_at_least 6); [arguments_length|]. parses_tac.
Qed.

Lemma parse_channel c :
  wf_method c → class_of c = CHANNEL →
  parseChannelMethod (method_of c) (arguments_of c) = Ok (read_back c).
Proof.
  destruct c; try done; split_method.
  - destruct Active; reflexivity.
  - destruct Active; reflexivity.
  - change (parseChannelMethod _ ?p) with (parseChannelCloseFrame p).
    unfold parseChannelCloseFrame. rewrite decide_False by arguments_length.
    apply parses_run. parses_tac.
Qed.

Lemma parse_tx c :
  class_of c = TX → parseTxMethod (method_of c) (arguments_of c) = Ok (read_back c).
Proof. by destruct c. Qed.

Lemma slice_app_l i j l l1 l2 :
  i = length l → j = (i + length l1)%nat → slice i j (l ++ l1 ++ l2) = l1.
Proof.
  intros -> ->. unfold slice. rewrite drop_app_length.
  apply take_app_length'. lia.
Qed.

Lemma be_dec_short z : u16 z → be_dec (short z) = z.
Proof. intros. by apply be_dec_enc_small. Qed.

Lemma parse_connection_close code text cid mid :
  u16 code → 5 <= slen text → wf_short text → u16 cid → u16 mid →
  parseConnectionCloseFrame (short code ++ shortstr text ++ short cid ++ short mid)
    = Ok (ConnectionClose code text cid mid).
Proof.
  intros Hc Ht Hw Hcid Hmid. pose proof (slen_nonneg text). unfold parseConnectionCloseFrame.
  rewrite decide_False by arguments_length.
  change (shortstr text) with (be_enc 1 (slen text) ++ bytes_of text). rewrite <-app_assoc.
  rewrite (slice_app_l 2 3 (short code) (be_enc 1 (slen text)))
    by (rewrite ?length_be_enc; unfold short; by rewrite ?length_be_enc).
  rewrite (be_dec_enc_small 1) by (unfold wf_short in *; simpl; lia).
  rewrite decide_False.
  2: { unfold short. rewrite !length_app, !length_be_enc. unfold slen. lia. }
  change (slice 0 2 (short code ++ ?x)) with (take 2 (short code ++ x)).
  rewrite (take_app_length' (short code)) by (unfold short; by rewrite length_be_enc).
  set (n := length (bytes_of text)).
  assert (Z.to_nat (slen text) = n) as -> by (unfold slen, n; lia).
  rewrite !be_dec_short by done.
  pose proof (slice_app_l 3 (3 + n) (short code ++ be_enc 1 (slen text)) (bytes_of text)
    (short cid ++ short mid)) as E1.
  pose proof (slice_app_l (3 + n) (3 + n + 2) (short code ++ be_enc 1 (slen text) ++ bytes_of text)
    (short cid) (short mid)) as E2.
  pose proof (slice_app_l (3 + n + 2) (3 + n + 2 + 2)
    (short code ++ be_enc 1 (slen text) ++ bytes_of text ++ short cid) (short mid) []) as E3.
  unfold short in *. rewrite ?length_app, ?length_be_enc in E1, E2, E3.
  repeat rewrite <-app_assoc in E1; repeat rewrite <-app_assoc in E2; repeat rewrite <-app_assoc in E3; rewrite app_nil_r in E3.
  rewrite E1, E2, E3 by (repeat (rewrite length_app || rewrite length_be_enc); lia).
  rewrite !be_dec_short, string_of_bytes_of by done. done.
Qed.

Lemma parse_connection c :
  wf_method c → class_of c = CONNECTION →
  parseConnectionMethod (method_of c) (arguments_of c) = Ok (read_back c).
Proof.
  destruct c; try done; split_method.
  - apply (parses_at_least 6); [arguments_length|]. parses_tac.
  - subst. apply (parses_at_least 6); [arguments_length|]. parses_tac.
  - apply (parses_at_least 6); [arguments_length|]. parses_tac.
  - apply (parses_at_least 1); [arguments_length|].
    eexists. rewrite bind_reader. unfold wrap. by rewrite reads_shortstr.
  - change (parseConnectionMethod CONNECTION_CLOSE ?p)
      with (map_err (Wrap "failed to parse connection.close frame") (parseConnectionCloseFrame p)).
    by rewrite parse_connection_close.
Qed.

Lemma class_of_cases c :
  class_of c = CONNECTION ∨ class_of c = CHANNEL ∨ class_of c = EXCHANGE ∨ class_of c = QUEUE ∨
  class_of c = BASIC ∨ class_of c = TX.
Proof. destruct c; cbn; tauto. Qed.

Lemma parse_class_method c :
  wf_method c → parse_class (class_of c) (method_of c) (arguments_of c) = Some (Ok (read_back c)).
Proof.
  intros Hwf. destruct (class_of_cases c) as [H|[H|[H|[H|[H|H]]]]]; rewrite H;
    [ rewrite <-parse_connection by done | rewrite <-parse_channel by done
    | rewrite <-parse_exchange by done | rewrite <-parse_queue by done
    | rewrite <-parse_basic by done | rewrite <-parse_tx by done]; reflexivity.
Qed.

Lemma identifiers_u16 c : u16 (class_of c) ∧ u16 (method_of c).
Proof. destruct c; try (by split; apply (bool_decide_unpack _)). by destruct Async. Qed.

Lemma parseMethodFrame_enc channel c :
  wf_method c →
  parseMethodFrame channel (method_payload c)
    = Ok (MkRequest channel (class_of c) (method_of c) (read_back c)).
Proof.
  intros Hwf. destruct (identifiers_u16 c) as [Hc Hm].
  unfold parseMethodFrame, method_payload. rewrite decide_False.
  2: { unfold short. rewrite !length_app, !length_be_enc. lia. }
  change (slice 0 2 (short (class_of c) ++ ?x)) with (take 2 (short (class_of c) ++ x)).
  rewrite (take_app_length' (short (class_of c))) by (unfold short; by rewrite length_be_enc).
  rewrite (slice_app_l 2 4) by (unfold short; by rewrite ?length_be_enc).
  rewrite !be_dec_short by done.
  rewrite app_assoc, drop_app_length'
    by (unfold short; by rewrite length_app, !length_be_enc).
  by rewrite parse_class_method.
Qed.


Definition sample_declare : method_content :=
  QueueDeclare "orders" false true false false true (Some sample_table).


(** A reply text shorter than five bytes in connection.close, or a one-letter
    name in queue.delete and exchange.delete, is refused as a short frame,
    although the grammar allows it. *)
Lemma short_close_text_refused :
  parseConnectionCloseFrame (arguments_of (ConnectionClose 200 "OK" 0 0)) = Err (Msg "frame too short").
Proof. reflexivity. Qed.

Lemma one_letter_queue_delete_refused ifUnused ifEmpty noWait :
  parseQueueDeleteFrame (arguments_of (QueueDelete "q" ifUnused ifEmpty noWait))
    = Err (Msg "payload too short").
Proof. reflexivity. Qed.

Lemma one_letter_exchange_delete_refused ifUnused noWait :
  parseExchangeDeleteFrame (arguments_of (ExchangeDelete "x" ifUnused noWait))
    = Err (Msg "payload too short").
Proof. reflexivity. Qed.
