(* ===== verification/Typed.v ===== *)
(** * Requests are well typed

    What the parsers of internal/core/amqp hand to the broker is an untyped Go
    value ([any]) in a [RequestMethodMessage]; the handlers assert its type.
    Here every payload that parses is shown to give the content of its class and
    method, with every integer in its width, every short string short and every
    table a map of values that fit their types. *)

From stdpp Require Import base list sets strings.
From Stdlib Require Import ZArith Lia.
From Stdlib Require Import Strings.Byte.
From S2P Require Import Prelude Bytes Values FieldTable Reader Properties Methods ClientMethods.

Local Open Scope Z_scope.

(** ** What a reader yields *)

Definition yields {A} (r : reader A) (P : A → Prop) : Prop :=
  ∀ buf a buf', r buf = Ok (a, buf') → P a.

Section yields.
Context {A B : Type}.
Implicit Types r : reader A.

Lemma yields_bind r (f : A → reader B) P Q :
  yields r P → (∀ a, P a → yields (f a) Q) → yields (r ≫= f) Q.
Proof.
  intros Hr Hf buf b buf'. rewrite bind_reader. destruct (r buf) as [[a buf1]|] eqn:E; [|done].
  apply Hf. by eapply Hr.
Qed.
Lemma yields_fmap r (f : A → B) P Q : yields r P → (∀ a, P a → Q (f a)) → yields (f <$> r) Q.
Proof.
  intros Hr Hf buf b buf'. unfold fmap, reader_fmap. destruct (r buf) as [[a buf1]|] eqn:E; [|done].
  intros [= <- _]. apply Hf. by eapply Hr.
Qed.
Lemma yields_ret (a : A) (P : A → Prop) : P a → yields (mret a) P.
Proof. by intros Ha buf a' buf' [= <- _]. Qed.
Lemma yields_fail e (P : A → Prop) : yields (rfail e) P.
Proof. by intros buf a buf'. Qed.
Lemma yields_wrap t r P : yields r P → yields (wrap t r) P.
Proof. intros Hr buf a buf' H%map_err_ok. by eapply Hr. Qed.
Lemma yields_lift (x : res perr A) (P : A → Prop) : (∀ a, x = Ok a → P a) → yields (lift x) P.
Proof. intros Hx buf a buf'. unfold lift. destruct x; [|done]. intros [= <- _]. by apply Hx. Qed.
Lemma yields_any r : yields r (λ _, True).
Proof. done. Qed.
End yields.

Lemma yields_read_be w : yields (read_be w) (λ z, 0 <= z < 2 ^ (8 * Z.of_nat w)).
Proof.
  intros buf z buf'. unfold read_be. case_decide as Hl; [done|]. intros [= <- _].
  pose proof (be_dec_range (take w buf)) as Hr. rewrite length_take, Nat.min_l, pow_256 in Hr by lia. exact Hr.
Qed.

Lemma yields_read_signed w :
  (0 < w)%nat → yields (read_be_signed w) (signed_range (8 * Z.of_nat w)).
Proof.
  intros Hw. eapply yields_bind; [apply yields_read_be|]. intros z Hz. apply yields_ret.
  unfold to_signed, signed_range.
  assert (2 ^ (8 * Z.of_nat w) = 2 * 2 ^ (8 * Z.of_nat w - 1)) as Hp
    by (rewrite <-Z.pow_succ_r by lia; f_equal; lia).
  rewrite Hp in *. remember (2 ^ (8 * Z.of_nat w - 1)) as half. case_decide; lia.
Qed.

Lemma yields_readN n : 0 <= n → yields (readN n) (λ l, Z.of_nat (length l) = n).
Proof.
  intros Hn buf l buf'. unfold readN. case_decide; [done|]. intros [= <- _]. rewrite length_take. lia.
Qed.

Lemma yields_ShortStr : yields DecodeShortStr wf_short.
Proof.
  eapply yields_bind; [apply yields_read_be|]. intros n Hn. change (0 <= n < 256) in Hn.
  eapply yields_bind; [apply yields_readN; lia|].
  intros l Hl. apply yields_ret. unfold wf_short, slen. rewrite bytes_of_string_of. cbn in Hl. lia.
Qed.
Lemma yields_LongStr : yields DecodeLongStr wf_long.
Proof.
  eapply yields_bind; [apply yields_read_be|]. intros n Hn. change (0 <= n < 2 ^ 32) in Hn.
  case_decide; [by apply yields_ret|]. eapply yields_bind; [apply yields_readN; lia|].
  intros l Hl. apply yields_ret. unfold wf_long, slen. rewrite bytes_of_string_of. cbn in Hl. lia.
Qed.

(** The reads of the parsers, and their composition. *)
Lemma yields_u8 : yields (read_be 1) u8.
Proof. apply yields_read_be. Qed.
Lemma yields_u16 : yields DecodeShortInt u16.
Proof. apply yields_read_be. Qed.
Lemma yields_u32 : yields DecodeLongUInt u32.
Proof. apply yields_read_be. Qed.
Lemma yields_u64 : yields DecodeLongLongUInt u64.
Proof. apply yields_read_be. Qed.

(** ** Tables *)

Lemma tbl_set_typed k v t : wf_value false v → wf_table t → wf_table (tbl_set k v t).
Proof.
  intros Hv [Hnd Hall]. split.
  - clear Hall Hv. induction t as [|[k' v'] t IH]; cbn; [apply NoDup_singleton|]. cbn in Hnd.
    apply NoDup_cons in Hnd as [Hn Hnd]. case_decide as Hk; cbn; [subst; by apply NoDup_cons|].
    apply NoDup_cons. split; [|by apply IH]. clear -Hn Hk. induction t as [|[k2 v2] t IH]; cbn in *; [set_solver|].
    case_decide; cbn; set_solver.
  - clear Hnd. induction Hall as [|[k' v'] t Hv' Hall IH]; cbn; [by constructor|]. case_decide; by constructor.
Qed.

Lemma decode_scalar_typed c r in_array : decode_scalar c = Some r → yields r (wf_value in_array).
Proof.
  unfold decode_scalar, DecodeLongInt, DecodeLongLongInt, DecodeTimestamp. intros Hc.
  repeat (case_decide; [injection Hc as <-|]); [..|done];
    try (eapply yields_fmap; [first [apply yields_u8|apply yields_u16|apply yields_u32|apply yields_u64
      |apply yields_ShortStr|apply yields_any]|by cbn]).
  all: try (eapply yields_fmap; [apply yields_read_signed; lia|by cbn]).
  - eapply yields_bind; [apply yields_wrap, yields_read_signed; lia|]. intros z Hz. by apply yields_ret.
  - by apply yields_ret.
Qed.

(** How nested containers decode, in a field or an element. *)
Section nested.
Variable decT : list byte → res perr table.
Variable decA : list byte → res perr (list value).
Hypothesis HT : ∀ data t, decT data = Ok t → wf_table t.
Hypothesis HA : ∀ data l, decA data = Ok l → Forall (wf_value true) l.

Lemma container_typed {A} (dec : list byte → res perr A) (wrap : A → value) in_array (P : A → Prop) :
  (∀ data a, dec data = Ok a → P a) → (∀ a, P a → wf_value in_array (wrap a)) →
  yields (n ← read_be 4; data ← sliceN n; wrap <$> lift (dec data)) (wf_value in_array).
Proof.
  intros Hd Hw. eapply yields_bind; [apply yields_any|]. intros n _. eapply yields_bind; [apply yields_any|].
  intros data _. eapply yields_fmap; [apply yields_lift, Hd|exact Hw].
Qed.

Lemma table_typed in_array t : wf_table t → wf_value in_array (VTable t).
Proof. intros [Hnd Hall]. split; [done|]. by apply Forall_fmap. Qed.
Lemma array_typed in_array l : Forall (wf_value true) l → wf_value in_array (VArr l).
Proof. intros Hl. cbn. by apply Forall_fmap. Qed.

Lemma decode_field_typed c : yields (decode_field decT decA c) (wf_value false).
Proof.
  unfold decode_field. destruct (decode_scalar c) as [r|] eqn:Hc; [by eapply decode_scalar_typed|].
  case_decide; [|case_decide; [|case_decide; [|apply yields_fail]]].
  - eapply yields_bind; [apply yields_u8|]. intros s Hs. eapply yields_bind; [apply yields_u32|].
    intros v Hv. by apply yields_ret.
  - eapply container_typed; [exact HA|apply array_typed].
  - eapply container_typed; [exact HT|apply table_typed].
Qed.
Lemma decode_element_typed c : yields (decode_element decT decA c) (wf_value true).
Proof.
  unfold decode_element. destruct (decode_scalar c) as [r|] eqn:Hc; [by eapply decode_scalar_typed|].
  case_decide; [|case_decide; [|apply yields_fail]].
  - eapply container_typed; [exact HT|apply table_typed].
  - eapply container_typed; [exact HA|apply array_typed].
Qed.
Lemma decode_entry_typed : yields (decode_entry decT decA) (λ kv, wf_value false kv.2).
Proof.
  do 3 (eapply yields_bind; [apply yields_any|]; intros ? _).
  eapply yields_bind; [apply decode_field_typed|]. intros v Hv. by apply yields_ret.
Qed.
Lemma decode_item_typed : yields (decode_item decT decA) (wf_value true).
Proof. eapply yields_bind; [apply yields_any|]. intros c _. apply decode_element_typed. Qed.
End nested.

Lemma decode_loops_typed fuel :
  (∀ acc data t, wf_table acc → decode_table_loop fuel acc data = Ok t → wf_table t) ∧
  (∀ acc data l, Forall (wf_value true) acc → decode_array_loop fuel acc data = Ok l → Forall (wf_value true) l).
Proof.
  induction fuel as [|fuel [IHT IHA]]; [done|].
  assert (HT : ∀ data t, decode_table_loop fuel [] data = Ok t → wf_table t).
  { intros data t. apply IHT. split; constructor. }
  assert (HA : ∀ data l, decode_array_loop fuel [] data = Ok l → Forall (wf_value true) l).
  { intros data l. by apply IHA. }
  split; intros acc [|b data] x Hacc Hd; cbn [decode_table_loop decode_array_loop] in Hd;
    try (by apply (inj Ok) in Hd as <-); apply res_bind_ok in Hd as ([v data'] & He & Hd).
  - destruct v as [k v]. eapply IHT; [|exact Hd]. apply tbl_set_typed; [|done].
    by apply (decode_entry_typed _ _ HT HA) in He.
  - eapply IHA; [|exact Hd]. apply Forall_app. split; [done|]. apply Forall_singleton.
    by apply (decode_item_typed _ _ HT HA) in He.
Qed.

Lemma DecodeTable_typed data t : DecodeTable data = Ok t → wf_table t.
Proof. apply decode_loops_typed. split; constructor. Qed.

(** ** Requests *)

Definition typed_args (t : option table) : Prop := wf_table (default [] t).

(** Each field fits its Go type, or its wire type when that is narrower. *)
Definition typed_content (c : method_content) : Prop :=
  match c with
  | CNil | ChannelFlow _ | ChannelFlowOk _ | ConnectionCloseOk _ | BasicRecover _ _
  | TxSelect | TxCommit | TxRollback => True
  | ConnectionStartFrame major minor props mech loc =>
      u8 major ∧ u8 minor ∧ wf_table props ∧ wf_long mech ∧ wf_long loc
  | ConnectionStartOk props mech resp loc =>
      wf_table props ∧ mech = "PLAIN"%string ∧ wf_long resp ∧ wf_short loc
  | ConnectionTune cm fm hb => u16 cm ∧ u32 fm ∧ u16 hb
  | ConnectionOpen vh => wf_short vh
  | ConnectionClose code text cid mid | ChannelClose code text cid mid =>
      u16 code ∧ wf_short text ∧ u16 cid ∧ u16 mid
  | ExchangeDeclare name type _ _ _ _ _ args => wf_short name ∧ wf_short type ∧ typed_args args
  | ExchangeDelete name _ _ | QueueDelete name _ _ _ | QueuePurge name _ => wf_short name
  | QueueDeclare name _ _ _ _ _ args => wf_short name ∧ typed_args args
  | QueueBind q x k _ args | QueueUnbind q x k args => wf_short q ∧ wf_short x ∧ wf_short k ∧ typed_args args
  | BasicQos size count _ => u32 size ∧ u16 count
  | BasicConsume q t _ _ _ _ args => wf_short q ∧ wf_short t ∧ typed_args args
  | BasicCancel t _ => wf_short t
  | BasicPublish x k _ _ => wf_short x ∧ wf_short k
  | BasicGet r q _ => r = 0 ∧ wf_short q
  | BasicAck d _ | BasicReject d _ | BasicNack d _ _ => u64 d
  end.

(** The content is of the type that the handler of the method asserts. *)
Definition content_of_method (classID methodID : Z) (c : method_content) : Prop :=
  match c with
  | CNil => (classID, methodID) ∈
      [(CHANNEL, CHANNEL_OPEN); (CHANNEL, CHANNEL_OPEN_OK); (CHANNEL, CHANNEL_CLOSE_OK); (CONNECTION, CONNECTION_OPEN_OK)]
  | _ => classID = class_of c ∧ methodID = method_of c
  end.

Definition gives (classID methodID : Z) (r : res perr method_content) : Prop :=
  ∀ c, r = Ok c → typed_content c ∧ content_of_method classID methodID c.

Lemma run_yields {A} (r : reader A) payload (P : A → Prop) a : yields r P → run r payload = Ok a → P a.
Proof.
  intros Hr Ha. unfold run in Ha. destruct (r payload) as [[a' buf]|] eqn:E; [|done].
  apply (inj Ok) in Ha as <-. by eapply Hr.
Qed.
Lemma at_least_yields {A} n payload (r : reader A) (P : A → Prop) a :
  yields r P → at_least n payload r = Ok a → P a.
Proof. unfold at_least. case_decide; [done|]. apply run_yields. Qed.

Section requests.
Variables classID methodID : Z.

Lemma gives_run (r : reader method_content) payload :
  yields r (λ c, typed_content c ∧ content_of_method classID methodID c) → gives classID methodID (run r payload).
Proof. intros Hr c Hc. exact (run_yields r payload _ c Hr Hc). Qed.
Lemma gives_at_least n (r : reader method_content) payload :
  yields r (λ c, typed_content c ∧ content_of_method classID methodID c) → gives classID methodID (at_least n payload r).
Proof. intros Hr c Hc. exact (at_least_yields n payload r _ c Hr Hc). Qed.
Lemma gives_err e : gives classID methodID (Err e).
Proof. done. Qed.
Lemma gives_nil P `{Decision P} e :
  content_of_method classID methodID CNil → gives classID methodID (if decide P then Err e else Ok CNil).
Proof. intros Hc c. case_decide; [done|]. by intros [= <-]. Qed.
End requests.

Lemma yields_table (s : string) : yields (lift (DecodeTable (bytes_of s))) wf_table.
Proof. apply yields_lift, DecodeTable_typed. Qed.

Lemma some_table t (s : string) : yields (Some <$> wrap t (lift (DecodeTable (bytes_of s)))) typed_args.
Proof. eapply yields_fmap; [apply yields_wrap, yields_table|done]. Qed.

Lemma no_arguments : wf_table [].
Proof. split; constructor. Qed.

Lemma read_arguments_typed : yields read_arguments typed_args.
Proof.
  eapply yields_bind; [apply yields_any|]. intros n _. case_decide; [|apply yields_ret, no_arguments].
  eapply yields_bind; [apply yields_any|]. intros s _. apply some_table.
Qed.
Lemma read_arguments_lenient_typed : yields read_arguments_lenient typed_args.
Proof.
  eapply yields_bind; [apply yields_any|]. intros n _. case_decide; [|apply yields_ret, no_arguments].
  eapply yields_bind; [apply yields_any|]. intros s _. apply some_table.
Qed.
Lemma read_consume_arguments_typed : yields read_consume_arguments typed_args.
Proof.
  eapply yields_bind; [apply yields_any|]. intros n _. case_decide; [|apply yields_ret, no_arguments].
  eapply yields_bind; [apply yields_any|]. intros s _. case_decide; [apply some_table|apply yields_ret, no_arguments].
Qed.

(** One read after the other, each yielding what it is known to yield. *)
Ltac yields_read :=
  lazymatch goal with
  | |- yields (wrap _ _) _ => apply yields_wrap; yields_read
  | |- yields DecodeShortStr _ => apply yields_ShortStr
  | |- yields DecodeLongStr _ => apply yields_LongStr
  | |- yields DecodeShortInt _ => apply yields_u16
  | |- yields DecodeLongUInt _ => apply yields_u32
  | |- yields DecodeLongLongUInt _ => apply yields_u64
  | |- yields (lift (DecodeTable _)) _ => apply yields_table
  | |- yields read_arguments _ => apply read_arguments_typed
  | |- yields read_arguments_lenient _ => apply read_arguments_lenient_typed
  | |- yields read_consume_arguments _ => apply read_consume_arguments_typed
  | |- _ => apply yields_any
  end.
Ltac yields_all :=
  lazymatch goal with
  | |- yields (_ ≫= _) _ => eapply yields_bind; [yields_read|intros ? ?; yields_all]
  | |- yields (mret _) _ => apply yields_ret
  | |- yields (rfail _) _ => apply yields_fail
  | |- yields (if decide _ then _ else _) _ => case_decide; yields_all
  | |- _ => idtac
  end.
Ltac gives :=
  first [apply gives_at_least|apply gives_run]; yields_all; by (split; cbn; auto).

Lemma parseQueueMethod_gives methodID payload : gives QUEUE methodID (parseQueueMethod methodID payload).
Proof.
  unfold parseQueueMethod. repeat (case_decide; [subst|]); try apply gives_err.
  - unfold parseQueueDeclareFrame. gives.
  - unfold parseQueueBindFrame. gives.
  - unfold parseQueuePurgeFrame. gives.
  - unfold parseQueueDeleteFrame. gives.
  - unfold parseQueueUnbindFrame. gives.
Qed.

Lemma parseExchangeMethod_gives methodID payload : gives EXCHANGE methodID (parseExchangeMethod methodID payload).
Proof.
  unfold parseExchangeMethod. repeat (case_decide; [subst|]); try apply gives_err.
  - unfold parseExchangeDeclareFrame. gives.
  - unfold parseExchangeDeleteFrame. gives.
Qed.

Lemma recover_async_gives payload : gives BASIC BASIC_RECOVER_ASYNC (parseBasicRecoverAsyncFrame payload).
Proof.
  intros c Hc. unfold parseBasicRecoverAsyncFrame, parseBasicRecoverFrame in Hc.
  apply res_bind_ok in Hc as (c0 & H0 & Hc).
  assert (Hr : ∃ requeue, c0 = BasicRecover requeue false).
  { refine (at_least_yields 1 payload _ (λ c, ∃ requeue, c = BasicRecover requeue false) c0 _ H0).
    yields_all. by eexists. }
  destruct Hr as [requeue ->]. apply (inj Ok) in Hc as <-. by split.
Qed.

Lemma parseBasicMethod_gives methodID payload : gives BASIC methodID (parseBasicMethod methodID payload).
Proof.
  unfold parseBasicMethod. repeat (case_decide; [subst|]); try apply gives_err; try apply recover_async_gives.
  - unfold parseBasicQosFrame. gives.
  - unfold parseBasicConsumeFrame. gives.
  - unfold parseBasicCancelFrame. gives.
  - unfold parseBasicPublishFrame. gives.
  - unfold parseBasicGetFrame. apply gives_run. yields_all. split; cbn; [|done]. split; [lia|done].
  - unfold parseBasicAckFrame. gives.
  - unfold parseBasicRejectFrame. gives.
  - unfold parseBasicRecoverFrame. gives.
  - unfold parseBasicNackFrame. gives.
Qed.

Lemma parseChannelMethod_gives methodID payload : gives CHANNEL methodID (parseChannelMethod methodID payload).
Proof.
  unfold parseChannelMethod. repeat (case_decide; [subst|]); try apply gives_err.
  - apply gives_nil. by left.
  - apply gives_nil. right. by left.
  - unfold parseChannelFlowFrame. gives.
  - unfold parseChannelFlowOkFrame. gives.
  - unfold parseChannelCloseFrame. case_decide; [apply gives_err|gives].
  - apply gives_nil. right. right. by left.
Qed.

Lemma be_dec_slice (w i j : nat) payload : (j - i = w)%nat → 0 <= be_dec (slice i j payload) < 2 ^ (8 * Z.of_nat w).
Proof.
  intros Hw. pose proof (be_dec_range (slice i j payload)) as Hr. rewrite <-pow_256.
  assert (256 ^ Z.of_nat (length (slice i j payload)) <= 256 ^ Z.of_nat w); [|lia].
  apply Z.pow_le_mono_r; [lia|]. unfold slice. rewrite length_take. lia.
Qed.

Lemma parseConnectionCloseFrame_typed payload : gives CONNECTION CONNECTION_CLOSE (parseConnectionCloseFrame payload).
Proof.
  intros c Hc. unfold parseConnectionCloseFrame in Hc. do 2 (case_decide; [done|]). apply (inj Ok) in Hc as <-.
  split; [|done]. pose proof (be_dec_slice 1 2 3 payload eq_refl) as Hl. change (2 ^ _) with 256 in Hl.
  split; [by apply (be_dec_slice 2)|]. split; [|split; apply (be_dec_slice 2); lia].
  remember (be_dec (slice 2 3 payload)) as len. unfold wf_short, slen.
  rewrite bytes_of_string_of. unfold slice. rewrite length_take. lia.
Qed.

Lemma parseConnectionMethod_gives methodID payload :
  gives CONNECTION methodID (parseConnectionMethod methodID payload).
Proof.
  unfold parseConnectionMethod. repeat (case_decide; [subst|]); try apply gives_err.
  - unfold parseConnectionStartFrame. apply gives_at_least. yields_all. split; [|done].
    cbn. split; [apply Z_of_byte_range|]. split; [apply Z_of_byte_range|]. auto.
  - unfold parseConnectionStartOkFrame. apply gives_at_least. yields_all. split; [|done].
    by cbn.
  - unfold parseConnectionTuneOkFrame. gives.
  - unfold parseConnectionOpenFrame. gives.
  - apply gives_nil. do 3 right. by left.
  - intros c Hc%map_err_ok. by apply (parseConnectionCloseFrame_typed payload).
  - intros c Hc%map_err_ok. apply (inj Ok) in Hc as <-. by split.
Qed.

Lemma parseTxMethod_gives methodID payload : gives TX methodID (parseTxMethod methodID payload).
Proof. unfold parseTxMethod. repeat (case_decide; [subst|]); try apply gives_err; intros c [= <-]; by split. Qed.

Lemma parse_class_gives classID methodID payload r :
  parse_class classID methodID payload = Some r → gives classID methodID r.
Proof.
  unfold parse_class. intros Hp. repeat (case_decide; [subst; injection Hp as <-|]); [..|done];
    auto using parseConnectionMethod_gives, parseChannelMethod_gives, parseExchangeMethod_gives,
      parseQueueMethod_gives, parseBasicMethod_gives, parseTxMethod_gives.
Qed.

(** C9. A request that parses is well typed, whatever bytes it came from: it
    carries the channel of its frame and 16-bit class and method identifiers;
    its content is of the Go type that the handler of that class and method
    asserts, so an unchecked assertion such as that of basic.get cannot panic;
    every integer fits its width, every name the 255 bytes of a short string,
    and every table is a map (no key twice) whose values, to any depth, fit
    their own types. *)
Theorem parsed_requests_are_typed (channel : Z) (payload : list byte) (rq : RequestMethodMessage) :
  parseMethodFrame channel payload = Ok rq →
  rm_Channel rq = channel ∧ u16 (rm_ClassID rq) ∧ u16 (rm_MethodID rq) ∧
  content_of_method (rm_ClassID rq) (rm_MethodID rq) (rm_Content rq) ∧ typed_content (rm_Content rq).
Proof.
  unfold parseMethodFrame. case_decide; [done|]. intros Hp.
  destruct (parse_class _ _ _) as [r|] eqn:Hc; [|done]. apply res_bind_ok in Hp as (c & -> & E).
  apply (inj Ok) in E as <-. destruct (parse_class_gives _ _ _ _ Hc c eq_refl) as [Ht Hm].
  split; [done|]. split; [by apply (be_dec_slice 2)|]. split; [by apply (be_dec_slice 2)|]. by split.
Qed.

Lemma parsed_requests_are_typed_witness :
  parseMethodFrame 7 (method_payload sample_declare) = Ok (MkRequest 7 QUEUE QUEUE_DECLARE (read_back sample_declare)) ∧
  typed_content (read_back sample_declare).
Proof.
  assert (Hp : parseMethodFrame 7 (method_payload sample_declare)
    = Ok (MkRequest 7 QUEUE QUEUE_DECLARE (read_back sample_declare))) by by vm_compute.
  split; [exact Hp|]. apply (parsed_requests_are_typed 7 _ _ Hp).
Defined.
