(* ===== verification/Frames.v ===== *)
(** * Frames: message.go, framing.go, parsers.go and readFrame

    What the broker writes ([createHeaderFrame], [createBodyFrame],
    [FormatMethodFrame]) and how frames are taken off a connection ([readFrame])
    and parsed ([parseFrame]).  A connection's input is the list of bytes the
    peer sends before it closes. *)

From stdpp Require Import base list strings.
From Stdlib Require Import ZArith Lia.
From Stdlib Require Import Strings.Byte.
From S2P Require Import Prelude Bytes Values Reader FieldTable Properties Methods.

Local Open Scope Z_scope.
Local Open Scope string_scope.
Local Open Scope list_scope.

Definition FRAME_END : byte := xce.
Definition TYPE_METHOD : Z := 1.
Definition TYPE_HEADER : Z := 2.
Definition TYPE_BODY : Z := 3.
Definition TYPE_HEARTBEAT : Z := 8.
Definition FRAME_OVERHEAD : Z := 8.

(** ** Writing *)

Definition formatHeader (frameType channel payloadSize : Z) : list byte :=
  be_enc 1 frameType ++ be_enc 2 channel ++ be_enc 4 payloadSize.

(** One field of a method's payload: the [Key] of the source with its value, of
    the type that the type assertion of [formatMethodPayload] expects. *)
Inductive KeyValue : Type :=
| INT_OCTET (v : Z)
| INT_SHORT (v : Z)
| INT_LONG (v : Z)
| INT_LONG_LONG (v : Z)
| BIT (v : bool)
| STRING_SHORT (v : string)
| STRING_LONG (v : list byte)
| TIMESTAMP (v : Z)
| TABLE (v : table).

Definition format_key_value (kv : KeyValue) : res enc_err (list byte) :=
  match kv with
  | INT_OCTET v => Ok (be_enc 1 v)
  | INT_SHORT v => Ok (be_enc 2 v)
  | INT_LONG v => Ok (be_enc 4 v)
  | INT_LONG_LONG v => Ok (be_enc 8 v)
  | BIT v => Ok [if v then x01 else x00]
  | STRING_SHORT v => EncodeShortStr v
  | STRING_LONG v => Ok (EncodeLongStr v)
  | TIMESTAMP v => Ok (be_enc 8 v)
  | TABLE v => encodedTable ← EncodeTable v; mret (EncodeLongStr encodedTable)
  end.

Fixpoint formatMethodPayload (content : list KeyValue) : res enc_err (list byte) :=
  match content with
  | [] => Ok []
  | kv :: content' =>
      bs ← format_key_value kv;
      payload ← formatMethodPayload content';
      mret (bs ++ payload)
  end.

(** [formatMethodFrame]: a method frame around a payload already encoded. *)
Definition formatMethodFrame (channelNum class method : Z) (methodPayload : list byte)
    : list byte :=
  let payload := be_enc 2 class ++ be_enc 2 method ++ methodPayload in
  formatHeader TYPE_METHOD channelNum (Z.of_nat (length payload)) ++ payload ++ [FRAME_END].

(** [ResponseMethodMessage.FormatMethodFrame] *)
Definition FormatMethodFrame (channel class method : Z) (content : list KeyValue)
    : res enc_err (list byte) :=
  methodPayload ← formatMethodPayload content;
  let payload := be_enc 2 class ++ be_enc 2 method ++ methodPayload in
  mret (formatHeader TYPE_METHOD channel (Z.of_nat (length payload)) ++ payload ++ [FRAME_END]).

Definition createHeaderFrame (channel classID : Z) (body : list byte) (props : BasicProperties)
    : res enc_err (list byte) :=
  payload ← header_payload classID body props;
  mret (formatHeader TYPE_HEADER channel (Z.of_nat (length payload)) ++ payload ++ [FRAME_END]).

(** The loop of [createBodyFrame] from the start of a chunk on.  Every chunk
    takes at least one byte, so one unit of fuel per byte is enough. *)
Fixpoint body_frames (fuel : nat) (channel : Z) (chunkSize : nat) (content : list byte)
    : list byte :=
  match fuel, content with
  | S fuel', _ :: _ =>
      let chunk := take chunkSize content in
      formatHeader TYPE_BODY channel (Z.of_nat (length chunk)) ++ chunk ++ [FRAME_END]
        ++ body_frames fuel' channel chunkSize (drop chunkSize content)
  | _, _ => []
  end.

Definition body_chunk_size (frameMax : Z) (content : list byte) : Z :=
  let chunkSize := Z.of_nat (length content) in
  if decide (FRAME_OVERHEAD < frameMax ∧ frameMax - FRAME_OVERHEAD < chunkSize)
  then frameMax - FRAME_OVERHEAD else chunkSize.

Definition createBodyFrame (channel frameMax : Z) (content : list byte) : list byte :=
  let chunkSize := body_chunk_size frameMax content in
  if decide (chunkSize = 0) then formatHeader TYPE_BODY channel 0 ++ [FRAME_END]
  else body_frames (length content) channel (Z.to_nat chunkSize) content.

Definition createHeartbeatFrame : list byte :=
  be_enc 1 TYPE_HEARTBEAT ++ be_enc 2 0 ++ be_enc 4 0 ++ [FRAME_END].

(** ** Close reply texts (close_reply_text.go) *)

(** [utf8.RuneStart]: not a continuation byte. *)
Definition RuneStart (b : byte) : bool := negb (Z.land (Z_of_byte b) 192 =? 128)%Z.

(** [for end > 0 && !utf8.RuneStart(text[end]) { end-- }] *)
Fixpoint rune_boundary (text : list byte) (e : nat) : nat :=
  match e with
  | O => O
  | S e' => if RuneStart (nth e text x00) then e else rune_boundary text e'
  end.

Definition close_text_limit : nat := 255.

Definition truncateCloseReplyText (text : string) : string :=
  if decide (slen text <= 255) then text
  else string_of (take (rune_boundary (bytes_of text) close_text_limit) (bytes_of text)).

(** ** The methods the broker sends *)

Definition createConnectionCloseFrame (channel replyCode classID methodID : Z) (replyText : string) :=
  FormatMethodFrame channel CONNECTION CONNECTION_CLOSE
    [INT_SHORT replyCode; STRING_SHORT (truncateCloseReplyText replyText);
     INT_SHORT classID; INT_SHORT methodID].
Definition createConnectionCloseOkFrame (channel : Z) :=
  FormatMethodFrame channel CONNECTION CONNECTION_CLOSE_OK [].
Definition createConnectionTuneFrame (channelMax frameMax heartbeat : Z) : list byte :=
  formatMethodFrame 0 CONNECTION CONNECTION_TUNE
    (be_enc 2 channelMax ++ be_enc 4 frameMax ++ be_enc 2 heartbeat).
Definition createConnectionOpenOkFrame : list byte :=
  formatMethodFrame 0 CONNECTION CONNECTION_OPEN_OK [x00].

(** [cfg]: the properties, mechanisms and locales the server offers. *)
Definition createConnectionStartFrame (serverProperties : table)
    (mechanisms locales : list string) : res perr (list byte) :=
  match mechanisms, locales with
  | [], _ => Err (Msg "handshake config has no mechanisms")
  | _, [] => Err (Msg "handshake config has no locales")
  | mechanism :: _, locale :: _ =>
      match EncodeTable serverProperties with
      | Err _ => Err (Msg "server properties")
      | Ok encodedProperties =>
          Ok (formatMethodFrame 0 CONNECTION CONNECTION_START
            ([x00; x09] ++ EncodeLongStr encodedProperties
              ++ EncodeLongStr (bytes_of mechanism) ++ EncodeLongStr (bytes_of locale)))
      end
  end.

Definition createChannelOpenOkFrame (channel : Z) :=
  FormatMethodFrame channel CHANNEL CHANNEL_OPEN_OK [INT_LONG 0].
Definition createChannelFlowFrame (channel : Z) (active : bool) :=
  FormatMethodFrame channel CHANNEL CHANNEL_FLOW [BIT active].
Definition createChannelFlowOkFrame (channel : Z) (active : bool) :=
  FormatMethodFrame channel CHANNEL CHANNEL_FLOW_OK [BIT active].
Definition createChannelCloseFrame (channel replyCode classID methodID : Z) (replyText : string) :=
  FormatMethodFrame channel CHANNEL CHANNEL_CLOSE
    [INT_SHORT replyCode; STRING_SHORT (truncateCloseReplyText replyText);
     INT_SHORT classID; INT_SHORT methodID].
Definition createChannelCloseOkFrame (channel : Z) :=
  FormatMethodFrame channel CHANNEL CHANNEL_CLOSE_OK [].

Definition createExchangeDeclareFrameOk (channel : Z) :=
  FormatMethodFrame channel EXCHANGE EXCHANGE_DECLARE_OK [].
Definition createExchangeDeleteFrame (channel : Z) :=
  FormatMethodFrame channel EXCHANGE EXCHANGE_DELETE_OK [].

Definition createQueueDeclareOkFrame (channel : Z) (queueName : string)
    (messageCount consumerCount : Z) :=
  FormatMethodFrame channel QUEUE QUEUE_DECLARE_OK
    [STRING_SHORT queueName; INT_LONG messageCount; INT_LONG consumerCount].
Definition createQueueAckFrame (channel method : Z) := FormatMethodFrame channel QUEUE method [].
Definition createQueueCountAckFrame (channel methodID messageCount : Z) :=
  FormatMethodFrame channel QUEUE methodID [INT_LONG messageCount].

Definition createBasicQosOkFrame (channel : Z) := FormatMethodFrame channel BASIC BASIC_QOS_OK [].
Definition createBasicConsumeOkFrame (channel : Z) (consumerTag : string) :=
  FormatMethodFrame channel BASIC BASIC_CONSUME_OK [STRING_SHORT consumerTag].
Definition createBasicCancelFrame (channel : Z) (consumerTag : string) :=
  FormatMethodFrame channel BASIC BASIC_CANCEL [STRING_SHORT consumerTag; BIT true].
Definition createBasicCancelOkFrame (channel : Z) (consumerTag : string) :=
  FormatMethodFrame channel BASIC BASIC_CANCEL_OK [STRING_SHORT consumerTag].
Definition createBasicReturnFrame (channel replyCode : Z) (replyText exchange routingKey : string) :=
  FormatMethodFrame channel BASIC BASIC_RETURN
    [INT_SHORT replyCode; STRING_SHORT replyText; STRING_SHORT exchange; STRING_SHORT routingKey].
Definition createBasicDeliverFrame (channel : Z) (consumerTag exchange routingKey : string)
    (deliveryTag : Z) (redelivered : bool) :=
  FormatMethodFrame channel BASIC BASIC_DELIVER
    [STRING_SHORT consumerTag; INT_LONG_LONG deliveryTag; BIT redelivered;
     STRING_SHORT exchange; STRING_SHORT routingKey].

(** [EncodeGetOkToContentList] *)
Definition EncodeGetOkToContentList (deliveryTag : Z) (redelivered : bool)
    (exchange routingKey : string) (messageCount : Z) : list KeyValue :=
  [INT_LONG_LONG deliveryTag; BIT redelivered; STRING_SHORT exchange; STRING_SHORT routingKey;
   INT_LONG messageCount].
Definition createBasicGetOkFrame (channel : Z) (exchange routingkey : string)
    (msgCount deliveryTag : Z) (redelivered : bool) :=
  FormatMethodFrame channel BASIC BASIC_GET_OK
    (EncodeGetOkToContentList deliveryTag redelivered exchange routingkey msgCount).
Definition createBasicGetEmptyFrame (channel : Z) :=
  FormatMethodFrame channel BASIC BASIC_GET_EMPTY [STRING_SHORT ""].
Definition createBasicRecoverOkFrame (channel : Z) :=
  FormatMethodFrame channel BASIC BASIC_RECOVER_OK [].
Definition createTxAckFrame (channel methodID : Z) := FormatMethodFrame channel TX methodID [].

(** ** Reading a frame off the connection (handshake.go) *)

Inductive frame_err : Type :=
| ReadError (e : perr)
| FrameTooLargeError (PayloadSize FrameMax : Z)
| InvalidFrameEnd.

(** [io.ReadFull] of [n] bytes. *)
Definition ReadFull (n : nat) : list byte → res frame_err (list byte * list byte) := fun conn =>
  if decide (length conn < n)%nat
  then Err (ReadError (match conn with [] => EOF | _ => UnexpectedEOF end))
  else Ok (take n conn, drop n conn).

(** The frame without its frame-end octet, and the rest of the input. *)
Definition readFrame (frameMax : Z) (conn : list byte) : res frame_err (list byte * list byte) :=
  '(frameHeader, conn) ← ReadFull 7 conn;
  let payloadSize := be_dec (drop 3 frameHeader) in
  if decide (frameMax < payloadSize + FRAME_OVERHEAD)
  then Err (FrameTooLargeError payloadSize frameMax) else
  '(framePayload, conn) ← ReadFull (Z.to_nat payloadSize) conn;
  '(frameEnd, conn) ← ReadFull 1 conn;
  if decide (frameEnd ≠ [FRAME_END]) then Err InvalidFrameEnd
  else mret (frameHeader ++ framePayload, conn).

(** ** parsers.go *)

Inductive parsed_frame : Type :=
| MethodFrame (m : RequestMethodMessage)
| ContentHeader (h : HeaderFrame)
| ContentBody (body : list byte)
| Heartbeat.

Definition set_hf_Channel (channel : Z) (h : HeaderFrame) : HeaderFrame :=
  MkHeader channel (hf_ClassID h) (hf_BodySize h) (hf_Properties h).

(** [payload[0:2]] panics on a payload shorter than two bytes. *)
Definition parseHeaderFrame (channel payloadSize : Z) (payload : list byte) : res perr parsed_frame :=
  if decide (Z.of_nat (length payload) < payloadSize) then Err (Msg "payload too short") else
  if decide (length payload < 2)%nat then Err (Panic "slice bounds out of range") else
  let classID := be_dec (slice 0 2 payload) in
  if decide (classID = BASIC) then
    request ← parseBasicHeader payload;
    mret (ContentHeader (set_hf_Channel channel request))
  else Err (Msg "unknown class ID").

Definition parseBodyFrame (payloadSize : Z) (payload : list byte) : res perr parsed_frame :=
  if decide (Z.of_nat (length payload) < payloadSize) then Err (Msg "payload too short")
  else Ok (ContentBody payload).

(** [int(7 + payloadSize)]: the sum is taken in 32 bits. *)
Definition parseFrame (frame : list byte) : res perr parsed_frame :=
  if decide (length frame < 7)%nat then Err (Msg "frame too short") else
  let frameType := be_dec (slice 0 1 frame) in
  let channel := be_dec (slice 1 3 frame) in
  let payloadSize := be_dec (slice 3 7 frame) in
  if decide (Z.of_nat (length frame) < (7 + payloadSize) mod 2 ^ 32)
  then Err (Msg "frame too short") else
  let payload := drop 7 frame in
  if decide (frameType = TYPE_METHOD) then
    request ← map_err (Wrap "failed to parse method frame") (parseMethodFrame channel payload);
    mret (MethodFrame request)
  else if decide (frameType = TYPE_HEADER) then parseHeaderFrame channel payloadSize payload
  else if decide (frameType = TYPE_BODY) then parseBodyFrame payloadSize payload
  else if decide (frameType = TYPE_HEARTBEAT) then Ok Heartbeat
  else Err (Msg "unknown frame type").

(** ** Frames read back *)

Lemma length_formatHeader t c n : length (formatHeader t c n) = 7%nat.
Proof. reflexivity. Qed.

Lemma payload_size_of_header t c n : u32 n → be_dec (drop 3 (formatHeader t c n)) = n.
Proof.
  intros Hn. unfold formatHeader. rewrite app_assoc.
  rewrite drop_app_length' by (by rewrite length_app, !length_be_enc).
  by apply be_dec_enc_small.
Qed.

Lemma ReadFull_app l rest n : n = length l → ReadFull n (l ++ rest) = Ok (l, rest).
Proof.
  intros ->. unfold ReadFull. rewrite length_app, decide_False by lia.
  by rewrite take_app_length, drop_app_length.
Qed.

(** [readFrame] takes exactly one frame off the input. *)
Lemma readFrame_format t c payload rest frameMax :
  u32 (Z.of_nat (length payload)) → Z.of_nat (length payload) + FRAME_OVERHEAD <= frameMax →
  readFrame frameMax
    (formatHeader t c (Z.of_nat (length payload)) ++ payload ++ [FRAME_END] ++ rest)
    = Ok (formatHeader t c (Z.of_nat (length payload)) ++ payload, rest).
Proof.
  intros Hn Hmax. unfold readFrame. rewrite ReadFull_app by done. cbn [mbind res_mbind res_bind].
  rewrite payload_size_of_header by done. rewrite decide_False by lia.
  rewrite Nat2Z.id, ReadFull_app by done. cbn [mbind res_mbind res_bind].
  rewrite (ReadFull_app [FRAME_END]) by done. cbn [mbind res_mbind res_bind].
  by rewrite decide_False by tauto.
Qed.

Lemma slice_header_type t c n payload :
  u8 t → be_dec (slice 0 1 (formatHeader t c n ++ payload)) = t.
Proof.
  intros Ht. unfold slice, formatHeader. rewrite drop_0, <-app_assoc.
  rewrite take_app_length' by (by rewrite length_be_enc).
  by apply be_dec_enc_small.
Qed.

Lemma slice_header_channel t c n payload :
  u16 c → be_dec (slice 1 3 (formatHeader t c n ++ payload)) = c.
Proof.
  intros Hc. unfold slice, formatHeader. rewrite <-!app_assoc.
  rewrite drop_app_length' by (by rewrite length_be_enc).
  rewrite take_app_length' by (by rewrite length_be_enc).
  by apply be_dec_enc_small.
Qed.

Lemma slice_header_size t c n payload :
  u32 n → be_dec (slice 3 7 (formatHeader t c n ++ payload)) = n.
Proof.
  intros Hn. unfold slice, formatHeader. rewrite <-!app_assoc, app_assoc.
  rewrite drop_app_length' by (by rewrite length_app, !length_be_enc).
  rewrite take_app_length' by (by rewrite length_be_enc).
  by apply be_dec_enc_small.
Qed.

(** A frame that [readFrame] returned reaches the parser of its type. *)
Lemma parseFrame_format t c payload :
  u8 t → u16 c → Z.of_nat (length payload) < 2 ^ 32 - 7 →
  parseFrame (formatHeader t c (Z.of_nat (length payload)) ++ payload) =
    if decide (t = TYPE_METHOD) then
      request ← map_err (Wrap "failed to parse method frame") (parseMethodFrame c payload);
      mret (MethodFrame request)
    else if decide (t = TYPE_HEADER) then parseHeaderFrame c (Z.of_nat (length payload)) payload
    else if decide (t = TYPE_BODY) then Ok (ContentBody payload)
    else if decide (t = TYPE_HEARTBEAT) then Ok Heartbeat
    else Err (Msg "unknown frame type").
Proof.
  intros Ht Hc Hn. assert (u32 (Z.of_nat (length payload))) by (unfold u32; lia).
  unfold parseFrame.
  rewrite slice_header_type, slice_header_channel, slice_header_size by done.
  rewrite length_app, length_formatHeader.
  rewrite decide_False by lia. rewrite decide_False by (rewrite Z.mod_small; lia).
  rewrite drop_app_length' by done.
  unfold parseBodyFrame. rewrite (decide_False (P := Z.of_nat (length payload) < Z.of_nat (length payload))) by lia.
  done.
Qed.

Lemma header_payload_length classID body p payload :
  header_payload classID body p = Ok payload → (14 ≤ length payload)%nat.
Proof.
  intros H. unfold header_payload in H. inv_ok.
  rewrite !length_app, !length_be_enc. lia.
Qed.

Lemma header_payload_class classID body p payload :
  u16 classID → header_payload classID body p = Ok payload → be_dec (slice 0 2 payload) = classID.
Proof.
  intros Hc H. unfold header_payload in H. inv_ok.
  unfold slice. rewrite drop_0, take_app_length' by (by rewrite length_be_enc).
  by apply be_dec_enc_small.
Qed.

Lemma header_frame_reads (channel classID frameMax : Z) (body rest frame : list byte)
    (p : BasicProperties) :
  u16 channel → classID = BASIC → u64 (Z.of_nat (length body)) → wf_props p →
  createHeaderFrame channel classID body p = Ok frame →
  Z.of_nat (length frame) <= frameMax < 2 ^ 32 →
  ∃ input, readFrame frameMax (frame ++ rest) = Ok (input, rest) ∧
    parseFrame input = Ok (ContentHeader
      (MkHeader channel classID (Z.of_nat (length body)) (relay_props p))).
Proof.
  intros Hch -> Hbody Hp Hframe Hmax. unfold createHeaderFrame in Hframe.
  apply res_bind_ok in Hframe as (payload & Hpl & Hf). apply (inj Ok) in Hf as <-.
  rewrite !length_app, length_formatHeader in Hmax. simpl in Hmax.
  pose proof (header_payload_length _ _ _ _ Hpl).
  eexists. split.
  - rewrite <-!app_assoc. apply readFrame_format; unfold u32, FRAME_OVERHEAD in *; lia.
  - rewrite parseFrame_format by (done || lia). cbn [decide_rel].
    rewrite decide_False, decide_True by done. unfold parseHeaderFrame.
    rewrite !decide_False by lia. rewrite (header_payload_class BASIC body p) by done.
    rewrite decide_True by done.
    by rewrite (parseBasicHeader_payload BASIC body p) by (done || lia).
Qed.

(** C28. A content header the broker writes is read back by the frame reader and
    the parser as the same header: class, body size and all fourteen
    properties, whatever follows it on the connection. *)
Theorem header_frame_round_trip (channel classID frameMax : Z) (body rest frame : list byte)
    (p : BasicProperties) :
  u16 channel → classID = BASIC → u64 (Z.of_nat (length body)) → wf_props p →
  createHeaderFrame channel classID body p = Ok frame →
  Z.of_nat (length frame) <= frameMax < 2 ^ 32 →
  ∃ input, readFrame frameMax (frame ++ rest) = Ok (input, rest) ∧
    parseFrame input = Ok (ContentHeader
      (MkHeader channel classID (Z.of_nat (length body)) (relay_props p))).
Proof. apply header_frame_reads. Qed.

(** ** Body frames *)

Definition body_frame (channel : Z) (chunk : list byte) : list byte :=
  formatHeader TYPE_BODY channel (Z.of_nat (length chunk)) ++ chunk ++ [FRAME_END].

(** Takes the next frames off the input, one per expected chunk. *)
Fixpoint read_bodies (n : nat) (frameMax : Z) (conn : list byte)
    : res frame_err (list parsed_frame * list byte) :=
  match n with
  | O => Ok ([], conn)
  | S n' =>
      '(frame, conn) ← readFrame frameMax conn;
      match parseFrame frame with
      | Err e => Err (ReadError e)
      | Ok f => '(fs, conn) ← read_bodies n' frameMax conn; mret (f :: fs, conn)
      end
  end.

Lemma read_bodies_frames frameMax channel chunks rest :
  u16 channel → frameMax < 2 ^ 32 →
  Forall (λ c, Z.of_nat (length c) + FRAME_OVERHEAD <= frameMax) chunks →
  read_bodies (length chunks) frameMax (concat (body_frame channel <$> chunks) ++ rest)
    = Ok (ContentBody <$> chunks, rest).
Proof.
  intros Hch Hmax. induction 1 as [|c chunks Hc _ IH]; [done|].
  cbn [length read_bodies fmap list_fmap concat]. unfold body_frame at 1.
  unfold FRAME_OVERHEAD in Hc. rewrite <-!app_assoc.
  rewrite readFrame_format by (unfold u32, FRAME_OVERHEAD; lia). cbn [mbind res_mbind res_bind].
  rewrite parseFrame_format by (done || lia).
  rewrite !decide_False, decide_True by done.
  by rewrite IH.
Qed.

Lemma body_frames_chunks fuel channel chunkSize content :
  (0 < chunkSize)%nat → (length content ≤ fuel)%nat →
  ∃ chunks, body_frames fuel channel chunkSize content = concat (body_frame channel <$> chunks) ∧
    concat chunks = content ∧ Forall (λ c, 0 < length c ≤ chunkSize)%nat chunks.
Proof.
  intros Hc. revert content. induction fuel as [|fuel IH]; intros content Hlen.
  - destruct content; [|simpl in Hlen; lia]. by exists [].
  - destruct content as [|b content]; [by exists []|].
    destruct (IH (drop chunkSize (b :: content))) as (chunks & Hf & Hcat & Hall).
    { rewrite length_drop. simpl in *. lia. }
    exists (take chunkSize (b :: content) :: chunks). split; [|split].
    + cbn [body_frames]. rewrite Hf. unfold body_frame at 2. cbn [fmap list_fmap concat].
      by rewrite <-!app_assoc.
    + cbn [concat]. by rewrite Hcat, take_drop.
    + constructor; [|done]. rewrite length_take. simpl. lia.
Qed.

(** C29. A message body survives its frames: [createBodyFrame] cuts it into body
    frames none of which exceeds the negotiated frame-max, a reader with that
    limit takes them off the connection one by one, and the chunks concatenate
    to the body.  A body of any size, the empty one included. *)
Theorem body_frames_reassemble (channel frameMax : Z) (content rest : list byte) :
  u16 channel → FRAME_OVERHEAD < frameMax < 2 ^ 32 →
  ∃ chunks, concat chunks = content ∧ (0 < length chunks)%nat ∧
    Forall (λ c, Z.of_nat (length c) + FRAME_OVERHEAD <= frameMax) chunks ∧
    createBodyFrame channel frameMax content = concat (body_frame channel <$> chunks) ∧
    read_bodies (length chunks) frameMax (createBodyFrame channel frameMax content ++ rest)
      = Ok (ContentBody <$> chunks, rest).
Proof.
  intros Hch Hmax. unfold createBodyFrame.
  pose proof (Zle_0_nat (length content)).
  set (k := body_chunk_size frameMax content).
  assert (0 <= k <= frameMax - FRAME_OVERHEAD ∧ (k = 0 → content = [])) as [Hk Hz].
  { unfold k, body_chunk_size. case_decide; split; try lia.
    intros ?. destruct content; simpl in *; [done|lia]. }
  case_decide as Hk0.
  - rewrite (Hz Hk0). exists [[]]. split; [done|]. split; [simpl; lia|].
    split; [by repeat constructor; simpl; lia|]. split; [done|].
    apply (read_bodies_frames frameMax channel [[]] rest); [done|lia|].
    repeat constructor. simpl. lia.
  - destruct (body_frames_chunks (length content) channel (Z.to_nat k) content)
      as (chunks & Hf & Hcat & Hall); [lia|lia|].
    assert (Forall (λ c, Z.of_nat (length c) + FRAME_OVERHEAD <= frameMax) chunks).
    { eapply Forall_impl; [exact Hall|]. intros c Hcl. simpl in Hcl. lia. }
    exists chunks. split; [done|]. split.
    + destruct chunks; [|simpl; lia]. simpl in Hcat. subst content. destruct Hk0.
      unfold k, body_chunk_size. simpl. case_decide; unfold FRAME_OVERHEAD in *; lia.
    + split; [done|]. split; [done|]. rewrite Hf. apply read_bodies_frames; [done|lia|done].
Qed.

Lemma header_frame_round_trip_witness :
  ∃ frame input, createHeaderFrame 3 BASIC (bytes_of "hello") sample_props = Ok frame ∧
    readFrame 4096 (frame ++ [x01; x02]) = Ok (input, [x01; x02]) ∧
    parseFrame input = Ok (ContentHeader (MkHeader 3 BASIC 5 (relay_props sample_props))).
Proof.
  destruct (createHeaderFrame 3 BASIC (bytes_of "hello") sample_props) as [frame|] eqn:E;
    [|by vm_compute in E].
  destruct (header_frame_round_trip 3 BASIC 4096 (bytes_of "hello") [x01; x02] frame sample_props)
    as (input & Hr & Hp); try done.
  - apply sample_props_wf.
  - vm_compute in E. injection E as <-. by apply (bool_decide_unpack _).
  - by exists frame, input.
Defined.

Lemma body_frames_reassemble_witness :
  ∃ chunks, concat chunks = bytes_of "hello, world" ∧
    read_bodies (length chunks) 13 (createBodyFrame 2 13 (bytes_of "hello, world") ++ [x07])
      = Ok (ContentBody <$> chunks, [x07]).
Proof.
  destruct (body_frames_reassemble 2 13 (bytes_of "hello, world") [x07])
    as (chunks & Hc & _ & _ & _ & Hr); [done|done|].
  by exists chunks.
Defined.

(** ** Methods of the server *)

(** The type of a field, as the peer knows it from the method's definition. *)
Inductive kind : Type :=
| KOctet | KShort | KLong | KLongLong | KBit | KShortStr | KLongStr | KTimestamp | KTable.

Definition kind_of (kv : KeyValue) : kind :=
  match kv with
  | INT_OCTET _ => KOctet | INT_SHORT _ => KShort | INT_LONG _ => KLong
  | INT_LONG_LONG _ => KLongLong | BIT _ => KBit | STRING_SHORT _ => KShortStr
  | STRING_LONG _ => KLongStr | TIMESTAMP _ => KTimestamp | TABLE _ => KTable
  end.

Definition read_kind (k : kind) : reader KeyValue :=
  match k with
  | KOctet => INT_OCTET <$> read_be 1
  | KShort => INT_SHORT <$> DecodeShortInt
  | KLong => INT_LONG <$> DecodeLongUInt
  | KLongLong => INT_LONG_LONG <$> DecodeLongLongUInt
  | KBit => (λ b, BIT (flag_bit b 0 true)) <$> ReadByte
  | KShortStr => STRING_SHORT <$> DecodeShortStr
  | KLongStr => (λ s, STRING_LONG (bytes_of s)) <$> DecodeLongStr
  | KTimestamp => TIMESTAMP <$> DecodeLongLongInt
  | KTable => s ← DecodeLongStr; TABLE <$> lift (DecodeTable (bytes_of s))
  end.

Fixpoint read_kinds (ks : list kind) : reader (list KeyValue) :=
  match ks with
  | [] => mret []
  | k :: ks' => v ← read_kind k; vs ← read_kinds ks'; mret (v :: vs)
  end.

Definition wf_key_value (kv : KeyValue) : Prop :=
  match kv with
  | INT_OCTET v => u8 v | INT_SHORT v => u16 v | INT_LONG v => u32 v | INT_LONG_LONG v => u64 v
  | BIT _ | STRING_SHORT _ => True
  | STRING_LONG v => Z.of_nat (length v) < 2 ^ 32
  | TIMESTAMP v => signed_range 64 v
  | TABLE t => wf_table t ∧ ∀ bs, EncodeTable t = Ok bs → Z.of_nat (length bs) < 2 ^ 32
  end.

Definition relay_key_value (kv : KeyValue) : KeyValue :=
  match kv with TABLE t => TABLE (relay_table t) | _ => kv end.

Lemma read_kind_enc kv bs rest :
  wf_key_value kv → format_key_value kv = Ok bs →
  read_kind (kind_of kv) (bs ++ rest) = Ok (relay_key_value kv, rest).
Proof.
  intros Hwf Henc. destruct kv; cbn in Hwf, Henc; try (apply (inj Ok) in Henc as <-);
    cbn [kind_of read_kind relay_key_value].
  - apply fmap_reader. by apply (read_be_enc_small 1).
  - apply fmap_reader. by apply (read_be_enc_small 2).
  - apply fmap_reader. by apply (read_be_enc_small 4).
  - apply fmap_reader. by apply (read_be_enc_small 8).
  - by destruct v.
  - apply fmap_reader. by apply DecodeShortStr_enc.
  - unfold fmap, reader_fmap. rewrite <-(bytes_of_string_of v) at 1.
    rewrite DecodeLongStr_enc by (unfold slen; by rewrite bytes_of_string_of).
    by rewrite bytes_of_string_of.
  - apply fmap_reader. apply (read_be_signed_enc 8); [lia|done].
  - destruct Hwf as [Hwf Hlen]. inv_ok. specialize (Hlen _ H).
    rewrite bind_reader. rewrite <-(bytes_of_string_of x) at 1.
    rewrite DecodeLongStr_enc by (unfold slen; by rewrite bytes_of_string_of).
    apply fmap_reader. unfold lift. rewrite bytes_of_string_of.
    by rewrite (DecodeTable_enc v x).
Qed.

Lemma read_kinds_enc content : ∀ bs rest,
  Forall wf_key_value content → formatMethodPayload content = Ok bs →
  read_kinds (kind_of <$> content) (bs ++ rest) = Ok (relay_key_value <$> content, rest).
Proof.
  induction content as [|kv content IH]; intros bs rest Hwf Henc; [by injection Henc as <-|].
  apply Forall_cons in Hwf as [Hkv Hwf]. cbn [formatMethodPayload] in Henc. inv_ok.
  cbn [fmap list_fmap read_kinds]. rewrite bind_reader, <-app_assoc.
  rewrite (read_kind_enc kv) by done. rewrite bind_reader.
  erewrite IH by done. done.
Qed.

(** C25. Every method frame the broker formats is read off the connection as one
    frame, carries its channel, class and method identifiers, and its arguments
    read back field by field by a peer that knows the method's field types. *)
Theorem method_frame_round_trip (channel class method frameMax : Z) (content : list KeyValue)
    (frame rest : list byte) :
  u16 channel → u16 class → u16 method → Forall wf_key_value content →
  FormatMethodFrame channel class method content = Ok frame →
  Z.of_nat (length frame) <= frameMax < 2 ^ 32 →
  ∃ input, readFrame frameMax (frame ++ rest) = Ok (input, rest) ∧
    be_dec (slice 0 1 input) = TYPE_METHOD ∧ be_dec (slice 1 3 input) = channel ∧
    (short_class ← DecodeShortInt; short_method ← DecodeShortInt;
     fields ← read_kinds (kind_of <$> content);
     mret (short_class, short_method, fields) : reader _) (drop 7 input)
      = Ok (class, method, relay_key_value <$> content, []).
Proof.
  intros Hch Hcl Hm Hwf Hf Hmax. unfold FormatMethodFrame in Hf.
  apply res_bind_ok in Hf as (args & Hargs & Hf). apply (inj Ok) in Hf as <-.
  set (payload := be_enc 2 class ++ be_enc 2 method ++ args) in *.
  rewrite length_app, length_formatHeader, length_app in Hmax.
  change (length [FRAME_END]) with 1%nat in Hmax.
  eexists. split.
  { rewrite <-!app_assoc. apply readFrame_format; unfold u32, FRAME_OVERHEAD in *; lia. }
  split; [by apply slice_header_type|]. split; [by apply slice_header_channel|].
  rewrite drop_app_length' by done. unfold payload.
  rewrite bind_reader. unfold DecodeShortInt at 1. rewrite read_be_enc_small by done.
  rewrite bind_reader. unfold DecodeShortInt. rewrite read_be_enc_small by done.
  rewrite bind_reader. rewrite <-(app_nil_r args). by rewrite read_kinds_enc.
Qed.

Lemma method_frame_round_trip_witness :
  ∃ frame input, createBasicDeliverFrame 1 "ctag" "logs" "app.error" 42 true = Ok frame ∧
    readFrame 4096 (frame ++ [x09]) = Ok (input, [x09]) ∧ be_dec (slice 1 3 input) = 1.
Proof.
  destruct (createBasicDeliverFrame 1 "ctag" "logs" "app.error" 42 true) as [frame|] eqn:E;
    [|by vm_compute in E].
  destruct (method_frame_round_trip 1 BASIC BASIC_DELIVER 4096
    [STRING_SHORT "ctag"; INT_LONG_LONG 42; BIT true; STRING_SHORT "logs"; STRING_SHORT "app.error"]
    frame [x09]) as (input & Hr & _ & Hc & _); try done.
  - by repeat constructor.
  - vm_compute in E. injection E as <-. by apply (bool_decide_unpack _).
  - by exists frame, input.
Defined.

(** ** Close replies *)

Lemma rune_boundary_spec text e :
  (rune_boundary text e ≤ e)%nat ∧
  (rune_boundary text e = 0%nat ∨ RuneStart (nth (rune_boundary text e) text x00) = true).
Proof.
  induction e as [|e [IH1 IH2]]; cbn [rune_boundary]; [by auto|].
  destruct (RuneStart (nth (S e) text x00)) eqn:E; [by auto|]. split; [lia|done].
Qed.

Lemma truncate_prefix text :
  ∃ cut, bytes_of text = bytes_of (truncateCloseReplyText text) ++ cut ∧
    slen (truncateCloseReplyText text) <= 255 ∧
    (cut = [] ∨ truncateCloseReplyText text = "" ∨ RuneStart (nth 0 cut x00) = true).
Proof.
  unfold truncateCloseReplyText. case_decide as Hlen.
  - exists []. rewrite app_nil_r. auto.
  - destruct (rune_boundary_spec (bytes_of text) close_text_limit) as [Hle Hrune].
    set (e := rune_boundary _ _) in *. exists (drop e (bytes_of text)).
    assert (e < length (bytes_of text))%nat.
    { unfold slen, close_text_limit in *. lia. }
    split; [|split].
    + by rewrite bytes_of_string_of, take_drop.
    + unfold slen. rewrite bytes_of_string_of, length_take. unfold close_text_limit in *. lia.
    + right. destruct Hrune as [->|Hr]; [by left|]. right.
      rewrite (drop_S _ (nth e (bytes_of text) x00)); [done|].
      by destruct (nth_lookup_or_length (bytes_of text) e x00) as [|]; [|lia].
Qed.

(** A close frame can always be built, whatever the reply text: the text is
    cut to at most 255 bytes, is a prefix of the original, and is not cut inside
    a UTF-8 sequence (the first byte cut off starts a character). *)
Theorem close_frames_always_encode (channel replyCode classID methodID : Z) (text : string) :
  is_ok (createConnectionCloseFrame channel replyCode classID methodID text) = true ∧
  is_ok (createChannelCloseFrame channel replyCode classID methodID text) = true ∧
  ∃ cut, bytes_of text = bytes_of (truncateCloseReplyText text) ++ cut ∧
    slen (truncateCloseReplyText text) <= 255 ∧
    (cut = [] ∨ truncateCloseReplyText text = "" ∨ RuneStart (nth 0 cut x00) = true).
Proof.
  pose proof (truncate_prefix text) as (cut & Hcut & Hlen & Hrune).
  assert (EncodeShortStr (truncateCloseReplyText text)
    = Ok (byte_of_Z (slen (truncateCloseReplyText text)) :: bytes_of (truncateCloseReplyText text))) as E.
  { unfold EncodeShortStr. by rewrite decide_False by lia. }
  unfold createConnectionCloseFrame, createChannelCloseFrame, FormatMethodFrame.
  cbn [formatMethodPayload format_key_value mbind res_mbind res_bind]. rewrite E.
  split; [done|]. split; [done|]. by exists cut.
Qed.

(** A header frame without a payload makes [parseHeaderFrame] slice out of
    range: [readFrame] accepts it, [parseFrame] panics. *)
Lemma empty_header_frame_panics channel frameMax rest :
  u16 channel → 8 <= frameMax →
  ∃ input, readFrame frameMax (formatHeader TYPE_HEADER channel 0 ++ [FRAME_END] ++ rest)
      = Ok (input, rest) ∧
    parseFrame input = Err (Panic "slice bounds out of range").
Proof.
  intros Hch Hmax. eexists. split.
  - apply (readFrame_format TYPE_HEADER channel [] rest frameMax); [done|].
    unfold FRAME_OVERHEAD. simpl. lia.
  - by rewrite parseFrame_format.
Qed.
