(* ===== verification/Handshake.v ===== *)
(** * Tuning and authentication: tuning.go and the pure parts of handshake.go

    The limits negotiated by connection.tune-ok, the SASL PLAIN response, the
    client's capabilities and the protocol header.  The user database
    ([persistdb]) and the connection's address are parameters. *)

From stdpp Require Import base list strings pretty.
From Stdlib Require Import ZArith Lia.
From Stdlib Require Import Strings.Byte.
From S2P Require Import Prelude Bytes Values Reader FieldTable Methods ClientMethods Frames.

Local Open Scope Z_scope.
Local Open Scope string_scope.
Local Open Scope list_scope.

(** ** Limits (tuning.go, framing.go) *)

Definition FRAME_MIN_SIZE : Z := 4096.
Definition DEFAULT_FRAME_MAX : Z := 131072.
Definition MaxUint16 : Z := 65535.
Definition MaxUint32 : Z := 4294967295.
Definition NOT_ALLOWED : Z := 530.

Definition getSmalestShortInt (a b : Z) : Z :=
  let a := if decide (a = 0) then MaxUint16 else a in
  let b := if decide (b = 0) then MaxUint16 else b in
  if decide (a < b) then a else b.

Definition getSmalestLongInt (a b : Z) : Z :=
  let a := if decide (a = 0) then MaxUint32 else a in
  let b := if decide (b = 0) then MaxUint32 else b in
  if decide (a < b) then a else b.

(** [ServerTuning] and [Negotiated]: the same three limits. *)
Record Tuning : Type := MkTuning {
  ChannelMax : Z;
  FrameMax : Z;
  HeartbeatSecs : Z;
}.

Definition NewServerTuning (channelMax frameMax heartbeat : Z) : Tuning :=
  let frameMax :=
    if decide (frameMax = 0) then DEFAULT_FRAME_MAX
    else if decide (frameMax < FRAME_MIN_SIZE) then FRAME_MIN_SIZE else frameMax in
  MkTuning channelMax frameMax heartbeat.

Inductive tune_err : Type :=
| TuneError (ReplyCode : Z) (Text : string).

Definition tune_error_text (requested offered : Z) : string :=
  String.append "frame_max=" (String.append (pretty requested)
    (String.append " outside the allowed range " (String.append (pretty FRAME_MIN_SIZE)
      (String.append "-" (pretty offered))))).

Definition Negotiate (s tuneOk : Tuning) : res tune_err Tuning :=
  let channelMax := getSmalestShortInt (ChannelMax s) (ChannelMax tuneOk) in
  let frameMax := if decide (FrameMax tuneOk = 0) then FrameMax s else FrameMax tuneOk in
  if decide (frameMax < FRAME_MIN_SIZE ∨ FrameMax s < frameMax) then
    Err (TuneError NOT_ALLOWED (tune_error_text (FrameMax tuneOk) (FrameMax s)))
  else
    let heartbeat :=
      if decide (HeartbeatSecs s ≠ 0 ∧ HeartbeatSecs s < HeartbeatSecs tuneOk)
      then HeartbeatSecs s else HeartbeatSecs tuneOk in
    Ok (MkTuning channelMax frameMax heartbeat).

(** [heartbeatSendInterval], in nanoseconds. *)
Definition Second : Z := 1000000000.
Definition heartbeatSendInterval (heartbeat : Z) : Z :=
  let interval := heartbeat * Second / 2 in
  if decide (interval < Second) then Second else interval.

Definition wf_tuning (t : Tuning) : Prop :=
  u16 (ChannelMax t) ∧ u32 (FrameMax t) ∧ u16 (HeartbeatSecs t).

(** A client limit of 0 means no limit of its own. *)
Definition no_greater (limit z : Z) : Prop := limit = 0 ∨ z <= limit.

(** C37. The negotiated limits: with any offer the server can be configured
    with, tune-ok is refused exactly when its frame-max is non-zero and outside
    the range from the specification's minimum to the server's value, always
    with NOT_ALLOWED; otherwise frame-max is in that range and no more than the
    client asked for, channel-max is at least 1 and no more than either side's,
    and the heartbeat is the client's unless the server's is smaller, 0 (off)
    being kept. *)
Theorem negotiated_limits (channelMax frameMax heartbeat : Z) (tuneOk : Tuning) :
  u16 channelMax → u32 frameMax → u16 heartbeat → wf_tuning tuneOk →
  let s := NewServerTuning channelMax frameMax heartbeat in
  match Negotiate s tuneOk with
  | Err e =>
      (∃ text, e = TuneError NOT_ALLOWED text) ∧ FrameMax tuneOk ≠ 0 ∧
      ¬ (FRAME_MIN_SIZE <= FrameMax tuneOk <= FrameMax s)
  | Ok n =>
      (FrameMax tuneOk = 0 ∨ FRAME_MIN_SIZE <= FrameMax tuneOk <= FrameMax s) ∧
      FRAME_MIN_SIZE <= FrameMax n <= FrameMax s ∧ no_greater (FrameMax tuneOk) (FrameMax n) ∧
      1 <= ChannelMax n <= MaxUint16 ∧ no_greater (ChannelMax tuneOk) (ChannelMax n) ∧
      no_greater channelMax (ChannelMax n) ∧
      (HeartbeatSecs n = 0 ↔ HeartbeatSecs tuneOk = 0) ∧
      HeartbeatSecs n <= HeartbeatSecs tuneOk ∧ no_greater heartbeat (HeartbeatSecs n)
  end.
Proof.
  intros Hc Hf Hh (Hc' & Hf' & Hh').
  unfold Negotiate, NewServerTuning, getSmalestShortInt, no_greater, u16, u32,
    FRAME_MIN_SIZE, DEFAULT_FRAME_MAX, MaxUint16 in *. cbn.
  repeat case_decide; cbn; (split; [by eexists|lia]) || lia.
Qed.

Lemma negotiated_limits_witness :
  match Negotiate (NewServerTuning 2047 131072 60) (MkTuning 0 8192 580) with
  | Ok n => FRAME_MIN_SIZE <= FrameMax n <= FrameMax (NewServerTuning 2047 131072 60) ∧
      1 <= ChannelMax n <= MaxUint16
  | Err _ => False
  end.
Proof.
  pose proof (negotiated_limits 2047 131072 60 (MkTuning 0 8192 580)
    ltac:(done) ltac:(done) ltac:(done) ltac:(done)) as H. cbn zeta in H.
  destruct (Negotiate _ _) as [n|e].
  - destruct H as (_ & H1 & _ & H2 & _). split; [exact H1|exact H2].
  - destruct H as (_ & _ & Hr). apply Hr. by vm_compute.
Defined.

(** ** SASL PLAIN (handshake.go) *)

(** The user name and password, or no one with an error text. *)
Definition parsePlainResponse (response : list byte) : res string (list byte * list byte) :=
  match split_on x00 response with
  | [authzid; authcid; passwd] =>
      if decide (authcid = []) then Err "invalid PLAIN response: empty username" else
      if decide (passwd = []) then Err "invalid PLAIN response: empty password" else
      if decide (authzid ≠ [] ∧ authzid ≠ authcid)
      then Err "invalid PLAIN response: authorization identity differs from the username"
      else Ok (authcid, passwd)
  | _ => Err "invalid PLAIN response: want authzid, username and password separated by NUL"
  end.

Section authentication.
(** [persistdb.AuthenticateUser]. *)
Variable AuthenticateUser : list byte → list byte → res string bool.

Definition processStartOkContent (mechanism : string) (response : list byte)
    : res string (list byte) :=
  if decide (mechanism ≠ "PLAIN") then Err "mechanism invalid or not suported" else
  '(username, password) ← parsePlainResponse response;
  authOk ← AuthenticateUser username password;
  if authOk : bool then mret username else Err "authentication failed".
End authentication.

Definition loopbackOnly (loopbackUsers : list string) (user : string) : bool :=
  bool_decide (user ∈ loopbackUsers).

(** A type assertion on a missing key or another type gives [false]. *)
Definition clientCapability (clientProperties : table) (name : string) : bool :=
  match tbl_get "capabilities" clientProperties with
  | Some (VTable capabilities) =>
      match tbl_get name capabilities with Some (VBool enabled) => enabled | _ => false end
  | _ => false
  end.

(** A PLAIN response authenticates a name and password exactly when it is
    authzid NUL authcid NUL passwd with both non-empty and free of NUL and an
    authorization identity that is empty or the same name: no other byte
    sequence yields credentials, and none yields another split. *)
Theorem plain_response_spec (response user password : list byte) :
  parsePlainResponse response = Ok (user, password) ↔
  ∃ authzid, response = authzid ++ [x00] ++ user ++ [x00] ++ password ∧
    x00 ∉ authzid ∧ x00 ∉ user ∧ x00 ∉ password ∧ user ≠ [] ∧ password ≠ [] ∧
    (authzid = [] ∨ authzid = user).
Proof.
  unfold parsePlainResponse. split.
  - destruct (split_on_spec x00 response) as [Hj Hw].
    destruct (split_on x00 response) as [|a [|u [|p [|]]]]; try done.
    intros H. repeat case_decide; simplify_eq.
    apply Forall_cons in Hw as [? Hw]. apply Forall_cons in Hw as [? Hw].
    apply Forall_cons in Hw as [? _]. exists a.
    repeat split; try done. destruct (decide (a = [])); [by left|right].
    destruct (decide (a = user)); [done|tauto].
  - intros (a & -> & Ha & Hu & Hp & Hu0 & Hp0 & Hor).
    cbn [app]. rewrite split_on_app by done. rewrite split_on_app by done.
    rewrite split_on_no_sep by done.
    rewrite !decide_False by (done || by intros [??]; destruct Hor). done.
Qed.

Section authenticated.
Variable AuthenticateUser : list byte → list byte → res string bool.

(** A connection is authenticated as [user] only after the user database
    accepted that very name with a password that the response carries. *)
Theorem start_ok_authenticates (mechanism : string) (response user : list byte) :
  processStartOkContent AuthenticateUser mechanism response = Ok user ↔
  mechanism = "PLAIN" ∧ ∃ password, parsePlainResponse response = Ok (user, password) ∧
    AuthenticateUser user password = Ok true.
Proof.
  unfold processStartOkContent. split.
  - intros H. case_decide as Hm; [done|]. split; [by destruct (decide (mechanism = "PLAIN"))|].
    destruct (parsePlainResponse response) as [[u p]|]; cbn in H; [|done].
    destruct (AuthenticateUser u p) as [[]|] eqn:Ha; cbn in H; try done.
    apply (inj Ok) in H as ->. by exists p.
  - intros (-> & password & Hp & Ha). rewrite decide_False by tauto. rewrite Hp. cbn.
    by rewrite Ha.
Qed.
End authenticated.

Lemma plain_response_spec_example :
  parsePlainResponse (x00 :: bytes_of "guest" ++ x00 :: bytes_of "secret")
    = Ok (bytes_of "guest", bytes_of "secret") ∧
  is_ok (parsePlainResponse (bytes_of "other" ++ x00 :: bytes_of "guest" ++ x00 :: bytes_of "s")) = false.
Proof. by vm_compute. Qed.

(** ** The protocol header *)

Definition digit (b : byte) : option Z :=
  let z := Z_of_byte b - 48 in if decide (0 <= z <= 9) then Some z else None.

Fixpoint digits_value (acc : Z) (s : list byte) : option Z :=
  match s with
  | [] => Some acc
  | b :: s' => match digit b with Some d => digits_value (acc * 10 + d) s' | None => None end
  end.

(** [strconv.Atoi]: an optional sign and decimal digits, within 64 bits. *)
Definition Atoi (s : list byte) : option Z :=
  let '(negative, digits) :=
    match s with
    | x2d :: s' => (true, s')
    | x2b :: s' => (false, s')
    | _ => (false, s)
    end in
  match digits with
  | [] => None
  | _ =>
      match digits_value 0 digits with
      | None => None
      | Some z =>
          let v := if negative : bool then - z else z in
          if decide (- 2 ^ 63 <= v < 2 ^ 63) then Some v else None
      end
  end.

Definition buildProtocolHeader (protocol : string) : res string (list byte) :=
  match split_on x20 (bytes_of protocol) with
  | [name; version] =>
      if decide (name ≠ bytes_of "AMQP") then Err "invalid protocol format" else
      match split_on x2d version with
      | [a; b; c] =>
          match Atoi a, Atoi b, Atoi c with
          | None, _, _ => Err "invalid major version"
          | _, None, _ => Err "invalid minor version"
          | _, _, None => Err "invalid revision version"
          | Some major, Some minor, Some revision =>
              Ok (bytes_of "AMQP" ++ [x00; byte_of_Z major; byte_of_Z minor; byte_of_Z revision])
          end
      | _ => Err "invalid version format"
      end
  | _ => Err "invalid protocol format"
  end.

Example protocol_header_example :
  buildProtocolHeader "AMQP 0-9-1" = Ok (bytes_of "AMQP" ++ [x00; x00; x09; x01]).
Proof. reflexivity. Qed.

(** ** The handshake *)

Inductive hs_err : Type :=
| HsProtocol (text : string)
| HsRead (e : frame_err)
| HsParse (e : perr)
| HsEncode (e : perr)
| HsAuth (text : string)
| HsTune (e : tune_err)
| HsText (text : string).

(** The connection during the handshake: the bytes still to come from the
    client, and the buffers written to it, the first one first.  An error keeps
    what was written before it. *)
Record hs_state : Type := MkHs { hs_in : list byte; hs_out : list (list byte) }.

Definition hs (A : Type) : Type := hs_state → hs_state * res hs_err A.

#[export] Instance hs_mret : MRet hs := fun A a s => (s, Ok a).
#[export] Instance hs_mbind : MBind hs := fun A B f m s =>
  match m s with
  | (s', Ok a) => f a s'
  | (s', Err e) => (s', Err e)
  end.
Definition hs_fail {A} (e : hs_err) : hs A := fun s => (s, Err e).
Definition hs_lift {E A} (f : E → hs_err) (r : res E A) : hs A := fun s => (s, map_err f r).

(** [conn.Write]: the model's connection takes every write. *)
Definition sendFrame (frame : list byte) : hs unit := fun s =>
  (MkHs (hs_in s) (hs_out s ++ [frame]), Ok tt).

Definition readProtocolHeader : hs (list byte) := fun s =>
  match ReadFull 8 (hs_in s) with
  | Ok (header, rest) => (MkHs rest (hs_out s), Ok header)
  | Err e => (s, Err (HsRead e))
  end.

Definition ACCESS_REFUSED : Z := 403.
Definition FRAME_ERROR : Z := 501.

(** [sendHandshakeClose]: an encoding error is only logged. *)
Definition sendHandshakeClose (replyCode methodID : Z) (text : string) : hs unit :=
  let classID := if decide (methodID ≠ 0) then CONNECTION else 0 in
  match createConnectionCloseFrame 0 replyCode classID methodID text with
  | Ok frame => sendFrame frame
  | Err _ => mret tt
  end.

Definition too_large_text (payloadSize frameMax : Z) : string :=
  String.append "frame of " (String.append (pretty (payloadSize + FRAME_OVERHEAD))
    (String.append " octets exceeds frame_max=" (pretty frameMax))).

Definition readHandshakeFrame (frameMax : Z) : hs (list byte) := fun s =>
  match readFrame frameMax (hs_in s) with
  | Ok (frame, rest) => (MkHs rest (hs_out s), Ok frame)
  | Err (FrameTooLargeError payloadSize max as e) =>
      ((sendHandshakeClose FRAME_ERROR 0 (too_large_text payloadSize max) s).1, Err (HsRead e))
  | Err e => (s, Err (HsRead e))
  end.

(** Reads a frame and takes the content of its method, in each of the three
    steps of the handshake. *)
Definition read_method (frameMax : Z) : hs method_content :=
  frame ← readHandshakeFrame frameMax;
  response ← hs_lift HsParse (parseFrame frame);
  match response with
  | MethodFrame m => mret (rm_Content m)
  | ContentHeader _ | ContentBody _ => hs_fail (HsText "methodFrame is empty")
  | Heartbeat => hs_fail (HsText "type assertion ChannelState failed")
  end.

Record HandshakeConfig : Type := MkConfig {
  Protocol : string;
  ServerProperties : table;
  Mechanisms : list string;
  Locales : list string;
  ServerTuning : Tuning;
  LoopbackUsers : list string;
}.

Record ConnectionInfo : Type := MkConnInfo {
  ci_VHostName : string;
  ci_Username : string;
  ci_Negotiated : Tuning;
  ci_ConsumerCancelNotify : bool;
}.

Section handshake.
(** [persistdb.AuthenticateUser], [persistdb.HasVHostAccess] and whether the
    remote address is a loopback address. *)
Variable AuthenticateUser : list byte → list byte → res string bool.
Variable HasVHostAccess : string → string → res string bool.
Variable isLoopbackAddr : bool.

(** The user of a start-ok, refused from a remote address when restricted. *)
Definition authenticate (cfg : HandshakeConfig) (mechanism response : string) : hs string :=
  user ← hs_lift HsAuth (processStartOkContent AuthenticateUser mechanism (bytes_of response));
  let username := string_of user in
  if decide (loopbackOnly (LoopbackUsers cfg) username = true ∧ isLoopbackAddr = false) then
    let text := String.append "user '" (String.append username "' can only connect from localhost") in
    _ ← sendHandshakeClose ACCESS_REFUSED CONNECTION_START_OK text;
    hs_fail (HsText text)
  else mret username.

Definition tune (cfg : HandshakeConfig) : hs Tuning :=
  let s := ServerTuning cfg in
  _ ← sendFrame (createConnectionTuneFrame (ChannelMax s) (FrameMax s) (HeartbeatSecs s));
  content ← read_method (FrameMax s);
  match content with
  | ConnectionTune channelMax frameMax heartbeat =>
      match Negotiate s (MkTuning channelMax frameMax heartbeat) with
      | Ok n => mret n
      | Err (TuneError code text as e) =>
          _ ← sendHandshakeClose code CONNECTION_TUNE_OK text;
          hs_fail (HsTune e)
      end
  | _ => hs_fail (HsText "type assertion ConnectionTuneOkFrame failed")
  end.

Definition open_vhost (username : string) (frameMax : Z) : hs string :=
  content ← read_method frameMax;
  match content with
  | ConnectionOpen vhost =>
      if decide (username ≠ "") then
        match HasVHostAccess username vhost with
        | Ok true => _ ← sendFrame createConnectionOpenOkFrame; mret vhost
        | _ => hs_fail (HsText "access to vhost denied")
        end
      else _ ← sendFrame createConnectionOpenOkFrame; mret vhost
  | _ => hs_fail (HsText "type assertion ConnectionOpenFrame failed")
  end.

Definition handshake (cfg : HandshakeConfig) : hs ConnectionInfo :=
  clientHeader ← readProtocolHeader;
  match buildProtocolHeader (Protocol cfg) with
  | Err _ => hs_fail (HsProtocol "error parsing protocol")
  | Ok protocolHeader =>
    if decide (clientHeader ≠ protocolHeader) then
      _ ← sendFrame protocolHeader; hs_fail (HsProtocol "bad protocol")
    else
      startFrame ← hs_lift HsEncode
        (createConnectionStartFrame (ServerProperties cfg) (Mechanisms cfg) (Locales cfg));
      _ ← sendFrame startFrame;
      content ← read_method (FrameMax (ServerTuning cfg));
      match content with
      | ConnectionStartOk clientProperties mechanism response _ =>
          username ← authenticate cfg mechanism response;
          negotiated ← tune cfg;
          vhost ← open_vhost username (FrameMax negotiated);
          mret (MkConnInfo vhost username negotiated
            (clientCapability clientProperties "consumer_cancel_notify"))
      | _ => hs_fail (HsText "type assertion ConnectionStartOkFrame failed")
      end
  end.
End handshake.

(** ** What a completed handshake guarantees *)

Lemma hs_bind_ok {A B} (m : hs A) (f : A → hs B) s s' b :
  (m ≫= f) s = (s', Ok b) ↔ ∃ s1 a, m s = (s1, Ok a) ∧ f a s1 = (s', Ok b).
Proof.
  unfold mbind, hs_mbind. destruct (m s) as [s1 [a|e]].
  2: { split; [done|]. by intros (? & ? & ? & ?). }
  split; [by exists s1, a|]. by intros (? & ? & [= <- <-] & ?).
Qed.

Lemma hs_lift_ok {E A} (g : E → hs_err) (r : res E A) s s' a :
  hs_lift g r s = (s', Ok a) ↔ s' = s ∧ r = Ok a.
Proof. unfold hs_lift. destruct r; split; cbn; try (by intros [= <- <-]); by intros [-> [= ->]]. Qed.

Ltac inv_hs :=
  repeat match goal with
  | H : mbind _ _ _ = (_, Ok _) |- _ => apply hs_bind_ok in H as (? & ? & ? & ?)
  | H : hs_lift _ _ _ = (_, Ok _) |- _ => apply hs_lift_ok in H as [-> H]
  | H : hs_fail _ _ = (_, Ok _) |- _ => discriminate H
  | H : mret _ _ = (_, Ok _) |- _ => injection H as <- <-
  | H : sendFrame _ _ = (_, Ok _) |- _ => injection H as <- <-
  end.

Lemma readHandshakeFrame_ok frameMax s s' frame :
  readHandshakeFrame frameMax s = (s', Ok frame) → hs_out s' = hs_out s.
Proof.
  unfold readHandshakeFrame. destruct (readFrame frameMax (hs_in s)) as [[f rest]|e].
  - by intros [= <- _].
  - by destruct e.
Qed.

Lemma read_method_ok frameMax s s' c :
  read_method frameMax s = (s', Ok c) → hs_out s' = hs_out s.
Proof.
  unfold read_method. intros H.
  apply hs_bind_ok in H as (s1 & frame & Hr & H). apply readHandshakeFrame_ok in Hr as <-.
  apply hs_bind_ok in H as (s2 & response & Hp & H). apply hs_lift_ok in Hp as [-> _].
  by destruct response; inv_hs.
Qed.

Lemma parsePlainResponse_user response u p : parsePlainResponse response = Ok (u, p) → u ≠ [].
Proof.
  unfold parsePlainResponse. destruct (split_on _ _) as [|? [|? [|? [|]]]]; try done.
  intros H. repeat case_decide; by simplify_eq.
Qed.

Section guarantees.
Variable AuthenticateUser : list byte → list byte → res string bool.
Variable HasVHostAccess : string → string → res string bool.
Variable isLoopbackAddr : bool.

Lemma authenticate_ok cfg mechanism response s s' username :
  authenticate AuthenticateUser isLoopbackAddr cfg mechanism response s = (s', Ok username) →
  s' = s ∧ username ≠ "" ∧
  (∃ password, AuthenticateUser (bytes_of username) password = Ok true) ∧
  (isLoopbackAddr = true ∨ username ∉ LoopbackUsers cfg).
Proof.
  unfold authenticate. intros H.
  apply hs_bind_ok in H as (s1 & user & Hp & H). apply hs_lift_ok in Hp as [-> Hp].
  case_decide as Hl; inv_hs. rename Hp into H.
  unfold processStartOkContent in H. case_decide; [done|].
  destruct (parsePlainResponse _) as [[u p]|] eqn:Hp; cbn in H; [|done].
  destruct (AuthenticateUser u p) as [[]|] eqn:Ha; cbn in H; try done.
  apply (inj Ok) in H as <-. split; [done|]. split; [|split].
  - intros Hu. apply parsePlainResponse_user in Hp. apply Hp.
    rewrite <-(bytes_of_string_of u), Hu. done.
  - exists p. by rewrite bytes_of_string_of.
  - destruct isLoopbackAddr; [by left|right]. intros Hin. apply Hl. split; [|done].
    unfold loopbackOnly. by apply bool_decide_eq_true.
Qed.

Lemma tune_ok cfg s s' n :
  tune cfg s = (s', Ok n) →
  let t := ServerTuning cfg in
  hs_out s' = hs_out s ++ [createConnectionTuneFrame (ChannelMax t) (FrameMax t) (HeartbeatSecs t)] ∧
  ∃ tuneOk, Negotiate t tuneOk = Ok n.
Proof.
  unfold tune. intros H.
  apply hs_bind_ok in H as (s1 & [] & Hs & H). injection Hs as <-.
  apply hs_bind_ok in H as (s2 & content & Hr & H). apply read_method_ok in Hr.
  destruct content; inv_hs.
  destruct (Negotiate _ _) as [n'|[code text]] eqn:Hn; inv_hs.
  split; [by rewrite Hr|]. by eexists.
Qed.

Lemma open_vhost_ok username frameMax s s' vhost :
  username ≠ "" → open_vhost HasVHostAccess username frameMax s = (s', Ok vhost) →
  hs_out s' = hs_out s ++ [createConnectionOpenOkFrame] ∧ HasVHostAccess username vhost = Ok true.
Proof.
  intros Hu. unfold open_vhost. intros H.
  apply hs_bind_ok in H as (s1 & content & Hr & H). apply read_method_ok in Hr.
  destruct content; inv_hs. rewrite decide_True in H by done.
  destruct (HasVHostAccess _ _) as [[]|] eqn:Ha; inv_hs. split; [by rewrite <-Hr|done].
Qed.

(** Everything a handshake that succeeded went through. *)
Lemma handshake_ok (cfg : HandshakeConfig) (input : list byte) (s : hs_state)
    (info : ConnectionInfo) :
  handshake AuthenticateUser HasVHostAccess isLoopbackAddr cfg (MkHs input []) = (s, Ok info) →
  (∃ password, AuthenticateUser (bytes_of (ci_Username info)) password = Ok true) ∧
  HasVHostAccess (ci_Username info) (ci_VHostName info) = Ok true ∧
  (isLoopbackAddr = true ∨ ci_Username info ∉ LoopbackUsers cfg) ∧
  (∃ tuneOk, Negotiate (ServerTuning cfg) tuneOk = Ok (ci_Negotiated info)) ∧
  ∃ startFrame,
    createConnectionStartFrame (ServerProperties cfg) (Mechanisms cfg) (Locales cfg)
      = Ok startFrame ∧
    hs_out s = [startFrame;
      createConnectionTuneFrame (ChannelMax (ServerTuning cfg)) (FrameMax (ServerTuning cfg))
        (HeartbeatSecs (ServerTuning cfg));
      createConnectionOpenOkFrame].
Proof.
  unfold handshake. intros H.
  apply hs_bind_ok in H as (s1 & header & Hh & H).
  assert (hs_out s1 = []) as Ho1.
  { unfold readProtocolHeader in Hh. destruct (ReadFull _ _) as [[? ?]|]; [|done].
    by injection Hh as <- _. }
  destruct (buildProtocolHeader _); [|done]. case_decide; [by inv_hs|].
  apply hs_bind_ok in H as (s2 & startFrame & Hs & H). apply hs_lift_ok in Hs as [-> Hs].
  apply hs_bind_ok in H as (s3 & [] & Hw & H). injection Hw as <-.
  apply hs_bind_ok in H as (s4 & content & Hr & H). apply read_method_ok in Hr.
  destruct content; try discriminate H.
  apply hs_bind_ok in H as (s5 & username & Ha & H).
  apply authenticate_ok in Ha as (-> & Hu & Hpw & Hloop).
  apply hs_bind_ok in H as (s6 & negotiated & Ht & H). apply tune_ok in Ht as [Ho6 Hn].
  apply hs_bind_ok in H as (s7 & vhost & Hv & H). apply open_vhost_ok in Hv as [Ho7 Hacc]; [|done].
  inv_hs. cbn. split; [done|]. split; [done|]. split; [done|]. split; [done|].
  exists startFrame. split; [done|]. by rewrite Ho7, Ho6, Hr; cbn; rewrite Ho1.
Qed.

(** C21. A connection is let in only through the whole exchange: when the
    handshake succeeds, whatever bytes the client sent, the broker has sent
    connection.start, connection.tune and connection.open-ok and nothing else;
    the user database accepted a password of the connection's user, who has
    access to its virtual host and was not a loopback-only user on a remote
    address; and the connection's limits are the negotiated ones. *)
Theorem handshake_admits (cfg : HandshakeConfig) (input : list byte) (s : hs_state)
    (info : ConnectionInfo) :
  handshake AuthenticateUser HasVHostAccess isLoopbackAddr cfg (MkHs input []) = (s, Ok info) →
  (∃ password, AuthenticateUser (bytes_of (ci_Username info)) password = Ok true) ∧
  HasVHostAccess (ci_Username info) (ci_VHostName info) = Ok true ∧
  (isLoopbackAddr = true ∨ ci_Username info ∉ LoopbackUsers cfg) ∧
  (∃ tuneOk, Negotiate (ServerTuning cfg) tuneOk = Ok (ci_Negotiated info)) ∧
  ∃ startFrame,
    createConnectionStartFrame (ServerProperties cfg) (Mechanisms cfg) (Locales cfg)
      = Ok startFrame ∧
    hs_out s = [startFrame;
      createConnectionTuneFrame (ChannelMax (ServerTuning cfg)) (FrameMax (ServerTuning cfg))
        (HeartbeatSecs (ServerTuning cfg));
      createConnectionOpenOkFrame].
Proof. apply handshake_ok. Qed.
End guarantees.

(** ** A well-behaved client gets in *)

Definition client_frame (c : method_content) : list byte :=
  formatHeader TYPE_METHOD 0 (Z.of_nat (length (method_payload c))) ++ method_payload c
    ++ [FRAME_END].

Definition fits (frameMax : Z) (c : method_content) : Prop :=
  Z.of_nat (length (method_payload c)) + FRAME_OVERHEAD <= frameMax.

Lemma read_method_client frameMax c rest out :
  wf_method c → fits frameMax c → frameMax < 2 ^ 32 →
  read_method frameMax (MkHs (client_frame c ++ rest) out) = (MkHs rest out, Ok (read_back c)).
Proof.
  unfold fits, FRAME_OVERHEAD. intros Hwf Hfit Hmax.
  unfold read_method, mbind, hs_mbind, readHandshakeFrame, client_frame. cbn [hs_in hs_out].
  rewrite <-!app_assoc.
  rewrite readFrame_format by (unfold u32, FRAME_OVERHEAD; lia).
  unfold hs_lift. rewrite parseFrame_format by (done || lia).
  rewrite decide_True by done. by rewrite parseMethodFrame_enc.
Qed.

Lemma buildProtocolHeader_length protocol header :
  buildProtocolHeader protocol = Ok header → length header = 8%nat.
Proof.
  unfold buildProtocolHeader. intros H.
  repeat (case_match; try discriminate H). by injection H as <-.
Qed.

Section completes.
Variable AuthenticateUser : list byte → list byte → res string bool.
Variable HasVHostAccess : string → string → res string bool.
Variable isLoopbackAddr : bool.
Context (cfg : HandshakeConfig) (header startFrame : list byte).
Context (props : table) (response locale user password vhost : string).
Context (tuneOk n : Tuning).

(** What the server needs: a protocol and a connection.start it can encode. *)
Definition server_ready : Prop :=
  buildProtocolHeader (Protocol cfg) = Ok header ∧
  createConnectionStartFrame (ServerProperties cfg) (Mechanisms cfg) (Locales cfg) = Ok startFrame ∧
  FrameMax (ServerTuning cfg) < 2 ^ 32.

Definition start_ok : method_content := ConnectionStartOk props "PLAIN" response locale.
Definition tune_ok_method : method_content :=
  ConnectionTune (ChannelMax tuneOk) (FrameMax tuneOk) (HeartbeatSecs tuneOk).
Definition open_method : method_content := ConnectionOpen vhost.

(** What the client sends fits the protocol's types and the frame limits. *)
Definition client_ready : Prop :=
  wf_method start_ok ∧ wf_tuning tuneOk ∧ wf_method open_method ∧
  fits (FrameMax (ServerTuning cfg)) start_ok ∧
  fits (FrameMax (ServerTuning cfg)) tune_ok_method ∧ fits (FrameMax n) open_method.

(** The user is who they say, may use the virtual host, and the limits agree. *)
Definition admissible : Prop :=
  parsePlainResponse (bytes_of response) = Ok (bytes_of user, bytes_of password) ∧
  AuthenticateUser (bytes_of user) (bytes_of password) = Ok true ∧
  HasVHostAccess user vhost = Ok true ∧
  (isLoopbackAddr = true ∨ user ∉ LoopbackUsers cfg) ∧
  Negotiate (ServerTuning cfg) tuneOk = Ok n.

Lemma Negotiate_frame_max s t m : Negotiate s t = Ok m → FrameMax m <= FrameMax s.
Proof.
  unfold Negotiate. case_decide as H; [done|]. intros [= <-]. cbn in *. lia.
Qed.

(** C36. A client that speaks the protocol, presents a valid user with access to
    the virtual host and accepts limits in range is let in: the handshake runs
    to its end, with the connection information of that client, and leaves what
    follows connection.open on the connection. *)
Theorem handshake_completes (rest : list byte) :
  server_ready → client_ready → admissible →
  handshake AuthenticateUser HasVHostAccess isLoopbackAddr cfg
    (MkHs (header ++ client_frame start_ok ++ client_frame tune_ok_method
             ++ client_frame open_method ++ rest) [])
  = (MkHs rest [startFrame;
       createConnectionTuneFrame (ChannelMax (ServerTuning cfg)) (FrameMax (ServerTuning cfg))
         (HeartbeatSecs (ServerTuning cfg)); createConnectionOpenOkFrame],
     Ok (MkConnInfo vhost user n
       (clientCapability (relay_table props) "consumer_cancel_notify"))).
Proof.
  intros (Hh & Hs & Hfm) (Hwf1 & Hwf2 & Hwf3 & Hf1 & Hf2 & Hf3) (Hp & Ha & Hacc & Hloop & Hn).
  pose proof (Negotiate_frame_max _ _ _ Hn).
  unfold handshake. unfold mbind at 1, hs_mbind at 1, readProtocolHeader. cbn [hs_in hs_out].
  rewrite (ReadFull_app header) by (by rewrite (buildProtocolHeader_length _ _ Hh)).
  rewrite Hh. rewrite decide_False by tauto. rewrite Hs.
  unfold mbind at 1, hs_mbind at 1. cbn [hs_lift map_err].
  unfold mbind at 1, hs_mbind at 1. cbn [sendFrame hs_in hs_out app].
  unfold mbind at 1, hs_mbind at 1. rewrite read_method_client by done. cbn [read_back start_ok].
  unfold authenticate, processStartOkContent. rewrite decide_False by tauto. rewrite Hp.
  unfold mbind at 1, hs_mbind at 1. unfold mbind at 1, hs_mbind at 1. cbn [mbind res_mbind res_bind].
  rewrite Ha. cbn [mbind res_mbind res_bind hs_lift map_err mret res_mret].
  rewrite string_of_bytes_of. rewrite decide_False.
  2: { intros [Hl ->]. destruct Hloop as [|Hloop]; [done|]. apply Hloop.
       unfold loopbackOnly in Hl. by apply bool_decide_eq_true in Hl. }
  cbn [mret hs_mret]. unfold mbind at 1, hs_mbind at 1, tune.
  unfold mbind at 1, hs_mbind at 1. cbn [sendFrame hs_in hs_out app].
  unfold mbind at 1, hs_mbind at 1. rewrite (read_method_client _ tune_ok_method) by (done || lia).
  cbn [read_back tune_ok_method].
  assert (MkTuning (ChannelMax tuneOk) (FrameMax tuneOk) (HeartbeatSecs tuneOk) = tuneOk) as ->
    by (by destruct tuneOk).
  rewrite Hn. cbn [mret hs_mret]. unfold mbind at 1, hs_mbind at 1, open_vhost.
  unfold mbind at 1, hs_mbind at 1. rewrite (read_method_client _ open_method) by (done || lia).
  cbn [read_back open_method]. rewrite decide_True, Hacc.
  2: { intros ->. by apply parsePlainResponse_user in Hp. }
  reflexivity.
Qed.
End completes.

(** ** A concrete connection *)

Definition sample_config : HandshakeConfig :=
  MkConfig "AMQP 0-9-1" [("product", VStr "OtterMQ")] ["PLAIN"] ["en_US"]
    (NewServerTuning 2047 131072 60) ["guest"].
Definition sample_auth (user password : list byte) : res string bool :=
  Ok (bool_decide (user = bytes_of "alice" ∧ password = bytes_of "secret")).
Definition sample_access (user vhost : string) : res string bool :=
  Ok (bool_decide (user = "alice" ∧ vhost = "/")).
Definition sample_capabilities : table :=
  [("capabilities", VTable [("consumer_cancel_notify", VBool true)])].
Definition sample_response : string := string_of (x00 :: bytes_of "alice" ++ x00 :: bytes_of "secret").
Definition sample_start : list byte :=
  match createConnectionStartFrame (ServerProperties sample_config) (Mechanisms sample_config)
          (Locales sample_config) with Ok f => f | Err _ => [] end.
Definition sample_header : list byte := bytes_of "AMQP" ++ [x00; x00; x09; x01].
Definition sample_tune_ok : Tuning := MkTuning 0 8192 0.
Definition sample_input : list byte :=
  sample_header ++ client_frame (start_ok sample_capabilities sample_response "en_US")
    ++ client_frame (tune_ok_method sample_tune_ok) ++ client_frame (open_method "/") ++ [x01].

Lemma sample_capabilities_wf : wf_table sample_capabilities.
Proof.
  split; [by apply (bool_decide_unpack _)|].
  repeat (apply Forall_cons_2 || apply Forall_nil_2 || split || exact I);
    by apply (bool_decide_unpack _).
Qed.

Lemma handshake_completes_witness :
  ∃ out, handshake sample_auth sample_access false sample_config (MkHs sample_input [])
    = (MkHs [x01] out, Ok (MkConnInfo "/" "alice" (MkTuning 2047 8192 0) true)).
Proof.
  eexists. apply (handshake_completes sample_auth sample_access false sample_config sample_header
    sample_start sample_capabilities sample_response "en_US" "alice" "secret" "/"
    sample_tune_ok (MkTuning 2047 8192 0) [x01]).
  - split; [|split]; by vm_compute.
  - split; [split; [split; [apply sample_capabilities_wf|split; by vm_compute]|]|].
    { split; [done|]. by split; vm_compute. }
    split; [done|]. split; [by vm_compute|]. split; [by vm_compute|]. by split; vm_compute.
  - split; [by vm_compute|]. split; [by vm_compute|]. split; [by vm_compute|].
    split; [right; by apply (bool_decide_unpack _)|by vm_compute].
Defined.

Lemma handshake_admits_witness :
  ∃ password, sample_auth (bytes_of "alice") password = Ok true.
Proof.
  destruct (handshake sample_auth sample_access false sample_config (MkHs sample_input []))
    as [s [info|e]] eqn:E; [|by vm_compute in E].
  pose proof (handshake_admits sample_auth sample_access false sample_config sample_input s info E)
    as (Hp & _). vm_compute in E. injection E as _ <-. exact Hp.
Defined.
