(* ===== verification/Users.v ===== *)
(** * The user database: internal/persistdb

    Users, roles and the virtual hosts a user may open, in SQL tables.  A table is
    the list of its rows in the order of their insertion, a statement the function
    it computes; errors of the database file itself are left out.  bcrypt is a
    parameter, and so is whether SQLite enforces foreign keys, which it does only
    when a connection asks for it. *)

From stdpp Require Import base list gmap strings.
From Stdlib Require Import ZArith Lia.
From Stdlib Require Import Strings.Byte.
From S2P Require Import Prelude Bytes Comparators Values Reader Methods Frames Handshake.

Local Open Scope Z_scope.
Local Open Scope string_scope.
Local Open Scope list_scope.

(** ** Rows (models.go) *)

Record User : Type := MkUser { u_ID : Z; u_Username : string; u_Password : string; u_RoleID : Z }.
Record Role : Type := MkRole { r_ID : Z; r_Name : string; r_Description : string }.
Record VHostPermission : Type := MkPermission { vp_Username : string; vp_VHost : string }.
#[export] Instance VHostPermission_eq_dec : EqDecision VHostPermission.
Proof. solve_decision. Defined.

(** [AUTOINCREMENT] never gives an identifier twice. *)
Record db : Type := MkDb {
  users : list User;
  next_user : Z;
  roles : list Role;
  user_vhosts : list VHostPermission;
}.
Definition set_users (us : list User) (next : Z) (d : db) : db := MkDb us next (roles d) (user_vhosts d).
Definition set_roles (rs : list Role) (d : db) : db := MkDb (users d) (next_user d) rs (user_vhosts d).
Definition set_vhosts (ps : list VHostPermission) (d : db) : db := MkDb (users d) (next_user d) (roles d) ps.

Inductive db_err : Type :=
| ErrNoRows
| UniqueConstraint
| ForeignKeyConstraint
| HashFailed
| NotFound (text : string).

(** [createTables] on a new file. *)
Definition InitDB : db := MkDb [] 1 [] [].

(** ** Roles (roles.go) *)

Definition defaultRoles : list (string * string) :=
  [("admin", "Can configure settings, create/delete resources, manage users, etc.");
   ("user", "Can read and write to resources but cannot manage users or settings.");
   ("guest", "Can only read resources")].

(** [INSERT OR IGNORE]: the name is unique. *)
Definition add_role (d : db) (role : string * string) : db :=
  if decide (role.1 ∈ r_Name <$> roles d) then d
  else set_roles (roles d ++ [MkRole (Z.of_nat (S (length (roles d)))) role.1 role.2]) d.
Definition AddDefaultRoles (d : db) : db := foldl add_role d defaultRoles.

Definition GetRoleByID (id : Z) (d : db) : res db_err Role :=
  match list_find (λ r, r_ID r = id) (roles d) with
  | Some (_, r) => Ok r
  | None => Err ErrNoRows
  end.

Section users.
(** [bcrypt.GenerateFromPassword], with the salt it draws, and
    [bcrypt.CompareHashAndPassword]. *)
Variable GenerateFromPassword : nat → string → option string.
Variable CompareHashAndPassword : string → string → bool.
Variable foreign_keys : bool.

(** ** Users (users.go, auth.go) *)

Definition find_user (username : string) (d : db) : option User :=
  snd <$> list_find (λ u, u_Username u = username) (users d).

(** The row is inserted unless a constraint of the table forbids it. *)
Definition insert_user (username hash : string) (roleID : Z) (d : db) : res db_err db :=
  if decide (is_Some (find_user username d)) then Err UniqueConstraint else
  if decide (foreign_keys = true ∧ roleID ∉ r_ID <$> roles d) then Err ForeignKeyConstraint else
  Ok (set_users (users d ++ [MkUser (next_user d) username hash roleID]) (next_user d + 1) d).

Definition hashPassword (salt : nat) (password : string) : res db_err string :=
  match GenerateFromPassword salt password with Some hash => Ok hash | None => Err HashFailed end.

Definition AddUser (salt : nat) (username password : string) (roleID : Z) (d : db) : db * res db_err unit :=
  match hashPassword salt password with
  | Err e => (d, Err e)
  | Ok hash =>
      match insert_user username hash roleID d with
      | Ok d => (d, Ok tt)
      | Err e => (d, Err e)
      end
  end.

(** [INSERT OR IGNORE]: passes over a name that is taken. *)
Definition AddUserWithHash (username hash : string) (roleID : Z) (d : db) : db * res db_err unit :=
  match insert_user username hash roleID d with
  | Ok d => (d, Ok tt)
  | Err UniqueConstraint => (d, Ok tt)
  | Err e => (d, Err e)
  end.

(** The hash is not selected. *)
Definition without_hash (u : User) : User := MkUser (u_ID u) (u_Username u) "" (u_RoleID u).
Definition GetUserByUsername (username : string) (d : db) : res db_err User :=
  match find_user username d with Some u => Ok (without_hash u) | None => Err ErrNoRows end.
Definition GetUsers (d : db) : list User := without_hash <$> users d.
Definition GetUsersWithHashes (d : db) : list User := users d.

(** The grants of a user go with it only where foreign keys are enforced. *)
Definition DeleteUser (username : string) (d : db) : db * res db_err unit :=
  if decide (is_Some (find_user username d)) then
    let d' := set_users (filter (λ u, u_Username u ≠ username) (users d)) (next_user d) d in
    (if foreign_keys then set_vhosts (filter (λ p, vp_Username p ≠ username) (user_vhosts d')) d' else d', Ok tt)
  else (d, Err (NotFound "user not found")).

Definition ChangePassword (salt : nat) (username newPassword : string) (d : db) : db * res db_err unit :=
  match hashPassword salt newPassword with
  | Err e => (d, Err e)
  | Ok hash =>
      if decide (is_Some (find_user username d)) then
        (set_users ((λ u, if decide (u_Username u = username) then MkUser (u_ID u) (u_Username u) hash (u_RoleID u) else u)
           <$> users d) (next_user d) d, Ok tt)
      else (d, Err (NotFound "user not found"))
  end.

Definition AuthenticateUser (username password : string) (d : db) : res db_err bool :=
  match find_user username d with
  | None => Ok false
  | Some u => Ok (CompareHashAndPassword (u_Password u) password)
  end.

Record UserListDTO : Type := MkUserListDTO { ul_ID : Z; ul_Username : string; ul_HasPassword : bool; ul_Role : string }.
Definition ToUserListDTO (u : User) (d : db) : res db_err UserListDTO :=
  role ← GetRoleByID (u_RoleID u) d; Ok (MkUserListDTO (u_ID u) (u_Username u) true (r_Name role)).

(** ** Virtual hosts (vhost_access.go) *)

Definition GrantVHostAccess (username vhost : string) (d : db) : db * res db_err unit :=
  let row := MkPermission username vhost in
  if decide (row ∈ user_vhosts d) then (d, Ok tt) else
  if decide (foreign_keys = true ∧ find_user username d = None) then (d, Err ForeignKeyConstraint) else
  (set_vhosts (user_vhosts d ++ [row]) d, Ok tt).

Definition RevokeVHostAccess (username vhost : string) (d : db) : db * res db_err unit :=
  let row := MkPermission username vhost in
  if decide (row ∈ user_vhosts d) then (set_vhosts (filter (λ p, p ≠ row) (user_vhosts d)) d, Ok tt)
  else (d, Err (NotFound "no permission found")).

Definition HasVHostAccess (username vhost : string) (d : db) : res db_err bool :=
  u ← GetUserByUsername username d;
  role ← GetRoleByID (u_RoleID u) d;
  if decide (r_Name role = "admin") then Ok true
  else Ok (bool_decide (MkPermission username vhost ∈ user_vhosts d)).

Definition ListUserVHosts (username : string) (d : db) : list string :=
  SortStableFunc String.compare (vp_VHost <$> filter (λ p, vp_Username p = username) (user_vhosts d)).
Definition ListVHostUsers (vhost : string) (d : db) : list string :=
  SortStableFunc String.compare (vp_Username <$> filter (λ p, vp_VHost p = vhost) (user_vhosts d)).
Definition ListAllPermissions (d : db) : list VHostPermission :=
  SortStableFunc (compareBy [key String.compare vp_VHost; key String.compare vp_Username]) (user_vhosts d).

(** ** The first user (cmd/ottermq/main.go) *)

(** The tables are made and the configured user, an administrator, added unless it
    is there; [Err] is a fatal error, with its message. *)
Definition setupUserDatabase (salt : nat) (username password : string) (d : db) : db * res string User :=
  let d := AddDefaultRoles d in
  let '(d, user) :=
    match GetUserByUsername username d with
    | Err ErrNoRows =>
        match AddUser salt username password 1 d with
        | (d, Err _) => (d, Err "Failed to add user")
        | (d, Ok _) =>
            match GrantVHostAccess username "/" d with
            | (d, Err _) => (d, Err "Failed to grant default vhost access")
            | (d, Ok _) => (d, map_err (λ _, "Failed to get user") (GetUserByUsername username d))
            end
        end
    | user => (d, map_err (λ _, "Failed to get user") user)
    end in
  (d, match user with
      | Ok u => if decide (u_RoleID u = 1) then Ok u else Err "User is not an admin"
      | Err e => Err e
      end).
End users.

(** ** The directory the tables stand for *)

(** Accounts by name, with the hash and the role, and who was granted what. *)
Record directory : Type := MkDirectory {
  accounts : gmap string (string * Z);
  grants : gset (string * string);
}.

Definition account (u : User) : string * (string * Z) := (u_Username u, (u_Password u, u_RoleID u)).
Definition grant (p : VHostPermission) : string * string := (vp_Username p, vp_VHost p).
Definition view (d : db) : directory :=
  MkDirectory (list_to_map (account <$> users d)) (list_to_set (grant <$> user_vhosts d)).

Inductive user_op : Type :=
| OpAddUser (salt : nat) (username password : string) (roleID : Z)
| OpAddUserWithHash (username hash : string) (roleID : Z)
| OpDeleteUser (username : string)
| OpChangePassword (salt : nat) (username newPassword : string)
| OpGrant (username vhost : string)
| OpRevoke (username vhost : string).

Section directory.
Variable GenerateFromPassword : nat → string → option string.
Variable CompareHashAndPassword : string → string → bool.
Variable foreign_keys : bool.

Definition apply_op (op : user_op) : db → db * res db_err unit :=
  match op with
  | OpAddUser salt u p role => AddUser GenerateFromPassword foreign_keys salt u p role
  | OpAddUserWithHash u hash role => AddUserWithHash foreign_keys u hash role
  | OpDeleteUser u => DeleteUser foreign_keys u
  | OpChangePassword salt u p => ChangePassword GenerateFromPassword salt u p
  | OpGrant u v => GrantVHostAccess foreign_keys u v
  | OpRevoke u v => RevokeVHostAccess u v
  end.

(** What the operations mean; [None] is a refusal, which changes nothing. *)
Definition set_accounts (a : gmap string (string * Z)) (dir : directory) : directory := MkDirectory a (grants dir).
Definition set_grants (g : gset (string * string)) (dir : directory) : directory := MkDirectory (accounts dir) g.
Definition role_allowed (role : Z) : Prop := foreign_keys = true → 1 <= role <= 3.
#[local] Instance role_allowed_dec role : Decision (role_allowed role).
Proof. unfold role_allowed. apply _. Defined.

Definition spec_op (op : user_op) (dir : directory) : option directory :=
  match op with
  | OpAddUser salt u p role =>
      hash ← GenerateFromPassword salt p;
      if decide (accounts dir !! u = None ∧ role_allowed role)
      then Some (set_accounts (<[u := (hash, role)]> (accounts dir)) dir) else None
  | OpAddUserWithHash u hash role =>
      if decide (is_Some (accounts dir !! u)) then Some dir else
      if decide (role_allowed role) then Some (set_accounts (<[u := (hash, role)]> (accounts dir)) dir) else None
  | OpDeleteUser u =>
      if decide (is_Some (accounts dir !! u)) then
        Some (MkDirectory (delete u (accounts dir))
          (if foreign_keys then filter (λ g, g.1 ≠ u) (grants dir) else grants dir))
      else None
  | OpChangePassword salt u p =>
      hash ← GenerateFromPassword salt p; a ← accounts dir !! u;
      Some (set_accounts (<[u := (hash, a.2)]> (accounts dir)) dir)
  | OpGrant u v =>
      if decide ((u, v) ∈ grants dir) then Some dir else
      if decide (foreign_keys = true ∧ accounts dir !! u = None) then None else
      Some (set_grants ({[(u, v)]} ∪ grants dir) dir)
  | OpRevoke u v =>
      if decide ((u, v) ∈ grants dir) then Some (set_grants (grants dir ∖ {[(u, v)]}) dir) else None
  end.

(** The tables as their constraints keep them. *)
Record wf_db (d : db) : Prop := {
  wf_usernames : NoDup (u_Username <$> users d);
  wf_roles : roles d = roles (AddDefaultRoles InitDB);
}.

Lemma find_user_account u d : wf_db d → (λ x, (u_Password x, u_RoleID x)) <$> find_user u d = accounts (view d) !! u.
Proof.
  intros [Hnd _]. unfold find_user, view. cbn. induction (users d) as [|x us IH]; [done|]. cbn.
  apply NoDup_cons in Hnd as [Hx Hnd]. destruct (decide (u_Username x = u)) as [<-|Hne].
  - by rewrite lookup_insert_eq.
  - rewrite lookup_insert_ne by done. rewrite <- IH by done. by destruct (list_find _ us) as [[i y]|].
Qed.
Lemma find_user_some u d : wf_db d → is_Some (find_user u d) ↔ is_Some (accounts (view d) !! u).
Proof. intros Hd. rewrite <- find_user_account by done. by rewrite fmap_is_Some. Qed.
Lemma find_user_none u d : wf_db d → find_user u d = None ↔ accounts (view d) !! u = None.
Proof. intros Hd. rewrite <- find_user_account by done. by rewrite fmap_None. Qed.
Lemma granted_list u v ps : MkPermission u v ∈ ps ↔ (u, v) ∈ (list_to_set (grant <$> ps) : gset (string * string)).
Proof.
  rewrite elem_of_list_to_set, list_elem_of_fmap. split.
  - intros Hin. by exists (MkPermission u v).
  - intros ([u' v'] & [= -> ->] & Hin). done.
Qed.
Lemma granted u v d : MkPermission u v ∈ user_vhosts d ↔ (u, v) ∈ grants (view d).
Proof. apply granted_list. Qed.

Lemma role_exists role d : wf_db d → role ∈ r_ID <$> roles d ↔ 1 <= role <= 3.
Proof.
  intros [_ ->]. assert (r_ID <$> roles (AddDefaultRoles InitDB) = [1; 2; 3]) as -> by by vm_compute.
  rewrite !elem_of_cons, elem_of_nil. lia.
Qed.

Lemma insert_user_spec u hash role d : wf_db d →
  match insert_user foreign_keys u hash role d with
  | Ok d' => wf_db d' ∧ accounts (view d) !! u = None ∧ role_allowed role ∧
      view d' = set_accounts (<[u := (hash, role)]> (accounts (view d))) (view d)
  | Err UniqueConstraint => is_Some (accounts (view d) !! u)
  | Err _ => accounts (view d) !! u = None ∧ ¬ role_allowed role
  end.
Proof.
  intros Hd. unfold insert_user. case_decide as Hu; [by apply find_user_some|].
  assert (Hn : accounts (view d) !! u = None).
  { destruct (accounts (view d) !! u) eqn:E; [|done]. destruct Hu. apply find_user_some; [done|]. by rewrite E. }
  case_decide as Hr.
  - split; [done|]. intros Ha. destruct Hr as [Hfk Hr]. apply Hr, role_exists, Ha; done.
  - assert (Hfresh : u ∉ u_Username <$> users d).
    { intros (x & -> & Hx)%list_elem_of_fmap. apply Hu. unfold find_user.
      destruct (list_find_elem_of (λ y, u_Username y = u_Username x) _ x Hx eq_refl) as [[i y] ->]. by eexists. }
    destruct Hd as [Hnd Hroles]. split_and!; [split; cbn; [|done]|done| |].
    + rewrite fmap_app. apply NoDup_app. split_and!; [done| |by apply NoDup_singleton].
      intros x Hx. by intros ->%list_elem_of_singleton.
    + intros Hfk. destruct (decide (role ∈ r_ID <$> roles d)) as [Hin|Hin]; [|by destruct Hr].
      by apply role_exists in Hin.
    + unfold view, set_accounts. cbn. f_equal. rewrite fmap_app. cbn.
      change (account (MkUser (next_user d) u hash role)) with (u, (hash, role)).
      rewrite list_to_map_snoc; [done|]. rewrite <- list_fmap_compose. exact Hfresh.
Qed.

Lemma delete_accounts us u : NoDup (u_Username <$> us) →
  list_to_map (account <$> filter (λ x, u_Username x ≠ u) us) = delete u (list_to_map (account <$> us) : gmap string (string * Z)).
Proof.
  induction us as [|x us IH]; [cbn; by rewrite delete_empty|]. rewrite fmap_cons. intros [Hx Hnd]%NoDup_cons.
  rewrite filter_cons. case_decide as Hu; cbn.
  - rewrite IH by done. by rewrite delete_insert_ne.
  - subst u. rewrite IH by done. by rewrite delete_insert_eq.
Qed.
Lemma update_accounts us u hash a : NoDup (u_Username <$> us) →
  (list_to_map (account <$> us) : gmap string (string * Z)) !! u = Some a →
  list_to_map (account <$> ((λ x, if decide (u_Username x = u) then MkUser (u_ID x) (u_Username x) hash (u_RoleID x) else x) <$> us)) =
  <[u := (hash, a.2)]> (list_to_map (account <$> us) : gmap string (string * Z)).
Proof.
  intros Hnd Ha. rewrite <- list_fmap_compose. revert Hnd Ha.
  induction us as [|x us IH]; cbn; [done|]. intros [Hx Hnd]%NoDup_cons.
  destruct (decide (u_Username x = u)) as [<-|Hne]; cbn.
  - rewrite lookup_insert_eq. intros [= <-]. cbn. rewrite insert_insert_eq. f_equal.
    f_equal. apply list_fmap_ext. intros i y Hy. cbn. rewrite decide_False; [done|]. intros E.
    apply Hx. rewrite <- E. apply list_elem_of_fmap. exists y. split; [done|]. by eapply list_elem_of_lookup_2.
  - rewrite lookup_insert_ne by done. intros Ha. rewrite IH by done. by rewrite insert_insert_ne.
Qed.

Lemma NoDup_fmap_filter us u : NoDup (u_Username <$> us) → NoDup (u_Username <$> filter (λ x, u_Username x ≠ u) us).
Proof.
  induction us as [|x us IH]; [done|]. rewrite fmap_cons. intros [Hx Hnd]%NoDup_cons. rewrite filter_cons.
  case_decide; [|by apply IH]. rewrite fmap_cons. apply NoDup_cons. split; [|by apply IH].
  intros (y & Hy & [_ Hin]%list_elem_of_filter)%list_elem_of_fmap. apply Hx. rewrite Hy. by apply list_elem_of_fmap_2.
Qed.
Lemma wf_set_users us next d : wf_db d → NoDup (u_Username <$> us) → wf_db (set_users us next d).
Proof. intros [_ Hr] Hnd. by split. Qed.
Lemma wf_set_vhosts ps d : wf_db d → wf_db (set_vhosts ps d).
Proof. intros [Hnd Hr]. by split. Qed.
Lemma view_set_vhosts ps d : view (set_vhosts ps d) = set_grants (list_to_set (grant <$> ps)) (view d).
Proof. done. Qed.

Lemma apply_op_spec op d : wf_db d →
  wf_db (apply_op op d).1 ∧
  match spec_op op (view d) with
  | Some dir => (apply_op op d).2 = Ok tt ∧ view (apply_op op d).1 = dir
  | None => is_ok (apply_op op d).2 = false ∧ (apply_op op d).1 = d
  end.
Proof.
  intros Hd. destruct op as [salt u p role|u hash role|u|salt u p|u v|u v]; cbn [apply_op spec_op].
  - unfold AddUser, hashPassword. destruct (GenerateFromPassword salt p) as [hash|]; [|done]. cbn [mbind option_bind].
    pose proof (insert_user_spec u hash role d Hd) as Hi. destruct (insert_user _ _ _ _ _) as [d'|e]; cbn [fst snd].
    + destruct Hi as (Hw & Hn & Ha & Hv). by rewrite decide_True.
    + rewrite decide_False; [done|]. intros [Hn Ha]. destruct e; try (by destruct Hi).
      rewrite Hn in Hi. by destruct Hi.
  - unfold AddUserWithHash. pose proof (insert_user_spec u hash role d Hd) as Hi.
    destruct (insert_user _ _ _ _ _) as [d'|e].
    + destruct Hi as (Hw & Hn & Ha & Hv). rewrite decide_False, decide_True; [done|done|]. rewrite Hn. by intros [? ?].
    + destruct e; cbn [fst snd].
      2: by rewrite decide_True.
      all: destruct Hi as [Hn Ha]; rewrite decide_False, decide_False; [done|done|]; rewrite Hn; by intros [? ?].
  - unfold DeleteUser. destruct (decide (is_Some (find_user u d))) as [Hu|Hu].
    + rewrite decide_True by by apply find_user_some. pose proof (wf_usernames _ Hd) as Hnd.
      assert (Hdel := delete_accounts (users d) u Hnd).
      assert (Hw : wf_db (set_users (filter (λ x, u_Username x ≠ u) (users d)) (next_user d) d)).
      { apply wf_set_users; [done|]. by apply NoDup_fmap_filter. }
      destruct foreign_keys; (split; [by try apply wf_set_vhosts|]); (split; [done|]); cbn [fst]; unfold view; cbn.
      * rewrite Hdel. f_equal. apply set_eq. intros [u' v'].
        rewrite elem_of_filter, <- !granted_list. cbn. rewrite list_elem_of_filter. cbn. done.
      * by rewrite Hdel.
    + rewrite decide_False; [done|]. by rewrite <- find_user_some.
  - unfold ChangePassword, hashPassword. destruct (GenerateFromPassword salt p) as [hash|]; [|done]. cbn [mbind option_bind].
    destruct (decide (is_Some (find_user u d))) as [Hu|Hu].
    + pose proof Hu as Ha. apply find_user_some in Ha as [a Ha]; [|done]. rewrite Ha. split.
      * apply wf_set_users; [done|]. rewrite <- list_fmap_compose. erewrite list_fmap_ext; [apply (wf_usernames _ Hd)|].
        intros i x _. cbn. by case_decide.
      * split; [done|]. unfold view, set_accounts. cbn. f_equal. apply update_accounts; [apply (wf_usernames _ Hd)|done].
    + destruct (accounts (view d) !! u) as [a|] eqn:Ha; [|done]. destruct Hu. apply find_user_some; [done|]. by rewrite Ha.
  - unfold GrantVHostAccess. destruct (decide (MkPermission u v ∈ user_vhosts d)) as [Hg|Hg].
    + rewrite decide_True by by apply granted. done.
    + rewrite (decide_False (P := (u, v) ∈ grants (view d))) by by rewrite <- granted.
      destruct (decide (foreign_keys = true ∧ find_user u d = None)) as [Hf|Hf].
      * rewrite decide_True; [done|]. by rewrite <- find_user_none.
      * rewrite decide_False by by rewrite <- find_user_none. split; [by apply wf_set_vhosts|]. split; [done|].
        cbn [fst]. rewrite view_set_vhosts. unfold set_grants. f_equal. rewrite fmap_app, list_to_set_app_L. cbn.
        rewrite union_empty_r_L. by rewrite union_comm_L.
  - unfold RevokeVHostAccess. destruct (decide (MkPermission u v ∈ user_vhosts d)) as [Hg|Hg].
    + rewrite decide_True by by apply granted. split; [by apply wf_set_vhosts|]. split; [done|].
      cbn [fst]. rewrite view_set_vhosts. unfold set_grants. f_equal. apply set_eq. intros [u' v'].
      rewrite elem_of_difference, elem_of_singleton, <- !granted_list, list_elem_of_filter. split.
      * intros [Hne Hin]. split; [by apply granted|]. by intros [= -> ->].
      * intros [Hin Hne]. split; [|by apply granted]. by intros [= -> ->].
    + rewrite (decide_False (P := (u, v) ∈ grants (view d))) by by rewrite <- granted. done.
Qed.

(** The databases the broker can have: the default roles, then any operations. *)
Inductive reachable_db : db → Prop :=
| db_start : reachable_db (AddDefaultRoles InitDB)
| db_step op d : reachable_db d → reachable_db (apply_op op d).1.

Lemma reachable_wf d : reachable_db d → wf_db d.
Proof. induction 1 as [|op d _ IH]; [split; [by constructor|done]|]. by apply apply_op_spec. Qed.

Lemma default_role id : GetRoleByID id (AddDefaultRoles InitDB) =
  if decide (id = 1) then Ok (MkRole 1 "admin" (default ("", "") (defaultRoles !! 0%nat)).2)
  else if decide (id = 2) then Ok (MkRole 2 "user" (default ("", "") (defaultRoles !! 1%nat)).2)
  else if decide (id = 3) then Ok (MkRole 3 "guest" (default ("", "") (defaultRoles !! 2%nat)).2)
  else Err ErrNoRows.
Proof.
  unfold GetRoleByID. assert (roles (AddDefaultRoles InitDB) =
    (λ i, MkRole (Z.of_nat (S i)) (default ("", "") (defaultRoles !! i)).1 (default ("", "") (defaultRoles !! i)).2) <$> [0; 1; 2]%nat)
    as -> by by vm_compute.
  cbn. repeat case_decide; cbn; try done; subst; try lia; done.
Qed.

(** C?. The user database keeps a directory.  From a fresh database on, every
    sequence of adding, importing and deleting users, changing passwords and
    granting and revoking virtual hosts has, on the tables, the effect of the same
    sequence on a map from names to a hash and a role and a set of grants, each
    operation failing exactly when the directory refuses it and then changing
    nothing; a password is accepted exactly when it matches the hash of the
    account, and a virtual host is open to a user exactly when the account exists
    and is an administrator's or was granted it. *)
Theorem users_implement_directory op d :
  reachable_db d →
  match spec_op op (view d) with
  | Some dir => (apply_op op d).2 = Ok tt ∧ view (apply_op op d).1 = dir
  | None => is_ok (apply_op op d).2 = false ∧ (apply_op op d).1 = d
  end ∧
  (∀ u p, AuthenticateUser CompareHashAndPassword u p d = Ok true ↔
     ∃ hash role, accounts (view d) !! u = Some (hash, role) ∧ CompareHashAndPassword hash p = true) ∧
  (∀ u v, HasVHostAccess u v d = Ok true ↔
     ∃ hash role, accounts (view d) !! u = Some (hash, role) ∧
       (role = 1 ∨ (role = 2 ∨ role = 3) ∧ (u, v) ∈ grants (view d))).
Proof.
  intros Hr. pose proof (reachable_wf d Hr) as Hd. split; [apply (apply_op_spec op d Hd)|].
  split; intros u ?; pose proof (find_user_account u d Hd) as Ha;
    unfold AuthenticateUser, HasVHostAccess, GetUserByUsername; destruct (find_user u d) as [x|];
    rewrite <- Ha; cbn [fmap option_fmap option_map mbind res_mbind res_bind u_RoleID without_hash]; clear Ha.
  - split; [intros [= Hp]; by exists (u_Password x), (u_RoleID x)|]. by intros (hash & role & [= -> _] & ->).
  - split; [done|]. by intros (hash & role & [=] & _).
  - assert (GetRoleByID (u_RoleID x) d = GetRoleByID (u_RoleID x) (AddDefaultRoles InitDB)) as ->.
    { unfold GetRoleByID. by rewrite (wf_roles _ Hd). }
    rewrite default_role. split.
    + intros Hx. exists (u_Password x), (u_RoleID x). split; [done|].
      destruct (decide (u_RoleID x = 1)) as [H1|H1]; [by left|right]. cbn in Hx.
      destruct (decide (u_RoleID x = 2)) as [H2|H2]; [|destruct (decide (u_RoleID x = 3)) as [H3|H3]; [|done]];
        cbn in Hx; (split; [auto|]); apply (inj Ok), bool_decide_eq_true in Hx; by apply granted.
    + intros (hash & role & [= _ <-] & [Hrole|[Hrole Hg]]).
      * by rewrite decide_True.
      * rewrite decide_False by (destruct Hrole; lia). apply granted in Hg.
        destruct Hrole as [->|Hrole]; [rewrite decide_True by done|rewrite decide_False, decide_True by lia];
          cbn; by rewrite bool_decide_true.
  - split; [done|]. by intros (hash & role & [=] & _).
Qed.
End directory.

(** ** Who connects *)

(** The handshake on the database: an error of it is the answer the handshake
    gets, never a user. *)
Definition no_rows {A} (r : res db_err A) : res string A := map_err (λ _, "database error") r.
Lemma no_rows_ok {A} (r : res db_err A) a : no_rows r = Ok a → r = Ok a.
Proof. by destruct r; [intros [= ->]|]. Qed.

Section connects.
Variable CompareHashAndPassword : string → string → bool.
Variable isLoopbackAddr : bool.
Variable d : db.

Definition authenticate_db (user password : list byte) : res string bool :=
  no_rows (AuthenticateUser CompareHashAndPassword (string_of user) (string_of password) d).
Definition access_db (user vhost : string) : res string bool := no_rows (HasVHostAccess user vhost d).

(** Whatever bytes a client sends, the user of a connection that is let in has an
    account, a password of it was given, and it may open the virtual host. *)
Lemma only_accounts_connect cfg input s info :
  wf_db d → handshake authenticate_db access_db isLoopbackAddr cfg (MkHs input []) = (s, Ok info) →
  ∃ hash role password, accounts (view d) !! ci_Username info = Some (hash, role) ∧
    CompareHashAndPassword hash password = true ∧ HasVHostAccess (ci_Username info) (ci_VHostName info) d = Ok true.
Proof.
  intros Hd Hh. destruct (handshake_ok authenticate_db access_db isLoopbackAddr cfg input s info Hh)
    as ((password & Hp) & Ha & _).
  apply no_rows_ok in Ha. apply no_rows_ok in Hp. rewrite string_of_bytes_of in Hp.
  pose proof (find_user_account (ci_Username info) d Hd) as Hacc. unfold AuthenticateUser, GetUserByUsername in Hp.
  destruct (find_user (ci_Username info) d) as [x|]; [|done]. cbn in Hp. apply (inj Ok) in Hp.
  exists (u_Password x), (u_RoleID x), (string_of password). by rewrite <- Hacc.
Qed.
End connects.

(** ** A sample *)

Section users_sample.
Definition sample_hash (salt : nat) (password : string) : option string := Some ("h" +:+ password).
Definition sample_compare (hash password : string) : bool := bool_decide (hash = "h" +:+ password).
Notation apply_sample := (apply_op sample_hash false).

(** An account, a grant, the account deleted and made again. *)
Definition sample_db : db :=
  foldl (λ d op, (apply_sample op d).1) (AddDefaultRoles InitDB) [OpAddUser 0 "alice" "secret" 2; OpGrant "alice" "/"].
Definition readded_db : db :=
  foldl (λ d op, (apply_sample op d).1) sample_db [OpDeleteUser "alice"; OpAddUser 1 "alice" "other" 2].

Lemma reachable_ops ops d : reachable_db sample_hash false d →
  reachable_db sample_hash false (foldl (λ d op, (apply_sample op d).1) d ops).
Proof. revert d. induction ops as [|op ops IH]; intros d Hd; [done|]. by apply IH, db_step. Qed.

Lemma users_implement_directory_witness :
  AuthenticateUser sample_compare "alice" "secret" sample_db = Ok true ∧
  HasVHostAccess "alice" "/" sample_db = Ok true ∧ HasVHostAccess "alice" "shop" sample_db = Ok false ∧
  (∃ hash role, accounts (view sample_db) !! "alice" = Some (hash, role) ∧ sample_compare hash "secret" = true).
Proof.
  split_and!; [by vm_compute..|].
  apply (users_implement_directory sample_hash sample_compare false (OpDeleteUser "alice") sample_db);
    [apply reachable_ops, db_start|by vm_compute].
Defined.

(** The grants of a deleted user are those of the next user of that name, because
    the connection to SQLite never turns foreign keys on. *)
Lemma deleted_user_keeps_grants : HasVHostAccess "alice" "/" readded_db = Ok true.
Proof. by vm_compute. Qed.
End users_sample.
