(* ===== verification/Client.v ===== *)
(** * A connection's life: client.go, and the goroutines of broker.go and connection.go

    The goroutines that look after one client, from the end of the tuning to the
    clean-up of the connection: the two heartbeat loops, the reader, the handshake
    in [serveConn] and the lifecycle monitor.  Time is in nanoseconds and passes
    only as far as the goroutines that are ready to run allow: none of them waits
    for the scheduler longer than [lag].  What the client sends, and whether
    writes succeed, is up to the events of a run. *)

From stdpp Require Import base list strings.
From Stdlib Require Import ZArith Lia.
From S2P Require Import Prelude Handshake.

Local Open Scope Z_scope.
Local Open Scope list_scope.

(** ** Tickers

    The channel of a [time.Ticker] has room for one tick; the others are
    dropped.  [tk_waiting] is when the waiting one was sent. *)
Record Ticker : Type := MkTicker {
  tk_period : Z;
  tk_next : Z;
  tk_waiting : option Z;
}.
Definition NewTicker (now d : Z) : Ticker := MkTicker d (now + d) None.
(** What the runtime did by [now]. *)
Definition fire (now : Z) (tk : Ticker) : Ticker :=
  if decide (tk_next tk <= now)
  then MkTicker (tk_period tk) (tk_next tk + tk_period tk * ((now - tk_next tk) / tk_period tk + 1))
         (Some (default (tk_next tk) (tk_waiting tk)))
  else tk.
(** [<-ticker.C], when a tick waits. *)
Definition receive (tk : Ticker) : option Ticker :=
  match tk_waiting tk with
  | Some _ => Some (MkTicker (tk_period tk) (tk_next tk) None)
  | None => None
  end.
(** When the goroutine that waits for it can next run. *)
Definition due (tk : Ticker) : Z := default (tk_next tk) (tk_waiting tk).

(** ** State *)

Inductive stage : Type := Shaking | Serving | Left.
#[export] Instance stage_eq_dec : EqDecision stage.
Proof. solve_decision. Defined.

(** [cl_done] is when the context was cancelled; [cl_closed] whether [closeOnce]
    ran; [cl_sender] and [cl_monitor] the tickers of the heartbeat loops that
    still run; [cl_lifecycle] whether [monitorConnectionLifecycle] waits;
    [cl_registered] whether the broker has the connection, [cl_cleanups] how often
    it cleaned up after it, [cl_sent] when heartbeats were written, the last first. *)
Record AmqpClient : Type := MkClient {
  cl_Heartbeat : Z;
  cl_now : Z;
  cl_lastHeartbeat : Z;
  cl_done : option Z;
  cl_closed : bool;
  cl_recoveredPanic : bool;
  cl_sender : option Ticker;
  cl_monitor : option Ticker;
  cl_stage : stage;
  cl_lifecycle : bool;
  cl_registered : bool;
  cl_cleanups : nat;
  cl_sent : list Z;
}.
Definition set_times (now last : Z) (c : AmqpClient) : AmqpClient :=
  MkClient (cl_Heartbeat c) now last (cl_done c) (cl_closed c) (cl_recoveredPanic c) (cl_sender c)
    (cl_monitor c) (cl_stage c) (cl_lifecycle c) (cl_registered c) (cl_cleanups c) (cl_sent c).
Definition set_closing (done : option Z) (closed panicked : bool) (c : AmqpClient) : AmqpClient :=
  MkClient (cl_Heartbeat c) (cl_now c) (cl_lastHeartbeat c) done closed panicked (cl_sender c)
    (cl_monitor c) (cl_stage c) (cl_lifecycle c) (cl_registered c) (cl_cleanups c) (cl_sent c).
Definition set_loops (sender monitor : option Ticker) (c : AmqpClient) : AmqpClient :=
  MkClient (cl_Heartbeat c) (cl_now c) (cl_lastHeartbeat c) (cl_done c) (cl_closed c) (cl_recoveredPanic c)
    sender monitor (cl_stage c) (cl_lifecycle c) (cl_registered c) (cl_cleanups c) (cl_sent c).
Definition set_serving (s : stage) (lifecycle registered : bool) (cleanups : nat) (c : AmqpClient) : AmqpClient :=
  MkClient (cl_Heartbeat c) (cl_now c) (cl_lastHeartbeat c) (cl_done c) (cl_closed c) (cl_recoveredPanic c)
    (cl_sender c) (cl_monitor c) s lifecycle registered cleanups (cl_sent c).
Definition set_sent (sent : list Z) (c : AmqpClient) : AmqpClient :=
  MkClient (cl_Heartbeat c) (cl_now c) (cl_lastHeartbeat c) (cl_done c) (cl_closed c) (cl_recoveredPanic c)
    (cl_sender c) (cl_monitor c) (cl_stage c) (cl_lifecycle c) (cl_registered c) (cl_cleanups c) sent.

(** ** client.go *)

Definition TouchHeartbeat (c : AmqpClient) : AmqpClient := set_times (cl_now c) (cl_now c) c.

Definition NewAmqpClient (now heartbeat : Z) : AmqpClient := TouchHeartbeat
  (MkClient heartbeat now 0 None false false None None Shaking false false 0 []).

Definition StartHeartbeat (c : AmqpClient) : AmqpClient :=
  if decide (cl_Heartbeat c = 0) then c else
  set_loops (Some (NewTicker (cl_now c) (heartbeatSendInterval (cl_Heartbeat c))))
    (Some (NewTicker (cl_now c) Second)) c.

Definition Cancel (c : AmqpClient) : AmqpClient :=
  set_closing (Some (default (cl_now c) (cl_done c))) (cl_closed c) (cl_recoveredPanic c) c.
Definition CloseConn (c : AmqpClient) : AmqpClient :=
  if cl_closed c then c else
  set_closing (cl_done (Cancel c)) true (cl_recoveredPanic c) c.

(** Deferred by both heartbeat loops; the loop itself is over. *)
Definition recoverHeartbeatPanic (c : AmqpClient) : AmqpClient :=
  CloseConn (set_closing (cl_done c) (cl_closed c) true c).

Definition maxInterval (c : AmqpClient) : Z := 2 * cl_Heartbeat c * Second.

(** One [select] of [monitorHeartbeatTimeout] that took the tick, [tk] being the
    ticker after it. *)
Definition monitorHeartbeatTimeout (tk : Ticker) (c : AmqpClient) : AmqpClient :=
  if decide (maxInterval c < cl_now c - cl_lastHeartbeat c)
  then CloseConn (set_loops (cl_sender c) None c)
  else set_loops (cl_sender c) (Some tk) c.

(** One of [sendHeartbeats]; [ok] is whether the write succeeded. *)
Definition sendHeartbeats (tk : Ticker) (ok : bool) (c : AmqpClient) : AmqpClient :=
  if ok then set_sent (cl_now c :: cl_sent c) (set_loops (Some tk) (cl_monitor c) c)
  else set_loops None (cl_monitor c) c.

(** ** connection.go and broker.go *)

Definition cleanupConnection (c : AmqpClient) : AmqpClient :=
  if cl_registered c
  then CloseConn (set_serving (cl_stage c) (cl_lifecycle c) false (S (cl_cleanups c)) c) else c.

(** The reader's deferred clean-up. *)
Definition leave (c : AmqpClient) : AmqpClient :=
  cleanupConnection (set_serving Left (cl_lifecycle c) (cl_registered c) (cl_cleanups c) c).

Definition registerHeartbeat (c : AmqpClient) : option AmqpClient :=
  match cl_done c with Some _ => None | None => Some (TouchHeartbeat c) end.

(** A frame was read, before it is served. *)
Definition read_frame (c : AmqpClient) : AmqpClient :=
  match registerHeartbeat c with Some c => c | None => leave (CloseConn c) end.

(** [serveConn] after the handshake; [admitted] is the answer of
    [registerConnection]. *)
Definition serveConn (admitted : bool) (c : AmqpClient) : AmqpClient :=
  if admitted then set_serving Serving true true (cl_cleanups c) c
  else Cancel (set_serving Left (cl_lifecycle c) (cl_registered c) (cl_cleanups c) c).
(** ... and after a handshake that failed: the parent of the client's context is
    cancelled, and the socket closed without [CloseConn]. *)
Definition handshake_failed (c : AmqpClient) : AmqpClient :=
  Cancel (set_serving Left (cl_lifecycle c) (cl_registered c) (cl_cleanups c) c).

Definition monitorConnectionLifecycle (c : AmqpClient) : AmqpClient :=
  cleanupConnection (set_serving (cl_stage c) false (cl_registered c) (cl_cleanups c) c).

(** ** Runs *)

Inductive event : Type :=
| HandshakeEnds (ok admitted : bool)
| FrameRead
| ReaderEnds (closes : bool)
| CloseRequested
| SenderTick (ok : bool)
| MonitorTick
| LoopPanics (monitor : bool)
| SenderStops
| MonitorStops
| LifecycleRuns
| Elapses (d : Z).

Section runs.
(** How long a goroutine that is ready may wait before it runs. *)
Variable lag : Z.

Definition ready_by (o : option Z) (now : Z) : bool :=
  match o with Some t => bool_decide (now <= t + lag) | None => true end.
Definition may_pass (now : Z) (c : AmqpClient) : bool :=
  ready_by (due <$> cl_sender c) now && ready_by (due <$> cl_monitor c) now &&
  (if cl_lifecycle c then ready_by (cl_done c) now else true).

Definition elapse (d : Z) (c : AmqpClient) : AmqpClient :=
  let now := cl_now c + d in
  set_times now (cl_lastHeartbeat c)
    (set_loops (fire now <$> cl_sender c) (fire now <$> cl_monitor c) c).

Definition perform (ev : event) (c : AmqpClient) : option AmqpClient :=
  match ev with
  | HandshakeEnds ok admitted =>
      if decide (cl_stage c = Shaking)
      then Some (if ok then serveConn admitted c else handshake_failed c) else None
  | FrameRead => if decide (cl_stage c = Serving) then Some (read_frame c) else None
  | ReaderEnds closes =>
      if decide (cl_stage c = Serving)
      then Some (leave (if closes : bool then CloseConn c else Cancel c)) else None
  | CloseRequested => if cl_registered c then Some (CloseConn c) else None
  | SenderTick ok => tk ← cl_sender c; tk ← receive tk; Some (sendHeartbeats tk ok c)
  | MonitorTick => tk ← cl_monitor c; tk ← receive tk; Some (monitorHeartbeatTimeout tk c)
  | LoopPanics monitor =>
      match (if monitor : bool then cl_monitor c else cl_sender c) with
      | Some _ => Some (recoverHeartbeatPanic
          (if monitor then set_loops (cl_sender c) None c else set_loops None (cl_monitor c) c))
      | None => None
      end
  | SenderStops => _ ← cl_done c; _ ← cl_sender c; Some (set_loops None (cl_monitor c) c)
  | MonitorStops => _ ← cl_done c; _ ← cl_monitor c; Some (set_loops (cl_sender c) None c)
  | LifecycleRuns =>
      _ ← cl_done c; if cl_lifecycle c then Some (monitorConnectionLifecycle c) else None
  | Elapses d =>
      if decide (0 <= d) then if may_pass (cl_now c + d) c then Some (elapse d c) else None else None
  end.

Fixpoint run (evs : list event) (c : AmqpClient) : option AmqpClient :=
  match evs with [] => Some c | ev :: evs => c ← perform ev c; run evs c end.

Definition tuned (now heartbeat : Z) : AmqpClient := StartHeartbeat (NewAmqpClient now heartbeat).

(** The events by which something else than silence ends a connection. *)
Definition ends_connection (ev : event) : bool :=
  match ev with
  | HandshakeEnds ok admitted => negb (ok && admitted)
  | ReaderEnds _ | CloseRequested | LoopPanics _ => true
  | _ => false
  end.

(** ** Lemmas on runs *)

Lemma run_app evs1 evs2 c : run (evs1 ++ evs2) c = (c' ← run evs1 c; run evs2 c').
Proof.
  revert c. induction evs1 as [|ev evs1 IH]; intros c; [done|]. cbn.
  destruct (perform ev c) as [c'|]; [apply IH|done].
Qed.

Lemma run_keeps (P : AmqpClient → Prop) evs c c' :
  (∀ ev c1 c2, P c1 → perform ev c1 = Some c2 → P c2) → P c → run evs c = Some c' → P c'.
Proof.
  intros Hstep. revert c. induction evs as [|ev evs IH]; intros c Hc Hr; cbn in Hr; [by simplify_eq|].
  destruct (perform ev c) as [c1|] eqn:E; [|done]. cbn in Hr. eauto.
Qed.

(** Every event, with what had to hold for it. *)
Local Ltac events ev c H :=
  destruct ev; cbn in H; unfold handshake_failed, serveConn, read_frame, registerHeartbeat, leave,
    monitorConnectionLifecycle, cleanupConnection, recoverHeartbeatPanic, monitorHeartbeatTimeout,
    sendHeartbeats, elapse, CloseConn, Cancel, TouchHeartbeat in H;
  destruct c as [hb now last dn cld pnk sndr mon stg lfc reg cln sent];
  cbn in H;
  repeat match type of H with
    | _ ≫= _ = Some _ => apply bind_Some in H as (? & ? & H)
    | _ => case_match; cbn in H; try done
    end; simplify_eq; cbn.

Lemma perform_Heartbeat ev c c' : perform ev c = Some c' → cl_Heartbeat c' = cl_Heartbeat c.
Proof.
  intros H. events ev c H; done.
Qed.

(** What the goroutines left running are waiting for. *)
Record ticking (period base : Z) (now : Z) (tk : Ticker) : Prop := {
  tick_period : tk_period tk = period;
  tick_ahead : now < tk_next tk <= now + period;
  tick_sent : ∀ t, tk_waiting tk = Some t → t <= now;
  tick_due : due tk <= base + period;
  tick_run : now <= due tk + lag;
}.

Hypothesis lag_nonneg : 0 <= lag.

Lemma new_ticking now period base : 0 < period → now <= base → ticking period base now (NewTicker now period).
Proof. intros Hp Hb. split; unfold due; cbn; [done|lia|done|lia|lia]. Qed.

Lemma fire_ticking period base now d tk :
  0 < period → 0 <= d → ready_by (Some (due tk)) (now + d) = true →
  ticking period base now tk → ticking period base (now + d) (fire (now + d) tk).
Proof.
  intros Hp Hd Hr%bool_decide_eq_true [Hper [Ha Ha'] Hs Hdue Hrun]. unfold fire, due in *.
  case_decide as Hn; split; cbn; try done; try lia.
  - pose proof (Z.div_mod (now + d - tk_next tk) period ltac:(lia)) as Hdiv.
    pose proof (Z.mod_pos_bound (now + d - tk_next tk) period Hp). rewrite Hper. nia.
  - intros t Ht. simplify_eq. destruct (tk_waiting tk) as [w|] eqn:Hw; cbn; [|lia].
    pose proof (Hs _ eq_refl). lia.
  - intros t Ht. pose proof (Hs _ Ht). lia.
Qed.

Lemma receive_ticking period base base' now tk tk' :
  ticking period base now tk → receive tk = Some tk' → now <= base' → ticking period base' now tk'.
Proof.
  intros [Hper Ha Hs Hdue Hrun] Hr Hb. unfold receive in Hr. case_match; simplify_eq.
  split; unfold due; cbn; [done|done|done|lia|lia].
Qed.

Lemma base_ticking period base base' now tk :
  ticking period base now tk → base <= base' → ticking period base' now tk.
Proof. intros [Hper Ha Hs Hdue Hrun] Hb. split; [done..|lia|done]. Qed.

(** ** Silence *)

Record watched (c : AmqpClient) : Prop := {
  watched_heartbeat : 0 < cl_Heartbeat c;
  watched_last : cl_lastHeartbeat c <= cl_now c;
  watched_monitor : ∀ tk, cl_monitor c = Some tk →
    ticking Second (cl_lastHeartbeat c + maxInterval c) (cl_now c) tk;
  watched_closed : cl_closed c = true → is_Some (cl_done c);
  watched_open : cl_done c = None → is_Some (cl_monitor c);
}.

Lemma tuned_watched now heartbeat : 0 < heartbeat → watched (tuned now heartbeat).
Proof.
  intros Hh. unfold tuned, StartHeartbeat, NewAmqpClient, TouchHeartbeat. cbn. rewrite decide_False by lia.
  split; cbn; [done|lia| |done|by eexists]. intros tk [= <-]. apply new_ticking; unfold maxInterval, Second; cbn; lia.
Qed.

Lemma perform_watched ev c c' : watched c → perform ev c = Some c' → watched c'.
Proof.
  intros [Hh Hl Hm Hc Ho] H. unfold maxInterval in Hm.
  events ev c H; cbn in *; (split; unfold maxInterval; cbn; try done; try lia; eauto).
  - intros tk Htk. eapply base_ticking; [by apply Hm|lia].
  - intros ->. by destruct Hc.
  - intros tk [= <-]. eapply receive_ticking; [by apply Hm|done|unfold maxInterval in *; cbn in *; lia].
  - intros ->. by destruct Hc.
  - intros tk (tk' & -> & ->)%fmap_Some. apply fire_ticking; [by unfold Second|done| |by apply Hm].
    match goal with H : may_pass _ _ = true |- _ => by apply andb_prop in H as [[_ H]%andb_prop _] end.
  - intros Hn. destruct (Ho Hn) as [tk ->]. by eexists.
Qed.

(** The context is cancelled only by the events that say so, or by the monitor,
    after a silence longer than [maxInterval]. *)
Definition silent (c : AmqpClient) : Prop := maxInterval c < cl_now c - cl_lastHeartbeat c.

Lemma perform_done ev c c' : perform ev c = Some c' →
  is_Some (cl_done c') → is_Some (cl_done c) ∨ ends_connection ev = true ∨ silent c.
Proof.
  intros H Hd. unfold silent, maxInterval. events ev c H; cbn in *; eauto.
Qed.

Lemma done_why evs c c' : run evs c = Some c' → cl_done c = None → is_Some (cl_done c') →
  existsb ends_connection evs = true ∨ ∃ evs1 evs2 c1, evs = evs1 ++ evs2 ∧ run evs1 c = Some c1 ∧ silent c1.
Proof.
  revert c. induction evs as [|ev evs IH]; intros c Hr Hn Hs; cbn in Hr; [simplify_eq; by destruct Hs; congruence|].
  destruct (perform ev c) as [c1|] eqn:E; [|done]. cbn in Hr |- *.
  destruct (cl_done c1) as [t|] eqn:Hd.
  - destruct (perform_done ev c c1 E) as [Hc|[He|Hsil]]; [by rewrite Hd|by rewrite Hn in Hc; destruct Hc| |].
    + left. by rewrite He.
    + right. by exists [], (ev :: evs), c.
  - destruct (IH c1 Hr Hd Hs) as [He|(evs1 & evs2 & c2 & -> & Hr1 & Hsil)].
    + left. rewrite He. apply orb_true_r.
    + right. exists (ev :: evs1), evs2, c2. split_and!; [done| |done]. cbn. by rewrite E.
Qed.

(** C?. The heartbeat timeout.  However the goroutines of a connection and the
    client's frames interleave after a heartbeat other than 0 was agreed on: as
    long as the connection is not cancelled, no more time has passed since the
    client's last frame than twice the heartbeat, the monitor's period and the
    scheduler's latency, so a client that stays silent longer is cut off; and
    a connection that was cancelled either had been silent for more than twice
    the heartbeat, or was ended by something else than the monitor. *)
Theorem heartbeat_timeout now heartbeat evs c :
  0 < heartbeat → run evs (tuned now heartbeat) = Some c →
  match cl_done c with
  | None => cl_now c <= cl_lastHeartbeat c + 2 * heartbeat * Second + Second + lag
  | Some _ =>
      existsb ends_connection evs = true ∨
      ∃ evs1 evs2 c1, evs = evs1 ++ evs2 ∧ run evs1 (tuned now heartbeat) = Some c1 ∧
        2 * heartbeat * Second < cl_now c1 - cl_lastHeartbeat c1
  end.
Proof.
  intros Hh Hr.
  assert (Hhb : ∀ evs c, run evs (tuned now heartbeat) = Some c → cl_Heartbeat c = heartbeat).
  { intros evs1 c1. apply run_keeps with (P := λ c, cl_Heartbeat c = heartbeat).
    - intros ev c2 c3 <- He. by eapply perform_Heartbeat.
    - unfold tuned, StartHeartbeat. by case_decide. }
  assert (watched c) as [_ _ Hm _ Ho].
  { eapply run_keeps; [|by apply tuned_watched|done]. intros. by eapply perform_watched. }
  destruct (cl_done c) as [t|] eqn:Hd.
  - destruct (done_why evs (tuned now heartbeat) c Hr) as [|(evs1 & evs2 & c1 & -> & Hr1 & Hs)];
      [unfold tuned, StartHeartbeat; by case_decide|by rewrite Hd|by left|].
    right. exists evs1, evs2, c1. split_and!; [done..|]. by rewrite <- (Hhb _ _ Hr1).
  - destruct (Ho eq_refl) as [tk Htk]. destruct (Hm tk Htk) as [_ _ _ Hdue Hrun].
    unfold maxInterval in Hdue. rewrite (Hhb _ _ Hr) in Hdue. lia.
Qed.

(** ** Tearing down *)

Record orderly (c : AmqpClient) : Prop := {
  orderly_shaking : cl_stage c = Shaking →
    cl_lifecycle c = false ∧ cl_registered c = false ∧ cl_cleanups c = 0%nat;
  orderly_registered : cl_registered c = true →
    cl_stage c = Serving ∧ cl_lifecycle c = true ∧ cl_cleanups c = 0%nat;
  orderly_once : (cl_cleanups c <= 1)%nat;
  orderly_cleaned : cl_cleanups c = 1%nat → cl_closed c = true;
  orderly_done : ∀ t, cl_done c = Some t → t <= cl_now c;
}.

Lemma tuned_orderly now heartbeat : orderly (tuned now heartbeat).
Proof.
  unfold tuned, StartHeartbeat. case_decide; (split; cbn; [done|done|lia|done|done]).
Qed.

Lemma Cancel_orderly c : orderly c → orderly (Cancel c).
Proof.
  intros [Hs Hr Ho Hc Hd]. split; cbn; [done..|]. intros t [= <-].
  destruct (cl_done c); cbn; [by apply Hd|lia].
Qed.
Lemma CloseConn_orderly c : orderly c → orderly (CloseConn c).
Proof.
  intros Hc. pose proof (Cancel_orderly c Hc) as [_ _ _ _ Hd]. destruct Hc as [Hs Hr Ho Hc Hd'].
  unfold CloseConn. destruct (cl_closed c) eqn:E; split; cbn; rewrite ?E; done.
Qed.
Lemma CloseConn_frame c : cl_registered (CloseConn c) = cl_registered c ∧ cl_cleanups (CloseConn c) = cl_cleanups c.
Proof. unfold CloseConn. by destruct (cl_closed c). Qed.
Lemma loops_orderly s m c : orderly c → orderly (set_loops s m c).
Proof. intros [Hs Hr Ho Hc Hd]. by split. Qed.
Lemma panic_orderly c : orderly c → orderly (set_closing (cl_done c) (cl_closed c) true c).
Proof. intros [Hs Hr Ho Hc Hd]. by split. Qed.

(** A goroutine that leaves, the reader or the lifecycle monitor, cleans up
    whatever is still registered. *)
Lemma cleanup_orderly st life c :
  orderly c → cl_stage c ≠ Shaking → st ≠ Shaking →
  orderly (cleanupConnection (set_serving st life (cl_registered c) (cl_cleanups c) c)).
Proof.
  intros [Hs Hr Ho Hc Hd] Hst Hst'. unfold cleanupConnection. cbn. destruct (cl_registered c) eqn:E.
  - destruct (Hr eq_refl) as (_ & _ & Hz). unfold CloseConn. cbn. destruct (cl_closed c) eqn:Hcl.
    + split; cbn; try done. rewrite Hz. lia.
    + split; cbn; try done; [rewrite Hz; lia|]. intros t [= <-]. destruct (cl_done c); cbn; [by apply Hd|lia].
  - split; cbn; rewrite ?E; done.
Qed.

Lemma perform_orderly ev c c' : orderly c → perform ev c = Some c' → orderly c'.
Proof.
  intros Hc H. pose proof Hc as [Hs Hr Ho Hcl Hd]. destruct ev; cbn in H.
  - case_decide as Hst; simplify_eq. destruct (Hs Hst) as (Hl & Hreg & Hz). destruct ok; [destruct admitted|].
    + split; cbn; try done; lia.
    + apply Cancel_orderly. split; cbn; try done; congruence.
    + apply Cancel_orderly. split; cbn; try done; congruence.
  - case_decide as Hst; simplify_eq. unfold read_frame, registerHeartbeat. destruct (cl_done c) eqn:Hdn.
    + unfold leave. apply cleanup_orderly; [by apply CloseConn_orderly| |done].
      unfold CloseConn. destruct (cl_closed c); cbn; congruence.
    + split; cbn; try done. intros t Ht. congruence.
  - case_decide as Hst; simplify_eq. unfold leave.
    apply cleanup_orderly; [destruct closes; [by apply CloseConn_orderly|by apply Cancel_orderly]| |done].
    destruct closes; [|cbn; congruence]. unfold CloseConn. destruct (cl_closed c); cbn; congruence.
  - case_match; simplify_eq. by apply CloseConn_orderly.
  - apply bind_Some in H as (tk & Htk & (tk' & _ & H)%bind_Some). simplify_eq.
    unfold sendHeartbeats. destruct ok; [|by apply loops_orderly].
    by destruct (loops_orderly (Some tk') (cl_monitor c) c Hc); split.
  - apply bind_Some in H as (tk & Htk & (tk' & _ & H)%bind_Some). simplify_eq.
    unfold monitorHeartbeatTimeout. case_decide; [by apply CloseConn_orderly, loops_orderly|by apply loops_orderly].
  - case_match; simplify_eq. unfold recoverHeartbeatPanic.
    apply CloseConn_orderly, panic_orderly. case_match; by apply loops_orderly.
  - apply bind_Some in H as (t & _ & (tk & _ & H)%bind_Some). simplify_eq. by apply loops_orderly.
  - apply bind_Some in H as (t & _ & (tk & _ & H)%bind_Some). simplify_eq. by apply loops_orderly.
  - apply bind_Some in H as (t & _ & H). destruct (cl_lifecycle c) eqn:Hl; simplify_eq.
    assert (cl_stage c ≠ Shaking) by (intros Hst; destruct (Hs Hst); congruence).
    by apply cleanup_orderly.
  - repeat case_match; simplify_eq. split; cbn; try done. intros t Ht. pose proof (Hd t Ht). lia.
Qed.

Definition taken_on (c : AmqpClient) : Prop := cl_registered c = true ∨ cl_cleanups c = 1%nat.

Lemma cleanup_taken_on st life c :
  orderly c → taken_on c → taken_on (cleanupConnection (set_serving st life (cl_registered c) (cl_cleanups c) c)).
Proof.
  intros [_ Hr _ _ _] Ht. unfold cleanupConnection. cbn. destruct (cl_registered c) eqn:E; [|by destruct Ht as [Ht|Ht]; [congruence|right]].
  destruct (Hr eq_refl) as (_ & _ & Hz). right. destruct (CloseConn_frame
    (set_serving st life false (S (cl_cleanups c)) (set_serving st life true (cl_cleanups c) c))) as [_ ->].
  cbn. by rewrite Hz.
Qed.

Lemma perform_taken_on ev c c' : orderly c → perform ev c = Some c' → taken_on c → taken_on c'.
Proof.
  intros Hc H Ht. pose proof Hc as [Hs _ _ _ _]. destruct ev; cbn in H.
  - case_decide as Hst; simplify_eq. destruct (Hs Hst) as (_ & Hreg & Hz). destruct Ht; congruence.
  - case_decide as Hst; simplify_eq. unfold read_frame, registerHeartbeat. destruct (cl_done c) eqn:Hdn; [|done].
    unfold leave. apply cleanup_taken_on; [by apply CloseConn_orderly|].
    unfold taken_on. by destruct (CloseConn_frame c) as [-> ->].
  - case_decide as Hst; simplify_eq. unfold leave. destruct closes.
    + apply cleanup_taken_on; [by apply CloseConn_orderly|].
      unfold taken_on. by destruct (CloseConn_frame c) as [-> ->].
    + by apply cleanup_taken_on; [apply Cancel_orderly|].
  - case_match; simplify_eq. unfold taken_on. by destruct (CloseConn_frame c) as [-> ->].
  - apply bind_Some in H as (tk & Htk & (tk' & _ & H)%bind_Some). simplify_eq. by destruct ok.
  - apply bind_Some in H as (tk & Htk & (tk' & _ & H)%bind_Some). simplify_eq.
    unfold monitorHeartbeatTimeout. case_decide; [|done].
    unfold taken_on. by destruct (CloseConn_frame (set_loops (cl_sender c) None c)) as [-> ->].
  - case_match; simplify_eq. unfold recoverHeartbeatPanic, taken_on.
    match goal with |- context [CloseConn ?x] => destruct (CloseConn_frame x) as [-> ->] end.
    by destruct monitor.
  - apply bind_Some in H as (t & _ & (tk & _ & H)%bind_Some). by simplify_eq.
  - apply bind_Some in H as (t & _ & (tk & _ & H)%bind_Some). by simplify_eq.
  - apply bind_Some in H as (t & _ & H). case_match; simplify_eq. by apply cleanup_taken_on.
  - by repeat case_match; simplify_eq.
Qed.

Lemma perform_cancelled ev c c' t : perform ev c = Some c' → cl_done c = Some t → cl_stage c ≠ Shaking →
  cl_done c' = Some t ∧ cl_stage c' ≠ Shaking ∧ (cl_registered c' = true → cl_registered c = true).
Proof. intros H Hd Hst. split_and!; events ev c H; cbn in *; simplify_eq; try done; congruence. Qed.

Lemma perform_now ev c c' : perform ev c = Some c' → cl_now c' = cl_now c ∨
  (may_pass (cl_now c') c = true ∧ cl_registered c' = cl_registered c).
Proof. intros H. events ev c H; auto. Qed.

(** Whoever is still registered once the context is cancelled waits for the
    lifecycle monitor, which runs within [lag]. *)
Lemma cleaned_up_in_time evs c c' :
  orderly c → is_Some (cl_done c) → cl_stage c ≠ Shaking → run evs c = Some c' →
  cl_registered c' = true → cl_now c' <= cl_now c + lag.
Proof.
  intros Hc [t Hd] Hst Hr.
  cut (orderly c' ∧ cl_done c' = Some t ∧ cl_stage c' ≠ Shaking ∧
       (cl_registered c' = true → cl_now c' <= cl_now c + lag)); [tauto|].
  revert Hr. apply run_keeps with (P := λ c', orderly c' ∧ cl_done c' = Some t ∧ cl_stage c' ≠ Shaking ∧
       (cl_registered c' = true → cl_now c' <= cl_now c + lag)); [|split_and!; [done..|lia]].
  intros ev c1 c2 (Hc1 & Hd1 & Hst1 & Hn1) He.
  destruct (perform_cancelled ev c1 c2 t He Hd1 Hst1) as (Hd2 & Hst2 & Hreg).
  split_and!; [by eapply perform_orderly|done..|]. intros Hr2.
  destruct (perform_now ev c1 c2 He) as [->|[Hp _]]; [auto|].
  destruct (orderly_registered _ Hc1 (Hreg Hr2)) as (_ & Hl & _).
  apply andb_prop in Hp as [_ Hp]. rewrite Hl, Hd1 in Hp. apply bool_decide_eq_true in Hp.
  pose proof (orderly_done _ Hc t Hd). lia.
Qed.

(** C?. Tearing down.  In every run of a connection's goroutines the broker
    cleans up after it at most once, whichever of the reader, the lifecycle
    monitor, a heartbeat loop, a panic or the broker's shutdown comes first; a
    connection that was admitted has left the broker exactly when that was done,
    with its socket closed; and once its context is cancelled it is done within
    the scheduler's latency, whatever happens meanwhile. *)
Theorem torn_down_once now heartbeat evs c :
  run evs (tuned now heartbeat) = Some c →
  (cl_cleanups c <= 1)%nat ∧
  (HandshakeEnds true true ∈ evs →
     (cl_registered c = false ↔ cl_cleanups c = 1%nat) ∧ (cl_registered c = false → cl_closed c = true)) ∧
  (is_Some (cl_done c) → cl_stage c ≠ Shaking →
   ∀ evs' c', run evs' c = Some c' → cl_now c + lag < cl_now c' → cl_registered c' = false).
Proof.
  intros Hr.
  assert (Hall : ∀ evs c, run evs (tuned now heartbeat) = Some c → orderly c).
  { intros evs1 c1. apply run_keeps; [by apply perform_orderly|apply tuned_orderly]. }
  pose proof (Hall _ _ Hr) as Hc. split_and!.
  - by apply orderly_once.
  - intros Hin. apply list_elem_of_split in Hin as (evs1 & evs2 & ->).
    rewrite run_app in Hr. apply bind_Some in Hr as (c1 & Hr1 & Hr). pose proof (Hall _ _ Hr1) as Hc1.
    cbn [run] in Hr. apply bind_Some in Hr as (c2 & He & Hr).
    assert (orderly c ∧ taken_on c) as [_ Ht].
    { revert Hr. apply run_keeps with (P := λ c, orderly c ∧ taken_on c).
      - intros ev c3 c4 [H3 Ht3] H4. split; [by eapply perform_orderly|by eapply perform_taken_on].
      - split; [by eapply perform_orderly|]. cbn in He. case_decide; simplify_eq. by left. }
    destruct Hc as [_ Hreg _ Hcl _]. destruct Ht as [Ht|Ht].
    + destruct (Hreg Ht) as (_ & _ & Hz). split; [|congruence]. split; congruence.
    + split; [|auto]. split; [done|]. intros _. destruct (cl_registered c); [|done]. destruct (Hreg eq_refl) as (_ & _ & Hz). congruence.
  - intros Hd Hst evs' c' Hr' Hlt. destruct (cl_registered c') eqn:E; [|done].
    pose proof (cleaned_up_in_time evs' c c' Hc Hd Hst Hr' E). lia.
Qed.

(** ** What the client hears *)

Definition last_sent (start : Z) (c : AmqpClient) : Z := default start (head (cl_sent c)).
Definition stops_sender (ev : event) : bool :=
  match ev with SenderTick ok => negb ok | LoopPanics monitor => negb monitor | _ => false end.

Lemma send_interval_positive heartbeat : 0 < heartbeatSendInterval heartbeat.
Proof. unfold heartbeatSendInterval, Second. cbn zeta. case_decide; lia. Qed.
Lemma send_interval_bound heartbeat : 0 < heartbeat → heartbeatSendInterval heartbeat <= heartbeat * Second.
Proof.
  intros Hh. unfold heartbeatSendInterval, Second. cbn zeta.
  case_decide; [lia|]. apply Z.div_le_upper_bound; lia.
Qed.

Record paced (start : Z) (c : AmqpClient) : Prop := {
  paced_sent : last_sent start c <= cl_now c;
  paced_sender : ∀ tk, cl_sender c = Some tk →
    ticking (heartbeatSendInterval (cl_Heartbeat c)) (last_sent start c) (cl_now c) tk;
  paced_open : cl_done c = None → is_Some (cl_sender c);
}.

Lemma perform_paced start ev c c' :
  paced start c → stops_sender ev = false → perform ev c = Some c' → paced start c'.
Proof.
  intros [Hl Hs Ho] Hev H. pose proof (perform_Heartbeat ev c c' H) as Hhb.
  unfold last_sent in *.
  events ev c H; cbn in *; (split; unfold last_sent; cbn; try done; try lia; eauto).
  - intros tk [= <-]. eapply receive_ticking; [by apply Hs|done|lia].
  - intros tk (tk' & -> & ->)%fmap_Some. apply fire_ticking; [by apply send_interval_positive|done| |by apply Hs].
    match goal with H : may_pass _ _ = true |- _ => by apply andb_prop in H as [[H _]%andb_prop _] end.
  - intros Hn. destruct (Ho Hn) as [tk ->]. by eexists.
Qed.

(** A client that is sent heartbeats hears something often enough not to give the
    connection up by the same rule: twice the heartbeat of silence. *)
Lemma client_hears_in_time now heartbeat evs c :
  0 < heartbeat → lag <= heartbeat * Second → run evs (tuned now heartbeat) = Some c →
  existsb stops_sender evs = false → cl_done c = None →
  cl_now c - last_sent now c <= 2 * heartbeat * Second.
Proof.
  intros Hh Hlag Hr Hev Hd.
  cut (paced now c ∧ cl_Heartbeat c = heartbeat).
  { intros [[_ Hs Ho] Hhb]. destruct (Ho Hd) as [tk Htk]. destruct (Hs tk Htk) as [_ _ _ Hdue Hrun].
    pose proof (send_interval_bound heartbeat Hh). rewrite Hhb in Hdue. lia. }
  assert (Hstart : paced now (tuned now heartbeat) ∧ cl_Heartbeat (tuned now heartbeat) = heartbeat).
  { unfold tuned, StartHeartbeat. cbn. rewrite decide_False by lia. split; [|done].
    split; unfold last_sent; cbn; [lia| |by eexists].
    intros tk [= <-]. apply new_ticking; [by apply send_interval_positive|lia]. }
  revert Hev Hr Hstart. generalize (tuned now heartbeat). clear Hd.
  induction evs as [|ev evs IH]; intros c0 Hev Hr [Hp Hhb]; cbn in Hr, Hev; [by simplify_eq|].
  apply orb_false_elim in Hev as [Hev1 Hev]. apply bind_Some in Hr as (c1 & He & Hr).
  apply (IH c1 Hev Hr). split; [by eapply perform_paced|by rewrite (perform_Heartbeat _ _ _ He)].
Qed.
End runs.

(** A heartbeat of 0 starts no loop. *)
Lemma heartbeat_off now : cl_sender (tuned now 0) = None ∧ cl_monitor (tuned now 0) = None.
Proof. done. Qed.

(** ** Examples

    A heartbeat of one second and a latency of 5 ms: the client sends one frame
    after the handshake and falls silent; the monitor cuts it off at its fourth
    tick, the lifecycle monitor cleans up. *)
Definition ms : Z := 1000000.
Definition a_second : list event := [Elapses Second; SenderTick true; MonitorTick].
Definition falls_silent : list event :=
  [HandshakeEnds true true; Elapses (500 * ms); FrameRead; Elapses (500 * ms); SenderTick true; MonitorTick]
  ++ a_second ++ a_second.
Definition cut_off : list event := [LifecycleRuns; ReaderEnds false; SenderStops; Elapses (10 * ms)].

Lemma heartbeat_timeout_witness :
  ∃ c c', run (5 * ms) falls_silent (tuned 0 1) = Some c ∧ cl_done c = Some (3 * Second) ∧
  run (5 * ms) (take 9 falls_silent) (tuned 0 1) = Some c' ∧
  cl_now c' <= cl_lastHeartbeat c' + 2 * 1 * Second + Second + 5 * ms.
Proof.
  pose proof (heartbeat_timeout (5 * ms) ltac:(by unfold ms) 0 1 (take 9 falls_silent)) as Ht.
  assert ((λ c, cl_done c) <$> run (5 * ms) (take 9 falls_silent) (tuned 0 1) = Some None) as H1 by by vm_compute.
  assert ((λ c, cl_done c) <$> run (5 * ms) falls_silent (tuned 0 1) = Some (Some (3 * Second))) as H2 by by vm_compute.
  apply fmap_Some in H1 as (c' & E' & Hd). apply fmap_Some in H2 as (c & E & Hd').
  specialize (Ht c' ltac:(lia) E'). rewrite <- Hd in Ht. by exists c, c'.
Defined.

Lemma torn_down_once_witness :
  ∃ c, run (5 * ms) (falls_silent ++ cut_off) (tuned 0 1) = Some c ∧
  cl_registered c = false ∧ cl_cleanups c = 1%nat ∧ cl_closed c = true.
Proof.
  assert ((λ c, cl_registered c) <$> run (5 * ms) (falls_silent ++ cut_off) (tuned 0 1) = Some false)
    as H1 by by vm_compute.
  apply fmap_Some in H1 as (c & E & Hr).
  destruct (torn_down_once (5 * ms) ltac:(by unfold ms) 0 1 (falls_silent ++ cut_off) c E) as (_ & Ht & _).
  destruct (Ht ltac:(by apply list_elem_of_here)) as [Hiff Hcl].
  exists c. split_and!; [done|done|by apply Hiff|by apply Hcl].
Defined.
