(* ===== verification/Topic.v ===== *)
(** * Topic matching: MatchTopic and matchWords of vhost/exchange.go

    The matcher, the declarative specification of AMQP's topic patterns, and
    their equivalence. *)

From stdpp Require Import base list strings.
From Stdlib Require Import ZArith Lia.
From Stdlib Require Import Strings.Byte.
From S2P Require Import Prelude Bytes.

Local Open Scope string_scope.
Local Open Scope list_scope.

(** [for pIdx < len(pattern) { if pattern[pIdx] != "#" { return false } }] *)
Fixpoint only_hashes (pattern : list string) : bool :=
  match pattern with
  | [] => true
  | p :: pattern' => if decide (p ≠ "#") then false else only_hashes pattern'
  end.

(** [matchWords(routing, pattern, rIdx, pIdx)] on the suffixes [pattern[pIdx:]]
    and [routing[rIdx:]]. *)
Fixpoint matchWords (pattern : list string) : list string → bool :=
  match pattern with
  | [] => λ routing, match routing with [] => true | _ => false end
  | p :: pattern' =>
      fix at_word (routing : list string) : bool :=
        match routing with
        | [] => only_hashes pattern
        | r :: routing' =>
            if decide (p = "#") then matchWords pattern' routing || at_word routing'
            else if decide (p = "*") then matchWords pattern' routing'
            else if decide (r = p) then matchWords pattern' routing'
            else false
        end
  end.

Definition MatchTopic (routingKey patternKey : string) : bool :=
  if decide (patternKey = "#") then true else
  if decide (routingKey = patternKey) then true else
  let routingWords := Split routingKey x2e in
  let patternWords := Split patternKey x2e in
  if decide ("" ∈ routingWords ∨ "" ∈ patternWords) then false else
  if decide (patternWords = ["*"; "#"]) then bool_decide (2 ≤ length routingWords)%nat else
  matchWords patternWords routingWords.

(** ** AMQP's topic patterns *)

(** A star stands for one word, a hash for any number of words. *)
Inductive topic_match : list string → list string → Prop :=
| match_nil : topic_match [] []
| match_star w p r : topic_match p r → topic_match ("*" :: p) (w :: r)
| match_hash ws p r : topic_match p r → topic_match ("#" :: p) (ws ++ r)
| match_word w p r : w ≠ "*" → w ≠ "#" → topic_match p r → topic_match (w :: p) (w :: r).

Example topic_examples :
  MatchTopic "app.eu.error" "app.#" && MatchTopic "app.eu.error" "*.*.error"
    && MatchTopic "a" "a.#" && MatchTopic "a.x.y.b" "a.#.b" && MatchTopic "anything" "#"
    && negb (MatchTopic "a.b" "a.*.b") && negb (MatchTopic "a.c" "a.#.b") = true.
Proof. by vm_compute. Qed.

Lemma topic_match_hash_inv p r :
  topic_match ("#" :: p) r → ∃ ws r', r = ws ++ r' ∧ topic_match p r'.
Proof. intros H. inversion H; subst; try done; eauto. Qed.

Lemma only_hashes_match p : only_hashes p = true ↔ topic_match p [].
Proof.
  induction p as [|w p IH]; simpl.
  - split; [constructor|done].
  - case_decide as Hw.
    + split; [done|]. intros H. by inversion H.
    + assert (w = "#") as -> by (by destruct (decide (w = "#"))). rewrite IH. split.
      * intros H. by apply (match_hash []).
      * intros (ws & r & Hr & H)%topic_match_hash_inv.
        symmetry in Hr. by apply app_eq_nil in Hr as [-> ->].
Qed.

Lemma topic_match_hash_cons p w r : topic_match ("#" :: p) r → topic_match ("#" :: p) (w :: r).
Proof.
  intros (ws & r' & -> & H)%topic_match_hash_inv. by apply (match_hash (w :: ws)).
Qed.

(** A hash takes no word, or the next one and goes on. *)
Lemma topic_match_hash p r :
  topic_match ("#" :: p) r ↔
  topic_match p r ∨ ∃ w r', r = w :: r' ∧ topic_match ("#" :: p) r'.
Proof.
  split.
  - intros (ws & r' & -> & H)%topic_match_hash_inv. destruct ws as [|w ws]; [by left|right].
    exists w, (ws ++ r'). split; [done|]. by apply match_hash.
  - intros [H|(w & r' & -> & H)]; [by apply (match_hash [])|by apply topic_match_hash_cons].
Qed.

Lemma matchWords_spec pattern routing : matchWords pattern routing = true ↔ topic_match pattern routing.
Proof.
  revert routing. induction pattern as [|p pattern IH]; intros routing.
  - destruct routing; simpl; split; try done; [constructor|by inversion 1].
  - induction routing as [|r routing IHr]; [apply only_hashes_match|].
    change (matchWords (p :: pattern) (r :: routing)) with
      (if decide (p = "#") then matchWords pattern (r :: routing) || matchWords (p :: pattern) routing
       else if decide (p = "*") then matchWords pattern routing
       else if decide (r = p) then matchWords pattern routing else false).
    repeat case_decide; subst.
    + rewrite orb_true_iff, IH, IHr, (topic_match_hash _ (r :: routing)). split.
      * intros [H|H]; [by left|right]. by exists r, routing.
      * intros [H|(? & ? & [= <- <-] & H)]; [by left|by right].
    + rewrite IH. split; [apply match_star|]. by inversion 1.
    + rewrite IH. split; [by apply match_word|]. by inversion 1.
    + split; [done|]. by inversion 1.
Qed.

Lemma topic_match_refl ws : topic_match ws ws.
Proof.
  induction ws as [|w ws IH]; [constructor|].
  destruct (decide (w = "*")) as [->|]; [by constructor|].
  destruct (decide (w = "#")) as [->|]; [by apply (match_hash ["#"])|]. by constructor.
Qed.

Lemma topic_match_any ws : topic_match ["#"] ws.
Proof. rewrite <-(app_nil_r ws). by apply match_hash, match_nil. Qed.

Definition words (key : string) : list string := Split key x2e.

(** C35. Topic routing follows AMQP's patterns: for keys and patterns without
    empty words, the pattern matches exactly the keys that replacing each star
    by one word and each hash by any number of words can give.  The pattern
    [*.#], which the code treats apart, is the one exception. *)
Theorem topic_matching (routingKey patternKey : string) :
  "" ∉ words routingKey → "" ∉ words patternKey → words patternKey ≠ ["*"; "#"] →
  MatchTopic routingKey patternKey = true ↔ topic_match (words patternKey) (words routingKey).
Proof.
  unfold words. intros Hr Hp Hs. unfold MatchTopic.
  case_decide as H1; [subst; split; [intros _; apply topic_match_any|done]|].
  case_decide as H2; [subst; split; [intros _; apply topic_match_refl|done]|].
  rewrite decide_False by tauto. rewrite decide_False by done. apply matchWords_spec.
Qed.

Lemma topic_matching_witness :
  MatchTopic "app.eu.error" "app.#.error" = true ∧
  topic_match (words "app.#.error") (words "app.eu.error").
Proof.
  split; [by vm_compute|].
  apply (topic_matching "app.eu.error" "app.#.error"); [by apply (bool_decide_unpack _)..|by vm_compute].
Defined.

(** The special case of [*.#] refuses a key of one word, which the pattern
    matches by the documented semantics. *)
Lemma star_hash_refuses_one_word :
  MatchTopic "app" "*.#" = false ∧ topic_match (words "*.#") (words "app").
Proof. split; [by vm_compute|]. apply match_star. apply (match_hash []). constructor. Qed.

(** A key with an empty word, documented as invalid, matches an equal pattern. *)
Lemma equal_keys_with_empty_words_match : MatchTopic "a..b" "a..b" = true ∧ "" ∈ words "a..b".
Proof. split; [by vm_compute|]. by apply (bool_decide_unpack _). Qed.
