(* ===== verification/Args.v ===== *)
(** * Queue arguments: vhost/helpers.go and the parsers of qll.go and ttl.go

    The integer arguments of queue.declare: [x-max-priority], [x-max-length] and
    [x-message-ttl]. *)

From stdpp Require Import base list strings.
From Stdlib Require Import ZArith Lia.
From S2P Require Import Prelude Bytes Values.

Local Open Scope Z_scope.

(** ** float64 to int64

    A [float64] is its 64 bits (Values.v).  The conversion truncates; a value
    that does not fit, an infinity or a NaN converts to a number that depends on
    the machine, here a parameter. *)

Definition f64_sign (bits : Z) : bool := Z.testbit bits 63.
Definition f64_exponent (bits : Z) : Z := (bits / 2 ^ 52) mod 2 ^ 11.
Definition f64_mantissa (bits : Z) : Z := bits mod 2 ^ 52.

(** The magnitude, rounded towards zero; [None] for infinities and NaNs. *)
Definition f64_trunc (bits : Z) : option Z :=
  let e := f64_exponent bits in
  let m := f64_mantissa bits in
  if decide (e = 2047) then None
  else if decide (e = 0) then Some 0
  else Some (Z.shiftl (2 ^ 52 + m) (e - 1075)).

(** [v <= 0]: false for a NaN. *)
Definition f64_nonpositive (bits : Z) : bool :=
  let nan := bool_decide (f64_exponent bits = 2047 ∧ f64_mantissa bits ≠ 0) in
  let zero := bool_decide (f64_exponent bits = 0 ∧ f64_mantissa bits = 0) in
  negb nan && (f64_sign bits || zero).

Section arguments.
Variable float_out_of_range : Z.

Definition f64_to_int64 (bits : Z) : Z :=
  match f64_trunc bits with
  | Some z =>
      let v := if f64_sign bits then - z else z in
      if decide (- 2 ^ 63 <= v < 2 ^ 63) then v else float_out_of_range
  | None => float_out_of_range
  end.

Definition convertToPositiveInt64 (arg : value) : Z * bool :=
  match arg with
  | VI64 v | VI32 v | VInt v => if decide (v <= 0) then (0, false) else (v, true)
  | VF64 bits => if f64_nonpositive bits then (0, false) else (f64_to_int64 bits, true)
  | _ => (0, false)
  end.

Definition parseMaxPriorityArgument (args : option table) : Z * bool :=
  match args_get "x-max-priority" args with
  | None => (0, false)
  | Some maxPrio =>
      let '(v, ok) := convertToPositiveInt64 maxPrio in
      if decide (ok = false ∧ v <= 0) then (0, false) else
      let v := if decide (255 < v) then 255 else v in
      (v mod 2 ^ 8, true)
  end.

(** [uint32(value)] keeps the low 32 bits. *)
Definition parseMaxLengthArgument (args : option table) : Z * bool :=
  match args_get "x-max-length" args with
  | None => (0, false)
  | Some maxLen =>
      let '(v, ok) := convertToPositiveInt64 maxLen in
      if decide (ok = true ∧ 0 < v) then (v mod 2 ^ 32, true) else (0, false)
  end.

Definition parseTTLArgument (args : option table) : Z * bool :=
  match args_get "x-message-ttl" args with
  | None => (0, false)
  | Some ttl =>
      let '(v, ok) := convertToPositiveInt64 ttl in
      if ok then (v, true) else (0, false)
  end.
End arguments.

Example float_argument_example :
  convertToPositiveInt64 0 (VF64 4621819117588971520) = (10, true) ∧
  convertToPositiveInt64 0 (VF64 4602678819172646912) = (0, true) ∧
  convertToPositiveInt64 0 (VF64 13835058055282163712) = (0, false).
Proof. by vm_compute. Qed.

(** A limit of [2^32] messages becomes 0, which the queue takes as no limit. *)
Lemma max_length_truncated : parseMaxLengthArgument 0 (Some [("x-max-length", VI64 (2 ^ 32))]) = (0, true).
Proof. by vm_compute. Qed.

(** The unsigned integers a client may send are not accepted as limits. *)
Lemma unsigned_arguments_ignored n oor :
  convertToPositiveInt64 oor (VU8 n) = (0, false) ∧ convertToPositiveInt64 oor (VU16 n) = (0, false) ∧
  convertToPositiveInt64 oor (VU32 n) = (0, false) ∧ convertToPositiveInt64 oor (VI16 n) = (0, false).
Proof. done. Qed.
