(* ===== verification/Queue.v ===== *)
(** * Queues: the buffers of vhost/queue.go

    A queue's messages, in one FIFO channel or in one channel per priority
    level, with the count the source keeps beside them.  Go's buffered channels
    are lists with a capacity; the critical sections under [q.mu] are functions
    on the record.  The specification is the list of the queue's messages in
    the order a consumer gets them. *)

From stdpp Require Import base list gmap strings.
From Stdlib Require Import ZArith Lia.
From S2P Require Import Prelude Bytes Values Properties Args.

Local Open Scope Z_scope.

(** ** Data *)

(** [EnqueuedAt] is in nanoseconds since the Unix epoch. *)
Record Message : Type := MkMessage {
  m_ID : string;
  m_EnqueuedAt : Z;
  m_Body : list Byte.byte;
  m_Properties : BasicProperties;
  m_Exchange : string;
  m_RoutingKey : string;
}.

Record QueueProperties : Type := MkQueueProps {
  qp_Passive : bool;
  qp_Durable : bool;
  qp_AutoDelete : bool;
  qp_Exclusive : bool;
  qp_Arguments : option table;
}.

Definition NewQueueProperties : QueueProperties := MkQueueProps false false false false (Some []).

(** [q_priorityMessages] holds the levels created so far; [q_bufferSize] is the
    capacity [vh.queueBufferSize] of the FIFO channel; [q_signal] is whether
    [messageSignal] holds a wake-up; [q_consumers] mirrors the number of
    consumers. *)
Record Queue : Type := MkQueue {
  q_Name : string;
  q_Props : QueueProperties;
  q_bufferSize : Z;
  q_messages : list Message;
  q_priorityMessages : gmap Z (list Message);
  q_maxPriority : Z;
  q_signal : bool;
  q_count : Z;
  q_stopped : bool;
  q_OwnerConn : string;
  q_consumers : Z;
  q_maxLength : Z;
}.

Definition NewQueue (name : string) (bufferSize : Z) : Queue :=
  MkQueue name (MkQueueProps false false false false None) bufferSize [] ∅ 0 false 0 false "" 0 0.

(** ** Updates of the fields the operations change *)

Definition set_fifo (ms : list Message) (count : Z) (q : Queue) : Queue :=
  MkQueue (q_Name q) (q_Props q) (q_bufferSize q) ms (q_priorityMessages q) (q_maxPriority q)
    (q_signal q) count (q_stopped q) (q_OwnerConn q) (q_consumers q) (q_maxLength q).

Definition set_levels (ls : gmap Z (list Message)) (count : Z) (signal : bool) (q : Queue) : Queue :=
  MkQueue (q_Name q) (q_Props q) (q_bufferSize q) (q_messages q) ls (q_maxPriority q)
    signal count (q_stopped q) (q_OwnerConn q) (q_consumers q) (q_maxLength q).

Definition set_stopped (q : Queue) : Queue :=
  MkQueue (q_Name q) (q_Props q) (q_bufferSize q) (q_messages q) (q_priorityMessages q)
    (q_maxPriority q) (q_signal q) (q_count q) true (q_OwnerConn q) (q_consumers q) (q_maxLength q).

Definition set_owner (owner : string) (q : Queue) : Queue :=
  MkQueue (q_Name q) (q_Props q) (q_bufferSize q) (q_messages q) (q_priorityMessages q)
    (q_maxPriority q) (q_signal q) (q_count q) (q_stopped q) owner (q_consumers q) (q_maxLength q).

Definition set_consumers (n : Z) (q : Queue) : Queue :=
  MkQueue (q_Name q) (q_Props q) (q_bufferSize q) (q_messages q) (q_priorityMessages q)
    (q_maxPriority q) (q_signal q) (q_count q) (q_stopped q) (q_OwnerConn q) n (q_maxLength q).

(** The settings [CreateQueue] gives a fresh queue. *)
Definition set_declared (props : QueueProperties) (maxPriority maxLength : Z) (owner : string)
    (q : Queue) : Queue :=
  MkQueue (q_Name q) props (q_bufferSize q) (q_messages q) (q_priorityMessages q)
    maxPriority (q_signal q) (q_count q) (q_stopped q) owner (q_consumers q) maxLength.

(** ** Push *)

Inductive go_panic : Type :=
| DivideByZero
| InterfaceConversion
| NilDereference.

Definition MIN_BUFFER_SIZE : Z := 100.

(** [bufferPerPriority]: [q.maxPriority+1] is a [uint8] sum, so a maximum
    priority of 255 divides by zero. *)
Definition bufferPerPriority (q : Queue) : res go_panic Z :=
  let levels := (q_maxPriority q + 1) mod 2 ^ 8 in
  if decide (levels = 0) then Err DivideByZero else
  let b := Z.quot (q_bufferSize q) levels in
  Ok (if decide (b < MIN_BUFFER_SIZE) then MIN_BUFFER_SIZE else b).

(** The level a message goes to: its priority, clamped to the queue's. *)
Definition effective_priority (q : Queue) (msg : Message) : Z :=
  Z.min (Priority (m_Properties msg)) (q_maxPriority q).

(** The capacity of a level is computed when it is created; it depends on
    nothing that changes afterwards. *)
Definition pushPriority (msg : Message) (q : Queue) : res go_panic Queue :=
  if q_stopped q then Ok q else
  let priority := effective_priority q msg in
  let push := fun (ch : list Message) (capacity : Z) (ls : gmap Z (list Message)) =>
    if decide (Z.of_nat (length ch) < capacity)
    then set_levels (<[priority := ch ++ [msg]]> ls) (q_count q + 1) true q
    else set_levels ls (q_count q) (q_signal q) q in
  match q_priorityMessages q !! priority with
  | Some ch =>
      capacity ← bufferPerPriority q;
      Ok (push ch capacity (q_priorityMessages q))
  | None =>
      capacity ← bufferPerPriority q;
      Ok (push [] capacity (<[priority := []]> (q_priorityMessages q)))
  end.

Definition push (msg : Message) (q : Queue) : Queue :=
  if q_stopped q then q else
  if decide (Z.of_nat (length (q_messages q)) < q_bufferSize q)
  then set_fifo (q_messages q ++ [msg]) (q_count q + 1) q
  else q.

(** [Push] after the length limit has been enforced. *)
Definition push_unlimited (msg : Message) (q : Queue) : res go_panic Queue :=
  if decide (0 < q_maxPriority q) then pushPriority msg q else Ok (push msg q).

(** ** Pop *)

Definition popUnlocked (q : Queue) : option Message * Queue :=
  match q_messages q with
  | msg :: ms => (Some msg, set_fifo ms (q_count q - 1) q)
  | [] => (None, q)
  end.

(** [for prio := q.maxPriority; ; prio--]: the first level with a message. *)
Fixpoint pop_level (prio : nat) (ls : gmap Z (list Message))
    : option (Message * gmap Z (list Message)) :=
  match ls !! Z.of_nat prio with
  | Some (msg :: ms) => Some (msg, <[Z.of_nat prio := ms]> ls)
  | _ => match prio with O => None | S prio' => pop_level prio' ls end
  end.

Definition popPriorityUnlocked (q : Queue) : option Message * Queue :=
  match pop_level (Z.to_nat (q_maxPriority q)) (q_priorityMessages q) with
  | Some (msg, ls) => (Some msg, set_levels ls (q_count q - 1) (q_signal q) q)
  | None => (None, q)
  end.

Definition Pop (q : Queue) : option Message * Queue :=
  if decide (0 < q_maxPriority q) then popPriorityUnlocked q else popUnlocked q.

Definition Len (q : Queue) : Z := q_count q.

(** ** StreamPurge *)

(** The messages handed to the callback in order, and the queue afterwards:
    levels from the highest down, each drained to its end. *)
Fixpoint purge_levels (prio : nat) (ls : gmap Z (list Message))
    : list Message * gmap Z (list Message) :=
  let '(taken, ls) :=
    match ls !! Z.of_nat prio with
    | Some ms => (ms, <[Z.of_nat prio := []]> ls)
    | None => ([], ls)
    end in
  match prio with
  | O => (taken, ls)
  | S prio' => let '(more, ls) := purge_levels prio' ls in (taken ++ more, ls)
  end.

(** The count returned is a [uint32]. *)
Definition StreamPurge (q : Queue) : list Message * Z * Queue :=
  if decide (0 < q_maxPriority q) then
    let '(taken, ls) := purge_levels (Z.to_nat (q_maxPriority q)) (q_priorityMessages q) in
    let n := Z.of_nat (length taken) in
    (taken, n mod 2 ^ 32, set_levels ls (q_count q - n) (q_signal q) q)
  else
    let n := Z.of_nat (length (q_messages q)) in
    (q_messages q, n mod 2 ^ 32, set_fifo [] (q_count q - n) q).

(** ** The specification: the messages in delivery order *)

Definition level (ls : gmap Z (list Message)) (prio : nat) : list Message :=
  default [] (ls !! Z.of_nat prio).

Fixpoint levels_down (prio : nat) (ls : gmap Z (list Message)) : list Message :=
  level ls prio ++ match prio with O => [] | S prio' => levels_down prio' ls end.

Definition contents (q : Queue) : list Message :=
  if decide (0 < q_maxPriority q)
  then levels_down (Z.to_nat (q_maxPriority q)) (q_priorityMessages q)
  else q_messages q.

(** Every level within range holds only messages of its own priority; the count
    is the number of messages. *)
Definition wf_queue (q : Queue) : Prop :=
  0 <= q_maxPriority q < 256 ∧
  (q_count q = Z.of_nat (length (contents q)) ∧
   Forall (λ m, 0 <= Priority (m_Properties m)) (contents q)) ∧
  (q_maxPriority q = 0 → Z.of_nat (length (q_messages q)) <= Z.max 0 (q_bufferSize q)) ∧
  map_Forall (λ p ms, 0 <= p <= q_maxPriority q ∧ Forall (λ m, effective_priority q m = p) ms)
    (q_priorityMessages q).

(** ** Levels *)

Section levels.
Implicit Types ls : gmap Z (list Message).

Lemma level_insert_eq ls k ms : level (<[Z.of_nat k := ms]> ls) k = ms.
Proof. unfold level. by rewrite lookup_insert_eq. Qed.

Lemma level_insert_ne ls k n ms : n ≠ k → level (<[Z.of_nat k := ms]> ls) n = level ls n.
Proof. intros. unfold level. rewrite lookup_insert_ne by lia. done. Qed.

Lemma levels_down_insert_above n k ls ms :
  (n < k)%nat → levels_down n (<[Z.of_nat k := ms]> ls) = levels_down n ls.
Proof.
  intros. induction n as [|n IH]; cbn [levels_down]; rewrite level_insert_ne by lia; [done|].
  by rewrite IH by lia.
Qed.

(** Creating an empty level changes nothing. *)
Lemma levels_down_create n k ls :
  ls !! Z.of_nat k = None → levels_down n (<[Z.of_nat k := []]> ls) = levels_down n ls.
Proof.
  intros Hk. assert (∀ i, level (<[Z.of_nat k := []]> ls) i = level ls i) as Hl.
  { intros i. destruct (decide (i = k)) as [->|]; [|by apply level_insert_ne].
    rewrite level_insert_eq. unfold level. by rewrite Hk. }
  induction n as [|n IH]; cbn [levels_down]; rewrite Hl; [done|]. by rewrite IH.
Qed.

Lemma elem_levels_down n ls m :
  m ∈ levels_down n ls → ∃ i, (i ≤ n)%nat ∧ m ∈ level ls i.
Proof.
  induction n as [|n IH]; cbn [levels_down]; intros [H|H]%elem_of_app.
  - by exists 0%nat.
  - by apply elem_of_nil in H.
  - by exists (S n).
  - destruct (IH H) as (i & ? & ?). exists i. split; [lia|done].
Qed.

(** Appending to a level puts the message after all those of its priority or
    higher, and before all those of lower priority. *)
Lemma levels_down_push n k ls msg :
  (k ≤ n)%nat → ∃ above below,
    levels_down n ls = above ++ below ∧
    levels_down n (<[Z.of_nat k := level ls k ++ [msg]]> ls) = above ++ msg :: below ∧
    (∀ m, m ∈ above → ∃ i, (k ≤ i ≤ n)%nat ∧ m ∈ level ls i) ∧
    (∀ m, m ∈ below → ∃ i, (i < k)%nat ∧ m ∈ level ls i).
Proof.
  intros Hk. induction n as [|n IH].
  - assert (k = 0%nat) as -> by lia. exists (level ls 0), []. cbn [levels_down].
    rewrite level_insert_eq, !app_nil_r. split; [done|]. split; [done|]. split.
    + intros m Hm. exists 0%nat. split; [lia|done].
    + intros m Hm. by apply elem_of_nil in Hm.
  - cbn [levels_down]. destruct (decide (k = S n)) as [->|].
    + rewrite level_insert_eq, levels_down_insert_above by lia.
      exists (level ls (S n)), (levels_down n ls). split; [done|].
      split; [by rewrite <-app_assoc|]. split.
      * intros m Hm. exists (S n). split; [lia|done].
      * intros m (i & ? & ?)%elem_levels_down. exists i. split; [lia|done].
    + destruct (IH ltac:(lia)) as (above & below & E1 & E2 & Ha & Hb).
      exists (level ls (S n) ++ above), below. rewrite level_insert_ne by lia.
      rewrite E1, E2, <-!app_assoc. split; [done|]. split; [done|]. split; [|done].
      intros m [Hm|Hm]%elem_of_app; [exists (S n); split; [lia|done]|].
      destruct (Ha m Hm) as (i & ? & ?). exists i. split; [lia|done].
Qed.

(** Popping takes the first message in delivery order. *)
Lemma pop_level_spec n ls :
  match pop_level n ls with
  | Some (msg, ls') =>
      levels_down n ls = msg :: levels_down n ls' ∧
      ∃ k ms, (k ≤ n)%nat ∧ ls !! Z.of_nat k = Some (msg :: ms) ∧ ls' = <[Z.of_nat k := ms]> ls
  | None => levels_down n ls = []
  end.
Proof.
  induction n as [|n IH]; cbn [pop_level levels_down]; unfold level.
  - destruct (ls !! Z.of_nat 0) as [[|msg ms]|] eqn:E; [done| |done].
    rewrite lookup_insert_eq. split; [done|]. by exists 0%nat, ms.
  - destruct (ls !! Z.of_nat (S n)) as [[|msg ms]|] eqn:E.
    + destruct (pop_level n ls) as [[msg ls']|]; [|done].
      destruct IH as [-> (k & ms & Hk & Hl & ->)].
      rewrite lookup_insert_ne by lia. rewrite E. cbn. split; [done|].
      exists k, ms. split; [lia|done].
    + rewrite lookup_insert_eq. cbn [default app]. split.
      * by rewrite levels_down_insert_above by lia.
      * by exists (S n), ms.
    + destruct (pop_level n ls) as [[msg ls']|]; [|done].
      destruct IH as [-> (k & ms & Hk & Hl & ->)].
      rewrite lookup_insert_ne by lia. rewrite E. cbn. split; [done|].
      exists k, ms. split; [lia|done].
Qed.

Lemma levels_down_ext n ls ls' :
  (∀ k, (k ≤ n)%nat → level ls k = level ls' k) → levels_down n ls = levels_down n ls'.
Proof.
  intros H. induction n as [|n IH]; cbn [levels_down]; rewrite H by lia; [done|].
  f_equal. apply IH. intros. apply H. lia.
Qed.

Lemma levels_down_nil n ls : (∀ k, (k ≤ n)%nat → level ls k = []) → levels_down n ls = [].
Proof.
  intros H. induction n as [|n IH]; cbn [levels_down]; rewrite H by lia; [done|].
  apply IH. intros. apply H. lia.
Qed.

(** Purging hands over the levels from the top and leaves them empty. *)
Lemma purge_levels_spec n ls :
  (purge_levels n ls).1 = levels_down n ls ∧
  (∀ k, (k ≤ n)%nat → level (purge_levels n ls).2 k = []) ∧
  (∀ k, (n < k)%nat → level (purge_levels n ls).2 k = level ls k).
Proof.
  revert ls. induction n as [|n IH]; intros ls; cbn [purge_levels levels_down].
  - unfold level at 1. destruct (ls !! Z.of_nat 0) as [ms|] eqn:E; cbn [fst snd default].
    + rewrite app_nil_r. split; [done|]. split; intros k Hk.
      * assert (k = 0%nat) as -> by lia. apply level_insert_eq.
      * apply level_insert_ne. lia.
    + split; [done|]. split; [|done]. intros k Hk. assert (k = 0%nat) as -> by lia.
      unfold level. by rewrite E.
  - set (step := match ls !! Z.of_nat (S n) with
      | Some ms => (ms, <[Z.of_nat (S n):=[]]> ls) | None => ([], ls) end).
    assert (step.1 = level ls (S n) ∧ level step.2 (S n) = [] ∧
      ∀ k, k ≠ S n → level step.2 k = level ls k) as (E1 & E2 & E3).
    { unfold step, level. destruct (ls !! Z.of_nat (S n)) as [ms|] eqn:E; cbn [fst snd default].
      - split; [done|]. split; [by rewrite lookup_insert_eq|].
        intros k Hk. by rewrite lookup_insert_ne by lia.
      - split; [done|]. split; [by rewrite E|done]. }
    destruct step as [taken ls1]. cbn [fst snd] in *. subst taken.
    specialize (IH ls1). destruct (purge_levels n ls1) as [more ls2]. cbn [fst snd] in *.
    destruct IH as (-> & Hlow & Hhigh). split; [|split].
    + f_equal. apply levels_down_ext. intros. apply E3. lia.
    + intros k Hk. destruct (decide (k = S n)) as [->|]; [by rewrite Hhigh by lia|].
      apply Hlow. lia.
    + intros k Hk. rewrite Hhigh by lia. apply E3. lia.
Qed.
End levels.

(** ** The operations on the contents *)

Lemma level_wf q n m :
  wf_queue q → m ∈ level (q_priorityMessages q) n → effective_priority q m = Z.of_nat n.
Proof.
  intros (_ & _ & _ & Hl). unfold level. destruct (_ !! Z.of_nat n) as [ms|] eqn:E; [|by intros ?%elem_of_nil].
  intros Hm. destruct (Hl _ _ E) as [_ Hf]. rewrite Forall_forall in Hf. by apply Hf.
Qed.

Lemma contents_fifo q : q_maxPriority q = 0 → contents q = q_messages q.
Proof. intros H. unfold contents. by rewrite decide_False by lia. Qed.

(** What [Pop] returns and leaves, of the contents. *)
Lemma Pop_contents q :
  match Pop q with
  | (Some msg, q') => contents q = msg :: contents q' ∧ q_count q' = q_count q - 1
  | (None, q') => contents q = [] ∧ q' = q
  end.
Proof.
  unfold Pop, contents. case_decide as Hp.
  - unfold popPriorityUnlocked. pose proof (pop_level_spec (Z.to_nat (q_maxPriority q)) (q_priorityMessages q)) as H.
    destruct (pop_level _ _) as [[msg ls]|].
    + cbn. rewrite decide_True by done. destruct H as [-> _]. done.
    + done.
  - unfold popUnlocked. destruct (q_messages q) eqn:E.
    + done.
    + cbn. by rewrite decide_False by done.
Qed.

Lemma Pop_wf q : wf_queue q → wf_queue (Pop q).2.
Proof.
  intros Hwf. pose proof (Pop_contents q) as Hc.
  destruct (Pop q) as [[msg|] q'] eqn:E; cbn; [|by destruct Hc as [_ ->]].
  destruct Hc as [Hc Hn]. destruct Hwf as (Hm & [Hcount Hprio] & Hcap & Hl).
  rewrite Hc in Hcount, Hprio. cbn [length] in Hcount. apply Forall_cons in Hprio as [_ Hprio].
  unfold Pop in E. case_decide as Hp.
  - unfold popPriorityUnlocked in E.
    pose proof (pop_level_spec (Z.to_nat (q_maxPriority q)) (q_priorityMessages q)) as H.
    destruct (pop_level _ _) as [[msg' ls]|]; [|done]. injection E as <- <-.
    destruct H as [_ (k & ms & Hk & Hlk & ->)].
    split; [done|]. split; [split; [cbn in *; lia|done]|]. split; [cbn; lia|]. cbn.
    apply map_Forall_insert_2; [|done]. destruct (Hl _ _ Hlk) as [? Hf].
    split; [done|]. by apply Forall_cons in Hf as [_ Hf].
  - unfold popUnlocked in E. destruct (q_messages q) as [|m ms] eqn:Em; [done|].
    injection E as <- <-. split; [done|]. split; [split; [cbn in *; lia|done]|]. split; [|done].
    cbn. intros H0. specialize (Hcap H0). cbn in Hcap. lia.
Qed.

(** Whether the buffer the message goes to has room. *)
Definition has_room (q : Queue) (msg : Message) : bool :=
  if decide (0 < q_maxPriority q) then
    match bufferPerPriority q with
    | Ok capacity => bool_decide (Z.of_nat (length (level (q_priorityMessages q)
        (Z.to_nat (effective_priority q msg)))) < capacity)
    | Err _ => false
    end
  else bool_decide (Z.of_nat (length (q_messages q)) < q_bufferSize q).

Definition same_settings (q q' : Queue) : Prop :=
  q_Name q' = q_Name q ∧ q_Props q' = q_Props q ∧ q_bufferSize q' = q_bufferSize q ∧
  q_maxPriority q' = q_maxPriority q ∧ q_stopped q' = q_stopped q ∧
  q_OwnerConn q' = q_OwnerConn q ∧ q_consumers q' = q_consumers q ∧ q_maxLength q' = q_maxLength q.

Lemma bufferPerPriority_ok q :
  0 <= q_maxPriority q < 255 → ∃ capacity, bufferPerPriority q = Ok capacity ∧ 100 <= capacity.
Proof.
  intros H. unfold bufferPerPriority, MIN_BUFFER_SIZE. rewrite Z.mod_small by lia.
  rewrite decide_False by lia. case_decide; eexists; (split; [done|lia]).
Qed.

Lemma effective_priority_range q msg :
  0 <= q_maxPriority q → 0 <= Priority (m_Properties msg) →
  0 <= effective_priority q msg <= q_maxPriority q.
Proof. unfold effective_priority. lia. Qed.

(** The insertion point: after every message of the same priority or higher. *)
Definition inserted (q q' : Queue) (msg : Message) : Prop :=
  ∃ above below, contents q = above ++ below ∧ contents q' = above ++ msg :: below ∧
    Forall (λ m, effective_priority q msg <= effective_priority q m) above ∧
    Forall (λ m, effective_priority q m < effective_priority q msg) below.

Lemma length_inserted q q' msg : inserted q q' msg → length (contents q') = S (length (contents q)).
Proof. intros (a & b & -> & -> & _). rewrite !length_app. simpl. lia. Qed.

Lemma inserted_priorities q q' msg :
  inserted q q' msg → 0 <= Priority (m_Properties msg) →
  Forall (λ m, 0 <= Priority (m_Properties m)) (contents q) →
  Forall (λ m, 0 <= Priority (m_Properties m)) (contents q').
Proof.
  intros (a & b & E1 & -> & _) Hm. rewrite E1, !Forall_app, Forall_cons. tauto.
Qed.

Lemma pushPriority_room q msg :
  wf_queue q → 0 < q_maxPriority q < 255 → q_stopped q = false →
  0 <= Priority (m_Properties msg) → has_room q msg = true →
  ∃ q', pushPriority msg q = Ok q' ∧ inserted q q' msg ∧ wf_queue q' ∧ same_settings q q'.
Proof.
  intros Hwf Hmax Hst Hprio Hroom. pose proof Hwf as (Hm & [Hcount Hps] & Hcap & Hl).
  pose proof (effective_priority_range q msg ltac:(lia) Hprio) as Hr.
  unfold has_room in Hroom. rewrite decide_True in Hroom by lia.
  destruct (bufferPerPriority q) as [capacity|] eqn:Hc; [|done].
  apply bool_decide_eq_true in Hroom as Hlt.
  set (k := Z.to_nat (effective_priority q msg)) in *.
  assert (effective_priority q msg = Z.of_nat k) as Hk by lia.
  set (ls' := <[Z.of_nat k := level (q_priorityMessages q) k ++ [msg]]> (q_priorityMessages q)).
  assert (pushPriority msg q = Ok (set_levels ls' (q_count q + 1) true q)) as ->.
  { unfold pushPriority. rewrite Hst, Hk. unfold ls', level in *.
    destruct (q_priorityMessages q !! Z.of_nat k) as [ch|] eqn:E; rewrite Hc; cbn in *.
    - by rewrite decide_True by done.
    - rewrite decide_True by done. by rewrite insert_insert_eq. }
  eexists. split; [done|].
  assert (inserted q (set_levels ls' (q_count q + 1) true q) msg) as Hins.
  { destruct (levels_down_push (Z.to_nat (q_maxPriority q)) k (q_priorityMessages q) msg)
      as (above & below & E1 & E2 & Ha & Hb); [lia|].
    exists above, below. unfold contents. cbn [q_maxPriority set_levels q_priorityMessages].
    rewrite !decide_True by lia. split; [done|]. split; [done|].
    split; apply Forall_forall; intros m Hin.
    - destruct (Ha m Hin) as (i & ? & Hi). rewrite (level_wf q i m) by done. lia.
    - destruct (Hb m Hin) as (i & ? & Hi). rewrite (level_wf q i m) by done. lia. }
  split; [done|]. split; [|done].
  split; [done|]. split.
  { split; [|by eapply inserted_priorities].
    rewrite (length_inserted q _ msg) by done. cbn [q_count set_levels]. lia. }
  split; [cbn; lia|].
  cbn [q_priorityMessages set_levels q_maxPriority]. apply map_Forall_insert_2; [|done].
  split; [lia|]. apply Forall_app. split; [|by constructor].
  apply Forall_forall. intros m Hin. by apply (level_wf q k m).
Qed.

Lemma pushPriority_full q msg :
  wf_queue q → 0 < q_maxPriority q < 255 → q_stopped q = false →
  0 <= Priority (m_Properties msg) → has_room q msg = false →
  ∃ q', pushPriority msg q = Ok q' ∧ contents q' = contents q ∧ wf_queue q' ∧ same_settings q q'.
Proof.
  intros Hwf Hmax Hst Hprio Hroom.
  pose proof (effective_priority_range q msg ltac:(lia) Hprio) as Hr.
  destruct (bufferPerPriority_ok q ltac:(lia)) as (capacity & Hc & Hcap).
  unfold has_room in Hroom. rewrite decide_True in Hroom by lia.
  rewrite Hc in Hroom. apply bool_decide_eq_false in Hroom as Hfull. apply Z.nlt_ge in Hfull.
  unfold level in Hfull. rewrite Z2Nat.id in Hfull by lia.
  unfold pushPriority. rewrite Hst.
  destruct (q_priorityMessages q !! effective_priority q msg) as [ch|] eqn:E; cbn [default from_option id length] in Hfull; [|lia].
  rewrite Hc. cbn. rewrite decide_False by lia. eexists. split; [done|]. by destruct q.
Qed.

Lemma push_fifo_ok q msg :
  wf_queue q → q_maxPriority q = 0 → q_stopped q = false → 0 <= Priority (m_Properties msg) →
  (has_room q msg = true → inserted q (push msg q) msg) ∧
  (has_room q msg = false → push msg q = q) ∧ wf_queue (push msg q) ∧ same_settings q (push msg q).
Proof.
  intros Hwf Hmax Hst Hprio. pose proof Hwf as (Hm & [Hcount Hps] & Hcap & Hl).
  unfold has_room, push. rewrite Hst, decide_False by lia.
  case_decide as Hroom; [rewrite bool_decide_true by done|rewrite bool_decide_false by done].
  - assert (inserted q (set_fifo (q_messages q ++ [msg]) (q_count q + 1) q) msg) as Hins.
    { exists (q_messages q), []. rewrite !contents_fifo by done. rewrite app_nil_r.
      split; [done|]. split; [done|]. split; [|constructor].
      rewrite contents_fifo in Hps by done. eapply Forall_impl; [exact Hps|].
      intros m Hpm. cbn beta in Hpm. unfold effective_priority. rewrite Hmax. lia. }
    split; [done|]. split; [done|]. split; [|done].
    split; [done|]. split.
    { split; [|by eapply inserted_priorities].
      rewrite (length_inserted q _ msg) by done. cbn [q_count set_fifo]. lia. }
    split; [|done]. cbn. rewrite length_app. cbn. lia.
  - done.
Qed.

Lemma push_unlimited_spec (q : Queue) (msg : Message) :
  wf_queue q → q_maxPriority q < 255 → q_stopped q = false →
  0 <= Priority (m_Properties msg) →
  ∃ q', push_unlimited msg q = Ok q' ∧ wf_queue q' ∧ same_settings q q' ∧
    (has_room q msg = true → inserted q q' msg) ∧
    (has_room q msg = false → contents q' = contents q).
Proof.
  intros Hwf Hmax Hst Hprio. pose proof Hwf as (Hm & _).
  unfold push_unlimited. case_decide as Hp.
  - destruct (has_room q msg) eqn:Hroom.
    + destruct (pushPriority_room q msg) as (q' & -> & ? & ? & ?); try done.
      by exists q'.
    + destruct (pushPriority_full q msg) as (q' & -> & ? & ? & ?); try done.
      by exists q'.
  - destruct (push_fifo_ok q msg) as (Hin & Hout & ? & ?); try done; [lia|].
    exists (push msg q). split; [done|]. split; [done|]. split; [done|]. split; [done|].
    intros Hroom. by rewrite Hout.
Qed.

(** C20. Pushing to a live queue never blocks and never reorders: the message is
    put behind every queued message of its (clamped) priority or higher and
    ahead of all the others, first in first out within a priority; when the
    buffer of its level is full, the message alone is dropped and nothing else
    changes.  The queue's invariant and settings are kept. *)
Theorem push_in_priority_order (q : Queue) (msg : Message) :
  wf_queue q → q_maxPriority q < 255 → q_stopped q = false →
  0 <= Priority (m_Properties msg) →
  ∃ q', push_unlimited msg q = Ok q' ∧ wf_queue q' ∧ same_settings q q' ∧
    (has_room q msg = true → inserted q q' msg) ∧
    (has_room q msg = false → contents q' = contents q).
Proof. apply push_unlimited_spec. Qed.

Lemma levels_down_head n q m rest :
  wf_queue q → levels_down n (q_priorityMessages q) = m :: rest →
  Forall (λ x, effective_priority q x <= effective_priority q m) rest.
Proof.
  intros Hwf. induction n as [|n IH]; cbn [levels_down]; intros E.
  all: destruct (level (q_priorityMessages q) _) as [|m' ms] eqn:El; [try done; by apply IH|].
  all: injection E as -> <-; apply Forall_forall; intros x Hx.
  all: rewrite (level_wf q _ m Hwf) by (rewrite El; by left).
  - rewrite app_nil_r in Hx. rewrite (level_wf q 0 x Hwf); [lia|]. rewrite El. by right.
  - apply elem_of_app in Hx as [Hx|(i & ? & Hx)%elem_levels_down].
    + rewrite (level_wf q (S n) x Hwf); [lia|]. rewrite El. by right.
    + rewrite (level_wf q i x Hwf) by done. lia.
Qed.

(** C30. Popping returns the oldest message of the highest priority queued, and
    removes only that message; it returns nothing exactly when the queue is
    empty.  The invariant is kept, so [Len] is the number of messages. *)
Theorem pop_highest_priority (q : Queue) :
  wf_queue q →
  wf_queue (Pop q).2 ∧ Len q = Z.of_nat (length (contents q)) ∧
  match (Pop q).1 with
  | Some msg =>
      contents q = msg :: contents (Pop q).2 ∧
      Forall (λ m, effective_priority q m <= effective_priority q msg) (contents (Pop q).2)
  | None => contents q = [] ∧ (Pop q).2 = q
  end.
Proof.
  intros Hwf. pose proof Hwf as (Hm & [Hcount Hps] & _).
  split; [by apply Pop_wf|]. split; [done|].
  pose proof (Pop_contents q) as Hc. destruct (Pop q) as [[msg|] q']; cbn; [|done].
  destruct Hc as [Hc _]. split; [done|]. unfold contents in Hc at 1. case_decide as Hp.
  - by apply levels_down_head in Hc.
  - assert (q_maxPriority q = 0) as H0 by lia.
    rewrite contents_fifo in Hps by done. rewrite Hc in Hps. apply Forall_cons in Hps as [Hmsg Hps].
    eapply Forall_impl; [exact Hps|]. intros x Hx. cbn beta in Hx.
    unfold effective_priority. rewrite H0. lia.
Qed.

Lemma StreamPurge_spec (q : Queue) :
  wf_queue q →
  let '(taken, n, q') := StreamPurge q in
  taken = contents q ∧ n = Z.of_nat (length (contents q)) mod 2 ^ 32 ∧
  contents q' = [] ∧ q_count q' = 0 ∧ same_settings q q'.
Proof.
  intros (Hm & [Hcount _] & _). unfold StreamPurge. revert Hcount. unfold contents at 1 2 3.
  case_decide as Hp; intros Hcount.
  - destruct (purge_levels_spec (Z.to_nat (q_maxPriority q)) (q_priorityMessages q)) as (Ht & Hl & _).
    destruct (purge_levels _ _) as [taken ls]. cbn [fst snd] in *. subst taken.
    split; [done|]. split; [done|]. split; [|split; [cbn; lia|done]].
    unfold contents. cbn [set_levels q_maxPriority q_priorityMessages].
    rewrite decide_True by done. by apply levels_down_nil.
  - split; [done|]. split; [done|]. split; [|split; [cbn; lia|done]].
    unfold contents. cbn. by rewrite decide_False by done.
Qed.

(** A purge hands every message to the callback exactly once, in delivery
    order, empties the queue and returns their number (modulo 2^32). *)
Theorem purge_empties (q : Queue) :
  wf_queue q →
  let '(taken, n, q') := StreamPurge q in
  taken = contents q ∧ n = Z.of_nat (length (contents q)) mod 2 ^ 32 ∧
  contents q' = [] ∧ q_count q' = 0 ∧ same_settings q q'.
Proof. apply StreamPurge_spec. Qed.

(** With a maximum priority of 255, which [OTTERMQ_MAX_PRIORITY] allows, the
    first push to the queue panics. *)
Lemma push_panics_at_priority_255 q msg :
  q_maxPriority q = 255 → q_stopped q = false → push_unlimited msg q = Err DivideByZero.
Proof.
  intros Hmax Hst. unfold push_unlimited, pushPriority, bufferPerPriority.
  rewrite Hst, Hmax. cbn. by destruct (_ !! _).
Qed.

(** ** A concrete queue *)

Definition sample_message (id : string) (priority : Z) : Message :=
  MkMessage id 0 [] (set_Priority priority empty_props) "" "orders".

Definition sample_queue : Queue :=
  set_declared NewQueueProperties 5 0 "" (NewQueue "orders" 1000).

Definition push_all (msgs : list Message) (q : Queue) : res go_panic Queue :=
  fold_left (λ r m, q ← r; push_unlimited m q) msgs (Ok q).

Example priority_order :
  res_map (λ q, m_ID <$> contents q)
    (push_all [sample_message "a" 1; sample_message "b" 9; sample_message "c" 1;
               sample_message "d" 3] sample_queue) = Ok ["b"; "d"; "a"; "c"]%string.
Proof. by vm_compute. Qed.

Lemma sample_queue_wf : wf_queue sample_queue.
Proof. by repeat split. Qed.

Lemma push_in_priority_order_witness :
  ∃ q', push_unlimited (sample_message "a" 9) sample_queue = Ok q' ∧ contents q' = [sample_message "a" 9].
Proof.
  destruct (push_in_priority_order sample_queue (sample_message "a" 9) sample_queue_wf
    ltac:(done) ltac:(done) ltac:(done)) as (q' & Hq & _ & _ & Hin & _).
  exists q'. split; [done|]. destruct (Hin eq_refl) as (a & b & E1 & E2 & _).
  vm_compute in E1. symmetry in E1. by apply app_eq_nil in E1 as [-> ->].
Defined.

Definition sample_loaded : Queue :=
  match push_all [sample_message "a" 1; sample_message "b" 9; sample_message "c" 1] sample_queue with
  | Ok q => q
  | Err _ => sample_queue
  end.

Lemma sample_loaded_wf : wf_queue sample_loaded.
Proof. unfold wf_queue. apply (bool_decide_unpack _). by vm_compute. Qed.

Lemma pop_highest_priority_witness :
  (Pop sample_loaded).1 = Some (sample_message "b" 9) ∧
  contents sample_loaded = sample_message "b" 9 :: contents (Pop sample_loaded).2.
Proof.
  pose proof (pop_highest_priority sample_loaded sample_loaded_wf) as (_ & _ & H).
  assert ((Pop sample_loaded).1 = Some (sample_message "b" 9)) as E by by vm_compute.
  rewrite E in H. destruct H as [H _]. by split.
Defined.

