(* ===== verification/Deliveries.v ===== *)
(** * Unacknowledged deliveries: vhost/delivery.go and the popping part of ack.go

    The delivery state of one channel: its tag counter, the deliveries that are
    still to be acknowledged and the indexes of them, quality of service and
    flow.  A [*DeliveryRecord] of the source is shared by the flat map and one
    index; as delivery tags are unique in a channel, a record's tag is its
    address here: [UnackedByTag] holds the records, the indexes hold tags. *)

From stdpp Require Import base list gmap strings.
From Stdlib Require Import ZArith Lia.
From S2P Require Import Prelude Bytes Values Properties Queue.

Local Open Scope Z_scope.

Record DeliveryRecord : Type := MkRecord {
  dr_DeliveryTag : Z;
  dr_ConsumerTag : string;
  dr_FromGet : bool;
  dr_QueueName : string;
  dr_Message : Message;
  dr_Persistent : bool;
  dr_QueueDeleted : bool;
  dr_ConsumerCancelled : bool;
}.

Definition set_QueueDeleted (r : DeliveryRecord) : DeliveryRecord :=
  MkRecord (dr_DeliveryTag r) (dr_ConsumerTag r) (dr_FromGet r) (dr_QueueName r) (dr_Message r)
    (dr_Persistent r) true (dr_ConsumerCancelled r).
Definition set_ConsumerCancelled (r : DeliveryRecord) : DeliveryRecord :=
  MkRecord (dr_DeliveryTag r) (dr_ConsumerTag r) (dr_FromGet r) (dr_QueueName r) (dr_Message r)
    (dr_Persistent r) (dr_QueueDeleted r) true.

Record ChannelDeliveryState : Type := MkChannel {
  LastDeliveryTag : Z;
  UnackedByConsumer : gmap string (gset Z);
  UnackedByGet : gset Z;
  UnackedByTag : gmap Z DeliveryRecord;
  GlobalPrefetchCount : Z;
  NextPrefetchCount : Z;
  PrefetchGlobal : bool;
  FlowActive : bool;
  FlowInitiatedByBroker : bool;
}.

(** The state [HandleBasicQos] and [GetOrCreateChannelDelivery] create. *)
Definition new_channel_state : ChannelDeliveryState := MkChannel 0 ∅ ∅ ∅ 0 0 false true false.

Definition set_unacked (byConsumer : gmap string (gset Z)) (byGet : gset Z)
    (byTag : gmap Z DeliveryRecord) (ch : ChannelDeliveryState) : ChannelDeliveryState :=
  MkChannel (LastDeliveryTag ch) byConsumer byGet byTag (GlobalPrefetchCount ch)
    (NextPrefetchCount ch) (PrefetchGlobal ch) (FlowActive ch) (FlowInitiatedByBroker ch).

Definition set_last_tag (tag : Z) (ch : ChannelDeliveryState) : ChannelDeliveryState :=
  MkChannel tag (UnackedByConsumer ch) (UnackedByGet ch) (UnackedByTag ch)
    (GlobalPrefetchCount ch) (NextPrefetchCount ch) (PrefetchGlobal ch) (FlowActive ch)
    (FlowInitiatedByBroker ch).

(** [ch.UnackedByConsumer[tag]], empty for a missing key. *)
Definition consumer_tags (ch : ChannelDeliveryState) (consumerTag : string) : gset Z :=
  default ∅ (UnackedByConsumer ch !! consumerTag).

(** ** Quality of service and flow *)

Definition qos_state (prefetchCount : Z) (global : bool) (ch : ChannelDeliveryState)
    : ChannelDeliveryState :=
  if global
  then MkChannel (LastDeliveryTag ch) (UnackedByConsumer ch) (UnackedByGet ch) (UnackedByTag ch)
         prefetchCount (NextPrefetchCount ch) true (FlowActive ch) (FlowInitiatedByBroker ch)
  else MkChannel (LastDeliveryTag ch) (UnackedByConsumer ch) (UnackedByGet ch) (UnackedByTag ch)
         (GlobalPrefetchCount ch) prefetchCount (PrefetchGlobal ch) (FlowActive ch)
         (FlowInitiatedByBroker ch).

Definition flow_state (flowActive byBroker : bool) (ch : ChannelDeliveryState)
    : ChannelDeliveryState :=
  MkChannel (LastDeliveryTag ch) (UnackedByConsumer ch) (UnackedByGet ch) (UnackedByTag ch)
    (GlobalPrefetchCount ch) (NextPrefetchCount ch) (PrefetchGlobal ch) flowActive byBroker.

(** [shouldThrottle]; a channel without state is never throttled. *)
Definition shouldThrottle (consumerTag : string) (prefetchCount : Z)
    (ch : option ChannelDeliveryState) : bool :=
  match ch with
  | None => false
  | Some ch =>
      let unackedChannel := Z.of_nat (size (UnackedByTag ch)) in
      let unackedConsumer := Z.of_nat (size (consumer_tags ch consumerTag)) in
      negb (FlowActive ch)
      || bool_decide (PrefetchGlobal ch = true ∧ 0 < GlobalPrefetchCount ch ∧
                      GlobalPrefetchCount ch <= unackedChannel)
      || bool_decide (PrefetchGlobal ch = false ∧ 0 < prefetchCount ∧
                      prefetchCount <= unackedConsumer)
  end.

(** ** Tracking deliveries *)

(** [ch.LastDeliveryTag++] on a [uint64]. *)
Definition next_tag (ch : ChannelDeliveryState) : Z := (LastDeliveryTag ch + 1) mod 2 ^ 64.

Definition is_persistent (msg : Message) : bool :=
  bool_decide (DeliveryMode (m_Properties msg) = PERSISTENT).

(** [TrackDelivery]: a basic.get delivery. *)
Definition TrackDelivery (noAck : bool) (msg : Message) (queue : string)
    (ch : ChannelDeliveryState) : Z * ChannelDeliveryState :=
  let deliveryTag := next_tag ch in
  let ch := set_last_tag deliveryTag ch in
  if noAck then (deliveryTag, ch) else
  let record := MkRecord deliveryTag "" true queue msg (is_persistent msg) false false in
  (deliveryTag,
   set_unacked (UnackedByConsumer ch) ({[deliveryTag]} ∪ UnackedByGet ch)
     (<[deliveryTag := record]> (UnackedByTag ch)) ch).

(** The part of [deliverToConsumer] under [ch.mu]: the delivery's tag, and its
    record when acknowledgements are expected. *)
Definition track_consumer_delivery (noAck : bool) (consumerTag queueName : string) (msg : Message)
    (ch : ChannelDeliveryState) : Z * ChannelDeliveryState :=
  let tag := next_tag ch in
  let ch := set_last_tag tag ch in
  if noAck then (tag, ch) else
  let record := MkRecord tag consumerTag false queueName msg (is_persistent msg) false false in
  (tag,
   set_unacked (<[consumerTag := {[tag]} ∪ consumer_tags ch consumerTag]> (UnackedByConsumer ch))
     (UnackedByGet ch) (<[tag := record]> (UnackedByTag ch)) ch).

(** ** Removing deliveries *)

Definition untrackDeliverySource (record : DeliveryRecord) (ch : ChannelDeliveryState)
    : ChannelDeliveryState :=
  if dr_FromGet record then
    set_unacked (UnackedByConsumer ch) (UnackedByGet ch ∖ {[dr_DeliveryTag record]})
      (UnackedByTag ch) ch
  else
    match UnackedByConsumer ch !! dr_ConsumerTag record with
    | Some consumerMap =>
        let consumerMap := consumerMap ∖ {[dr_DeliveryTag record]} in
        let byConsumer :=
          if decide (size consumerMap = 0%nat)
          then delete (dr_ConsumerTag record) (UnackedByConsumer ch)
          else <[dr_ConsumerTag record := consumerMap]> (UnackedByConsumer ch) in
        set_unacked byConsumer (UnackedByGet ch) (UnackedByTag ch) ch
    | None => ch
    end.

Definition deleteUnackedDelivery (record : DeliveryRecord) (ch : ChannelDeliveryState)
    : ChannelDeliveryState :=
  untrackDeliverySource record
    (set_unacked (UnackedByConsumer ch) (UnackedByGet ch)
      (delete (dr_DeliveryTag record) (UnackedByTag ch)) ch).

(** The channel exception of an unknown delivery tag. *)
Inductive ack_err : Type :=
| UnknownDeliveryTag (deliveryTag methodID : Z).

Section ordered.
(** The order in which Go's [range] visits a map: any order. *)
Variable range : gmap Z DeliveryRecord → list (Z * DeliveryRecord).

(** The records removed, in the order they were visited. *)
Definition popUnackedRecords (deliveryTag : Z) (multiple : bool) (methodID : Z)
    (ch : option ChannelDeliveryState)
    : res ack_err (list DeliveryRecord * option ChannelDeliveryState) :=
  match ch with
  | None =>
      if decide (multiple = true ∧ deliveryTag = 0) then Ok ([], None)
      else Err (UnknownDeliveryTag deliveryTag methodID)
  | Some ch =>
      if multiple then
        if decide (deliveryTag ≠ 0 ∧ UnackedByTag ch !! deliveryTag = None)
        then Err (UnknownDeliveryTag deliveryTag methodID)
        else
          let removed := filter (λ kv, deliveryTag = 0 ∨ kv.1 <= deliveryTag)
            (range (UnackedByTag ch)) in
          Ok (removed.*2, Some (foldl (λ ch kv, deleteUnackedDelivery kv.2 ch) ch removed))
      else
        match UnackedByTag ch !! deliveryTag with
        | None => Err (UnknownDeliveryTag deliveryTag methodID)
        | Some record => Ok ([record], Some (deleteUnackedDelivery record ch))
        end
  end.

(** [fetchUnackedMessages] *)
Definition fetchUnackedMessages (ch : ChannelDeliveryState) : list DeliveryRecord :=
  filter (λ r, dr_QueueDeleted r = false) ((range (UnackedByTag ch)).*2).

(** One channel's part of [detachQueueDeliveriesLocked]. *)
Definition detach_queue_record (queueName : string) (ch : ChannelDeliveryState)
    (kv : Z * DeliveryRecord) : ChannelDeliveryState :=
  let record := kv.2 in
  if decide (dr_QueueName record ≠ queueName ∨ dr_QueueDeleted record = true) then ch else
  untrackDeliverySource (set_QueueDeleted record)
    (set_unacked (UnackedByConsumer ch) (UnackedByGet ch)
      (<[kv.1 := set_QueueDeleted record]> (UnackedByTag ch)) ch).

Definition detachQueueDeliveries (queueName : string) (ch : ChannelDeliveryState)
    : ChannelDeliveryState :=
  foldl (detach_queue_record queueName) ch (range (UnackedByTag ch)).
End ordered.

(** The records of a cancelled consumer are marked where they are shared, and
    leave its index. *)
Definition detachConsumerDeliveries (consumerTag : string) (ch : ChannelDeliveryState)
    : ChannelDeliveryState :=
  let tags := consumer_tags ch consumerTag in
  set_unacked (delete consumerTag (UnackedByConsumer ch)) (UnackedByGet ch)
    (map_imap (λ tag r, Some (if decide (tag ∈ tags) then set_ConsumerCancelled r else r))
      (UnackedByTag ch)) ch.

(** basic.recover clears the indexes. *)
Definition clear_unacked (ch : ChannelDeliveryState) : ChannelDeliveryState := set_unacked ∅ ∅ ∅ ch.

(** ** The invariant of the indexes *)

(** A delivery its consumer is still charged with. *)
Definition live_consumer (r : DeliveryRecord) : bool :=
  negb (dr_FromGet r) && negb (dr_QueueDeleted r) && negb (dr_ConsumerCancelled r).

(** Every record is filed under its own tag, given out before; each index holds
    exactly the tags of its records that are still live, and no consumer has an
    empty index. *)
Definition wf_channel (ch : ChannelDeliveryState) : Prop :=
  0 <= LastDeliveryTag ch < 2 ^ 64 ∧
  map_Forall (λ t r, dr_DeliveryTag r = t ∧ 1 <= t <= LastDeliveryTag ch) (UnackedByTag ch) ∧
  (∀ c t, t ∈ consumer_tags ch c ↔
     ∃ r, UnackedByTag ch !! t = Some r ∧ live_consumer r = true ∧ dr_ConsumerTag r = c) ∧
  (∀ t, t ∈ UnackedByGet ch ↔
     ∃ r, UnackedByTag ch !! t = Some r ∧ dr_FromGet r = true ∧ dr_QueueDeleted r = false) ∧
  map_Forall (λ _ s, s ≠ ∅) (UnackedByConsumer ch).

Lemma live_consumer_spec r :
  live_consumer r = true ↔
  dr_FromGet r = false ∧ dr_QueueDeleted r = false ∧ dr_ConsumerCancelled r = false.
Proof. unfold live_consumer. destruct r as [? ? [] ? ? ? [] []]; cbn; naive_solver. Qed.

Lemma untrack_spec r ch :
  let ch' := untrackDeliverySource r ch in
  UnackedByTag ch' = UnackedByTag ch ∧ LastDeliveryTag ch' = LastDeliveryTag ch ∧
  UnackedByGet ch' =
    (if dr_FromGet r then UnackedByGet ch ∖ {[dr_DeliveryTag r]} else UnackedByGet ch) ∧
  (∀ c, consumer_tags ch' c =
    if decide (dr_FromGet r = false ∧ c = dr_ConsumerTag r)
    then consumer_tags ch c ∖ {[dr_DeliveryTag r]} else consumer_tags ch c) ∧
  (map_Forall (λ _ s, s ≠ ∅) (UnackedByConsumer ch) →
   map_Forall (λ _ s, s ≠ ∅) (UnackedByConsumer ch')).
Proof.
  unfold untrackDeliverySource, consumer_tags. destruct (dr_FromGet r) eqn:Hg; cbn.
  { by split_and!. }
  destruct (UnackedByConsumer ch !! dr_ConsumerTag r) as [s|] eqn:E; cbn.
  - repeat (split; [done|]). split.
    + intros c. case_decide as Hs; case_decide as Hc.
      * destruct Hc as [_ ->]. rewrite lookup_delete_eq, E. cbn.
        apply size_empty_inv in Hs. set_solver.
      * rewrite lookup_delete_ne by naive_solver. done.
      * destruct Hc as [_ ->]. by rewrite lookup_insert_eq, E.
      * rewrite lookup_insert_ne by naive_solver. done.
    + intros Hne. case_decide as Hs; [by apply map_Forall_delete|].
      apply map_Forall_insert_2; [|done]. intros Heq. apply Hs. by rewrite Heq, size_empty.
  - repeat (split; [done|]). split; [|done]. intros c. case_decide as Hc; [|done].
    destruct Hc as [_ ->]. rewrite E. cbn. set_solver.
Qed.

Lemma deleteUnackedDelivery_tags r ch :
  UnackedByTag (deleteUnackedDelivery r ch) = delete (dr_DeliveryTag r) (UnackedByTag ch).
Proof. unfold deleteUnackedDelivery. by rewrite (proj1 (untrack_spec r _)). Qed.

(** Looking for another tag's record is not affected by a deletion. *)
Lemma ex_delete (m : gmap Z DeliveryRecord) t t' (P : DeliveryRecord → Prop) :
  ((∃ r, m !! t' = Some r ∧ P r) ∧ t' ≠ t) ↔ ∃ r, delete t m !! t' = Some r ∧ P r.
Proof.
  split.
  - intros [(r & Hr & HP) Hne]. exists r. by rewrite lookup_delete_ne.
  - intros (r & [Hne Hr]%lookup_delete_Some & HP). split; [|done]. by exists r.
Qed.

Lemma deleteUnackedDelivery_wf t r ch :
  wf_channel ch → UnackedByTag ch !! t = Some r → wf_channel (deleteUnackedDelivery r ch).
Proof.
  intros (Hlast & Htags & Hcons & Hget & Hne) Hr.
  destruct (Htags _ _ Hr) as [Ht _].
  set (ch0 := set_unacked (UnackedByConsumer ch) (UnackedByGet ch)
    (delete (dr_DeliveryTag r) (UnackedByTag ch)) ch).
  destruct (untrack_spec r ch0) as (E1 & E2 & E3 & E4 & E5).
  unfold deleteUnackedDelivery. fold ch0. split; [by rewrite E2|].
  split; [rewrite E1, E2; by apply map_Forall_delete|]. split; [|split; [|by apply E5]].
  - intros c t'. rewrite E4, E1. cbn [ch0 UnackedByTag set_unacked]. rewrite Ht.
    change (consumer_tags ch0 c) with (consumer_tags ch c).
    assert (t' ∈ consumer_tags ch c ∖ {[t]} ↔ ∃ r0, delete t (UnackedByTag ch) !! t' = Some r0 ∧
      live_consumer r0 = true ∧ dr_ConsumerTag r0 = c) as H.
    { rewrite elem_of_difference, elem_of_singleton, Hcons. by apply ex_delete. }
    destruct (decide (dr_FromGet r = false ∧ c = dr_ConsumerTag r)) as [Hd|Hd]; [exact H|].
    rewrite <-H, elem_of_difference, elem_of_singleton.
    split; [|by intros [? _]]. intros Hin. split; [done|]. intros ->.
    apply Hcons in Hin as (r' & Hr' & Hl & Hc). rewrite Hr in Hr'. injection Hr' as <-.
    apply live_consumer_spec in Hl as [? _]. by apply Hd.
  - intros t'. rewrite E3, E1. cbn [ch0 UnackedByGet UnackedByTag set_unacked]. rewrite Ht.
    assert (t' ∈ UnackedByGet ch ∖ {[t]} ↔ ∃ r0, delete t (UnackedByTag ch) !! t' = Some r0 ∧
      dr_FromGet r0 = true ∧ dr_QueueDeleted r0 = false) as H.
    { rewrite elem_of_difference, elem_of_singleton, Hget. by apply ex_delete. }
    destruct (dr_FromGet r) eqn:Hg; [exact H|]. rewrite <-H, elem_of_difference, elem_of_singleton.
    split; [|by intros [? _]]. intros Hin. split; [done|]. intros ->.
    apply Hget in Hin as (r' & Hr' & ? & _). rewrite Hr in Hr'. injection Hr' as <-. congruence.
Qed.

Lemma next_tag_small ch : 0 <= LastDeliveryTag ch < 2 ^ 64 - 1 → next_tag ch = LastDeliveryTag ch + 1.
Proof. intros. unfold next_tag. by rewrite Z.mod_small by lia. Qed.

Lemma fresh_tag ch t :
  wf_channel ch → LastDeliveryTag ch < t → UnackedByTag ch !! t = None.
Proof.
  intros (_ & Htags & _) Ht. destruct (UnackedByTag ch !! t) as [r|] eqn:E; [|done].
  destruct (Htags _ _ E) as [_ ?]. lia.
Qed.

(** A record inserted under a fresh tag is the only change to what is found. *)
Lemma ex_insert (m : gmap Z DeliveryRecord) t t' r (P : DeliveryRecord → Prop) :
  m !! t = None →
  (∃ r', <[t := r]> m !! t' = Some r' ∧ P r') ↔ (t' = t ∧ P r) ∨ ∃ r', m !! t' = Some r' ∧ P r'.
Proof.
  intros Ht. destruct (decide (t' = t)) as [->|].
  - rewrite lookup_insert_eq, Ht. split.
    + intros (r' & [= <-] & HP). by left.
    + intros [[_ HP]|(r' & ? & _)]; [by exists r|done].
  - rewrite lookup_insert_ne by done. split; [by right|]. by intros [[? _]|].
Qed.

Lemma track_wf byConsumer byGet r ch :
  wf_channel ch → LastDeliveryTag ch < 2 ^ 64 - 1 →
  dr_DeliveryTag r = LastDeliveryTag ch + 1 →
  (∀ c t, t ∈ default ∅ (byConsumer !! c) ↔
     (t = dr_DeliveryTag r ∧ live_consumer r = true ∧ dr_ConsumerTag r = c) ∨ t ∈ consumer_tags ch c) →
  (∀ t, t ∈ byGet ↔ (t = dr_DeliveryTag r ∧ dr_FromGet r = true ∧ dr_QueueDeleted r = false) ∨
     t ∈ UnackedByGet ch) →
  map_Forall (λ (_ : string) s, s ≠ ∅) byConsumer →
  wf_channel (set_unacked byConsumer byGet (<[dr_DeliveryTag r := r]> (UnackedByTag ch))
    (set_last_tag (dr_DeliveryTag r) ch)).
Proof.
  intros Hwf Hlt Hr Hc Hg Hne.
  pose proof (fresh_tag ch (dr_DeliveryTag r) Hwf ltac:(lia)) as Hfresh.
  destruct Hwf as (Hlast & Htags & Hcons & Hget & _).
  split; [cbn; lia|]. split; [|split; [|split; [|done]]]; cbn.
  - apply map_Forall_insert_2; [split; [done|lia]|].
    eapply map_Forall_impl; [exact Htags|]. intros t r' [? ?]. split; [done|lia].
  - intros c t. unfold consumer_tags. cbn. rewrite Hc, ex_insert, Hcons by done. done.
  - intros t. rewrite Hg, ex_insert, Hget by done. done.
Qed.

Lemma TrackDelivery_wf noAck msg queue ch :
  wf_channel ch → LastDeliveryTag ch < 2 ^ 64 - 1 → wf_channel (TrackDelivery noAck msg queue ch).2.
Proof.
  intros Hwf Hlt. pose proof Hwf as (Hlast & Htags & Hcons & Hget & Hne).
  unfold TrackDelivery. rewrite next_tag_small by lia. destruct noAck; cbn.
  - split; [cbn; lia|]. split; [|done]. eapply map_Forall_impl; [exact Htags|].
    intros t r [? ?]. split; [done|cbn; lia].
  - eapply (track_wf _ _ (MkRecord (LastDeliveryTag ch + 1) "" true queue msg _ false false)); try done.
    + intros c t. split; [by right|]. by intros [(_ & ? & _)|].
    + intros t. cbn. rewrite elem_of_union, elem_of_singleton. tauto.
Qed.

Lemma track_consumer_delivery_wf noAck consumerTag queueName msg ch :
  wf_channel ch → LastDeliveryTag ch < 2 ^ 64 - 1 →
  wf_channel (track_consumer_delivery noAck consumerTag queueName msg ch).2.
Proof.
  intros Hwf Hlt. pose proof Hwf as (Hlast & Htags & Hcons & Hget & Hne).
  unfold track_consumer_delivery. rewrite next_tag_small by lia. destruct noAck; cbn.
  - split; [cbn; lia|]. split; [|done]. eapply map_Forall_impl; [exact Htags|].
    intros t r [? ?]. split; [done|cbn; lia].
  - eapply (track_wf _ _ (MkRecord (LastDeliveryTag ch + 1) consumerTag false queueName msg _ false false));
      try done.
    + intros c t. cbn. destruct (decide (c = consumerTag)) as [->|].
      * rewrite lookup_insert_eq. cbn. rewrite elem_of_union, elem_of_singleton. tauto.
      * rewrite lookup_insert_ne by done. split; [by right|]. by intros [(_ & _ & ?)|].
    + intros t. split; [by right|]. by intros [(_ & ? & _)|].
    + apply map_Forall_insert_2; [|done]. set_solver.
Qed.

Lemma detach_queue_record_wf queueName ch t r :
  wf_channel ch → UnackedByTag ch !! t = Some r →
  wf_channel (detach_queue_record queueName ch (t, r)).
Proof.
  intros Hwf Hr. unfold detach_queue_record. cbn [fst snd]. case_decide as Hd; [done|].
  destruct Hwf as (Hlast & Htags & Hcons & Hget & Hne). destruct (Htags _ _ Hr) as [Ht Hrange].
  set (ch0 := set_unacked _ _ _ ch).
  destruct (untrack_spec (set_QueueDeleted r) ch0) as (E1 & E2 & E3 & E4 & E5).
  assert (∀ t' (P : DeliveryRecord → Prop), ¬ P (set_QueueDeleted r) →
    (∃ r', UnackedByTag ch0 !! t' = Some r' ∧ P r') ↔
    (∃ r', UnackedByTag ch !! t' = Some r' ∧ P r') ∧ t' ≠ t) as Hex.
  { intros t' P HP. cbn [ch0 UnackedByTag set_unacked]. split.
    - intros (r' & Hl & HP'). destruct (decide (t' = t)) as [->|].
      + rewrite lookup_insert_eq in Hl. injection Hl as <-. done.
      + rewrite lookup_insert_ne in Hl by done. split; [by exists r'|done].
    - intros [(r' & Hl & HP') ?]. exists r'. by rewrite lookup_insert_ne. }
  split; [by rewrite E2|]. split.
  { rewrite E1, E2. apply map_Forall_insert_2; [done|]. done. }
  split; [|split; [|by apply E5]].
  - intros c t'. rewrite E4, E1.
    rewrite (Hex t' (λ r, live_consumer r = true ∧ dr_ConsumerTag r = c)), <-Hcons.
    2: { intros [(_ & ? & _)%live_consumer_spec _]. done. }
    change (consumer_tags ch0 c) with (consumer_tags ch c). cbn [dr_FromGet dr_ConsumerTag dr_DeliveryTag set_QueueDeleted].
    rewrite Ht. destruct (decide _) as [Hdec|Hdec].
    + by rewrite elem_of_difference, elem_of_singleton.
    + split; [|by intros [? _]]. intros Hin. split; [done|]. intros ->.
      apply Hcons in Hin as (r' & Hr' & (? & _ & _)%live_consumer_spec & ?).
      rewrite Hr in Hr'. injection Hr' as <-. by apply Hdec.
  - intros t'. rewrite E3, E1.
    rewrite (Hex t' (λ r, dr_FromGet r = true ∧ dr_QueueDeleted r = false)), <-Hget.
    2: { by intros [_ ?]. }
    cbn [dr_FromGet dr_DeliveryTag set_QueueDeleted ch0 UnackedByGet set_unacked]. rewrite Ht.
    destruct (dr_FromGet r) eqn:Hg.
    + by rewrite elem_of_difference, elem_of_singleton.
    + split; [|by intros [? _]]. intros Hin. split; [done|]. intros ->.
      apply Hget in Hin as (r' & Hr' & ? & _). rewrite Hr in Hr'. injection Hr' as <-. congruence.
Qed.

Lemma detachConsumerDeliveries_lookup consumerTag ch t :
  UnackedByTag (detachConsumerDeliveries consumerTag ch) !! t =
    (λ r, if decide (t ∈ consumer_tags ch consumerTag) then set_ConsumerCancelled r else r)
      <$> UnackedByTag ch !! t.
Proof.
  unfold detachConsumerDeliveries. cbn. rewrite map_lookup_imap.
  by destruct (UnackedByTag ch !! t).
Qed.

Lemma detachConsumerDeliveries_wf consumerTag ch :
  wf_channel ch → wf_channel (detachConsumerDeliveries consumerTag ch).
Proof.
  intros (Hlast & Htags & Hcons & Hget & Hne). split; [done|]. split; [|split; [|split]].
  - intros t r. rewrite detachConsumerDeliveries_lookup. intros (r0 & Hr0 & ->)%fmap_Some.
    destruct (Htags _ _ Hr0). by case_decide.
  - intros c t. setoid_rewrite detachConsumerDeliveries_lookup.
    unfold consumer_tags at 1. cbn. destruct (decide (c = consumerTag)) as [->|Hc].
    + rewrite lookup_delete_eq. cbn. split; [by intros ?%elem_of_empty|].
      intros (r & (r0 & Hr0 & ->)%fmap_Some & Hl & Hct). case_decide as Hin.
      * by apply live_consumer_spec in Hl as (_ & _ & ?).
      * destruct Hin. apply Hcons. by exists r0.
    + rewrite lookup_delete_ne by done. change (default ∅ _) with (consumer_tags ch c).
      rewrite Hcons. split.
      * intros (r & Hr & Hl & Hct). exists r. rewrite Hr. cbn. rewrite decide_False; [done|].
        intros (r' & Hr' & _ & ?)%Hcons. rewrite Hr in Hr'. injection Hr' as <-. congruence.
      * intros (r & (r0 & Hr0 & ->)%fmap_Some & Hl & Hct). exists r0. case_decide; [|done].
        by apply live_consumer_spec in Hl as (_ & _ & ?).
  - intros t. setoid_rewrite detachConsumerDeliveries_lookup. cbn. rewrite Hget. split.
    + intros (r & Hr & Hg & Hq). rewrite Hr. eexists. split; [done|]. by case_decide.
    + intros (r & (r0 & Hr0 & ->)%fmap_Some & Hg & Hq). exists r0. by case_decide.
  - cbn. by apply map_Forall_delete.
Qed.

(** ** Visiting the records *)

Section visits.
Variable range : gmap Z DeliveryRecord → list (Z * DeliveryRecord).
Hypothesis range_visits : ∀ m, range m ≡ₚ map_to_list m.

Lemma range_elem m t r : (t, r) ∈ range m ↔ m !! t = Some r.
Proof. by rewrite range_visits, elem_of_map_to_list. Qed.

Lemma range_NoDup m : NoDup (range m).*1.
Proof. rewrite range_visits. apply NoDup_fst_map_to_list. Qed.

Lemma foldl_delete l : ∀ ch, wf_channel ch → NoDup l.*1 →
  (∀ t r, (t, r) ∈ l → UnackedByTag ch !! t = Some r) →
  let ch' := foldl (λ ch kv, deleteUnackedDelivery kv.2 ch) ch l in
  wf_channel ch' ∧ ∀ t, UnackedByTag ch' !! t = if decide (t ∈ l.*1) then None else UnackedByTag ch !! t.
Proof.
  induction l as [|[t0 r0] l IH]; intros ch Hwf Hnd Hin; cbn [foldl fmap list_fmap fst snd].
  { split; [done|]. intros t. by rewrite decide_False by apply not_elem_of_nil. }
  pose proof (Hin t0 r0 ltac:(by left)) as Hr0. apply NoDup_cons in Hnd as [Hnew Hnd].
  pose proof Hwf as (_ & Htags & _). destruct (Htags _ _ Hr0) as [Ht0 _].
  destruct (IH (deleteUnackedDelivery r0 ch)) as [Hwf' Hl].
  - by eapply deleteUnackedDelivery_wf.
  - done.
  - intros t r Htr. rewrite deleteUnackedDelivery_tags, Ht0.
    rewrite lookup_delete_ne; [apply Hin; by right|].
    intros <-. apply Hnew. apply list_elem_of_fmap. by exists (t0, r).
  - split; [done|]. intros t. rewrite Hl, deleteUnackedDelivery_tags, Ht0. cbn [fst].
    destruct (decide (t = t0)) as [->|].
    + rewrite lookup_delete_eq. rewrite (decide_True (P := t0 ∈ t0 :: _)) by (by left).
      by case_decide.
    + rewrite lookup_delete_ne by done. apply decide_ext. rewrite elem_of_cons. naive_solver.
Qed.

Lemma detach_queue_record_lookup queueName ch t r t' :
  UnackedByTag ch !! t = Some r →
  UnackedByTag (detach_queue_record queueName ch (t, r)) !! t' =
    (λ x, if decide (t' = t ∧ dr_QueueName x = queueName) then set_QueueDeleted x else x)
      <$> UnackedByTag ch !! t'.
Proof.
  intros Hr. unfold detach_queue_record. cbn [fst snd]. case_decide as Hd.
  - destruct (UnackedByTag ch !! t') as [x|] eqn:Hx; [|done]. cbn. case_decide as Hc; [|done].
    destruct Hc as [-> Hq]. rewrite Hr in Hx. injection Hx as <-. destruct Hd as [|Hd]; [done|].
    unfold set_QueueDeleted. rewrite <-Hd. by destruct r.
  - rewrite (proj1 (untrack_spec _ _)). cbn. destruct (decide (t' = t)) as [->|].
    + rewrite lookup_insert_eq, Hr. cbn. rewrite decide_True; [done|]. split; [done|].
      destruct (decide (dr_QueueName r = queueName)); tauto.
    + rewrite lookup_insert_ne by done. destruct (UnackedByTag ch !! t'); [|done]. cbn.
      by rewrite decide_False by tauto.
Qed.

Lemma foldl_detach queueName l : ∀ ch, wf_channel ch → NoDup l.*1 →
  (∀ t r, (t, r) ∈ l → UnackedByTag ch !! t = Some r) →
  wf_channel (foldl (detach_queue_record queueName) ch l) ∧
  ∀ t, UnackedByTag (foldl (detach_queue_record queueName) ch l) !! t =
    (λ x, if decide (t ∈ l.*1 ∧ dr_QueueName x = queueName) then set_QueueDeleted x else x)
      <$> UnackedByTag ch !! t.
Proof.
  induction l as [|[t0 r0] l IH]; intros ch Hwf Hnd Hin; cbn [foldl].
  { split; [done|]. intros t. destruct (UnackedByTag ch !! t); [|done]. cbn.
    rewrite decide_False; [done|]. intros [H _]. by apply elem_of_nil in H. }
  pose proof (Hin t0 r0 ltac:(by left)) as Hr0. apply NoDup_cons in Hnd as [Hnew Hnd].
  destruct (IH (detach_queue_record queueName ch (t0, r0))) as [Hwf' Hl].
  - by apply detach_queue_record_wf.
  - done.
  - intros t r Htr. rewrite detach_queue_record_lookup by done.
    rewrite (Hin t r) by (by right). cbn. rewrite decide_False; [done|]. intros [-> _].
    apply Hnew. apply list_elem_of_fmap. by exists (t0, r).
  - split; [done|]. intros t. rewrite Hl, detach_queue_record_lookup by done.
    destruct (UnackedByTag ch !! t) as [x|]; [|done]. cbn. f_equal.
    destruct (decide (t = t0 ∧ dr_QueueName x = queueName)) as [[-> Hq]|Hn].
    + rewrite (decide_False (P := t0 ∈ _ ∧ _)) by tauto.
      rewrite decide_True; [done|]. split; [by left|done].
    + apply decide_ext. cbn. rewrite elem_of_cons. tauto.
Qed.

Lemma detachQueueDeliveries_spec queueName ch :
  wf_channel ch →
  wf_channel (detachQueueDeliveries range queueName ch) ∧
  UnackedByTag (detachQueueDeliveries range queueName ch) =
    (λ x, if decide (dr_QueueName x = queueName) then set_QueueDeleted x else x)
      <$> UnackedByTag ch.
Proof.
  intros Hwf. unfold detachQueueDeliveries.
  destruct (foldl_detach queueName (range (UnackedByTag ch)) ch Hwf) as [Hwf' Hl].
  { apply range_NoDup. }
  { intros t r. by apply range_elem. }
  split; [done|]. apply map_eq. intros t. rewrite Hl, lookup_fmap.
  destruct (UnackedByTag ch !! t) as [x|] eqn:E; [|done]. cbn. f_equal. apply decide_ext.
  split; [tauto|]. intros ?. split; [|done]. apply list_elem_of_fmap. exists (t, x).
  split; [done|]. by apply range_elem.
Qed.

(** ** Acknowledgements *)

(** The deliveries an ack, nack or reject is about. *)
Definition selects (deliveryTag : Z) (multiple : bool) (t : Z) : Prop :=
  if multiple then deliveryTag = 0 ∨ t <= deliveryTag else t = deliveryTag.

#[export] Instance selects_dec d m t : Decision (selects d m t).
Proof. unfold selects. destruct m; apply _. Defined.

(** A tag the client may name: outstanding, or 0 for everything. *)
Definition acceptable (deliveryTag : Z) (multiple : bool) (ch : ChannelDeliveryState) : Prop :=
  (multiple = true ∧ deliveryTag = 0) ∨ is_Some (UnackedByTag ch !! deliveryTag).

Lemma pop_ok deliveryTag multiple methodID ch :
  wf_channel ch → acceptable deliveryTag multiple ch →
  ∃ removed ch', popUnackedRecords range deliveryTag multiple methodID (Some ch)
      = Ok (removed, Some ch') ∧ wf_channel ch' ∧ NoDup (dr_DeliveryTag <$> removed) ∧
    (∀ r, r ∈ removed ↔
       selects deliveryTag multiple (dr_DeliveryTag r) ∧ UnackedByTag ch !! dr_DeliveryTag r = Some r) ∧
    (∀ t, UnackedByTag ch' !! t =
       if decide (selects deliveryTag multiple t) then None else UnackedByTag ch !! t).
Proof.
  intros Hwf Hacc. pose proof Hwf as (_ & Htags & _).
  assert (∀ t r, UnackedByTag ch !! t = Some r → dr_DeliveryTag r = t) as Htag
    by (intros t r Hr; apply (Htags t r Hr)).
  unfold popUnackedRecords. destruct multiple.
  - rewrite decide_False by (unfold acceptable, is_Some in Hacc; naive_solver).
    set (sel := filter _ _).
    assert (∀ t r, (t, r) ∈ sel ↔ selects deliveryTag true t ∧ UnackedByTag ch !! t = Some r) as Hsel.
    { intros t r. unfold sel. rewrite list_elem_of_filter, range_elem. done. }
    assert (NoDup sel.*1) as Hnd.
    { eapply sublist_NoDup; [apply (range_NoDup (UnackedByTag ch))|].
      apply fmap_sublist, sublist_filter. }
    destruct (foldl_delete sel ch Hwf Hnd) as [Hwf' Hl]; [intros t r ?; by apply Hsel|].
    eexists _, _. split; [done|]. split; [done|]. split; [|split].
    + assert (dr_DeliveryTag <$> sel.*2 = sel.*1) as ->; [|done].
      rewrite <-list_fmap_compose. apply list_fmap_ext. intros i [t r] Hi. cbn.
      apply Htag. apply (Hsel t r). by apply list_elem_of_lookup_2 in Hi.
    + intros r. rewrite list_elem_of_fmap. split.
      * intros ([t r'] & -> & [Hs Hr]%Hsel). cbn. by rewrite (Htag _ _ Hr).
      * intros [Hs Hr]. exists (dr_DeliveryTag r, r). split; [done|]. by apply Hsel.
    + intros t. rewrite Hl. destruct (UnackedByTag ch !! t) as [r|] eqn:Hr.
      * apply decide_ext. rewrite list_elem_of_fmap. split.
        { intros ([t' r'] & -> & [? _]%Hsel). done. }
        { intros ?. exists (t, r). split; [done|]. by apply Hsel. }
      * by do 2 case_decide.
  - destruct Hacc as [[? _]|[r Hr]]; [done|]. rewrite Hr.
    eexists _, _. split; [done|]. split; [by eapply deleteUnackedDelivery_wf|].
    split; [|split].
    + apply NoDup_singleton.
    + intros r'. rewrite list_elem_of_singleton. cbn. split.
      * intros ->. by rewrite (Htag _ _ Hr).
      * intros [-> Hr']. congruence.
    + intros t. rewrite deleteUnackedDelivery_tags, (Htag _ _ Hr). cbn. case_decide.
      * subst. by rewrite lookup_delete_eq.
      * by rewrite lookup_delete_ne.
Qed.

Lemma pop_unknown deliveryTag multiple methodID ch :
  ¬ acceptable deliveryTag multiple ch →
  popUnackedRecords range deliveryTag multiple methodID (Some ch)
    = Err (UnknownDeliveryTag deliveryTag methodID).
Proof.
  unfold acceptable, is_Some, popUnackedRecords. intros Hn.
  destruct (UnackedByTag ch !! deliveryTag) as [r|] eqn:E; [naive_solver|].
  destruct multiple; [|done]. rewrite decide_True by naive_solver. done.
Qed.
End visits.

(** C15. An ack, nack or reject settles exactly the deliveries it names, each of
    them once.  With a tag that is outstanding (or multiple and tag 0, for all),
    the records popped are those of the tag, or of every tag up to it, without
    repetition; they leave the channel, every other delivery stays, the indexes
    stay consistent, and settling any of them a second time is refused as an
    unknown tag.  Any other tag is refused and changes nothing.  It holds in
    whatever order the map is visited. *)
Theorem ack_settles_exactly (range : gmap Z DeliveryRecord → list (Z * DeliveryRecord))
    (deliveryTag methodID : Z) (multiple : bool) (ch : ChannelDeliveryState) :
  (∀ m, range m ≡ₚ map_to_list m) → wf_channel ch →
  match popUnackedRecords range deliveryTag multiple methodID (Some ch) with
  | Ok (removed, Some ch') =>
      acceptable deliveryTag multiple ch ∧ wf_channel ch' ∧ NoDup (dr_DeliveryTag <$> removed) ∧
      (∀ r, r ∈ removed ↔ selects deliveryTag multiple (dr_DeliveryTag r) ∧
         UnackedByTag ch !! dr_DeliveryTag r = Some r) ∧
      (∀ t, ¬ selects deliveryTag multiple t → UnackedByTag ch' !! t = UnackedByTag ch !! t) ∧
      (∀ t multiple' methodID', selects deliveryTag multiple t → t ≠ 0 →
         popUnackedRecords range t multiple' methodID' (Some ch')
           = Err (UnknownDeliveryTag t methodID'))
  | Ok (_, None) => False
  | Err e => e = UnknownDeliveryTag deliveryTag methodID ∧ ¬ acceptable deliveryTag multiple ch
  end.
Proof.
  intros Hrange Hwf.
  assert (Decision (acceptable deliveryTag multiple ch)) as Hdec by (unfold acceptable; apply _).
  destruct (decide (acceptable deliveryTag multiple ch)) as [Hacc|Hacc].
  - destruct (pop_ok range Hrange deliveryTag multiple methodID ch Hwf Hacc)
      as (removed & ch' & -> & Hwf' & Hnd & Hin & Hl).
    split; [done|]. split; [done|]. split; [done|]. split; [done|]. split.
    + intros t Ht. rewrite Hl. by case_decide.
    + intros t multiple' methodID' Hs Ht. apply pop_unknown. intros [[_ ?]|[r Hr]]; [done|].
      rewrite Hl in Hr. by case_decide.
  - by rewrite pop_unknown by done.
Qed.

(** ** Every channel the broker can reach *)

(** What can happen to a channel's deliveries: basic.get and basic.deliver, a
    delivery whose frames could not be sent, an acknowledgement, the deletion of
    a queue, the end of a consumer, basic.qos, channel.flow and basic.recover.
    Tags are 64-bit: the counter is taken not to reach the end of its range. *)
Inductive channel_step : ChannelDeliveryState → ChannelDeliveryState → Prop :=
| step_get noAck msg queue ch :
    LastDeliveryTag ch < 2 ^ 64 - 1 → channel_step ch (TrackDelivery noAck msg queue ch).2
| step_deliver noAck consumerTag queueName msg ch :
    LastDeliveryTag ch < 2 ^ 64 - 1 →
    channel_step ch (track_consumer_delivery noAck consumerTag queueName msg ch).2
| step_send_failed t r ch :
    UnackedByTag ch !! t = Some r → channel_step ch (deleteUnackedDelivery r ch)
| step_settle range deliveryTag multiple methodID removed ch ch' :
    (∀ m, range m ≡ₚ map_to_list m) →
    popUnackedRecords range deliveryTag multiple methodID (Some ch) = Ok (removed, Some ch') →
    channel_step ch ch'
| step_queue_deleted range queueName ch :
    (∀ m, range m ≡ₚ map_to_list m) → channel_step ch (detachQueueDeliveries range queueName ch)
| step_consumer_cancelled consumerTag ch :
    channel_step ch (detachConsumerDeliveries consumerTag ch)
| step_qos prefetchCount global ch : channel_step ch (qos_state prefetchCount global ch)
| step_flow active byBroker ch : channel_step ch (flow_state active byBroker ch)
| step_recover ch : channel_step ch (clear_unacked ch).

Definition reachable_channel (ch : ChannelDeliveryState) : Prop := rtc channel_step new_channel_state ch.

Lemma new_channel_wf : wf_channel new_channel_state.
Proof.
  split; [done|]. split; [apply map_Forall_empty|]. split; [|split; [|apply map_Forall_empty]].
  - intros c t. split; [by intros ?%elem_of_empty|]. by intros (r & ? & _).
  - intros t. split; [by intros ?%elem_of_empty|]. by intros (r & ? & _).
Qed.

Lemma channel_step_wf ch ch' : wf_channel ch → channel_step ch ch' → wf_channel ch'.
Proof.
  intros Hwf Hs. destruct Hs as [noAck msg queue ch Hlt|noAck c q msg ch Hlt|t r ch Hr
    |range d m mid removed ch ch' Hrange Hpop|range q ch Hrange|c ch|n g ch|a b ch|ch].
  - by apply TrackDelivery_wf.
  - by apply track_consumer_delivery_wf.
  - by eapply deleteUnackedDelivery_wf.
  - assert (Decision (acceptable d m ch)) as Hdec by (unfold acceptable; apply _).
    destruct (decide (acceptable d m ch)) as [Hacc|Hacc].
    + destruct (pop_ok range Hrange d m mid ch Hwf Hacc) as (rs & ch'' & E & Hwf' & _).
      rewrite Hpop in E. by injection E as <- <-.
    + by rewrite pop_unknown in Hpop.
  - by apply detachQueueDeliveries_spec.
  - by apply detachConsumerDeliveries_wf.
  - by destruct g.
  - done.
  - destruct Hwf as (Hlast & _). split; [done|]. split; [apply map_Forall_empty|].
    split; [|split; [|apply map_Forall_empty]].
    + intros c t. split; [by intros ?%elem_of_empty|]. by intros (r & ? & _).
    + intros t. split; [by intros ?%elem_of_empty|]. by intros (r & ? & _).
Qed.

(** C32. In every channel state the broker can reach, each outstanding delivery
    is filed under its own tag, the tag of the next delivery is unused, a
    consumer's index holds exactly its live deliveries and the basic.get index
    exactly the live ones of basic.get: deliveries of cancelled consumers and of
    deleted queues stay acknowledgeable but are charged to nobody. *)
Theorem channel_indexes_consistent (ch : ChannelDeliveryState) :
  reachable_channel ch →
  map_Forall (λ t r, dr_DeliveryTag r = t ∧ 1 <= t <= LastDeliveryTag ch) (UnackedByTag ch) ∧
  UnackedByTag ch !! (LastDeliveryTag ch + 1) = None ∧
  (∀ c t, t ∈ consumer_tags ch c ↔ ∃ r, UnackedByTag ch !! t = Some r ∧
     dr_ConsumerTag r = c ∧ dr_FromGet r = false ∧ dr_QueueDeleted r = false ∧
     dr_ConsumerCancelled r = false) ∧
  (∀ t, t ∈ UnackedByGet ch ↔ ∃ r, UnackedByTag ch !! t = Some r ∧
     dr_FromGet r = true ∧ dr_QueueDeleted r = false).
Proof.
  intros Hreach. assert (wf_channel ch) as Hwf.
  { unfold reachable_channel in Hreach. remember new_channel_state as ch0.
    assert (wf_channel ch0) as H0 by (subst; apply new_channel_wf). clear Heqch0.
    induction Hreach as [|x y z Hs _ IH]; [done|]. apply IH. by eapply channel_step_wf. }
  pose proof (fresh_tag ch (LastDeliveryTag ch + 1) Hwf ltac:(lia)).
  destruct Hwf as (_ & Htags & Hcons & Hget & _). split; [done|]. split; [done|]. split; [|done].
  intros c t. rewrite Hcons. by setoid_rewrite live_consumer_spec; naive_solver.
Qed.

Definition sample_delivery (id : string) : Message := MkMessage id 0 [] empty_props "" "orders".

Definition sample_channel : ChannelDeliveryState :=
  (track_consumer_delivery false "c2" "orders" (sample_delivery "m3")
    (TrackDelivery false (sample_delivery "m2") "orders"
      (track_consumer_delivery false "c1" "orders" (sample_delivery "m1") new_channel_state).2).2).2.

Lemma sample_channel_reachable : reachable_channel sample_channel.
Proof.
  eapply rtc_l; [by apply (step_deliver false "c1" "orders" (sample_delivery "m1"))|].
  eapply rtc_l; [by apply (step_get false (sample_delivery "m2") "orders")|].
  eapply rtc_l; [by apply (step_deliver false "c2" "orders" (sample_delivery "m3"))|]. apply rtc_refl.
Qed.

Lemma sample_channel_wf : wf_channel sample_channel.
Proof. repeat apply track_consumer_delivery_wf; try done. apply TrackDelivery_wf; try done.
  apply track_consumer_delivery_wf; [apply new_channel_wf|done]. Qed.

Lemma channel_indexes_consistent_witness :
  reachable_channel sample_channel ∧ 2 ∈ UnackedByGet sample_channel.
Proof.
  split; [apply sample_channel_reachable|].
  destruct (channel_indexes_consistent sample_channel sample_channel_reachable) as (_ & _ & _ & Hget).
  apply Hget. eexists. split; [reflexivity|]. done.
Defined.

Lemma ack_settles_exactly_witness :
  ∃ removed ch', popUnackedRecords map_to_list 2 true 80 (Some sample_channel) = Ok (removed, Some ch') ∧
    popUnackedRecords map_to_list 1 false 80 (Some ch') = Err (UnknownDeliveryTag 1 80).
Proof.
  pose proof (ack_settles_exactly map_to_list 2 80 true sample_channel (λ _, reflexivity _)
    sample_channel_wf) as H.
  destruct (popUnackedRecords map_to_list 2 true 80 (Some sample_channel)) as [[removed [ch'|]]|e] eqn:E.
  - exists removed, ch'. split; [done|]. apply H; [|done]. right. lia.
  - done.
  - destruct H as [_ Hn]. destruct Hn. right. vm_compute. by eexists.
Defined.

(** ** The prefetch window *)

(** [ch'] has no live delivery that [ch] does not have. *)
Definition shrinks (ch ch' : ChannelDeliveryState) : Prop :=
  ∀ t r', UnackedByTag ch' !! t = Some r' → ∃ r, UnackedByTag ch !! t = Some r ∧
    dr_ConsumerTag r' = dr_ConsumerTag r ∧ (live_consumer r' = true → live_consumer r = true).

Lemma shrinks_sizes ch ch' :
  wf_channel ch → wf_channel ch' → shrinks ch ch' →
  (size (UnackedByTag ch') ≤ size (UnackedByTag ch))%nat ∧
  ∀ c, (size (consumer_tags ch' c) ≤ size (consumer_tags ch c))%nat.
Proof.
  intros (_ & _ & Hcons & _) (_ & _ & Hcons' & _) Hs. split.
  - rewrite <-!size_dom. apply subseteq_size. intros t [r' Hr']%elem_of_dom.
    destruct (Hs t r' Hr') as (r & ? & _). apply elem_of_dom. by exists r.
  - intros c. apply subseteq_size. intros t (r' & Hr' & Hl & Hc)%Hcons'.
    destruct (Hs t r' Hr') as (r & Hr & Hct & Hlive). apply Hcons. exists r.
    split; [done|]. split; [by apply Hlive|congruence].
Qed.

Section window.
(** The prefetch count each consumer was registered with. *)
Variable prefetch : string → Z.

(** Deliveries to consumers go through [shouldThrottle]; quality of service is
    set once, before.  (Deliveries of basic.get are not subject to it.) *)
Inductive window_step : ChannelDeliveryState → ChannelDeliveryState → Prop :=
| win_deliver noAck consumerTag queueName msg ch :
    LastDeliveryTag ch < 2 ^ 64 - 1 →
    shouldThrottle consumerTag (prefetch consumerTag) (Some ch) = false →
    window_step ch (track_consumer_delivery noAck consumerTag queueName msg ch).2
| win_settle range deliveryTag multiple methodID removed ch ch' :
    (∀ m, range m ≡ₚ map_to_list m) →
    popUnackedRecords range deliveryTag multiple methodID (Some ch) = Ok (removed, Some ch') →
    window_step ch ch'
| win_queue_deleted range queueName ch :
    (∀ m, range m ≡ₚ map_to_list m) → window_step ch (detachQueueDeliveries range queueName ch)
| win_consumer_cancelled consumerTag ch : window_step ch (detachConsumerDeliveries consumerTag ch)
| win_flow active byBroker ch : window_step ch (flow_state active byBroker ch).

(** No more unacked deliveries than the window in force allows. *)
Definition within_window (ch : ChannelDeliveryState) : Prop :=
  if PrefetchGlobal ch
  then 0 < GlobalPrefetchCount ch → Z.of_nat (size (UnackedByTag ch)) <= GlobalPrefetchCount ch
  else ∀ c, 0 < prefetch c → Z.of_nat (size (consumer_tags ch c)) <= prefetch c.

Definition same_qos (ch ch' : ChannelDeliveryState) : Prop :=
  PrefetchGlobal ch' = PrefetchGlobal ch ∧ GlobalPrefetchCount ch' = GlobalPrefetchCount ch.

Lemma within_window_shrinks ch ch' :
  wf_channel ch → wf_channel ch' → shrinks ch ch' → same_qos ch ch' →
  within_window ch → within_window ch'.
Proof.
  intros Hwf Hwf' Hs [Hg Hn] Hw. destruct (shrinks_sizes ch ch' Hwf Hwf' Hs) as [H1 H2].
  unfold within_window in *. rewrite Hg, Hn. destruct (PrefetchGlobal ch).
  - intros Hpos. specialize (Hw Hpos). lia.
  - intros c Hpos. specialize (Hw c Hpos). specialize (H2 c). lia.
Qed.

Lemma untrack_qos r ch : same_qos ch (untrackDeliverySource r ch).
Proof. unfold untrackDeliverySource. repeat case_match; done. Qed.

Lemma foldl_qos {A} (f : ChannelDeliveryState → A → ChannelDeliveryState) l ch :
  (∀ ch a, same_qos ch (f ch a)) → same_qos ch (foldl f ch l).
Proof.
  intros Hf. revert ch. induction l as [|a l IH]; intros ch; [done|].
  destruct (IH (f ch a)) as [H1 H2], (Hf ch a) as [H3 H4]. split; cbn; congruence.
Qed.

Lemma deliver_within noAck consumerTag queueName msg ch :
  shouldThrottle consumerTag (prefetch consumerTag) (Some ch) = false →
  within_window ch → within_window (track_consumer_delivery noAck consumerTag queueName msg ch).2.
Proof.
  unfold shouldThrottle, track_consumer_delivery, within_window. intros Ht Hw.
  apply orb_false_iff in Ht as [Ht Hc]. apply orb_false_iff in Ht as [_ Hg].
  apply bool_decide_eq_false in Hc, Hg.
  destruct noAck; cbn; [done|]. destruct (PrefetchGlobal ch).
  - intros Hpos. rewrite map_size_insert. specialize (Hw Hpos).
    destruct (UnackedByTag ch !! next_tag ch); unfold id; [lia|].
    destruct (decide (GlobalPrefetchCount ch <= Z.of_nat (size (UnackedByTag ch)))); [tauto|lia].
  - intros c Hpos. unfold consumer_tags at 1. cbn.
    destruct (decide (c = consumerTag)) as [->|]; [|rewrite lookup_insert_ne by done; by apply Hw].
    rewrite lookup_insert_eq. cbn. pose proof (size_union_alt {[next_tag ch]} (consumer_tags ch consumerTag)) as E.
    rewrite size_singleton in E.
    assert (size (consumer_tags ch consumerTag ∖ {[next_tag ch]}) ≤ size (consumer_tags ch consumerTag))%nat
      by (apply subseteq_size; set_solver).
    destruct (decide (prefetch consumerTag <= Z.of_nat (size (consumer_tags ch consumerTag)))); [tauto|].
    change (consumer_tags (set_last_tag _ ch) consumerTag) with (consumer_tags ch consumerTag). lia.
Qed.

Lemma window_step_ok ch ch' :
  wf_channel ch → within_window ch → window_step ch ch' → wf_channel ch' ∧ within_window ch'.
Proof.
  intros Hwf Hw Hs. destruct Hs as [noAck c q msg ch Hlt Ht
    |range d m mid removed ch ch' Hrange Hpop|range q ch Hrange|c ch|a b ch].
  - split; [by apply track_consumer_delivery_wf|by apply deliver_within].
  - assert (wf_channel ch') as Hwf'
      by (eapply channel_step_wf; [done|by eapply step_settle]).
    split; [done|]. apply (within_window_shrinks ch); try done.
    + intros t r' Hr'. exists r'. split; [|done]. revert Hpop.
      assert (Decision (acceptable d m ch)) as Hdec by (unfold acceptable; apply _).
      destruct (decide (acceptable d m ch)) as [Hacc|Hacc]; [|by rewrite pop_unknown].
      destruct (pop_ok range Hrange d m mid ch Hwf Hacc) as (rs & ch2 & -> & _ & _ & _ & Hl).
      intros [= _ ->]. rewrite Hl in Hr'. by case_decide.
    + revert Hpop. cbn. repeat case_match; intros [= _ <-]; try done.
      * apply foldl_qos. intros ? ?. by apply (untrack_qos _ (set_unacked _ _ _ _)).
      * by apply (untrack_qos _ (set_unacked _ _ _ _)).
  - destruct (detachQueueDeliveries_spec range Hrange q ch Hwf) as [Hwf' Hl].
    split; [done|]. apply (within_window_shrinks ch); try done.
    + intros t r'. rewrite Hl, lookup_fmap. intros (r & -> & ->)%fmap_Some. exists r.
      split; [done|]. case_decide; [|done]. split; [done|].
      by intros (_ & ? & _)%live_consumer_spec.
    + apply foldl_qos. intros ? ?. unfold detach_queue_record. case_decide; [done|].
      by apply (untrack_qos _ (set_unacked _ _ _ _)).
  - pose proof (detachConsumerDeliveries_wf c ch Hwf) as Hwf'. split; [done|].
    apply (within_window_shrinks ch); try done.
    intros t r'. rewrite detachConsumerDeliveries_lookup. intros (r & -> & ->)%fmap_Some.
    exists r. split; [done|]. case_decide; [|done]. split; [done|].
    by intros (_ & _ & ?)%live_consumer_spec.
  - done.
Qed.
End window.


