(* ===== verification/Consumers.v ===== *)
(** * The consumers of a virtual host: the data of vhost/consumer.go

    A [*Consumer] is shared by three indexes and compared by identity: here it
    is an address into a heap of consumers. *)

From stdpp Require Import base list gmap strings.
From Stdlib Require Import ZArith Lia.
From S2P Require Import Prelude Bytes Values.

Local Open Scope Z_scope.

Record Consumer : Type := MkConsumer {
  c_Tag : string;
  c_Channel : Z;
  c_QueueName : string;
  c_ConnectionID : string;
  c_Active : bool;
  c_PrefetchCount : Z;
  c_FrameMax : Z;
  c_NoAck : bool;
  c_Exclusive : bool;
  c_Arguments : option table;
}.

(** [NewConsumer] *)
Definition NewConsumer (connID : string) (channel : Z) (queueName consumerTag : string)
    (noAck exclusive : bool) (args : option table) : Consumer :=
  MkConsumer consumerTag channel queueName connID false 0 0 noAck exclusive args.

Definition set_Active (active : bool) (c : Consumer) : Consumer :=
  MkConsumer (c_Tag c) (c_Channel c) (c_QueueName c) (c_ConnectionID c) active
    (c_PrefetchCount c) (c_FrameMax c) (c_NoAck c) (c_Exclusive c) (c_Arguments c).
Definition set_Tag (tag : string) (c : Consumer) : Consumer :=
  MkConsumer tag (c_Channel c) (c_QueueName c) (c_ConnectionID c) (c_Active c)
    (c_PrefetchCount c) (c_FrameMax c) (c_NoAck c) (c_Exclusive c) (c_Arguments c).
Definition set_PrefetchCount (n : Z) (c : Consumer) : Consumer :=
  MkConsumer (c_Tag c) (c_Channel c) (c_QueueName c) (c_ConnectionID c) (c_Active c)
    n (c_FrameMax c) (c_NoAck c) (c_Exclusive c) (c_Arguments c).

(** [ConsumerKey] and [ConnectionChannelKey]. *)
Definition ConsumerKey : Type := Z * string.
Definition ConnectionChannelKey : Type := string * Z.

Definition consumer_key (c : Consumer) : ConsumerKey := (c_Channel c, c_Tag c).
Definition channel_key (c : Consumer) : ConnectionChannelKey := (c_ConnectionID c, c_Channel c).

(** The heap with its next free address, and the three indexes. *)
Record ConsumerIndex : Type := MkIndex {
  ix_heap : gmap nat Consumer;
  ix_next : nat;
  ix_Consumers : gmap ConsumerKey nat;
  ix_ByQueue : gmap string (list nat);
  ix_ByChannel : gmap ConnectionChannelKey (list nat);
}.

Definition empty_index : ConsumerIndex := MkIndex ∅ 0 ∅ ∅ ∅.

(** A missing key reads as a nil slice. *)
Definition by_queue (ix : ConsumerIndex) (queueName : string) : list nat :=
  default [] (ix_ByQueue ix !! queueName).
Definition by_channel (ix : ConsumerIndex) (key : ConnectionChannelKey) : list nat :=
  default [] (ix_ByChannel ix !! key).

(** [append(s[:i], s[i+1:]...)] for the first [i] with [s[i] == c]. *)
Fixpoint remove_consumer (c : nat) (s : list nat) : list nat :=
  match s with
  | [] => []
  | x :: s' => if decide (x = c) then s' else x :: remove_consumer c s'
  end.

Definition deactivate (addr : nat) (ix : ConsumerIndex) : ConsumerIndex :=
  MkIndex (alter (set_Active false) addr (ix_heap ix)) (ix_next ix) (ix_Consumers ix)
    (ix_ByQueue ix) (ix_ByChannel ix).

(** [vh.ConsumersByChannel[key] = append(...)]: only when the consumer is there. *)
Definition remove_from_channel (addr : nat) (key : ConnectionChannelKey) (ix : ConsumerIndex)
    : ConsumerIndex :=
  if decide (addr ∈ by_channel ix key)
  then MkIndex (ix_heap ix) (ix_next ix) (ix_Consumers ix) (ix_ByQueue ix)
         (<[key := remove_consumer addr (by_channel ix key)]> (ix_ByChannel ix))
  else ix.

Definition remove_from_queue (addr : nat) (queueName : string) (ix : ConsumerIndex)
    : ConsumerIndex :=
  if decide (addr ∈ by_queue ix queueName)
  then MkIndex (ix_heap ix) (ix_next ix) (ix_Consumers ix)
         (<[queueName := remove_consumer addr (by_queue ix queueName)]> (ix_ByQueue ix))
         (ix_ByChannel ix)
  else ix.

Definition unregister (key : ConsumerKey) (ix : ConsumerIndex) : ConsumerIndex :=
  MkIndex (ix_heap ix) (ix_next ix) (delete key (ix_Consumers ix)) (ix_ByQueue ix) (ix_ByChannel ix).

(** One iteration of [removeQueueConsumersLocked]. *)
Definition remove_queue_consumer (ix : ConsumerIndex) (addr : nat) : ConsumerIndex :=
  match ix_heap ix !! addr with
  | None => ix
  | Some c =>
      let ix := deactivate addr ix in
      let ix := if decide (ix_Consumers ix !! consumer_key c = Some addr)
                then unregister (consumer_key c) ix else ix in
      remove_from_channel addr (channel_key c) ix
  end.

Definition removeQueueConsumersLocked (queueName : string) (ix : ConsumerIndex)
    : list nat * ConsumerIndex :=
  let removed := by_queue ix queueName in
  let ix := foldl remove_queue_consumer ix removed in
  (removed, MkIndex (ix_heap ix) (ix_next ix) (ix_Consumers ix) (delete queueName (ix_ByQueue ix))
              (ix_ByChannel ix)).

Definition is_active (ix : ConsumerIndex) (addr : nat) : bool :=
  match ix_heap ix !! addr with Some c => c_Active c | None => false end.

Definition GetActiveConsumersForQueue (ix : ConsumerIndex) (queueName : string) : list nat :=
  filter (λ addr, is_active ix addr = true) (by_queue ix queueName).

(** The registration in [RegisterConsumer]: the consumer is activated and added
    to every index. *)
Definition register (c : Consumer) (ix : ConsumerIndex) : nat * ConsumerIndex :=
  let addr := ix_next ix in
  let c := set_Active true c in
  (addr, MkIndex (<[addr := c]> (ix_heap ix)) (S addr)
     (<[consumer_key c := addr]> (ix_Consumers ix))
     (<[c_QueueName c := by_queue ix (c_QueueName c) ++ [addr]]> (ix_ByQueue ix))
     (<[channel_key c := by_channel ix (channel_key c) ++ [addr]]> (ix_ByChannel ix))).

(** ** The indexes agree *)

(** A consumer is registered when it is the one its key names. *)
Definition registered (ix : ConsumerIndex) (addr : nat) (c : Consumer) : Prop :=
  ix_heap ix !! addr = Some c ∧ ix_Consumers ix !! consumer_key c = Some addr.

(** The indexes agree, up to consumers already removed from the registry whose
    address is still to be taken out of a queue's list ([Q]) or a channel's ([C]). *)
Record wf_partial (Q C : gset nat) (ix : ConsumerIndex) : Prop := {
  wi_key key addr : ix_Consumers ix !! key = Some addr →
    ∃ c, registered ix addr c ∧ consumer_key c = key ∧ c_Active c = true;
  wi_queue q addr : addr ∈ by_queue ix q ↔
    ∃ c, ix_heap ix !! addr = Some c ∧ c_QueueName c = q ∧ (registered ix addr c ∨ addr ∈ Q);
  wi_channel k addr : addr ∈ by_channel ix k ↔
    ∃ c, ix_heap ix !! addr = Some c ∧ channel_key c = k ∧ (registered ix addr c ∨ addr ∈ C);
  wi_gone addr c : addr ∈ Q ∪ C → ¬ registered ix addr c;
  wi_queue_NoDup q : NoDup (by_queue ix q);
  wi_channel_NoDup k : NoDup (by_channel ix k);
  wi_next addr c : ix_heap ix !! addr = Some c → (addr < ix_next ix)%nat;
}.

(** Every index lists exactly the registered consumers, each one once. *)
Definition wf_index (ix : ConsumerIndex) : Prop := wf_partial ∅ ∅ ix.

Lemma empty_index_wf : wf_index empty_index.
Proof.
  split; unfold by_queue, by_channel, empty_index, registered; cbn.
  - intros key addr Ha. by rewrite lookup_empty in Ha.
  - intros q addr. rewrite lookup_empty. split; [by intros ?%elem_of_nil|].
    intros (c & Hc & _). by rewrite lookup_empty in Hc.
  - intros k addr. rewrite lookup_empty. split; [by intros ?%elem_of_nil|].
    intros (c & Hc & _). by rewrite lookup_empty in Hc.
  - intros addr c Ha. set_solver.
  - intros q. rewrite lookup_empty. constructor.
  - intros k. rewrite lookup_empty. constructor.
  - intros addr c Ha. by rewrite lookup_empty in Ha.
Qed.

Lemma remove_consumer_NoDup addr l : NoDup l → NoDup (remove_consumer addr l).
Proof.
  induction l as [|x l IH]; [done|]. cbn. intros [Hx Hl]%NoDup_cons.
  case_decide; [done|]. constructor; [|by apply IH]. intros Hin. apply Hx. clear -Hin.
  induction l as [|y l IH]; [done|]. cbn in Hin. case_decide; set_solver.
Qed.

Lemma elem_of_remove_consumer addr l a :
  NoDup l → a ∈ remove_consumer addr l ↔ a ∈ l ∧ a ≠ addr.
Proof.
  induction l as [|x l IH]; cbn; [set_solver|]. intros [Hx Hl]%NoDup_cons.
  case_decide as Hd; [subst; set_solver|]. rewrite !elem_of_cons, IH by done. naive_solver.
Qed.

Lemma remove_consumer_length addr l :
  NoDup l → addr ∈ l → length l = S (length (remove_consumer addr l)).
Proof.
  induction l as [|x l IH]; cbn; [by intros _ ?%elem_of_nil|]. intros [Hx Hl]%NoDup_cons Hin.
  case_decide as Hd; [done|]. cbn. f_equal. apply IH; [done|]. set_solver.
Qed.

Lemma by_queue_insert heap n cs bq bc q l q' :
  by_queue (MkIndex heap n cs (<[q := l]> bq) bc) q' =
  if decide (q = q') then l else default [] (bq !! q').
Proof.
  unfold by_queue. cbn. case_decide; subst; [by rewrite lookup_insert_eq|by rewrite lookup_insert_ne].
Qed.

Lemma by_channel_insert heap n cs bq bc k l k' :
  by_channel (MkIndex heap n cs bq (<[k := l]> bc)) k' =
  if decide (k = k') then l else default [] (bc !! k').
Proof.
  unfold by_channel. cbn. case_decide; subst; [by rewrite lookup_insert_eq|by rewrite lookup_insert_ne].
Qed.

Section index.
Variables (Q C : gset nat) (ix : ConsumerIndex).
Hypothesis Hwf : wf_partial Q C ix.

Lemma registered_unique a c a' c' :
  registered ix a c → registered ix a' c' → consumer_key c = consumer_key c' → a = a' ∧ c = c'.
Proof. intros [H1 H2] [H3 H4] Hk. rewrite Hk in H2. simplify_eq. by split. Qed.

(** A removed consumer waits in both lists. *)
Lemma unregister_wf key addr c :
  registered ix addr c → consumer_key c = key →
  wf_partial ({[addr]} ∪ Q) ({[addr]} ∪ C) (unregister key (deactivate addr ix)).
Proof.
  intros Hreg Hkey. pose proof Hreg as [Hheap Hcons]. rewrite Hkey in Hcons.
  assert (Hh : ∀ a, ix_heap (unregister key (deactivate addr ix)) !! a =
            if decide (a = addr) then Some (set_Active false c) else ix_heap ix !! a).
  { intros a. cbn. case_decide; subst; [by rewrite lookup_alter_eq, Hheap|by rewrite lookup_alter_ne]. }
  assert (Hr : ∀ a c', registered (unregister key (deactivate addr ix)) a c' ↔
            registered ix a c' ∧ a ≠ addr).
  { intros a c'. unfold registered at 1. rewrite Hh. cbn. case_decide as Ha.
    - split; [|naive_solver]. intros [[= <-] Hc].
      change (consumer_key (set_Active false c)) with (consumer_key c) in Hc.
      by rewrite Hkey, lookup_delete_eq in Hc.
    - split.
      + intros [H1 H2]. apply lookup_delete_Some in H2 as [_ H2]. by repeat split.
      + intros [[H1 H2] _]. split; [done|]. rewrite lookup_delete_ne; [done|].
        intros Hk. rewrite <-Hk in H2. by simplify_eq. }
  split.
  - intros k a Ha. cbn in Ha. apply lookup_delete_Some in Ha as [Hk Ha].
    destruct (wi_key _ _ _ Hwf _ _ Ha) as (c' & Hreg' & Hk' & Hact). exists c'.
    split; [|done]. apply Hr. split; [done|]. intros ->. destruct Hreg' as [? _]. by simplify_eq.
  - intros q a. change (by_queue _ q) with (by_queue ix q). rewrite (wi_queue _ _ _ Hwf).
    setoid_rewrite Hr. setoid_rewrite Hh. case_decide as Ha.
    + subst. split; intros (c' & Hc' & Hq & Hin); simplify_eq/=; eexists; (split; [done|]);
        (split; [done|]); set_solver.
    + set_solver.
  - intros k a. change (by_channel _ k) with (by_channel ix k). rewrite (wi_channel _ _ _ Hwf).
    setoid_rewrite Hr. setoid_rewrite Hh. case_decide as Ha.
    + subst. split; intros (c' & Hc' & Hq & Hin); simplify_eq/=; eexists; (split; [done|]);
        (split; [done|]); set_solver.
    + set_solver.
  - intros a c' Ha [Hr' Hne]%Hr. apply (wi_gone _ _ _ Hwf a c'); [|done]. set_solver.
  - apply (wi_queue_NoDup _ _ _ Hwf).
  - apply (wi_channel_NoDup _ _ _ Hwf).
  - intros a c'. rewrite Hh. case_decide; [subst; intros _; by apply (wi_next _ _ _ Hwf _ c)|].
    apply (wi_next _ _ _ Hwf).
Qed.

Lemma remove_from_queue_by_queue addr q q' :
  by_queue (remove_from_queue addr q ix) q' =
  if decide (q = q') then remove_consumer addr (by_queue ix q) else by_queue ix q'.
Proof.
  unfold remove_from_queue. case_decide as Hin.
  - rewrite by_queue_insert. by case_decide.
  - case_decide; [subst|done]. revert Hin. clear. generalize (by_queue ix q').
    induction l as [|x l IH]; [done|]. cbn. intros Hin. rewrite decide_False by set_solver.
    f_equal. apply IH. set_solver.
Qed.

Lemma remove_from_channel_by_channel addr k k' :
  by_channel (remove_from_channel addr k ix) k' =
  if decide (k = k') then remove_consumer addr (by_channel ix k) else by_channel ix k'.
Proof.
  unfold remove_from_channel. case_decide as Hin.
  - rewrite by_channel_insert. by case_decide.
  - case_decide; [subst|done]. revert Hin. clear. generalize (by_channel ix k').
    induction l as [|x l IH]; [done|]. cbn. intros Hin. rewrite decide_False by set_solver.
    f_equal. apply IH. set_solver.
Qed.

Lemma remove_from_queue_wf addr c q :
  ix_heap ix !! addr = Some c → c_QueueName c = q → addr ∈ Q →
  wf_partial (Q ∖ {[addr]}) C (remove_from_queue addr q ix).
Proof.
  intros Hc Hq Hin. pose proof (remove_from_queue_by_queue addr q) as Hbq.
  assert (Hrest : ix_heap (remove_from_queue addr q ix) = ix_heap ix ∧
    ix_Consumers (remove_from_queue addr q ix) = ix_Consumers ix ∧
    ix_ByChannel (remove_from_queue addr q ix) = ix_ByChannel ix ∧
    ix_next (remove_from_queue addr q ix) = ix_next ix).
  { unfold remove_from_queue. by case_decide. }
  destruct Hrest as (Eh & Ec & Eb & En).
  split; unfold registered, by_channel; rewrite ?Eh, ?Ec, ?Eb, ?En; try apply Hwf.
  - intros q' a. rewrite Hbq. pose proof (wi_queue _ _ _ Hwf q' a) as Hw. unfold registered in Hw.
    case_decide as Hqq.
    + subst q'. rewrite elem_of_remove_consumer by apply Hwf. rewrite Hw. split.
      * intros [(c' & H1 & H2 & H3) Hne]. exists c'. split_and!; [done..|].
        rewrite elem_of_difference, elem_of_singleton. tauto.
      * intros (c' & H1 & H2 & H3). rewrite elem_of_difference, elem_of_singleton in H3.
        split; [exists c'; tauto|]. intros ->.
        apply (wi_gone _ _ _ Hwf addr c'); [apply elem_of_union; tauto|].
        destruct H3 as [H3|H3]; [done|tauto].
    + rewrite Hw. split; intros (c' & H1 & H2 & H3); exists c'; split_and!; try done;
        rewrite elem_of_difference, elem_of_singleton in *; [|tauto].
      destruct H3 as [H3|H3]; [by left|right]. split; [done|]. intros ->. simplify_eq.
  - intros a c' [Ha|Ha]%elem_of_union; apply (wi_gone _ _ _ Hwf);
      apply elem_of_union; [left|right]; first [done|by apply elem_of_difference in Ha as [? _]].
  - intros q'. rewrite Hbq. case_decide; [apply remove_consumer_NoDup|]; apply Hwf.
Qed.

Lemma remove_from_channel_wf addr c k :
  ix_heap ix !! addr = Some c → channel_key c = k → addr ∈ C →
  wf_partial Q (C ∖ {[addr]}) (remove_from_channel addr k ix).
Proof.
  intros Hc Hk Hin. pose proof (remove_from_channel_by_channel addr k) as Hbc.
  assert (Hrest : ix_heap (remove_from_channel addr k ix) = ix_heap ix ∧
    ix_Consumers (remove_from_channel addr k ix) = ix_Consumers ix ∧
    ix_ByQueue (remove_from_channel addr k ix) = ix_ByQueue ix ∧
    ix_next (remove_from_channel addr k ix) = ix_next ix).
  { unfold remove_from_channel. by case_decide. }
  destruct Hrest as (Eh & Ec & Eb & En).
  split; unfold registered, by_queue; rewrite ?Eh, ?Ec, ?Eb, ?En; try apply Hwf.
  - intros k' a. rewrite Hbc. pose proof (wi_channel _ _ _ Hwf k' a) as Hw. unfold registered in Hw.
    case_decide as Hkk.
    + subst k'. rewrite elem_of_remove_consumer by apply Hwf. rewrite Hw. split.
      * intros [(c' & H1 & H2 & H3) Hne]. exists c'. split_and!; [done..|].
        rewrite elem_of_difference, elem_of_singleton. tauto.
      * intros (c' & H1 & H2 & H3). rewrite elem_of_difference, elem_of_singleton in H3.
        split; [exists c'; tauto|]. intros ->.
        apply (wi_gone _ _ _ Hwf addr c'); [apply elem_of_union; tauto|].
        destruct H3 as [H3|H3]; [done|tauto].
    + rewrite Hw. split; intros (c' & H1 & H2 & H3); exists c'; split_and!; try done;
        rewrite elem_of_difference, elem_of_singleton in *; [|tauto].
      destruct H3 as [H3|H3]; [by left|right]. split; [done|]. intros ->. simplify_eq.
  - intros a c' [Ha|Ha]%elem_of_union; apply (wi_gone _ _ _ Hwf);
      apply elem_of_union; [left|right]; first [done|by apply elem_of_difference in Ha as [? _]].
  - intros k'. rewrite Hbc. case_decide; [apply remove_consumer_NoDup|]; apply Hwf.
Qed.

(** [delete(vh.ConsumersByQueue, name)] *)
Lemma delete_queue_list_wf q :
  (∀ addr, addr ∈ by_queue ix q → addr ∈ Q) →
  wf_partial (Q ∖ list_to_set (by_queue ix q)) C
    (MkIndex (ix_heap ix) (ix_next ix) (ix_Consumers ix) (delete q (ix_ByQueue ix)) (ix_ByChannel ix)).
Proof.
  intros Hall. set (ix' := MkIndex _ _ _ _ _).
  assert (Hbq : ∀ q', by_queue ix' q' = if decide (q = q') then [] else by_queue ix q').
  { intros q'. unfold by_queue, ix'. cbn.
    case_decide; [subst; by rewrite lookup_delete_eq|by rewrite lookup_delete_ne]. }
  split; try apply Hwf.
  - intros q' a. rewrite Hbq. pose proof (wi_queue _ _ _ Hwf) as Hw. case_decide as Hqq.
    + subst q'. split; [by intros ?%elem_of_nil|]. intros (c & H1 & H2 & H3).
      exfalso. destruct H3 as [H3|[HQ HN]%elem_of_difference].
      * apply (wi_gone _ _ _ Hwf a c); [|done]. apply elem_of_union_l, Hall, Hw. exists c. by auto.
      * apply HN, elem_of_list_to_set, Hw. exists c. by auto.
    + rewrite Hw. split; intros (c & H1 & H2 & H3); exists c; split_and!; try done;
        rewrite elem_of_difference, elem_of_list_to_set in *; [|tauto].
      destruct H3 as [H3|H3]; [by left|right]. split; [done|].
      intros (c' & H1' & H2' & _)%Hw. by simplify_eq.
  - intros a c [Ha|Ha]%elem_of_union; apply (wi_gone _ _ _ Hwf);
      apply elem_of_union; [left|right]; first [done|by apply elem_of_difference in Ha as [? _]].
  - intros q'. rewrite Hbq. case_decide; [constructor|apply Hwf].
Qed.
End index.

(** ** Registering *)

Lemma register_registered c ix a c' :
  ix_Consumers ix !! consumer_key c = None → (∀ a c, ix_heap ix !! a = Some c → (a < ix_next ix)%nat) →
  registered (register c ix).2 a c' ↔
  (a = ix_next ix ∧ c' = set_Active true c) ∨ registered ix a c'.
Proof.
  intros Hfresh Hnext. unfold registered. cbn.
  change (consumer_key (set_Active true c)) with (consumer_key c).
  destruct (decide (a = ix_next ix)) as [->|Ha].
  - rewrite lookup_insert_eq. split.
    + intros [[= <-] _]. by left.
    + intros [[_ ->]|[H _]]; [|by apply Hnext in H; lia]. split; [done|].
      change (consumer_key (set_Active true c)) with (consumer_key c). by rewrite lookup_insert_eq.
  - rewrite lookup_insert_ne by done. split.
    + intros [H1 H2]. right. split; [done|].
      apply lookup_insert_Some in H2 as [[_ ?]|[_ H2]]; [congruence|done].
    + intros [[? _]|[H1 H2]]; [done|]. split; [done|].
      rewrite lookup_insert_ne; [done|]. intros Hk. rewrite Hk in Hfresh. congruence.
Qed.

Lemma register_wf c ix :
  wf_index ix → ix_Consumers ix !! consumer_key c = None → wf_index (register c ix).2.
Proof.
  intros Hwf Hfresh. pose proof (wi_next _ _ _ Hwf) as Hn.
  pose proof (λ a c', register_registered c ix a c' Hfresh Hn) as Hreg.
  assert (Hnew : ∀ l : list nat, (∀ a, a ∈ l → ∃ c, ix_heap ix !! a = Some c) → ix_next ix ∉ l).
  { intros l Hl (c' & Hc')%Hl. apply Hn in Hc'. lia. }
  set (ix' := (register c ix).2). unfold register in ix'. cbn [snd] in ix'.
  change (c_QueueName (set_Active true c)) with (c_QueueName c) in ix'.
  change (channel_key (set_Active true c)) with (channel_key c) in ix'.
  change (consumer_key (set_Active true c)) with (consumer_key c) in ix'.
  assert (Hheap : ∀ a c', registered ix' a c' → ix_heap ix' !! a = Some c') by by intros ?? [].
  assert (Hbq : ∀ q, by_queue ix' q = by_queue ix q ++ if decide (c_QueueName c = q) then [ix_next ix] else []).
  { intros q. unfold ix'. rewrite by_queue_insert. case_decide; subst; [done|by rewrite app_nil_r]. }
  assert (Hbc : ∀ k, by_channel ix' k = by_channel ix k ++ if decide (channel_key c = k) then [ix_next ix] else []).
  { intros k. unfold ix'. rewrite by_channel_insert. case_decide as Hk; [|by rewrite app_nil_r].
    by rewrite <-Hk. }
  split.
  - intros key a Ha. unfold ix' in Ha. cbn in Ha. apply lookup_insert_Some in Ha as [[<- <-]|[Hne Ha]].
    + exists (set_Active true c). split; [|done]. apply Hreg. by left.
    + destruct (wi_key _ _ _ Hwf _ _ Ha) as (c' & H1 & H2). exists c'. split; [|done]. apply Hreg. by right.
  - intros q a. rewrite Hbq, elem_of_app, (wi_queue _ _ _ Hwf). split.
    + intros [(c' & H1 & H2 & [H3|H3%not_elem_of_empty])|H]; [|done|].
      * exists c'. assert (registered ix' a c') by (apply Hreg; by right). auto.
      * case_decide as Hq; [|by apply elem_of_nil in H]. apply list_elem_of_singleton in H as ->.
        exists (set_Active true c). assert (registered ix' (ix_next ix) (set_Active true c))
          by (apply Hreg; by left). auto.
    + intros (c' & H1 & H2 & [H3|H3%not_elem_of_empty]); [|done].
      apply Hreg in H3 as [[-> ->]|H3].
      * right. rewrite decide_True by done. by left.
      * left. exists c'. split; [apply H3|]. auto.
  - intros k a. rewrite Hbc, elem_of_app, (wi_channel _ _ _ Hwf). split.
    + intros [(c' & H1 & H2 & [H3|H3%not_elem_of_empty])|H]; [|done|].
      * exists c'. assert (registered ix' a c') by (apply Hreg; by right). auto.
      * case_decide as Hq; [|by apply elem_of_nil in H]. apply list_elem_of_singleton in H as ->.
        exists (set_Active true c). assert (registered ix' (ix_next ix) (set_Active true c))
          by (apply Hreg; by left). auto.
    + intros (c' & H1 & H2 & [H3|H3%not_elem_of_empty]); [|done].
      apply Hreg in H3 as [[-> ->]|H3].
      * right. rewrite decide_True by done. by left.
      * left. exists c'. split; [apply H3|]. auto.
  - intros a c' Ha. rewrite (left_id_L ∅ (∪)) in Ha. by apply not_elem_of_empty in Ha.
  - intros q. rewrite Hbq. apply NoDup_app. split; [apply Hwf|]. split; [|case_decide; repeat constructor; by intros ?%elem_of_nil].
    intros a Ha. case_decide; [|by intros ?%elem_of_nil]. intros ->%list_elem_of_singleton. revert Ha.
    apply Hnew. intros a (c' & ? & _)%(wi_queue _ _ _ Hwf). by exists c'.
  - intros k. rewrite Hbc. apply NoDup_app. split; [apply Hwf|]. split; [|case_decide; repeat constructor; by intros ?%elem_of_nil].
    intros a Ha. case_decide; [|by intros ?%elem_of_nil]. intros ->%list_elem_of_singleton. revert Ha.
    apply Hnew. intros a (c' & ? & _)%(wi_channel _ _ _ Hwf). by exists c'.
  - intros a c' Ha. unfold ix' in Ha |- *. cbn in Ha |- *.
    apply lookup_insert_Some in Ha as [[<- _]|[_ Ha]]; [lia|]. apply Hn in Ha. lia.
Qed.

(** ** Removing the consumers of a queue *)

Lemma remove_queue_consumer_wf Q C ix a c :
  wf_partial Q C ix → registered ix a c →
  wf_partial ({[a]} ∪ Q) C (remove_queue_consumer ix a) ∧
  (∀ q, by_queue (remove_queue_consumer ix a) q = by_queue ix q) ∧
  (∀ a' c', a' ≠ a → registered ix a' c' → registered (remove_queue_consumer ix a) a' c').
Proof.
  intros Hwf Hreg. pose proof Hreg as [Hheap Hcons]. unfold remove_queue_consumer. rewrite Hheap.
  rewrite decide_True by exact Hcons.
  pose proof (unregister_wf Q C ix Hwf (consumer_key c) a c Hreg eq_refl) as Hwf1.
  set (ix1 := unregister _ _) in *.
  assert (Ha : a ∉ C).
  { intros Ha. apply (wi_gone _ _ _ Hwf a c); [|done]. by apply elem_of_union_r. }
  assert (Hh1 : ix_heap ix1 !! a = Some (set_Active false c)).
  { unfold ix1, unregister, deactivate. cbn. by rewrite lookup_alter_eq, Hheap. }
  pose proof (remove_from_channel_wf _ _ _ Hwf1 a _ (channel_key c) Hh1 eq_refl ltac:(set_solver)) as Hwf2.
  replace (({[a]} ∪ C) ∖ {[a]}) with C in Hwf2 by set_solver.
  assert (Hrest : ∀ ix k, ix_heap (remove_from_channel a k ix) = ix_heap ix ∧
    ix_Consumers (remove_from_channel a k ix) = ix_Consumers ix ∧
    ix_ByQueue (remove_from_channel a k ix) = ix_ByQueue ix).
  { intros ix2 k. unfold remove_from_channel. by case_decide. }
  destruct (Hrest ix1 (channel_key c)) as (Eh & Ec & Eq).
  split; [done|]. split; [intros q; unfold by_queue; by rewrite Eq|].
  intros a' c' Hne [H1 H2]. unfold registered. rewrite Eh, Ec. unfold ix1, unregister, deactivate. cbn.
  rewrite lookup_alter_ne by done. split; [done|].
  rewrite lookup_delete_ne; [done|]. intros Hk. apply Hne.
  unfold consumer_key in *. rewrite <-Hk, Hcons in H2. by injection H2.
Qed.

Lemma foldl_remove_queue_consumer C l : ∀ Q ix,
  wf_partial Q C ix → NoDup l → (∀ a, a ∈ l → ∃ c, registered ix a c) →
  wf_partial (list_to_set l ∪ Q) C (foldl remove_queue_consumer ix l) ∧
  ∀ q, by_queue (foldl remove_queue_consumer ix l) q = by_queue ix q.
Proof.
  induction l as [|a l IH]; intros Q ix Hwf Hnd Hin; cbn [foldl].
  { split; [|done]. by replace (list_to_set [] ∪ Q) with Q by set_solver. }
  apply NoDup_cons in Hnd as [Ha Hnd].
  destruct (Hin a ltac:(by left)) as [c Hreg].
  destruct (remove_queue_consumer_wf Q C ix a c Hwf Hreg) as (Hwf1 & Hbq & Hother).
  destruct (IH _ _ Hwf1 Hnd) as [Hwf2 Hbq2].
  { intros a' Ha'. destruct (Hin a' ltac:(by right)) as [c' Hreg']. exists c'.
    apply Hother; [|done]. by intros ->. }
  split; [|intros q; by rewrite Hbq2].
  by replace (list_to_set (a :: l) ∪ Q) with (list_to_set l ∪ ({[a]} ∪ Q)) by set_solver.
Qed.

Lemma removeQueueConsumersLocked_wf C ix q :
  wf_partial ∅ C ix →
  wf_partial ∅ C (removeQueueConsumersLocked q ix).2 ∧
  ∀ q', by_queue (removeQueueConsumersLocked q ix).2 q' = if decide (q = q') then [] else by_queue ix q'.
Proof.
  intros Hwf. unfold removeQueueConsumersLocked. cbn [snd].
  destruct (foldl_remove_queue_consumer C (by_queue ix q) ∅ ix Hwf) as [Hwf1 Hbq].
  { apply (wi_queue_NoDup _ _ _ Hwf). }
  { intros a (c & H1 & H2 & [H3|H3%not_elem_of_empty])%(wi_queue _ _ _ Hwf); [by exists c|done]. }
  set (ix1 := foldl _ _ _) in *. split.
  - pose proof (delete_queue_list_wf _ _ _ Hwf1 q) as Hd. rewrite Hbq in Hd.
    replace ((list_to_set (by_queue ix q) ∪ ∅) ∖ list_to_set (by_queue ix q)) with (∅ : gset nat)
      in Hd by set_solver.
    apply Hd. intros a Ha. apply elem_of_union_l. by apply elem_of_list_to_set.
  - intros q'. rewrite <-Hbq. unfold by_queue. cbn.
    case_decide; [subst; by rewrite lookup_delete_eq|by rewrite lookup_delete_ne].
Qed.
