(* ===== verification/Json.v ===== *)
(** * encoding/json, as far as the broker compares arguments with it

    [equalArgs] of vhost/exchange.go compares two maps of arguments by their
    [json.Marshal] texts.  The texts of maps, slices, strings and integers are
    computed here; the text of a floating-point number and of a time is left to
    a parameter, since the comparison needs no more of it than that it is a
    function of the value ([None] for NaN and the infinities, which fail). *)

From stdpp Require Import base list strings sorting pretty.
From Stdlib Require Import ZArith Lia.
From S2P Require Import Prelude Bytes Values.

Local Open Scope Z_scope.
Local Open Scope string_scope.
Local Open Scope list_scope.

(** ** Strings *)

Definition chr (n : nat) : string := String (Ascii.ascii_of_nat n) EmptyString.
Definition quote_char : string := chr 34.

Definition hex_digit (n : nat) : string :=
  chr (if (n <? 10)%nat then (48 + n)%nat else (87 + n)%nat).

(** An escape of four hexadecimal digits; the code is below 256. *)
Definition u_escape (n : nat) : string :=
  ("\u00" +:+ hex_digit (n / 16) +:+ hex_digit (n mod 16))%string.

(** One ASCII byte, with the HTML escapes that [json.Marshal] applies. *)
Definition escape_ascii (n : nat) : string :=
  if decide (n = 34)%nat then (chr 92 +:+ quote_char)%string
  else if decide (n = 92)%nat then (chr 92 +:+ chr 92)%string
  else if decide (n = 8)%nat then "\b"
  else if decide (n = 12)%nat then "\f"
  else if decide (n = 10)%nat then "\n"
  else if decide (n = 13)%nat then "\r"
  else if decide (n = 9)%nat then "\t"
  else if decide (n < 32)%nat then u_escape n
  else if decide (n = 60 ∨ n = 62 ∨ n = 38)%nat then u_escape n
  else chr n.

(** [utf8.DecodeRune] on a sequence that starts with a byte of 128 or more:
    the number of bytes of a valid encoding, [None] when it is not valid. *)
Definition rune_length (bs : list nat) : option nat :=
  let cont := fun (lo hi b : nat) => (lo <=? b)%nat && (b <=? hi)%nat in
  match bs with
  | a :: b :: rest =>
      if cont 194%nat 223%nat a then if cont 128%nat 191%nat b then Some 2%nat else None
      else if cont 224%nat 239%nat a then
        let lo := if (a =? 224)%nat then 160%nat else 128%nat in
        let hi := if (a =? 237)%nat then 159%nat else 191%nat in
        match rest with
        | c :: _ => if cont lo hi b && cont 128%nat 191%nat c then Some 3%nat else None
        | [] => None
        end
      else if cont 240%nat 244%nat a then
        let lo := if (a =? 240)%nat then 144%nat else 128%nat in
        let hi := if (a =? 244)%nat then 143%nat else 191%nat in
        match rest with
        | c :: d :: _ =>
            if cont lo hi b && cont 128%nat 191%nat c && cont 128%nat 191%nat d
            then Some 4%nat else None
        | _ => None
        end
      else None
  | _ => None
  end.

Definition string_of_codes (bs : list nat) : string :=
  foldr (λ n s, String (Ascii.ascii_of_nat n) s) EmptyString bs.

(** U+2028 and U+2029 are escaped, an invalid byte becomes U+FFFD.  [skip] is
    how many bytes of the current rune are still to be passed over. *)
Fixpoint escape_bytes (skip : nat) (bs : list nat) : string :=
  match bs with
  | [] => EmptyString
  | b :: bs' =>
      match skip with
      | S skip => escape_bytes skip bs'
      | O =>
          if (b <? 128)%nat then (escape_ascii b +:+ escape_bytes 0 bs')%string else
          match rune_length bs with
          | None => ("\ufffd" +:+ escape_bytes 0 bs')%string
          | Some n =>
              let rune := take n bs in
              ((if decide (rune = [226; 128; 168]%nat) then "\u2028"
                else if decide (rune = [226; 128; 169]%nat) then "\u2029"
                else string_of_codes rune) +:+ escape_bytes (n - 1) bs')%string
          end
      end
  end.

Definition codes (s : string) : list nat := Ascii.nat_of_ascii <$> String.list_ascii_of_string s.

Definition json_string (s : string) : string :=
  (quote_char +:+ escape_bytes 0 (codes s) +:+ quote_char)%string.

Example json_string_examples :
  (json_string "a<b", json_string ("tab" +:+ chr 9)%string, json_string (chr 200), json_string "é") =
  ((quote_char +:+ "a\u003cb" +:+ quote_char)%string, (quote_char +:+ "tab\t" +:+ quote_char)%string,
   (quote_char +:+ "\ufffd" +:+ quote_char)%string, (quote_char +:+ "é" +:+ quote_char)%string).
Proof. by vm_compute. Qed.

(** ** Values *)

Definition comma_separated (parts : list string) : string :=
  match parts with
  | [] => EmptyString
  | p :: parts => (p +:+ foldr (λ q s, ("," +:+ q +:+ s)%string) EmptyString parts)%string
  end.

(** The members of an object, in the order of their keys. *)
Definition key_le (m1 m2 : string * string) : Prop := String.leb m1.1 m2.1 = true.
#[export] Instance key_le_dec : RelDecision key_le.
Proof. intros m1 m2. unfold key_le. apply _. Defined.

Definition json_object (members : list (string * string)) : string :=
  ("{" +:+ comma_separated ((λ m, (json_string m.1 +:+ ":" +:+ m.2)%string)
                             <$> merge_sort key_le members) +:+ "}")%string.

Definition json_array (elements : list string) : string :=
  ("[" +:+ comma_separated elements +:+ "]")%string.

Section marshal.
Variable float_text : bool → Z → option string.
Variable time_text : Z → Z → option string.

Fixpoint json_value (v : value) : option string :=
  let members := fix members (t : table) : option (list (string * string)) :=
    match t with
    | [] => Some []
    | (k, v) :: t' =>
        match json_value v, members t' with
        | Some x, Some l => Some ((k, x) :: l)
        | _, _ => None
        end
    end in
  match v with
  | VNil => Some "null"
  | VBool b => Some (if b then "true" else "false")
  | VI8 z | VU8 z | VI16 z | VU16 z | VI32 z | VU32 z | VI64 z | VU64 z | VInt z => Some (pretty z)
  | VF32 bits => float_text false bits
  | VF64 bits => float_text true bits
  | VDec scale val | VAnonDec scale val =>
      Some (json_object [("Scale", pretty scale); ("Value", pretty val)])
  | VStr s => Some (json_string s)
  | VTime sec nsec => time_text sec nsec
  | VTable t => json_object <$> members t
  | VArr l =>
      json_array <$> (fix elements (l : list value) : option (list string) :=
        match l with
        | [] => Some []
        | x :: l' =>
            match json_value x, elements l' with
            | Some y, Some ys => Some (y :: ys)
            | _, _ => None
            end
        end) l
  | VStrs l => Some (json_array (json_string <$> l))
  | VTables l =>
      json_array <$> (fix elements (l : list table) : option (list string) :=
        match l with
        | [] => Some []
        | x :: l' =>
            match members x, elements l' with
            | Some y, Some ys => Some (json_object y :: ys)
            | _, _ => None
            end
        end) l
  end.

(** [json.Marshal] of a map of arguments; a nil map is the text [null]. *)
Definition json_Marshal (args : option table) : option string :=
  match args with
  | None => Some "null"
  | Some t => json_value (VTable t)
  end.

(** ** The order in which Go visits a map does not show *)

Fixpoint json_members (t : table) : option (list (string * string)) :=
  match t with
  | [] => Some []
  | (k, v) :: t' =>
      match json_value v, json_members t' with
      | Some x, Some l => Some ((k, x) :: l)
      | _, _ => None
      end
  end.

Lemma json_table t : json_value (VTable t) = json_object <$> json_members t.
Proof. reflexivity. Qed.

Lemma leb_antisym s1 s2 : String.leb s1 s2 = true → String.leb s2 s1 = true → s1 = s2.
Proof.
  unfold String.leb. intros H1 H2. apply String.compare_eq_iff.
  rewrite String.compare_antisym in H2. by destruct (String.compare s1 s2).
Qed.

Lemma leb_trans s1 s2 s3 : String.leb s1 s2 = true → String.leb s2 s3 = true → String.leb s1 s3 = true.
Proof.
  revert s2 s3. unfold String.leb.
  induction s1 as [|a s1 IH]; intros [|b s2] [|c s3]; cbn; try done.
  unfold Ascii.compare. specialize (IH s2 s3).
  destruct (N.compare_spec (Ascii.N_of_ascii a) (Ascii.N_of_ascii b)),
    (N.compare_spec (Ascii.N_of_ascii b) (Ascii.N_of_ascii c)),
    (N.compare_spec (Ascii.N_of_ascii a) (Ascii.N_of_ascii c)); done || lia || auto.
Qed.

#[export] Instance key_le_trans : Transitive key_le.
Proof. intros m1 m2 m3. apply leb_trans. Qed.

#[export] Instance key_le_total : Total key_le.
Proof.
  intros m1 m2. unfold key_le, String.leb. rewrite (String.compare_antisym m1.1 m2.1).
  destruct (String.compare m2.1 m1.1); [by left|by right|by left].
Qed.

Lemma json_object_perm l1 l2 : NoDup l1.*1 → l1 ≡ₚ l2 → json_object l1 = json_object l2.
Proof.
  intros Hnd Hp. unfold json_object. do 4 f_equal.
  apply (StronglySorted_unique_strong key_le).
  - intros [k1 x1] [k2 x2]. rewrite !merge_sort_Permutation, <-Hp. intros H1 H2 Hle1 Hle2.
    assert (k1 = k2) as -> by by apply leb_antisym.
    f_equal. revert H1 H2 Hnd. clear. induction l1 as [|[k x] l1 IH]; [by inversion 1|].
    rewrite !elem_of_cons. cbn. rewrite NoDup_cons.
    intros [H1|H1] [H2|H2] [Hk Hnd]; simplify_eq; [done|..|by apply IH].
    all: destruct Hk; apply list_elem_of_fmap; by eexists (_, _).
  - apply (StronglySorted_merge_sort _ _).
  - apply (StronglySorted_merge_sort _ _).
  - by rewrite !merge_sort_Permutation.
Qed.

Lemma json_members_perm t u : t ≡ₚ u →
  match json_members t, json_members u with
  | Some l, Some m => l ≡ₚ m
  | None, None => True
  | _, _ => False
  end.
Proof.
  induction 1 as [|[k v] t u Hp IH|[k1 v1] [k2 v2] t|t u w H1 IH1 H2 IH2]; cbn; [done|..].
  - destruct (json_value v), (json_members t), (json_members u); try done. by constructor.
  - destruct (json_value v1), (json_value v2), (json_members t); try done. by constructor.
  - destruct (json_members t), (json_members u), (json_members w); try done. by etrans.
Qed.

Lemma json_members_keys t l : json_members t = Some l → l.*1 = t.*1.
Proof.
  revert l. induction t as [|[k v] t IH]; cbn; intros l; [by intros [= <-]|].
  destruct (json_value v); [|done]. destruct (json_members t); [|done].
  intros [= <-]. cbn. f_equal. by apply IH.
Qed.

Lemma json_Marshal_perm t u : NoDup t.*1 → t ≡ₚ u → json_Marshal (Some t) = json_Marshal (Some u).
Proof.
  intros Hnd Hp. unfold json_Marshal. rewrite !json_table. pose proof (json_members_perm t u Hp) as H.
  destruct (json_members t) as [l|] eqn:E, (json_members u) as [m|]; try done.
  cbn. f_equal. apply json_object_perm; [|done]. by rewrite (json_members_keys t).
Qed.
End marshal.
