(* ===== verification/VHost.v ===== *)
(** * The virtual host: vhost/exchange.go, vhost/binding.go, vhost/queue.go

    Exchanges, queues and bindings, and how messages are routed to queues.  The
    critical sections under [vh.mu] are functions on the state.  A [*Queue] in a
    binding is the queue's name: names are unique while a queue lives, and its
    bindings are removed when it is deleted ([names_well_formed] in Lifecycle.v). *)

From stdpp Require Import base list gmap strings pretty.
From Stdlib Require Import ZArith Lia.
From S2P Require Import Prelude Bytes Values Properties Methods Topic Args Queue Deliveries Consumers Json.

Local Open Scope Z_scope.
Local Open Scope string_scope.
Local Open Scope list_scope.

(** ** Data *)

Record Binding : Type := MkBinding {
  b_Queue : string;
  b_RoutingKey : string;
  b_Args : option table;
}.

Record ExchangeProperties : Type := MkExchangeProps {
  ep_Passive : bool;
  ep_Durable : bool;
  ep_AutoDelete : bool;
  ep_Internal : bool;
  ep_NoWait : bool;
  ep_Arguments : option table;
}.

(** [ExchangeType] is a string in the source. *)
Definition DIRECT : string := "direct".
Definition FANOUT : string := "fanout".
Definition TOPIC : string := "topic".

Record Exchange : Type := MkExchange {
  ex_Name : string;
  ex_Typ : string;
  ex_Bindings : gmap string (list Binding);
  ex_Props : ExchangeProperties;
}.

Definition set_Bindings (bs : gmap string (list Binding)) (e : Exchange) : Exchange :=
  MkExchange (ex_Name e) (ex_Typ e) bs (ex_Props e).

Definition NewExchange (name typ : string) (props : option ExchangeProperties) : Exchange :=
  MkExchange name typ ∅
    (default (MkExchangeProps false false false false false None) props).

(** A call to the persistence layer. *)
Inductive persist_call : Type :=
| SaveExchangeMetadata (exchange typ : string) (props : ExchangeProperties)
| DeleteExchangeMetadata (exchange : string)
| SaveBindingState (exchange queue routingKey : string) (args : option table)
| DeleteBindingState (exchange queue routingKey : string) (args : option table)
| SaveQueueMetadata (queue : string) (props : QueueProperties)
| DeleteQueueMetadata (queue : string)
| SaveMessage (queue : string) (msg : Message)
| DeleteMessage (queue msgID : string).

(** A message as it is published ([amqp.Message]). *)
Record AmqpMessage : Type := MkAmqpMessage {
  am_Body : list Byte.byte;
  am_Properties : BasicProperties;
  am_Exchange : string;
  am_RoutingKey : string;
}.

(** A channel's transaction (transaction.go): whether tx.select was received,
    and what was buffered since. *)
Inductive AckOperation : Type := AckOperationAck | AckOperationNack | AckOperationReject.

Record BufferedPublish : Type := MkBufferedPublish {
  bp_ExchangeName : string;
  bp_RoutingKey : string;
  bp_Message : AmqpMessage;
  bp_Mandatory : bool;
}.

Record BufferedAck : Type := MkBufferedAck {
  ba_Operation : AckOperation;
  ba_DeliveryTag : Z;
  ba_Multiple : bool;
  ba_Requeue : bool;
}.

Record ChannelTransactionState : Type := MkTransaction {
  InTransaction : bool;
  BufferedPublishes : list BufferedPublish;
  BufferedAcks : list BufferedAck;
}.

(** The vhost: its maps, its settings, the extensions that are on, the message
    identifiers marked as redelivered, its consumers, the delivery state and the
    transaction of each channel, and the calls made to the persistence layer, the last one first. *)
Record VHost : Type := MkVHost {
  vh_Exchanges : gmap string Exchange;
  vh_Queues : gmap string Queue;
  vh_queueBufferSize : Z;
  vh_maxPriority : Z;
  vh_EnableDLX : bool;
  vh_EnableTTL : bool;
  vh_EnableQLL : bool;
  vh_redeliveredMessages : gset string;
  vh_index : ConsumerIndex;
  vh_ChannelDeliveries : gmap ConnectionChannelKey ChannelDeliveryState;
  vh_ChannelTransactions : gmap ConnectionChannelKey ChannelTransactionState;
  vh_persist : list persist_call;
}.

Definition set_Exchanges (es : gmap string Exchange) (vh : VHost) : VHost :=
  MkVHost es (vh_Queues vh) (vh_queueBufferSize vh) (vh_maxPriority vh) (vh_EnableDLX vh)
    (vh_EnableTTL vh) (vh_EnableQLL vh) (vh_redeliveredMessages vh) (vh_index vh)
    (vh_ChannelDeliveries vh) (vh_ChannelTransactions vh) (vh_persist vh).
Definition set_Queues (qs : gmap string Queue) (vh : VHost) : VHost :=
  MkVHost (vh_Exchanges vh) qs (vh_queueBufferSize vh) (vh_maxPriority vh) (vh_EnableDLX vh)
    (vh_EnableTTL vh) (vh_EnableQLL vh) (vh_redeliveredMessages vh) (vh_index vh)
    (vh_ChannelDeliveries vh) (vh_ChannelTransactions vh) (vh_persist vh).
Definition set_redelivered (ms : gset string) (vh : VHost) : VHost :=
  MkVHost (vh_Exchanges vh) (vh_Queues vh) (vh_queueBufferSize vh) (vh_maxPriority vh)
    (vh_EnableDLX vh) (vh_EnableTTL vh) (vh_EnableQLL vh) ms (vh_index vh)
    (vh_ChannelDeliveries vh) (vh_ChannelTransactions vh) (vh_persist vh).
Definition set_index (ix : ConsumerIndex) (vh : VHost) : VHost :=
  MkVHost (vh_Exchanges vh) (vh_Queues vh) (vh_queueBufferSize vh) (vh_maxPriority vh)
    (vh_EnableDLX vh) (vh_EnableTTL vh) (vh_EnableQLL vh) (vh_redeliveredMessages vh) ix
    (vh_ChannelDeliveries vh) (vh_ChannelTransactions vh) (vh_persist vh).
Definition set_ChannelDeliveries (cs : gmap ConnectionChannelKey ChannelDeliveryState) (vh : VHost) : VHost :=
  MkVHost (vh_Exchanges vh) (vh_Queues vh) (vh_queueBufferSize vh) (vh_maxPriority vh)
    (vh_EnableDLX vh) (vh_EnableTTL vh) (vh_EnableQLL vh) (vh_redeliveredMessages vh) (vh_index vh)
    cs (vh_ChannelTransactions vh) (vh_persist vh).
Definition set_ChannelTransactions (ts : gmap ConnectionChannelKey ChannelTransactionState) (vh : VHost)
    : VHost :=
  MkVHost (vh_Exchanges vh) (vh_Queues vh) (vh_queueBufferSize vh) (vh_maxPriority vh)
    (vh_EnableDLX vh) (vh_EnableTTL vh) (vh_EnableQLL vh) (vh_redeliveredMessages vh) (vh_index vh)
    (vh_ChannelDeliveries vh) ts (vh_persist vh).
Definition persist (call : persist_call) (vh : VHost) : VHost :=
  MkVHost (vh_Exchanges vh) (vh_Queues vh) (vh_queueBufferSize vh) (vh_maxPriority vh)
    (vh_EnableDLX vh) (vh_EnableTTL vh) (vh_EnableQLL vh) (vh_redeliveredMessages vh) (vh_index vh)
    (vh_ChannelDeliveries vh) (vh_ChannelTransactions vh) (call :: vh_persist vh).
Definition persist_if (b : bool) (call : persist_call) (vh : VHost) : VHost :=
  if b then persist call vh else vh.

(** Errors: a channel exception with its reply code, class and method, or a
    plain error with its text. *)
Inductive vh_err : Type :=
| ChannelError (code classID methodID : Z)
| PlainError (text : string).

Definition NOT_FOUND : Z := 404.
Definition RESOURCE_LOCKED : Z := 405.
Definition PRECONDITION_FAILED : Z := 406.
Definition NOT_IMPLEMENTED : Z := 540.

(** A handler returns the new state with its result, error or not. *)
Definition handled (A : Type) : Type := VHost * res vh_err A.

(** ** Names *)

Definition DEFAULT_EXCHANGE : string := "amq.default".
Definition EMPTY_EXCHANGE : string := "".
Definition DEFAULT_EXCHANGE_ALIAS : string := "(AMQP default)".
Definition INTERNAL_CONN_ID : string := "__INTERNAL__".

Definition resolveExchangeAlias (name : string) : string :=
  if decide (name = EMPTY_EXCHANGE ∨ name = DEFAULT_EXCHANGE_ALIAS ∨ name = DEFAULT_EXCHANGE)
  then DEFAULT_EXCHANGE else name.

Definition mandatoryExchanges : list (string * string) :=
  [(DEFAULT_EXCHANGE, DIRECT); ("amq.topic", TOPIC); ("amq.direct", DIRECT); ("amq.fanout", FANOUT)].

(** ** Comparing arguments *)

(** What the operations take from Go: the texts [encoding/json] gives to a
    floating-point number and to a time, the integer a float64 converts to when
    it does not fit (Args), and the order in which [range] visits
    the delivery records of a channel, any order. *)
Class Runtime : Type := {
  float_text : bool → Z → option string;
  time_text : Z → Z → option string;
  out_of_range_int : Z;
  range_records : gmap Z DeliveryRecord → list (Z * DeliveryRecord);
  range_records_visits : ∀ m, range_records m ≡ₚ map_to_list m;
}.

(** One such runtime, for concrete examples. *)
Definition sample_runtime : Runtime := {|
  float_text := λ _ bits, Some (pretty bits);
  time_text := λ sec _, Some (pretty sec);
  out_of_range_int := - 2 ^ 63;
  range_records := map_to_list;
  range_records_visits := λ m, reflexivity _;
|}.

Section arguments.
Context `{Runtime}.

Definition equalArgs (a b : option table) : bool :=
  match a, b with
  | None, None => true
  | _, _ =>
      match json_Marshal float_text time_text a, json_Marshal float_text time_text b with
      | Some ab, Some bb => bool_decide (ab = bb)
      | _, _ => false
      end
  end.

(** [==] on the bits of two floats: a NaN is not equal to itself, and the two
    zeros are equal. *)
Definition float_equal (exponent mantissa : Z) (x y : Z) : bool :=
  let magnitude := fun bits => bits mod 2 ^ (exponent + mantissa) in
  let nan := fun bits => bool_decide ((2 ^ exponent - 1) * 2 ^ mantissa < magnitude bits) in
  negb (nan x) && negb (nan y) &&
  (bool_decide (x = y) || bool_decide (magnitude x = 0 ∧ magnitude y = 0)).

(** [reflect.DeepEqual]: maps are compared key by key. *)
Fixpoint value_deep_equal (a b : value) : bool :=
  let table_equal := fix table_equal (t u : table) : bool :=
    match t with
    | [] => true
    | (k, v) :: t' =>
        match tbl_get k u with
        | Some w => value_deep_equal v w && table_equal t' u
        | None => false
        end
    end in
  match a, b with
  | VTable t, VTable u => bool_decide (length t = length u) && table_equal t u
  | VArr l, VArr m =>
      (fix list_equal (l m : list value) : bool :=
        match l, m with
        | [], [] => true
        | x :: l', y :: m' => value_deep_equal x y && list_equal l' m'
        | _, _ => false
        end) l m
  | VTables l, VTables m =>
      (fix list_equal (l m : list table) : bool :=
        match l, m with
        | [], [] => true
        | x :: l', y :: m' =>
            bool_decide (length x = length y) && table_equal x y && list_equal l' m'
        | _, _ => false
        end) l m
  | VNil, VNil => true
  | VBool x, VBool y => bool_decide (x = y)
  | VI8 x, VI8 y | VU8 x, VU8 y | VI16 x, VI16 y | VU16 x, VU16 y | VI32 x, VI32 y
  | VU32 x, VU32 y | VI64 x, VI64 y | VU64 x, VU64 y | VInt x, VInt y => bool_decide (x = y)
  | VF32 x, VF32 y => float_equal 8 23 x y
  | VF64 x, VF64 y => float_equal 11 52 x y
  | VDec s x, VDec s' y | VAnonDec s x, VAnonDec s' y | VTime s x, VTime s' y =>
      bool_decide (s = s' ∧ x = y)
  | VStr x, VStr y => bool_decide (x = y)
  | VStrs x, VStrs y => bool_decide (x = y)
  | _, _ => false
  end.

Definition bindingArgumentsMatch (a b : option table) : bool :=
  let la := length (default [] a) in
  let lb := length (default [] b) in
  if decide (la = 0 ∧ lb = 0)%nat then true
  else if decide (la ≠ lb) then false
  else if value_deep_equal (VTable (default [] a)) (VTable (default [] b)) then true
  else equalArgs a b.

(** ** Exchanges *)

Definition CreateExchange (name typ : string) (props : option ExchangeProperties) (vh : VHost)
    : handled unit :=
  let passive := match props with Some p => ep_Passive p | None => false end in
  match vh_Exchanges vh !! name with
  | Some existing =>
      if passive : bool then (vh, Ok tt) else
      if decide (ex_Typ existing ≠ typ)
      then (vh, Err (PlainError "already exists with different type")) else
      match props with
      | None => (vh, Err (PlainError "already exists with incompatible properties"))
      | Some p =>
          let e := ex_Props existing in
          if decide (ep_Durable e ≠ ep_Durable p ∨ ep_AutoDelete e ≠ ep_AutoDelete p ∨
                     ep_Internal e ≠ ep_Internal p ∨ ep_NoWait e ≠ ep_NoWait p ∨
                     equalArgs (ep_Arguments e) (ep_Arguments p) = false)
          then (vh, Err (PlainError "already exists with different properties"))
          else (vh, Ok tt)
      end
  | None =>
      if passive : bool then (vh, Err (PlainError "does not exist")) else
      let vh := set_Exchanges (<[name := NewExchange name typ props]> (vh_Exchanges vh)) vh in
      match props with
      | Some p => (persist_if (ep_Durable p) (SaveExchangeMetadata name typ p) vh, Ok tt)
      | None => (vh, Ok tt)
      end
  end.

Definition is_mandatory (name : string) : bool :=
  bool_decide (name ∈ mandatoryExchanges.*1).

Definition deleteExchangeUnlocked (name : string) (vh : VHost) : handled unit :=
  if is_mandatory name then (vh, Err (PlainError "cannot delete default exchange")) else
  match vh_Exchanges vh !! name with
  | None => (vh, Err (PlainError "exchange not found"))
  | Some exchange =>
      let vh := set_Exchanges (delete name (vh_Exchanges vh)) vh in
      (persist_if (ep_Durable (ex_Props exchange)) (DeleteExchangeMetadata name) vh, Ok tt)
  end.

Definition checkAutoDeleteExchangeUnlocked (name : string) (vh : VHost) : handled bool :=
  match vh_Exchanges vh !! name with
  | None => (vh, Err (PlainError "exchange not found"))
  | Some exchange =>
      if decide (ep_AutoDelete (ex_Props exchange) = true ∧ ex_Bindings exchange = ∅) then
        match deleteExchangeUnlocked name vh with
        | (vh, Ok _) => (vh, Ok true)
        | (vh, Err _) => (vh, Err (PlainError "failed to auto-delete exchange"))
        end
      else (vh, Ok false)
  end.

(** ** Bindings *)

Definition validateQueueOwnership (queue : Queue) (connID : string) (classID methodID : Z)
    : res vh_err unit :=
  if decide (qp_Exclusive (q_Props queue) = true ∧ q_OwnerConn queue ≠ connID)
  then Err (ChannelError RESOURCE_LOCKED classID methodID) else Ok tt.

Definition bindingExist (b : Binding) (queueName routingKey : string) (args : option table) : bool :=
  bool_decide (b_Queue b = queueName) && bool_decide (b_RoutingKey b = routingKey)
  && bindingArgumentsMatch (b_Args b) args.

(** [append(exchange.Bindings[key], newBinding)], unless an equal one is there. *)
Definition add_binding (key : string) (b : Binding) (queueName routingKey : string)
    (args : option table) (e : Exchange) : option Exchange :=
  let bindings := default [] (ex_Bindings e !! key) in
  if existsb (λ b', bindingExist b' queueName routingKey args) bindings then None
  else Some (set_Bindings (<[key := bindings ++ [b]]> (ex_Bindings e)) e).

(** The new binding keeps the routing key of the call; a fanout exchange files
    it under the empty key and looks for an equal binding with that key. *)
Definition BindQueue (exchangeName queueName routingKey : string) (args : option table)
    (connID : string) (vh : VHost) : handled unit :=
  let exchangeName := resolveExchangeAlias exchangeName in
  match vh_Exchanges vh !! exchangeName with
  | None => (vh, Err (ChannelError NOT_FOUND QUEUE QUEUE_BIND))
  | Some exchange =>
  match vh_Queues vh !! queueName with
  | None => (vh, Err (ChannelError NOT_FOUND QUEUE QUEUE_BIND))
  | Some queue =>
  match (if decide (connID ≠ INTERNAL_CONN_ID)
         then validateQueueOwnership queue connID QUEUE QUEUE_BIND else Ok tt) with
  | Err e => (vh, Err e)
  | Ok _ =>
      let newBinding := MkBinding queueName routingKey args in
      let bound := fun key =>
        match add_binding key newBinding queueName key args exchange with
        | None => (vh, Ok tt)
        | Some exchange' =>
            let vh := set_Exchanges (<[exchangeName := exchange']> (vh_Exchanges vh)) vh in
            (persist_if (ep_Durable (ex_Props exchange) && qp_Durable (q_Props queue))
               (SaveBindingState exchangeName queueName key args) vh, Ok tt)
        end in
      if decide (ex_Typ exchange = DIRECT) then bound routingKey
      else if decide (ex_Typ exchange = FANOUT) then bound ""
      else if decide (ex_Typ exchange = TOPIC) then bound routingKey
      else (vh, Err (ChannelError NOT_IMPLEMENTED EXCHANGE QUEUE_BIND))
  end end end.

(** The first binding of the queue with matching arguments, removed. *)
Fixpoint remove_binding (queueName : string) (args : option table) (bs : list Binding)
    : option (list Binding) :=
  match bs with
  | [] => None
  | b :: bs' =>
      if bool_decide (b_Queue b = queueName) && bindingArgumentsMatch (b_Args b) args then Some bs'
      else match remove_binding queueName args bs' with
           | Some rest => Some (b :: rest)
           | None => None
           end
  end.

Definition DeleteBindingUnlocked (exchange : Exchange) (queueName routingKey : string)
    (args : option table) (vh : VHost) : handled unit :=
  match ex_Bindings exchange !! routingKey with
  | None => (vh, Err (ChannelError NOT_FOUND QUEUE QUEUE_UNBIND))
  | Some queues =>
      match remove_binding queueName args queues with
      | None => (vh, Err (ChannelError NOT_FOUND QUEUE QUEUE_UNBIND))
      | Some rest =>
          if decide (rest = []) then
            let exchange := set_Bindings (delete routingKey (ex_Bindings exchange)) exchange in
            let vh := set_Exchanges (<[ex_Name exchange := exchange]> (vh_Exchanges vh)) vh in
            match checkAutoDeleteExchangeUnlocked (ex_Name exchange) vh with
            | (vh, Ok _) => (vh, Ok tt)
            | (vh, Err e) => (vh, Err e)
            end
          else
            let exchange := set_Bindings (<[routingKey := rest]> (ex_Bindings exchange)) exchange in
            (set_Exchanges (<[ex_Name exchange := exchange]> (vh_Exchanges vh)) vh, Ok tt)
      end
  end.

Definition UnbindQueue (exchangeName queueName routingKey : string) (args : option table)
    (connID : string) (vh : VHost) : handled unit :=
  let exchangeName := resolveExchangeAlias exchangeName in
  match vh_Exchanges vh !! exchangeName with
  | None => (vh, Err (ChannelError NOT_FOUND QUEUE QUEUE_UNBIND))
  | Some exchange =>
  match vh_Queues vh !! queueName with
  | None => (vh, Err (ChannelError NOT_FOUND QUEUE QUEUE_UNBIND))
  | Some queue =>
  match validateQueueOwnership queue connID QUEUE QUEUE_UNBIND with
  | Err e => (vh, Err e)
  | Ok _ =>
      let unbound := fun key =>
        match DeleteBindingUnlocked exchange queueName key args vh with
        | (vh, Err e) => (vh, Err e)
        | (vh, Ok _) =>
            (persist_if (ep_Durable (ex_Props exchange) && qp_Durable (q_Props queue))
               (DeleteBindingState exchangeName queueName key args) vh, Ok tt)
        end in
      if decide (ex_Typ exchange = DIRECT ∨ ex_Typ exchange = TOPIC) then unbound routingKey
      else if decide (ex_Typ exchange = FANOUT) then unbound ""
      else (vh, Err (ChannelError NOT_IMPLEMENTED EXCHANGE QUEUE_UNBIND))
  end end end.
End arguments.
