(* ===== verification/Store.v ===== *)
(** * The JSON store: pkg/persistence/implementations/json/json.go

    One file per queue, with its messages, and one per exchange, with its
    bindings, in a directory per virtual host.  Each operation holds its file's
    lock and writes with [atomicWriteFile] (Atomic), so it is one step that maps
    the files to the files; that the file system fails is the error of the step,
    which leaves the old file or the new one, and is not modelled here.  A file
    holds what [json.Unmarshal] reads back from it. *)

From stdpp Require Import base list gmap strings sorting pretty.
From Stdlib Require Import ZArith Lia.
From S2P Require Import Prelude Bytes Paths Atomic Values Properties Queue Json VHost.

Local Open Scope Z_scope.
Local Open Scope string_scope.
Local Open Scope list_scope.

(** ** Sorting by name *)

Definition name_le {A} (m1 m2 : string * A) : Prop := String.leb m1.1 m2.1 = true.
#[export] Instance name_le_dec {A} : RelDecision (@name_le A).
Proof. intros m1 m2. unfold name_le. apply _. Defined.

(** ** What comes back from JSON *)

(** The bytes of U+FFFD, which replaces each byte that is not valid UTF-8. *)
Definition replacement : list nat := [239; 191; 189]%nat.

Fixpoint utf8_bytes (skip : nat) (bs : list nat) : list nat :=
  match bs with
  | [] => []
  | b :: bs' =>
      match skip with
      | S skip => b :: utf8_bytes skip bs'
      | O =>
          if (b <? 128)%nat then b :: utf8_bytes 0 bs' else
          match rune_length bs with
          | None => replacement ++ utf8_bytes 0 bs'
          | Some n => b :: utf8_bytes (n - 1) bs'
          end
      end
  end.

Definition json_text (s : string) : string := string_of_codes (utf8_bytes 0 (codes s)).
Arguments json_text _ : simpl never.

(** [strconv.ParseFloat] with 64 bits on the text of a number, and the text
    between the quotes of a time. *)
Class JsonReader : Type := {
  parse_float : string → Z;
  time_string : Z → Z → option string;
}.

Section json.
Context `{Runtime, JsonReader}.

(** The members of an object, read in the order they are written: sorted by
    name; two names that are read as one leave the later member. *)
Definition read_members (members : list (string * value)) : table :=
  foldl (λ t kv, tbl_set (json_text kv.1) kv.2 t) []
    (merge_sort name_le members).

Definition json_number (text : string) : value := VF64 (parse_float text).

(** [json.Unmarshal] of [json.Marshal] into an [any]; [None] when the value has
    no JSON text (a NaN, an infinity, a time out of range).  [Unmarshal] also
    refuses more than ten thousand levels of nesting, which is left out. *)
Fixpoint json_reread (v : value) : option value :=
  let members := fix members (t : table) : option (list (string * value)) :=
    match t with
    | [] => Some []
    | (k, v) :: t' =>
        match json_reread v, members t' with
        | Some x, Some l => Some ((k, x) :: l)
        | _, _ => None
        end
    end in
  match v with
  | VNil => Some VNil
  | VBool b => Some (VBool b)
  | VI8 z | VU8 z | VI16 z | VU16 z | VI32 z | VU32 z | VI64 z | VU64 z | VInt z =>
      Some (json_number (pretty z))
  | VF32 bits => json_number <$> float_text false bits
  | VF64 bits => json_number <$> float_text true bits
  | VDec scale val | VAnonDec scale val =>
      Some (VTable [("Scale", json_number (pretty scale)); ("Value", json_number (pretty val))])
  | VStr s => Some (VStr (json_text s))
  | VTime sec nsec => VStr <$> time_string sec nsec
  | VTable t => (λ l, VTable (read_members l)) <$> members t
  | VArr l =>
      VArr <$> (fix elements (l : list value) : option (list value) :=
        match l with
        | [] => Some []
        | x :: l' =>
            match json_reread x, elements l' with
            | Some y, Some ys => Some (y :: ys)
            | _, _ => None
            end
        end) l
  | VStrs l => Some (VArr (VStr ∘ json_text <$> l))
  | VTables l =>
      VArr <$> (fix elements (l : list table) : option (list value) :=
        match l with
        | [] => Some []
        | x :: l' =>
            match members x, elements l' with
            | Some y, Some ys => Some (VTable (read_members y) :: ys)
            | _, _ => None
            end
        end) l
  end.

(** A [map[string]any]; a nil map is written [null] and read as nil.  With
    [omitempty] an empty map is not written at all. *)
Definition reread_args (args : option table) : option (option table) :=
  match args with
  | None => Some None
  | Some t =>
      match json_reread (VTable t) with
      | Some (VTable t') => Some (Some t')
      | _ => None
      end
  end.

Definition reread_omitempty (args : option table) : option (option table) :=
  match args with
  | None | Some [] => Some None
  | Some (_ :: _) => reread_args args
  end.
End json.

(** ** pkg/persistence/models.go and models.go *)

Module persistence.
Record MessageProperties : Type := MkMessageProperties {
  mp_ContentType : string;
  mp_ContentEncoding : string;
  mp_Headers : option table;
  mp_DeliveryMode : Z;
  mp_Priority : Z;
  mp_CorrelationID : string;
  mp_ReplyTo : string;
  mp_Expiration : string;
  mp_MessageID : string;
  mp_Timestamp : Z;
  mp_Type : string;
  mp_UserID : string;
  mp_AppID : string;
}.

Record Message : Type := MkMessage {
  pm_ID : string;
  pm_Body : list Byte.byte;
  pm_Properties : MessageProperties;
  pm_EnqueuedAt : Z;
}.

Record QueueProperties : Type := MkQueueProperties {
  pq_Durable : bool;
  pq_Exclusive : bool;
  pq_AutoDelete : bool;
  pq_Arguments : option table;
}.

Record ExchangeProperties : Type := MkExchangeProperties {
  pe_Durable : bool;
  pe_AutoDelete : bool;
  pe_Internal : bool;
  pe_Arguments : option table;
}.

Record BindingData : Type := MkBindingData {
  bd_QueueName : string;
  bd_RoutingKey : string;
  bd_Arguments : option table;
}.

Record ExchangeSnapshot : Type := MkExchangeSnapshot {
  es_Name : string;
  es_Type : string;
  es_Properties : ExchangeProperties;
  es_Bindings : list BindingData;
}.

Record QueueSnapshot : Type := MkQueueSnapshot {
  qs_Name : string;
  qs_Properties : QueueProperties;
  qs_Messages : list Message;
}.
End persistence.

(** ** The files *)

Record JsonMessageData : Type := MkMessageData {
  jm_ID : string;
  jm_Body : list Byte.byte;
  jm_Properties : persistence.MessageProperties;
}.

Record JsonQueueData : Type := MkQueueData {
  jq_Name : string;
  jq_Properties : persistence.QueueProperties;
  jq_Messages : list JsonMessageData;
}.

Record JsonExchangeData : Type := MkExchangeData {
  je_Name : string;
  je_Type : string;
  je_Properties : persistence.ExchangeProperties;
  je_Bindings : list persistence.BindingData;
}.

(** A file that [json.Unmarshal] refuses is [None]. *)
Record vhost_dir : Type := MkVHostDir {
  d_name : option (option string);
  d_queues : gmap string (option JsonQueueData);
  d_exchanges : gmap string (option JsonExchangeData);
}.

Definition empty_dir : vhost_dir := MkVHostDir None ∅ ∅.

(** The data directory: the number in its layout marker, and the directories
    under vhosts/. *)
Record disk : Type := MkDisk {
  k_layout : option (option Z);
  k_vhosts : gmap string vhost_dir;
}.

Inductive store_err : Type :=
| NotExist
| Unreadable
| MarshalFailed
| WrongLayout
| NotAVHostDir
| LoadFailed (e : store_err).

Section files.
Context `{Runtime, JsonReader, Sha256}.

Definition reread_message_props (p : persistence.MessageProperties)
    : option persistence.MessageProperties :=
  headers ← reread_omitempty (persistence.mp_Headers p);
  Some (persistence.MkMessageProperties (json_text (persistence.mp_ContentType p))
    (json_text (persistence.mp_ContentEncoding p)) headers (persistence.mp_DeliveryMode p)
    (persistence.mp_Priority p) (json_text (persistence.mp_CorrelationID p))
    (json_text (persistence.mp_ReplyTo p)) (json_text (persistence.mp_Expiration p))
    (json_text (persistence.mp_MessageID p)) (persistence.mp_Timestamp p)
    (json_text (persistence.mp_Type p)) (json_text (persistence.mp_UserID p))
    (json_text (persistence.mp_AppID p))).

(** The body is written in base64. *)
Definition reread_message (m : JsonMessageData) : option JsonMessageData :=
  props ← reread_message_props (jm_Properties m);
  Some (MkMessageData (json_text (jm_ID m)) (jm_Body m) props).

Definition reread_queue (q : JsonQueueData) : option JsonQueueData :=
  args ← reread_args (persistence.pq_Arguments (jq_Properties q));
  messages ← mapM reread_message (jq_Messages q);
  let p := jq_Properties q in
  Some (MkQueueData (json_text (jq_Name q))
    (persistence.MkQueueProperties (persistence.pq_Durable p) (persistence.pq_Exclusive p)
       (persistence.pq_AutoDelete p) args) messages).

Definition reread_binding (b : persistence.BindingData) : option persistence.BindingData :=
  args ← reread_args (persistence.bd_Arguments b);
  Some (persistence.MkBindingData (json_text (persistence.bd_QueueName b))
    (json_text (persistence.bd_RoutingKey b)) args).

Definition reread_exchange (e : JsonExchangeData) : option JsonExchangeData :=
  args ← reread_args (persistence.pe_Arguments (je_Properties e));
  bindings ← mapM reread_binding (je_Bindings e);
  let p := je_Properties e in
  Some (MkExchangeData (json_text (je_Name e)) (json_text (je_Type e))
    (persistence.MkExchangeProperties (persistence.pe_Durable p) (persistence.pe_AutoDelete p)
       (persistence.pe_Internal p) args) bindings).

(** ** Reading and writing one file *)

(** A virtual host without a directory has no files. *)
Definition dir_of (vhost : string) (d : disk) : vhost_dir :=
  default empty_dir (k_vhosts d !! encodeName vhost).

Definition put_dir (vhost : string) (dir : vhost_dir) (d : disk) : disk :=
  MkDisk (k_layout d) (<[encodeName vhost := dir]> (k_vhosts d)).

Definition file_of (name : string) : string := encodeName name +:+ ".json".

Definition load_file {A} (file : option (option A)) : res store_err A :=
  match file with
  | None => Err NotExist
  | Some None => Err Unreadable
  | Some (Some data) => Ok data
  end.

Definition loadQueueFile (vhost name : string) (d : disk) : res store_err JsonQueueData :=
  load_file (d_queues (dir_of vhost d) !! file_of name).
Definition loadExchangeFile (vhost name : string) (d : disk) : res store_err JsonExchangeData :=
  load_file (d_exchanges (dir_of vhost d) !! file_of name).

(** [json.MarshalIndent] and [atomicWriteFile]. *)
Definition saveQueueFile (vhost name : string) (q : JsonQueueData) (d : disk) : disk * res store_err unit :=
  match reread_queue q with
  | None => (d, Err MarshalFailed)
  | Some q =>
      let dir := dir_of vhost d in
      (put_dir vhost (MkVHostDir (d_name dir) (<[file_of name := Some q]> (d_queues dir)) (d_exchanges dir)) d,
       Ok tt)
  end.

Definition saveExchangeFile (vhost name : string) (e : JsonExchangeData) (d : disk)
    : disk * res store_err unit :=
  match reread_exchange e with
  | None => (d, Err MarshalFailed)
  | Some e =>
      let dir := dir_of vhost d in
      (put_dir vhost (MkVHostDir (d_name dir) (d_queues dir) (<[file_of name := Some e]> (d_exchanges dir))) d,
       Ok tt)
  end.

(** The directory and its vhost.json, unless that is there. *)
Definition ensureVHostDir (vhost : string) (d : disk) : disk :=
  let dir := dir_of vhost d in
  match d_name dir with
  | Some _ => d
  | None => put_dir vhost (MkVHostDir (Some (Some (json_text vhost))) (d_queues dir) (d_exchanges dir)) d
  end.
End files.

(** ** json.go *)

Module JsonPersistence.
Section operations.
Context `{Runtime, JsonReader, Sha256}.

Definition checkLayout (d : disk) : disk * res store_err unit :=
  match k_layout d with
  | Some None => (d, Err Unreadable)
  | Some (Some layout) => (d, if decide (layout = 2) then Ok tt else Err WrongLayout)
  | None =>
      if decide (k_vhosts d = ∅) then (MkDisk (Some (Some 2)) ∅, Ok tt) else (d, Err WrongLayout)
  end.

Definition remove_stray (dir : vhost_dir) : vhost_dir :=
  MkVHostDir (d_name dir) (removeStrayTempFiles (d_queues dir)) (removeStrayTempFiles (d_exchanges dir)).

Definition Initialize (d : disk) : disk * res store_err unit :=
  match checkLayout d with
  | (d, Err e) => (d, Err e)
  | (d, Ok _) => (MkDisk (k_layout d) (remove_stray <$> k_vhosts d), Ok tt)
  end.

Definition equalArgs (a b : option table) : bool :=
  if decide (default [] a = [] ∧ default [] b = []) then true else
  match json_Marshal float_text time_text a, json_Marshal float_text time_text b with
  | Some ab, Some bb => bool_decide (ab = bb)
  | _, _ => false
  end.

Definition SaveExchangeMetadata (vhost name exchangeType : string) (props : persistence.ExchangeProperties)
    (d : disk) : disk * res store_err unit :=
  saveExchangeFile vhost name (MkExchangeData name exchangeType props []) (ensureVHostDir vhost d).

Definition LoadExchangeMetadata (vhost name : string) (d : disk)
    : res store_err (string * persistence.ExchangeProperties) :=
  e ← loadExchangeFile vhost name d; Ok (je_Type e, je_Properties e).

(** [os.Remove]. *)
Definition DeleteExchangeMetadata (vhost name : string) (d : disk) : disk * res store_err unit :=
  let dir := dir_of vhost d in
  match d_exchanges dir !! file_of name with
  | None => (d, Err NotExist)
  | Some _ =>
      (put_dir vhost (MkVHostDir (d_name dir) (d_queues dir) (delete (file_of name) (d_exchanges dir))) d, Ok tt)
  end.

(** The messages of an existing file are kept. *)
Definition SaveQueueMetadata (vhost name : string) (props : persistence.QueueProperties) (d : disk)
    : disk * res store_err unit :=
  let d := ensureVHostDir vhost d in
  match loadQueueFile vhost name d with
  | Err NotExist => saveQueueFile vhost name (MkQueueData name props []) d
  | Err e => (d, Err e)
  | Ok existing => saveQueueFile vhost name (MkQueueData name props (jq_Messages existing)) d
  end.

Definition LoadQueueMetadata (vhost name : string) (d : disk) : res store_err persistence.QueueProperties :=
  q ← loadQueueFile vhost name d; Ok (jq_Properties q).

Definition DeleteQueueMetadata (vhost name : string) (d : disk) : disk * res store_err unit :=
  let dir := dir_of vhost d in
  match d_queues dir !! file_of name with
  | None => (d, Err NotExist)
  | Some _ =>
      (put_dir vhost (MkVHostDir (d_name dir) (delete (file_of name) (d_queues dir)) (d_exchanges dir)) d, Ok tt)
  end.

Definition same_binding (queue routingKey : string) (arguments : option table) (b : persistence.BindingData) : bool :=
  bool_decide (persistence.bd_QueueName b = queue) && bool_decide (persistence.bd_RoutingKey b = routingKey)
  && equalArgs (persistence.bd_Arguments b) arguments.

Definition SaveBindingState (vhost exchange queue routingKey : string) (arguments : option table) (d : disk)
    : disk * res store_err unit :=
  match loadExchangeFile vhost exchange d with
  | Err e => (d, Err (LoadFailed e))
  | Ok existing =>
      let duplicate := existsb (same_binding queue routingKey arguments) (je_Bindings existing) in
      let bindings := if duplicate : bool then je_Bindings existing
        else je_Bindings existing ++ [persistence.MkBindingData queue routingKey arguments] in
      saveExchangeFile vhost exchange
        (MkExchangeData exchange (je_Type existing) (je_Properties existing) bindings) d
  end.

Definition LoadExchangeBindings (vhost exchange : string) (d : disk)
    : res store_err (list persistence.BindingData) :=
  e ← loadExchangeFile vhost exchange d; Ok (je_Bindings e).

Definition DeleteBindingState (vhost exchange queue routingKey : string) (arguments : option table) (d : disk)
    : disk * res store_err unit :=
  match loadExchangeFile vhost exchange d with
  | Err e => (d, Err (LoadFailed e))
  | Ok existing =>
      let updatedBindings :=
        filter (λ b, same_binding queue routingKey arguments b = false) (je_Bindings existing) in
      saveExchangeFile vhost exchange
        (MkExchangeData exchange (je_Type existing) (je_Properties existing) updatedBindings) d
  end.

Definition SaveMessage (vhost queue msgId : string) (msgBody : list Byte.byte)
    (msgProps : persistence.MessageProperties) (d : disk) : disk * res store_err unit :=
  match loadQueueFile vhost queue d with
  | Err e => (d, Err (LoadFailed e))
  | Ok q =>
      let newMessage := MkMessageData msgId msgBody msgProps in
      saveQueueFile vhost queue (MkQueueData (jq_Name q) (jq_Properties q) (jq_Messages q ++ [newMessage])) d
  end.

(** The message as it is handed back; [EnqueuedAt] is not in the file. *)
Definition loaded_message (m : JsonMessageData) : persistence.Message :=
  persistence.MkMessage (jm_ID m) (jm_Body m) (jm_Properties m) 0.

Definition LoadMessages (vhost queue : string) (d : disk) : res store_err (list persistence.Message) :=
  q ← map_err LoadFailed (loadQueueFile vhost queue d); Ok (loaded_message <$> jq_Messages q).

Definition DeleteMessage (vhost queue msgId : string) (d : disk) : disk * res store_err unit :=
  match loadQueueFile vhost queue d with
  | Err e => (d, Err (LoadFailed e))
  | Ok q =>
      let filtered := filter (λ m, jm_ID m ≠ msgId) (jq_Messages q) in
      if decide (length filtered = length (jq_Messages q)) then (d, Ok tt)
      else saveQueueFile vhost queue (MkQueueData (jq_Name q) (jq_Properties q) filtered) d
  end.

(** [os.ReadDir]: the entries sorted by name. *)
Definition ReadDir {A} (entries : gmap string A) : list (string * A) :=
  merge_sort name_le (map_to_list entries).

(** One entry of a directory; what is not a file of this layout is skipped. *)
Definition exchange_snapshot (entry : string * option JsonExchangeData)
    : list persistence.ExchangeSnapshot :=
  if HasSuffix ".json" entry.1 then
    match entry.2 with
    | None => []
    | Some data =>
        match entityName entry.1 (je_Name data) with
        | None => []
        | Some name => [persistence.MkExchangeSnapshot name (je_Type data) (je_Properties data) (je_Bindings data)]
        end
    end
  else [].

Definition LoadAllExchanges (vhost : string) (d : disk) : list persistence.ExchangeSnapshot :=
  ReadDir (d_exchanges (dir_of vhost d)) ≫= exchange_snapshot.

Definition queue_snapshot (entry : string * option JsonQueueData) : list persistence.QueueSnapshot :=
  if HasSuffix ".json" entry.1 then
    match entry.2 with
    | None => []
    | Some data =>
        match entityName entry.1 (jq_Name data) with
        | None => []
        | Some name =>
            [persistence.MkQueueSnapshot name (jq_Properties data) (loaded_message <$> jq_Messages data)]
        end
    end
  else [].

Definition LoadAllQueues (vhost : string) (d : disk) : list persistence.QueueSnapshot :=
  ReadDir (d_queues (dir_of vhost d)) ≫= queue_snapshot.

Definition SaveVHostMetadata (name : string) (d : disk) : disk * res store_err unit :=
  (ensureVHostDir name d, Ok tt).

(** [checkVHostDir] on the path relative to vhosts/: [filepath.IsLocal], and no
    separator.  The path "." is local. *)
Definition checkVHostDir (rel : string) : bool :=
  bool_decide (rel ≠ "" ∧ rel ≠ ".." ∧ 47 ∉ char_codes rel).

Definition DeleteVHostMetadata (name : string) (d : disk) : disk * res store_err unit :=
  let dir := encodeName name in
  if checkVHostDir dir then (MkDisk (k_layout d) (delete dir (k_vhosts d)), Ok tt)
  else (d, Err NotAVHostDir).

Definition LoadAllVHosts (d : disk) : list string :=
  omap (λ entry, vhostName entry.1 (mjoin (d_name entry.2))) (ReadDir (k_vhosts d)).
End operations.
End JsonPersistence.
