(* ===== verification/Lifecycle.v ===== *)
(** * Declaring and deleting queues, registering and cancelling consumers

    The operations of vhost/queue.go and vhost/consumer.go that change which
    queues and consumers exist, with everything they take along: bindings,
    auto-delete exchanges, consumers, and the marks on unacked deliveries.
    [names_well_formed] says what every sequence of operations keeps. *)

From stdpp Require Import base list gmap strings.
From Stdlib Require Import ZArith Lia.
From S2P Require Import Prelude Bytes Values Properties Methods Topic Args Queue Deliveries Consumers.
From S2P Require Import Json VHost.

Local Open Scope Z_scope.
Local Open Scope string_scope.
Local Open Scope list_scope.

(** ** A new vhost *)

(** [NewVhost] before any persisted state is loaded. *)
Definition bare_vhost (queueBufferSize maxPriority : Z) (dlx ttl qll : bool) : VHost :=
  MkVHost ∅ ∅ queueBufferSize maxPriority dlx ttl qll ∅ empty_index ∅ ∅ [].

Section lifecycle.
Context `{Runtime}.

(** A failure to create one is logged. *)
Definition createMandatoryExchanges (vh : VHost) : VHost :=
  foldl (λ vh nt, (CreateExchange nt.1 nt.2
    (Some (MkExchangeProps false false false false false None)) vh).1) vh mandatoryExchanges.

Definition new_vhost (queueBufferSize maxPriority : Z) (dlx ttl qll : bool) : VHost :=
  createMandatoryExchanges (bare_vhost queueBufferSize maxPriority dlx ttl qll).

(** ** queue.declare *)

(** The loop over [generateRandomQueueName]: [candidates] are the names it
    draws, five at most. *)
Definition generated_name (candidates : list string) (vh : VHost) : option string :=
  head (filter (λ name, vh_Queues vh !! name = None) (take 5 candidates)).

Definition retrievePassiveQueue (props : option QueueProperties) (name : string) (vh : VHost)
    : res vh_err (option Queue) :=
  match props with
  | Some p =>
      if qp_Passive p then
        match vh_Queues vh !! name with
        | None => Err (ChannelError NOT_FOUND CHANNEL QUEUE_DECLARE)
        | Some queue => Ok (Some queue)
        end
      else Ok None
  | None => Ok None
  end.

(** The maximum priority [x-max-priority] asks for, clamped to the vhost's. *)
Definition declared_max_priority (args : option table) (vh : VHost) : Z :=
  match parseMaxPriorityArgument out_of_range_int args with
  | (maxPrio, true) => if decide (vh_maxPriority vh < maxPrio) then vh_maxPriority vh else maxPrio
  | (_, false) => 0
  end.

(** [setQueueMaxLength] on a fresh queue. *)
Definition setQueueMaxLength (args : option table) : Z :=
  match args with
  | None => 0
  | Some _ => match parseMaxLengthArgument out_of_range_int args with (maxLen, true) => maxLen | (_, false) => 0 end
  end.

Definition declared_queue (name : string) (props : QueueProperties) (connID : string) (vh : VHost)
    : Queue :=
  set_declared props (declared_max_priority (qp_Arguments props) vh)
    (setQueueMaxLength (qp_Arguments props))
    (if qp_Exclusive props then connID else "")
    (NewQueue name (vh_queueBufferSize vh)).

Definition create_queue (name : string) (props : option QueueProperties) (connID : string)
    (vh : VHost) : handled Queue :=
  let props := default NewQueueProperties props in
  let queue := declared_queue name props connID vh in
  let vh := set_Queues (<[name := queue]> (vh_Queues vh)) vh in
  (persist_if (qp_Durable props) (SaveQueueMetadata name props) vh, Ok queue).

(** Whether an existing queue may be declared again by this call. *)
Definition redeclare (existing : Queue) (props : option QueueProperties) (connID : string)
    : res vh_err Queue :=
  match validateQueueOwnership existing connID QUEUE QUEUE_DECLARE with
  | Err e => Err e
  | Ok _ =>
      match props with
      | None => Err (PlainError "already exists with incompatible properties")
      | Some p =>
          let e := q_Props existing in
          if decide (qp_Durable e ≠ qp_Durable p ∨ qp_AutoDelete e ≠ qp_AutoDelete p ∨
                     qp_Exclusive e ≠ qp_Exclusive p ∨
                     equalArgs (qp_Arguments e) (qp_Arguments p) = false)
          then Err (ChannelError PRECONDITION_FAILED QUEUE QUEUE_DECLARE)
          else Ok existing
      end
  end.

Definition INTERNAL_ERROR : Z := 541.

Definition CreateQueue (candidates : list string) (name : string) (props : option QueueProperties)
    (connID : string) (vh : VHost) : handled Queue :=
  if decide (name = "") then
    match generated_name candidates vh with
    | None => (vh, Err (ChannelError INTERNAL_ERROR QUEUE QUEUE_DECLARE))
    | Some name => create_queue name props connID vh
    end
  else
    match retrievePassiveQueue props name vh with
    | Err e => (vh, Err e)
    | Ok existing =>
        let existing := match existing, props with
          | None, Some p => if qp_Passive p then None else vh_Queues vh !! name
          | _, _ => existing
          end in
        match existing with
        | Some existing => (vh, redeclare existing props connID)
        | None => create_queue name props connID vh
        end
    end.

(** ** queue.delete *)

(** The bindings of one routing key that are kept; an emptied key is dropped. *)
Definition kept_bindings (queueName : string) (bs : list Binding) : option (list Binding) :=
  let kept := filter (λ b, b_Queue b ≠ queueName) bs in
  if decide (kept = []) then None else Some kept.

Definition removed_bindings (queueName : string) (e : Exchange) : list (string * Binding) :=
  kvs ← map_to_list (ex_Bindings e);
  b ← filter (λ b, b_Queue b = queueName) kvs.2;
  [(kvs.1, b)].

(** The calls to the persistence layer follow the order in which the map of
    bindings is visited, which Go leaves open. *)
Definition removeQueueBindingsUnlocked (exchange : Exchange) (queue : Queue) (vh : VHost) : VHost :=
  let removed := removed_bindings (q_Name queue) exchange in
  let exchange' := set_Bindings (omap (kept_bindings (q_Name queue)) (ex_Bindings exchange)) exchange in
  let vh := set_Exchanges (<[ex_Name exchange := exchange']> (vh_Exchanges vh)) vh in
  let vh := foldl (λ vh kb, persist_if (ep_Durable (ex_Props exchange) && qp_Durable (q_Props queue))
    (DeleteBindingState (ex_Name exchange) (q_Name queue) kb.1 (b_Args kb.2)) vh) vh removed in
  if decide (removed = []) then vh
  else (checkAutoDeleteExchangeUnlocked (ex_Name exchange) vh).1.

Definition detachQueueDeliveriesLocked (queueName : string) (vh : VHost) : VHost :=
  set_ChannelDeliveries (detachQueueDeliveries range_records queueName <$> vh_ChannelDeliveries vh) vh.

(** Returns the consumers removed.  The stopped queue record is dropped from
    the map: only its delivery goroutine may still hold it. *)
Definition deleteQueuebyNameUnlocked (name : string) (vh : VHost) : handled (list nat) :=
  match vh_Queues vh !! name with
  | None => (vh, Err (ChannelError NOT_FOUND QUEUE QUEUE_DELETE))
  | Some queue =>
      let queue := set_stopped queue in
      let vh := set_Queues (<[name := queue]> (vh_Queues vh)) vh in
      let vh := foldl (λ vh kv, removeQueueBindingsUnlocked kv.2 queue vh) vh
        (map_to_list (vh_Exchanges vh)) in
      let vh := set_Queues (delete name (vh_Queues vh)) vh in
      let '(removed, ix) := removeQueueConsumersLocked name (vh_index vh) in
      let vh := set_index ix vh in
      let vh := detachQueueDeliveriesLocked name vh in
      (persist_if (qp_Durable (q_Props queue)) (DeleteQueueMetadata name) vh, Ok removed)
  end.

Definition checkAutoDeleteQueueUnlocked (name : string) (vh : VHost) : handled bool :=
  match vh_Queues vh !! name with
  | None => (vh, Err (PlainError "queue not found"))
  | Some queue =>
      if negb (qp_AutoDelete (q_Props queue)) then (vh, Ok false) else
      if decide (0 < length (by_queue (vh_index vh) name))%nat then (vh, Ok false) else
      match deleteQueuebyNameUnlocked name vh with
      | (vh, Err e) => (vh, Err e)
      | (vh, Ok _) => (vh, Ok true)
      end
  end.

(** ** basic.consume and basic.cancel *)

(** [queue.consumers.Store(len(vh.ConsumersByQueue[name]))], when the queue exists. *)
Definition store_consumers (name : string) (vh : VHost) : VHost :=
  set_Queues (alter (set_consumers (Z.of_nat (length (by_queue (vh_index vh) name)))) name
    (vh_Queues vh)) vh.

(** [maxRetries] draws of [generateConsumerTag], from [candidates]. *)
Definition generated_tag (candidates : list string) (channel : Z) (vh : VHost) : option string :=
  head (filter (λ tag, ix_Consumers (vh_index vh) !! (channel, tag) = None) (take 1000 candidates)).

(** The prefetch count set by basic.qos for the channel's next consumers. *)
Definition initial_prefetch (consumer : Consumer) (vh : VHost) : Consumer :=
  match vh_ChannelDeliveries vh !! channel_key consumer with
  | Some state =>
      if decide (PrefetchGlobal state = false ∧ 0 < NextPrefetchCount state)
      then set_PrefetchCount (NextPrefetchCount state) consumer else consumer
  | None => consumer
  end.

(** The exclusivity rules between the consumers of a queue. *)
Definition consumers_admit (consumer : Consumer) (vh : VHost) : res vh_err unit :=
  let ix := vh_index vh in
  let existing := by_queue ix (c_QueueName consumer) in
  if existsb (λ addr, match ix_heap ix !! addr with Some c => c_Exclusive c | None => false end) existing
  then Err (ChannelError PRECONDITION_FAILED BASIC BASIC_CONSUME)
  else if decide (c_Exclusive consumer = true ∧ (0 < length existing)%nat)
  then Err (ChannelError RESOURCE_LOCKED BASIC BASIC_CONSUME)
  else Ok tt.

(** The tag of the new consumer; the delivery loop is woken, or started. *)
Definition RegisterConsumer (candidates : list string) (consumer : Consumer) (vh : VHost)
    : handled string :=
  let consumer := initial_prefetch consumer vh in
  match vh_Queues vh !! c_QueueName consumer with
  | None => (vh, Err (ChannelError NOT_FOUND BASIC BASIC_CONSUME))
  | Some queue =>
  match validateQueueOwnership queue (c_ConnectionID consumer) BASIC BASIC_CONSUME with
  | Err e => (vh, Err e)
  | Ok _ =>
  match (if decide (c_Tag consumer = "") then
           match generated_tag candidates (c_Channel consumer) vh with
           | None => Err (ChannelError INTERNAL_ERROR BASIC BASIC_CONSUME)
           | Some tag => Ok (set_Tag tag consumer)
           end
         else match ix_Consumers (vh_index vh) !! consumer_key consumer with
           | Some _ => Err (ChannelError PRECONDITION_FAILED BASIC BASIC_CONSUME)
           | None => Ok consumer
           end) with
  | Err e => (vh, Err e)
  | Ok consumer =>
  match consumers_admit consumer vh with
  | Err e => (vh, Err e)
  | Ok _ =>
      let vh := set_index (register consumer (vh_index vh)).2 vh in
      (store_consumers (c_QueueName consumer) vh, Ok (c_Tag consumer))
  end end end end.

Definition cancelConsumerLocked (key : ConsumerKey) (addr : nat) (consumer : Consumer) (vh : VHost)
    : VHost :=
  let vh := set_index (unregister key (deactivate addr (vh_index vh))) vh in
  let vh := set_ChannelDeliveries
    (alter (detachConsumerDeliveries (c_Tag consumer)) (channel_key consumer) (vh_ChannelDeliveries vh)) vh in
  let vh := set_index (remove_from_queue addr (c_QueueName consumer) (vh_index vh)) vh in
  let vh := match vh_Queues vh !! c_QueueName consumer with
    | None => vh
    | Some _ =>
        let vh := store_consumers (c_QueueName consumer) vh in
        if decide (by_queue (vh_index vh) (c_QueueName consumer) = [])
        then (checkAutoDeleteQueueUnlocked (c_QueueName consumer) vh).1
        else vh
    end in
  set_index (remove_from_channel addr (channel_key consumer) (vh_index vh)) vh.

(** [guard] is the check [removeFailedConsumer] adds. *)
Definition cancelConsumer (channel : Z) (tag : string) (guard : VHost → bool) (vh : VHost)
    : handled unit :=
  if negb (guard vh) then (vh, Ok tt) else
  match ix_Consumers (vh_index vh) !! (channel, tag) with
  | None => (vh, Err (ChannelError NOT_FOUND BASIC BASIC_CANCEL))
  | Some addr =>
      match ix_heap (vh_index vh) !! addr with
      | None => (vh, Err (ChannelError NOT_FOUND BASIC BASIC_CANCEL))
      | Some consumer => (cancelConsumerLocked (channel, tag) addr consumer vh, Ok tt)
      end
  end.

Definition CancelConsumer (channel : Z) (tag : string) (vh : VHost) : handled unit :=
  cancelConsumer channel tag (λ _, true) vh.
End lifecycle.

(** ** What deleting a queue leaves of the exchanges *)

(** The fields that the operations on exchanges and bindings do not touch. *)
Definition same_queues (vh vh' : VHost) : Prop :=
  vh_Queues vh' = vh_Queues vh ∧ vh_index vh' = vh_index vh ∧
  vh_ChannelDeliveries vh' = vh_ChannelDeliveries vh ∧
  vh_redeliveredMessages vh' = vh_redeliveredMessages vh ∧
  vh_ChannelTransactions vh' = vh_ChannelTransactions vh.

#[export] Instance same_queues_trans : Transitive same_queues.
Proof. unfold same_queues. intros ? ? ? (?&?&?&?&?) (?&?&?&?&?). split_and!; by etrans. Qed.

Lemma persist_if_same b call vh : same_queues vh (persist_if b call vh) ∧ vh_Exchanges (persist_if b call vh) = vh_Exchanges vh.
Proof. by destruct b. Qed.

Lemma deleteExchange_spec name vh :
  let vh' := (deleteExchangeUnlocked name vh).1 in
  same_queues vh vh' ∧
  vh_Exchanges vh' = if is_mandatory name then vh_Exchanges vh else delete name (vh_Exchanges vh).
Proof.
  unfold deleteExchangeUnlocked. destruct (is_mandatory name); [done|].
  destruct (vh_Exchanges vh !! name) as [e|] eqn:E; cbn [fst].
  - destruct (persist_if_same (ep_Durable (ex_Props e)) (DeleteExchangeMetadata name)
      (set_Exchanges (delete name (vh_Exchanges vh)) vh)) as [Hs ->]. by split.
  - split; [done|]. by rewrite delete_id.
Qed.

Lemma checkAutoDeleteExchange_spec name vh :
  let vh' := (checkAutoDeleteExchangeUnlocked name vh).1 in
  same_queues vh vh' ∧
  vh_Exchanges vh' =
    match vh_Exchanges vh !! name with
    | Some e => if decide (ep_AutoDelete (ex_Props e) = true ∧ ex_Bindings e = ∅ ∧ is_mandatory name = false)
                then delete name (vh_Exchanges vh) else vh_Exchanges vh
    | None => vh_Exchanges vh
    end.
Proof.
  unfold checkAutoDeleteExchangeUnlocked. destruct (vh_Exchanges vh !! name) as [e|] eqn:E; [|done].
  case_decide as Hd.
  - pose proof (deleteExchange_spec name vh) as [Hs He].
    destruct (deleteExchangeUnlocked name vh) as [vh' [?|?]]; cbn [fst] in *; (split; [done|]);
      rewrite He; destruct (is_mandatory name); case_decide; try done; naive_solver.
  - cbn [fst]. split; [done|]. case_decide; [tauto|done].
Qed.

Section deleted_queue.
Variable queue : Queue.
Let name := q_Name queue.

Definition without_queue (e : Exchange) : Exchange :=
  set_Bindings (omap (kept_bindings name) (ex_Bindings e)) e.

(** What becomes of an exchange: [None] when it is deleted with its last binding. *)
Definition after_queue_delete (e : Exchange) : option Exchange :=
  if decide (removed_bindings name e ≠ [] ∧ ep_AutoDelete (ex_Props e) = true ∧
             ex_Bindings (without_queue e) = ∅ ∧ is_mandatory (ex_Name e) = false)
  then None else Some (without_queue e).

Lemma foldl_persist (b : bool) (f : string * Binding → persist_call) l vh :
  let vh' := foldl (λ vh kb, persist_if b (f kb) vh) vh l in
  same_queues vh vh' ∧ vh_Exchanges vh' = vh_Exchanges vh.
Proof.
  revert vh. induction l as [|x l IH]; intros vh; cbn [foldl]; [done|].
  destruct (IH (persist_if b (f x) vh)) as [Hs He], (persist_if_same b (f x) vh) as [Hs' He'].
  split; [by etrans|]. by rewrite He.
Qed.

Lemma removeQueueBindings_spec e vh :
  let vh' := removeQueueBindingsUnlocked e queue vh in
  same_queues vh vh' ∧
  vh_Exchanges vh' = match after_queue_delete e with
                     | Some e' => <[ex_Name e := e']> (vh_Exchanges vh)
                     | None => delete (ex_Name e) (vh_Exchanges vh)
                     end.
Proof.
  unfold removeQueueBindingsUnlocked, after_queue_delete. fold name. cbn zeta.
  fold (without_queue e). set (vh1 := set_Exchanges _ vh).
  set (l := removed_bindings name e).
  pose proof (foldl_persist (ep_Durable (ex_Props e) && qp_Durable (q_Props queue))
    (λ kb, DeleteBindingState (ex_Name e) name kb.1 (b_Args kb.2)) l vh1) as [Hs He].
  set (vh2 := foldl _ vh1 l) in *.
  assert (Hs1 : same_queues vh vh2) by (etrans; [|exact Hs]; done).
  case_decide as Hl; [rewrite decide_False by tauto; by split|].
  pose proof (checkAutoDeleteExchange_spec (ex_Name e) vh2) as [Hs3 He3].
  split; [by etrans|]. rewrite He3, He. unfold vh1. cbn [vh_Exchanges set_Exchanges].
  rewrite lookup_insert_eq. change (ex_Props (without_queue e)) with (ex_Props e).
  clear He3. case_decide as H1; case_decide as H2; [by rewrite delete_insert_eq|tauto|tauto|done].
Qed.

Lemma foldl_removeQueueBindings l : ∀ vh,
  NoDup l.*1 → (∀ n e, (n, e) ∈ l → vh_Exchanges vh !! n = Some e ∧ ex_Name e = n) →
  let vh' := foldl (λ vh kv, removeQueueBindingsUnlocked kv.2 queue vh) vh l in
  same_queues vh vh' ∧
  ∀ n, vh_Exchanges vh' !! n =
    if decide (n ∈ l.*1) then vh_Exchanges vh !! n ≫= after_queue_delete else vh_Exchanges vh !! n.
Proof.
  induction l as [|[n0 e0] l IH]; intros vh Hnd Hin; cbn [foldl].
  { split; [done|]. intros n. by rewrite decide_False by apply not_elem_of_nil. }
  cbn [fmap list_fmap fst] in Hnd. apply NoDup_cons in Hnd as [Hn0 Hnd].
  destruct (Hin n0 e0 ltac:(by left)) as [He0 Hname].
  destruct (removeQueueBindings_spec e0 vh) as [Hs He]. cbn [snd]. rewrite Hname in He.
  set (vh1 := removeQueueBindingsUnlocked e0 queue vh) in *.
  assert (Hne : ∀ n, n ≠ n0 → vh_Exchanges vh1 !! n = vh_Exchanges vh !! n).
  { intros n Hn. rewrite He. case_match; [by apply lookup_insert_ne|by apply lookup_delete_ne]. }
  destruct (IH vh1 Hnd) as [Hs2 Hl].
  { intros n e He1. rewrite Hne; [apply Hin; by right|]. intros ->. apply Hn0.
    apply list_elem_of_fmap. by exists (n0, e). }
  split; [by etrans|]. intros n. rewrite Hl. cbn [fmap list_fmap fst].
  destruct (decide (n = n0)) as [->|Hn].
  - rewrite decide_False by done. rewrite decide_True by (by left). rewrite He0, He. cbn.
    case_match; [by rewrite lookup_insert_eq|by rewrite lookup_delete_eq].
  - rewrite !Hne by done. apply decide_ext. rewrite elem_of_cons. naive_solver.
Qed.
End deleted_queue.

Section laws.
Context `{Runtime}.

(** The effect of deleting a queue, field by field. *)
Lemma deleteQueue_spec name queue vh :
  vh_Queues vh !! name = Some queue → q_Name queue = name →
  (∀ n e, vh_Exchanges vh !! n = Some e → ex_Name e = n) →
  let vh' := (deleteQueuebyNameUnlocked name vh).1 in
  let removed := removeQueueConsumersLocked name (vh_index vh) in
  vh_Queues vh' = delete name (vh_Queues vh) ∧
  vh_index vh' = removed.2 ∧
  vh_ChannelDeliveries vh' = detachQueueDeliveries range_records name <$> vh_ChannelDeliveries vh ∧
  (∀ n, vh_Exchanges vh' !! n = vh_Exchanges vh !! n ≫= after_queue_delete (set_stopped queue)) ∧
  (deleteQueuebyNameUnlocked name vh).2 = Ok removed.1 ∧
  vh_redeliveredMessages vh' = vh_redeliveredMessages vh ∧
  vh_ChannelTransactions vh' = vh_ChannelTransactions vh.
Proof.
  intros Hq Hname Hex. unfold deleteQueuebyNameUnlocked. rewrite Hq.
  set (vh1 := set_Queues _ vh).
  destruct (foldl_removeQueueBindings (set_stopped queue) (map_to_list (vh_Exchanges vh1)) vh1)
    as [(Hqs & Hix & Hch & Hred & Htx) Hl].
  { apply NoDup_fst_map_to_list. }
  { intros n e He%elem_of_map_to_list. split; [done|]. by apply Hex. }
  set (vh2 := foldl _ vh1 _) in *. cbn [vh_index set_Queues vh_Queues]. rewrite Hix.
  change (vh_index vh1) with (vh_index vh).
  destruct (removeQueueConsumersLocked name (vh_index vh)) as [removed ix]. cbn [fst snd].
  set (vh3 := detachQueueDeliveriesLocked _ _).
  destruct (persist_if_same (qp_Durable (q_Props (set_stopped queue))) (DeleteQueueMetadata name) vh3)
    as [(-> & -> & -> & -> & ->) ->].
  unfold vh3, detachQueueDeliveriesLocked. cbn [vh_Queues vh_index vh_ChannelDeliveries
    vh_Exchanges set_ChannelDeliveries set_index set_Queues].
  rewrite Hqs, Hch. unfold vh1 at 1 2. cbn [vh_Queues vh_ChannelDeliveries set_Queues].
  split_and!; try done.
  - by rewrite delete_insert_eq.
  - intros n. rewrite Hl. change (vh_Exchanges vh1) with (vh_Exchanges vh).
    case_decide as Hin; [done|]. destruct (vh_Exchanges vh !! n) as [e|] eqn:E; [|done].
    destruct Hin. apply list_elem_of_fmap. exists (n, e). split; [done|]. by apply elem_of_map_to_list.
Qed.

(** ** The names fit together *)

(** A binding is to a live queue, and filed under its routing key, or under the
    empty key in a fanout exchange. *)
Definition wf_binding (vh : VHost) (e : Exchange) (key : string) (b : Binding) : Prop :=
  is_Some (vh_Queues vh !! b_Queue b) ∧
  (if decide (ex_Typ e = FANOUT) then key = "" else b_RoutingKey b = key).

(** [C] are consumers still to be taken out of their channel's list. *)
Record wf_names_but (C : gset nat) (vh : VHost) : Prop := {
  wn_exchange n e : vh_Exchanges vh !! n = Some e → ex_Name e = n;
  wn_binding n e key bs : vh_Exchanges vh !! n = Some e → ex_Bindings e !! key = Some bs →
    bs ≠ [] ∧ Forall (wf_binding vh e key) bs;
  wn_queue n q : vh_Queues vh !! n = Some q → q_Name q = n ∧ q_stopped q = false;
  wn_index : wf_partial ∅ C (vh_index vh);
  wn_consumers n : by_queue (vh_index vh) n ≠ [] → is_Some (vh_Queues vh !! n);
  wn_count n q : vh_Queues vh !! n = Some q →
    q_consumers q = Z.of_nat (length (by_queue (vh_index vh) n));
  wn_channel k ch : vh_ChannelDeliveries vh !! k = Some ch → wf_channel ch;
}.

Definition wf_names (vh : VHost) : Prop := wf_names_but ∅ vh.

(** Replacing the exchanges by well-formed ones. *)
Lemma wf_names_exchanges C vh vh' :
  wf_names_but C vh → same_queues vh vh' →
  (∀ n e, vh_Exchanges vh' !! n = Some e → ex_Name e = n ∧
     ∀ key bs, ex_Bindings e !! key = Some bs → bs ≠ [] ∧ Forall (wf_binding vh e key) bs) →
  wf_names_but C vh'.
Proof.
  intros Hwf (Hq & Hi & Hc & _) Hex.
  split; unfold wf_binding; rewrite ?Hq, ?Hi, ?Hc; try apply Hwf.
  - intros n e He. by apply Hex.
  - intros n e key bs He Hb. by eapply Hex.
Qed.

Lemma wf_names_persist C b call vh : wf_names_but C vh → wf_names_but C (persist_if b call vh).
Proof.
  intros Hwf. destruct (persist_if_same b call vh) as [Hs He].
  eapply wf_names_exchanges; [done|done|]. rewrite He. intros n e Hn.
  split; [by apply (wn_exchange _ _ Hwf)|]. intros. by eapply (wn_binding _ _ Hwf).
Qed.

Lemma wf_names_insert C vh n e :
  wf_names_but C vh → ex_Name e = n →
  (∀ key bs, ex_Bindings e !! key = Some bs → bs ≠ [] ∧ Forall (wf_binding vh e key) bs) →
  wf_names_but C (set_Exchanges (<[n := e]> (vh_Exchanges vh)) vh).
Proof.
  intros Hwf Hn Hb. eapply wf_names_exchanges; [done|done|]. cbn. intros n' e'.
  rewrite lookup_insert_Some. intros [[<- <-]|[_ He']]; [by split|].
  split; [by apply (wn_exchange _ _ Hwf)|]. intros. by eapply (wn_binding _ _ Hwf).
Qed.

Lemma wf_names_delete C vh n :
  wf_names_but C vh → wf_names_but C (set_Exchanges (delete n (vh_Exchanges vh)) vh).
Proof.
  intros Hwf. eapply wf_names_exchanges; [done|done|]. cbn. intros n' e' [_ He']%lookup_delete_Some.
  split; [by apply (wn_exchange _ _ Hwf)|]. intros. by eapply (wn_binding _ _ Hwf).
Qed.

Lemma CreateExchange_wf name typ props vh : wf_names vh → wf_names (CreateExchange name typ props vh).1.
Proof.
  intros Hwf. unfold CreateExchange.
  repeat (case_match || case_decide); cbn [fst]; try done; try apply wf_names_persist;
    apply wf_names_insert; try done; cbn; intros key bs Hb; by rewrite lookup_empty in Hb.
Qed.

Lemma deleteExchange_wf name vh : wf_names vh → wf_names (deleteExchangeUnlocked name vh).1.
Proof.
  intros Hwf. unfold deleteExchangeUnlocked. repeat case_match; cbn [fst]; try done.
  by apply wf_names_persist, wf_names_delete.
Qed.

Lemma checkAutoDeleteExchange_wf name vh : wf_names vh → wf_names (checkAutoDeleteExchangeUnlocked name vh).1.
Proof.
  intros Hwf. pose proof (deleteExchange_wf name vh Hwf). unfold checkAutoDeleteExchangeUnlocked.
  repeat (case_match || case_decide); simplify_eq/=; done.
Qed.

Lemma add_binding_wf vh e key b queueName args e' :
  (∀ key bs, ex_Bindings e !! key = Some bs → bs ≠ [] ∧ Forall (wf_binding vh e key) bs) →
  wf_binding vh e key b →
  add_binding key b queueName key args e = Some e' →
  ex_Name e' = ex_Name e ∧
  ∀ key bs, ex_Bindings e' !! key = Some bs → bs ≠ [] ∧ Forall (wf_binding vh e' key) bs.
Proof.
  unfold add_binding. intros Hwf Hb. case_match; [done|]. intros [= <-]. split; [done|].
  intros key' bs. cbn [set_Bindings ex_Bindings].
  change (wf_binding vh (set_Bindings _ e)) with (wf_binding vh e).
  rewrite lookup_insert_Some. intros [[<- <-]|[_ Hbs]]; [|by apply Hwf].
  split; [by intros [_ ?]%app_eq_nil|]. apply Forall_app. split; [|by constructor].
  destruct (ex_Bindings e !! key) as [bs|] eqn:E; [|constructor]. by eapply Hwf.
Qed.

Lemma BindQueue_wf exchange queue key args connID vh :
  wf_names vh → wf_names (BindQueue exchange queue key args connID vh).1.
Proof.
  intros Hwf. unfold BindQueue. cbn zeta.
  destruct (vh_Exchanges vh !! _) as [e|] eqn:He; [|done].
  destruct (vh_Queues vh !! queue) as [q|] eqn:Hq; [|done].
  case_match; [|done].
  assert (Hbound : ∀ k, wf_binding vh e k (MkBinding queue key args) →
    wf_names (match add_binding k (MkBinding queue key args) queue k args e with
      | None => (vh, Ok tt)
      | Some e' => (persist_if (ep_Durable (ex_Props e) && qp_Durable (q_Props q))
          (SaveBindingState (resolveExchangeAlias exchange) queue k args)
          (set_Exchanges (<[resolveExchangeAlias exchange := e']> (vh_Exchanges vh)) vh), Ok tt)
      end : handled unit).1).
  { intros k Hk. destruct (add_binding _ _ _ _ _ _) as [e'|] eqn:Hadd; [|done].
    eapply add_binding_wf in Hadd as [Hn Hb]; [|by intros; eapply (wn_binding _ _ Hwf)|done].
    apply wf_names_persist, wf_names_insert; [done| |done].
    rewrite Hn. by apply (wn_exchange _ _ Hwf). }
  repeat case_decide; try (apply Hbound); unfold wf_binding; cbn [b_Queue b_RoutingKey]; try done.
  all: assert (DIRECT ≠ FANOUT ∧ TOPIC ≠ FANOUT) as [? ?] by done;
    split; [by exists q|]; case_decide; congruence.
Qed.

Lemma remove_binding_sub queueName args bs rest (P : Binding → Prop) :
  remove_binding queueName args bs = Some rest → Forall P bs → Forall P rest.
Proof.
  revert rest. induction bs as [|b bs IH]; cbn; intros rest; [done|].
  intros Hr [Hb Hbs]%Forall_cons. case_match; [by simplify_eq|].
  case_match; [|done]. simplify_eq. constructor; [done|]. by apply IH.
Qed.

Lemma UnbindQueue_wf exchange queue key args connID vh :
  wf_names vh → wf_names (UnbindQueue exchange queue key args connID vh).1.
Proof.
  intros Hwf. unfold UnbindQueue. cbn zeta.
  destruct (vh_Exchanges vh !! _) as [e|] eqn:He; [|done].
  destruct (vh_Queues vh !! queue) as [q|] eqn:Hq; [|done].
  case_match; [|done].
  assert (Hdel : ∀ k, wf_names (DeleteBindingUnlocked e queue k args vh).1).
  { intros k. unfold DeleteBindingUnlocked.
    destruct (ex_Bindings e !! k) as [bs|] eqn:Hbs; [|done].
    destruct (remove_binding queue args bs) as [rest|] eqn:Hr; [|done].
    destruct (wn_binding _ _ Hwf _ _ _ _ He Hbs) as [_ Hf].
    apply remove_binding_sub with (P := wf_binding vh e k) in Hr; [|done].
    case_decide as Hrest.
    - match goal with |- context [checkAutoDeleteExchangeUnlocked ?n ?v] =>
        assert (Hc : wf_names (checkAutoDeleteExchangeUnlocked n v).1);
        [apply checkAutoDeleteExchange_wf|by repeat case_match] end.
      apply wf_names_insert; [done|done|]. cbn. intros k' bs' [_ Hb']%lookup_delete_Some.
      exact (wn_binding _ _ Hwf _ e _ _ He Hb').
    - apply wf_names_insert; [done|done|]. cbn. intros k' bs'.
      rewrite lookup_insert_Some. intros [[<- <-]|[_ Hb']]; [by split|].
      exact (wn_binding _ _ Hwf _ e _ _ He Hb'). }
  repeat case_decide; try done;
    (match goal with |- context [DeleteBindingUnlocked ?a ?b ?k ?c ?v] => pose proof (Hdel k) as Hd end;
     destruct (DeleteBindingUnlocked _ _ _ _ _) as [vh' [|]]; cbn [fst] in *; [|done];
     by apply wf_names_persist).
Qed.

(** ** Queues *)

(** More queues, or the same ones with other contents: bindings stay live. *)
Lemma wf_binding_mono vh vh' e key bs :
  (∀ n, is_Some (vh_Queues vh !! n) → is_Some (vh_Queues vh' !! n)) →
  Forall (wf_binding vh e key) bs → Forall (wf_binding vh' e key) bs.
Proof. intros Hq Hf. eapply Forall_impl; [done|]. intros b [Hb ?]. split; [by apply Hq|done]. Qed.

Lemma create_queue_wf name props connID vh :
  wf_names vh → vh_Queues vh !! name = None → wf_names (create_queue name props connID vh).1.
Proof.
  intros Hwf Hfresh. unfold create_queue. cbn [fst]. apply wf_names_persist.
  assert (Hempty : by_queue (vh_index vh) name = []).
  { destruct (by_queue (vh_index vh) name) eqn:E; [done|].
    destruct (wn_consumers _ _ Hwf name) as [q Hq]; [by rewrite E|]. congruence. }
  split; cbn; try apply Hwf.
  - intros n e key bs He Hb. destruct (wn_binding _ _ Hwf _ _ _ _ He Hb) as [Hne Hf].
    split; [done|]. eapply wf_binding_mono; [|done]. cbn. intros n' Hn'.
    destruct (decide (name = n')) as [->|]; [rewrite lookup_insert_eq; by eexists|].
    by rewrite lookup_insert_ne.
  - intros n q. rewrite lookup_insert_Some. intros [[<- <-]|[_ Hq]]; [done|].
    by apply (wn_queue _ _ Hwf).
  - intros n Hn. destruct (decide (name = n)) as [->|]; [rewrite lookup_insert_eq; by eexists|].
    rewrite lookup_insert_ne by done. by apply (wn_consumers _ _ Hwf).
  - intros n q. rewrite lookup_insert_Some. intros [[<- <-]|[_ Hq]]; [by rewrite Hempty|].
    by apply (wn_count _ _ Hwf).
Qed.

Lemma generated_name_fresh candidates vh name :
  generated_name candidates vh = Some name → vh_Queues vh !! name = None.
Proof.
  unfold generated_name. intros Hh%head_Some_elem_of. by apply list_elem_of_filter in Hh as [? _].
Qed.

Lemma CreateQueue_wf candidates name props connID vh :
  wf_names vh → wf_names (CreateQueue candidates name (Some props) connID vh).1.
Proof.
  intros Hwf. unfold CreateQueue. case_decide as Hn.
  - destruct (generated_name candidates vh) as [name'|] eqn:Hg; [|done].
    by apply create_queue_wf, generated_name_fresh with candidates.
  - unfold retrievePassiveQueue. destruct (qp_Passive props).
    + by destruct (vh_Queues vh !! name).
    + destruct (vh_Queues vh !! name) eqn:E; [done|]. by apply create_queue_wf.
Qed.

Lemma kept_bindings_some name bs kept :
  kept_bindings name bs = Some kept → kept ≠ [] ∧ kept = filter (λ b, b_Queue b ≠ name) bs.
Proof. unfold kept_bindings. case_decide; [done|]. by intros [= <-]. Qed.

Lemma after_queue_delete_some queue e e' :
  after_queue_delete queue e = Some e' → e' = without_queue queue e.
Proof. unfold after_queue_delete. case_decide; [done|]. by intros [= <-]. Qed.

Lemma deleteQueue_wf C name vh :
  wf_names_but C vh → wf_names_but C (deleteQueuebyNameUnlocked name vh).1.
Proof.
  intros Hwf. destruct (vh_Queues vh !! name) as [queue|] eqn:Hq;
    [|by unfold deleteQueuebyNameUnlocked; rewrite Hq].
  destruct (wn_queue _ _ Hwf _ _ Hq) as [Hname _].
  destruct (deleteQueue_spec name queue vh Hq Hname (wn_exchange _ _ Hwf)) as (Eq & Ei & Ec & Ee & _).
  set (vh' := (deleteQueuebyNameUnlocked name vh).1) in *.
  destruct (removeQueueConsumersLocked_wf C (vh_index vh) name (wn_index _ _ Hwf)) as [Hix Hbq].
  rewrite <-Ei in Hix, Hbq.
  assert (Hlive : ∀ n, n ≠ name → is_Some (vh_Queues vh !! n) → is_Some (vh_Queues vh' !! n)).
  { intros n Hn Hs. rewrite Eq. by rewrite lookup_delete_ne. }
  split; [..|exact Hix| | |].
  - intros n e. rewrite Ee. intros (e0 & He0 & ->%after_queue_delete_some)%bind_Some.
    exact (wn_exchange _ _ Hwf _ e0 He0).
  - intros n e key bs. rewrite Ee. intros (e0 & He0 & ->%after_queue_delete_some)%bind_Some.
    cbn. rewrite lookup_omap. intros (bs0 & Hbs0 & [Hne ->]%kept_bindings_some)%bind_Some.
    split; [done|]. destruct (wn_binding _ _ Hwf _ _ _ _ He0 Hbs0) as [_ Hf].
    apply Forall_forall. intros b [Hb Hin]%list_elem_of_filter.
    rewrite Forall_forall in Hf. destruct (Hf b Hin) as [Hb1 Hb2]. split; [|done].
    apply Hlive; [|done]. cbn in Hb. by rewrite <-Hname.
  - intros n q. rewrite Eq. intros [_ Hn]%lookup_delete_Some. by apply (wn_queue _ _ Hwf).
  - intros n. rewrite Hbq. case_decide; [done|]. intros Hn.
    apply Hlive; [done|]. by apply (wn_consumers _ _ Hwf).
  - intros n q. rewrite Eq, Hbq. intros [Hne Hn]%lookup_delete_Some.
    rewrite decide_False by done. by apply (wn_count _ _ Hwf).
  - intros k ch. rewrite Ec, lookup_fmap. intros (ch0 & Hch & ->)%fmap_Some.
    apply detachQueueDeliveries_spec; [apply range_records_visits|]. by apply (wn_channel _ _ Hwf k).
Qed.

Lemma checkAutoDeleteQueue_wf C name vh :
  wf_names_but C vh → wf_names_but C (checkAutoDeleteQueueUnlocked name vh).1.
Proof.
  intros Hwf. pose proof (deleteQueue_wf C name vh Hwf). unfold checkAutoDeleteQueueUnlocked.
  repeat (case_match || case_decide); simplify_eq/=; done.
Qed.

(** ** Consumers *)

(** New indexes for the same queues, with the counts stored again. *)
Lemma store_consumers_wf C C' name ix vh :
  wf_names_but C vh → wf_partial ∅ C' ix →
  (∀ q, q ≠ name → by_queue ix q = by_queue (vh_index vh) q) →
  (by_queue ix name ≠ [] → is_Some (vh_Queues vh !! name)) →
  wf_names_but C' (store_consumers name (set_index ix vh)).
Proof.
  intros Hwf Hix Hother Hname. set (vh' := store_consumers name (set_index ix vh)).
  assert (Hq : ∀ n q, vh_Queues vh' !! n = Some q →
    ∃ q0, vh_Queues vh !! n = Some q0 ∧ q = if decide (n = name)
      then set_consumers (Z.of_nat (length (by_queue ix name))) q0 else q0).
  { intros n q. unfold vh', store_consumers. cbn. case_decide; subst.
    - rewrite lookup_alter_eq. intros (q0 & -> & ?)%fmap_Some. by exists q0.
    - rewrite lookup_alter_ne by done. by exists q. }
  assert (Hlive : ∀ n, is_Some (vh_Queues vh !! n) → is_Some (vh_Queues vh' !! n)).
  { intros n Hn. unfold vh', store_consumers. cbn. destruct (decide (name = n)) as [->|].
    - rewrite lookup_alter_eq. by apply fmap_is_Some.
    - by rewrite lookup_alter_ne. }
  split; try exact Hix; try apply Hwf.
  - intros n e key bs He Hb. destruct (wn_binding _ _ Hwf _ _ _ _ He Hb) as [Hne Hf].
    split; [done|]. by eapply wf_binding_mono.
  - intros n q (q0 & Hq0 & ->)%Hq. destruct (wn_queue _ _ Hwf _ _ Hq0). by case_decide.
  - intros n Hn. apply Hlive. destruct (decide (n = name)) as [->|Hne]; [by apply Hname|].
    apply (wn_consumers _ _ Hwf). by rewrite <-Hother.
  - intros n q (q0 & Hq0 & ->)%Hq. change (vh_index vh') with ix. case_decide; [by subst|].
    rewrite Hother by done. by apply (wn_count _ _ Hwf).
Qed.

Lemma generated_tag_fresh candidates channel vh tag :
  generated_tag candidates channel vh = Some tag → ix_Consumers (vh_index vh) !! (channel, tag) = None.
Proof.
  unfold generated_tag. intros Hh%head_Some_elem_of. by apply list_elem_of_filter in Hh as [? _].
Qed.

Lemma register_by_queue c ix q :
  q ≠ c_QueueName c → by_queue (register c ix).2 q = by_queue ix q.
Proof. intros Hq. unfold register. cbn [snd]. rewrite by_queue_insert. by rewrite decide_False by done. Qed.

Lemma RegisterConsumer_wf candidates consumer vh :
  wf_names vh → wf_names (RegisterConsumer candidates consumer vh).1.
Proof.
  intros Hwf. unfold RegisterConsumer. cbn zeta. set (c := initial_prefetch consumer vh).
  destruct (vh_Queues vh !! c_QueueName c) as [q|] eqn:Hq; [|done].
  case_match; [|done].
  match goal with |- context [match ?t with Ok c => _ | Err _ => _ end] => set (tagged := t) end.
  assert (Htag : ∀ c', tagged = Ok c' → c_QueueName c' = c_QueueName c ∧
            ix_Consumers (vh_index vh) !! consumer_key c' = None).
  { subst tagged. intros c'. case_decide.
    - destruct (generated_tag _ _ _) as [tag|] eqn:Ht; [|done]. intros [= <-].
      apply generated_tag_fresh in Ht. by split.
    - destruct (ix_Consumers (vh_index vh) !! consumer_key c) eqn:E; [done|]. by intros [= <-]. }
  destruct tagged as [c'|]; [|done]. destruct (Htag c' eq_refl) as [Hn Hfresh].
  case_match; [|done]. cbn [fst]. apply (store_consumers_wf ∅).
  - done.
  - apply register_wf; [apply Hwf|done].
  - intros q'. apply register_by_queue.
  - rewrite Hn. by exists q.
Qed.

Lemma wf_names_channels C vh cs :
  wf_names_but C vh → (∀ k ch, cs !! k = Some ch → wf_channel ch) →
  wf_names_but C (set_ChannelDeliveries cs vh).
Proof. intros Hwf Hcs. split; try apply Hwf. exact Hcs. Qed.

Lemma detached_wf (tag : string) (key : ConnectionChannelKey) (cs : gmap ConnectionChannelKey ChannelDeliveryState) :
  (∀ (k : ConnectionChannelKey) ch, cs !! k = Some ch → wf_channel ch) →
  ∀ (k : ConnectionChannelKey) ch, alter (detachConsumerDeliveries tag) key cs !! k = Some ch → wf_channel ch.
Proof.
  intros Hcs k ch. rewrite lookup_alter_Some. intros [(<- & ch0 & Hch & ->)|[_ Hch]].
  - by apply detachConsumerDeliveries_wf, (Hcs key).
  - by eapply Hcs.
Qed.

Lemma wf_names_index C C' ix vh :
  wf_names_but C vh → wf_partial ∅ C' ix → (∀ q, by_queue ix q = by_queue (vh_index vh) q) →
  wf_names_but C' (set_index ix vh).
Proof.
  intros Hwf Hix Hbq. split; cbn; try apply Hwf; [done|..].
  - intros n. rewrite Hbq. apply (wn_consumers _ _ Hwf).
  - intros n q. rewrite Hbq. apply (wn_count _ _ Hwf).
Qed.

(** A queue without consumers takes none along. *)
Lemma checkAutoDeleteQueue_index C name vh :
  wf_names_but C vh → by_queue (vh_index vh) name = [] →
  let ix := vh_index (checkAutoDeleteQueueUnlocked name vh).1 in
  ix_heap ix = ix_heap (vh_index vh) ∧ ix_ByChannel ix = ix_ByChannel (vh_index vh) ∧
  ix_Consumers ix = ix_Consumers (vh_index vh).
Proof.
  intros Hwf Hempty. unfold checkAutoDeleteQueueUnlocked.
  destruct (vh_Queues vh !! name) as [q|] eqn:Hq; [|done].
  destruct (qp_AutoDelete (q_Props q)); [|done]. case_decide; [done|].
  destruct (wn_queue _ _ Hwf _ _ Hq) as [Hname _].
  destruct (deleteQueue_spec name q vh Hq Hname (wn_exchange _ _ Hwf)) as (_ & Ei & _).
  cbn [negb]. destruct (deleteQueuebyNameUnlocked name vh) as [vh' [|]]; cbn [fst] in *;
    rewrite Ei; unfold removeQueueConsumersLocked; by rewrite Hempty.
Qed.

(** The state before the auto-delete check, and the rest of the cancellation. *)
Lemma cancelConsumerLocked_inner key addr c vh :
  wf_names vh → registered (vh_index vh) addr c → consumer_key c = key →
  let ix := remove_from_queue addr (c_QueueName c) (unregister key (deactivate addr (vh_index vh))) in
  let vh2 := store_consumers (c_QueueName c) (set_index ix (set_ChannelDeliveries
    (alter (detachConsumerDeliveries (c_Tag c)) (channel_key c) (vh_ChannelDeliveries vh)) vh)) in
  let vh3 := if decide (by_queue (vh_index vh2) (c_QueueName c) = [])
             then (checkAutoDeleteQueueUnlocked (c_QueueName c) vh2).1 else vh2 in
  wf_names_but {[addr]} vh2 ∧ ix_heap ix !! addr = Some (set_Active false c) ∧
  cancelConsumerLocked key addr c vh = set_index (remove_from_channel addr (channel_key c) (vh_index vh3)) vh3.
Proof.
  intros Hwf Hreg Hkey ix vh2 vh3.
  pose proof (unregister_wf _ _ _ (wn_index _ _ Hwf) key addr c Hreg Hkey) as Hu.
  set (ix1 := unregister key (deactivate addr (vh_index vh))) in *.
  assert (Hheap : ix_heap ix1 !! addr = Some (set_Active false c)).
  { unfold ix1. cbn. by rewrite lookup_alter_eq, (proj1 Hreg). }
  pose proof (remove_from_queue_wf _ _ _ Hu addr _ (c_QueueName c) Hheap eq_refl ltac:(set_solver)) as Hr.
  replace (({[addr]} ∪ ∅) ∖ {[addr]}) with (∅ : gset nat) in Hr by set_solver.
  pose proof (remove_from_queue_by_queue ix1 addr (c_QueueName c)) as Hbq. fold ix in Hr, Hbq.
  assert (Hq : is_Some (vh_Queues vh !! c_QueueName c)).
  { apply (wn_consumers _ _ Hwf). intros He.
    assert (addr ∈ by_queue (vh_index vh) (c_QueueName c)) as Hin.
    { apply (wi_queue _ _ _ (wn_index _ _ Hwf)). exists c. split; [apply Hreg|]. auto. }
    rewrite He in Hin. by apply elem_of_nil in Hin. }
  destruct Hq as [q Hq]. split; [|split].
  - apply (store_consumers_wf ∅); [| | |by intros _; exists q].
    + apply wf_names_channels; [done|]. apply detached_wf. apply Hwf.
    + replace ({[addr]} : gset nat) with ({[addr]} ∪ ∅ : gset nat) by set_solver. exact Hr.
    + intros q' Hne. rewrite Hbq. by rewrite decide_False by done.
  - unfold ix, remove_from_queue. by case_decide.
  - unfold cancelConsumerLocked. cbn zeta. cbn [vh_Queues set_index set_ChannelDeliveries]. by rewrite Hq.
Qed.

Lemma cancelConsumerLocked_wf key addr c vh :
  wf_names vh → registered (vh_index vh) addr c → consumer_key c = key →
  wf_names (cancelConsumerLocked key addr c vh).
Proof.
  intros Hwf Hreg Hkey. destruct (cancelConsumerLocked_inner key addr c vh Hwf Hreg Hkey) as (Hwf2 & Hheap & ->).
  set (vh2 := store_consumers _ _) in *. set (vh3 := if decide _ then _ else vh2).
  assert (Hwf3 : wf_names_but {[addr]} vh3 ∧ ix_heap (vh_index vh3) = ix_heap (vh_index vh2)).
  { unfold vh3. case_decide as Hempty; [|by split].
    split; [by apply checkAutoDeleteQueue_wf|]. apply (checkAutoDeleteQueue_index _ _ _ Hwf2 Hempty). }
  destruct Hwf3 as [Hwf3 Hh3].
  pose proof (remove_from_channel_wf _ _ _ (wn_index _ _ Hwf3) addr _ (channel_key c)
    ltac:(by rewrite Hh3) eq_refl ltac:(set_solver)) as Hc.
  replace ({[addr]} ∖ {[addr]}) with (∅ : gset nat) in Hc by set_solver.
  eapply wf_names_index; [done|done|]. intros q'. unfold remove_from_channel. by case_decide.
Qed.

Lemma cancelConsumer_wf channel tag guard vh :
  wf_names vh → wf_names (cancelConsumer channel tag guard vh).1.
Proof.
  intros Hwf. unfold cancelConsumer. destruct (negb (guard vh)); [done|].
  destruct (ix_Consumers (vh_index vh) !! (channel, tag)) as [addr|] eqn:Ha; [|done].
  destruct (wi_key _ _ _ (wn_index _ _ Hwf) _ _ Ha) as (c & Hreg & Hk & _).
  rewrite (proj1 Hreg). by apply cancelConsumerLocked_wf.
Qed.

(** ** Sequences of operations *)

Inductive vhost_step (vh : VHost) : VHost → Prop :=
| step_exchange_declare name typ props : vhost_step vh (CreateExchange name typ props vh).1
| step_exchange_delete name : vhost_step vh (deleteExchangeUnlocked name vh).1
| step_queue_declare candidates name props connID :
    vhost_step vh (CreateQueue candidates name (Some props) connID vh).1
| step_queue_delete name : vhost_step vh (deleteQueuebyNameUnlocked name vh).1
| step_bind exchange queue key args connID :
    vhost_step vh (BindQueue exchange queue key args connID vh).1
| step_unbind exchange queue key args connID :
    vhost_step vh (UnbindQueue exchange queue key args connID vh).1
| step_consume candidates consumer : vhost_step vh (RegisterConsumer candidates consumer vh).1
| step_cancel channel tag guard : vhost_step vh (cancelConsumer channel tag guard vh).1
| step_push name queue queue' msg :
    vh_Queues vh !! name = Some queue → push_unlimited msg queue = Ok queue' →
    vhost_step vh (set_Queues (<[name := queue']> (vh_Queues vh)) vh)
| step_pop name queue :
    vh_Queues vh !! name = Some queue →
    vhost_step vh (set_Queues (<[name := (Pop queue).2]> (vh_Queues vh)) vh)
| step_channel_open key :
    vhost_step vh (set_ChannelDeliveries (<[key := new_channel_state]> (vh_ChannelDeliveries vh)) vh)
| step_channel key ch ch' :
    vh_ChannelDeliveries vh !! key = Some ch → channel_step ch ch' →
    vhost_step vh (set_ChannelDeliveries (<[key := ch']> (vh_ChannelDeliveries vh)) vh)
| step_channel_close key :
    vhost_step vh (set_ChannelDeliveries (delete key (vh_ChannelDeliveries vh)) vh).

Lemma new_vhost_wf bufferSize maxPriority dlx ttl qll :
  wf_names (new_vhost bufferSize maxPriority dlx ttl qll).
Proof.
  unfold new_vhost, createMandatoryExchanges.
  assert (Hbare : wf_names (bare_vhost bufferSize maxPriority dlx ttl qll)).
  { split; cbn; try (intros *; rewrite lookup_empty; done).
    apply empty_index_wf. }
  revert Hbare. generalize (bare_vhost bufferSize maxPriority dlx ttl qll).
  induction mandatoryExchanges as [|x l IH]; intros vh Hwf; [done|].
  cbn [foldl]. by apply IH, CreateExchange_wf.
Qed.

(** Other contents of a queue that keep its name, state and consumer count. *)
Lemma wf_names_contents C vh name q q' :
  wf_names_but C vh → vh_Queues vh !! name = Some q →
  q_Name q' = q_Name q → q_stopped q' = q_stopped q → q_consumers q' = q_consumers q →
  wf_names_but C (set_Queues (<[name := q']> (vh_Queues vh)) vh).
Proof.
  intros Hwf Hq Hn Hs Hc.
  assert (Hlive : ∀ n, is_Some (vh_Queues vh !! n) → is_Some (<[name := q']> (vh_Queues vh) !! n)).
  { intros n ?. destruct (decide (name = n)) as [->|]; [rewrite lookup_insert_eq; by eexists|].
    by rewrite lookup_insert_ne. }
  split; cbn; try apply Hwf.
  - intros n e key bs He Hb. destruct (wn_binding _ _ Hwf _ _ _ _ He Hb) as [Hne Hf].
    split; [done|]. by eapply wf_binding_mono.
  - intros n x. rewrite lookup_insert_Some. intros [[<- <-]|[_ Hx]]; [|by apply (wn_queue _ _ Hwf)].
    rewrite Hn, Hs. by apply (wn_queue _ _ Hwf).
  - intros n Hne. by apply Hlive, (wn_consumers _ _ Hwf).
  - intros n x. rewrite lookup_insert_Some. intros [[<- <-]|[_ Hx]]; [|by apply (wn_count _ _ Hwf)].
    rewrite Hc. by apply (wn_count _ _ Hwf).
Qed.

Lemma push_keeps msg q q' :
  push_unlimited msg q = Ok q' →
  q_Name q' = q_Name q ∧ q_stopped q' = q_stopped q ∧ q_consumers q' = q_consumers q.
Proof.
  unfold push_unlimited, pushPriority, push. intros Hp.
  repeat (case_match || case_decide); inv_ok; repeat case_decide; by subst.
Qed.

Lemma pop_keeps q :
  q_Name (Pop q).2 = q_Name q ∧ q_stopped (Pop q).2 = q_stopped q ∧
  q_consumers (Pop q).2 = q_consumers q.
Proof.
  unfold Pop, popPriorityUnlocked, popUnlocked. case_decide.
  - by destruct (pop_level _ _) as [[]|].
  - by destruct (q_messages q).
Qed.

Lemma vhost_step_wf vh vh' : wf_names vh → vhost_step vh vh' → wf_names vh'.
Proof.
  intros Hwf Hs. destruct Hs as [| | | | | | | |name q q' msg Hq Hp|name q Hq|key|key ch ch' Hch Hs|key].
  - by apply CreateExchange_wf.
  - by apply deleteExchange_wf.
  - by apply CreateQueue_wf.
  - by apply deleteQueue_wf.
  - by apply BindQueue_wf.
  - by apply UnbindQueue_wf.
  - by apply RegisterConsumer_wf.
  - by apply cancelConsumer_wf.
  - apply push_keeps in Hp as (? & ? & ?). by eapply wf_names_contents.
  - destruct (pop_keeps q) as (? & ? & ?). by eapply wf_names_contents.
  - apply wf_names_channels; [done|]. intros k ch. rewrite lookup_insert_Some.
    intros [[_ <-]|[_ Hk]]; [apply new_channel_wf|by apply (wn_channel _ _ Hwf k)].
  - apply wf_names_channels; [done|]. intros k c. rewrite lookup_insert_Some.
    intros [[_ <-]|[_ Hk]]; [|by apply (wn_channel _ _ Hwf k)].
    eapply channel_step_wf; [|done]. by apply (wn_channel _ _ Hwf key).
  - apply wf_names_channels; [done|]. intros k ch [_ Hk]%lookup_delete_Some.
    by apply (wn_channel _ _ Hwf k).
Qed.

Lemma vhost_steps_wf vh vh' : rtc vhost_step vh vh' → wf_names vh → wf_names vh'.
Proof. induction 1 as [|x y z Hs _ IH]; [done|]. intros Hwf. by eapply IH, vhost_step_wf. Qed.

(** Whatever operations a vhost goes through from its creation, in any
    order, its names fit together: an exchange is filed under its name; no
    routing key is left without bindings and every binding is to a live,
    running queue, under its own routing key; the three indexes of consumers
    list the same consumers, each one once, and only on live queues; the count
    each queue mirrors is the number of its consumers; and the indexes of every
    channel's unacked deliveries are consistent. *)
Theorem names_well_formed (bufferSize maxPriority : Z) (dlx ttl qll : bool) (vh : VHost) :
  rtc vhost_step (new_vhost bufferSize maxPriority dlx ttl qll) vh → wf_names vh.
Proof.
  intros Hr. by eapply vhost_steps_wf, new_vhost_wf.
Qed.

(** The bindings of the exchange [n]. *)
Definition bound (vh : VHost) (n key : string) (b : Binding) : Prop :=
  ∃ e bs, vh_Exchanges vh !! n = Some e ∧ ex_Bindings e !! key = Some bs ∧ b ∈ bs.

Lemma without_queue_bound queue e key b :
  (∃ bs, ex_Bindings (without_queue queue e) !! key = Some bs ∧ b ∈ bs) ↔
  (∃ bs, ex_Bindings e !! key = Some bs ∧ b ∈ bs) ∧ b_Queue b ≠ q_Name queue.
Proof.
  cbn. rewrite lookup_omap. split.
  - intros (bs & (bs0 & H0 & [_ ->]%kept_bindings_some)%bind_Some & [Hb Hin]%list_elem_of_filter).
    split; [by exists bs0|done].
  - intros [(bs & Hbs & Hin) Hb]. exists (filter (λ b, b_Queue b ≠ q_Name queue) bs).
    assert (b ∈ filter (λ b, b_Queue b ≠ q_Name queue) bs) as Hf by by apply list_elem_of_filter.
    split; [|done]. rewrite Hbs. cbn. unfold kept_bindings. rewrite decide_False; [done|].
    intros He. rewrite He in Hf. by apply elem_of_nil in Hf.
Qed.

End laws.

(** ** A sample vhost *)

Section sample.
#[local] Existing Instance sample_runtime.

Definition sample_queue_props : QueueProperties := MkQueueProps false true false false None.
Definition sample_exchange_props : ExchangeProperties := MkExchangeProps false true true false false None.
Definition sample_consumer : Consumer := NewConsumer "conn-1" 1 "orders" "" false false None.

(** An auto-delete topic exchange bound to two queues, and a consumer. *)
Definition sample_vhost : VHost :=
  let vh := new_vhost 100 10 true true true in
  let vh := (CreateExchange "logs" TOPIC (Some sample_exchange_props) vh).1 in
  let vh := (CreateQueue [] "orders" (Some sample_queue_props) "conn-1" vh).1 in
  let vh := (CreateQueue [] "audit" (Some sample_queue_props) "conn-1" vh).1 in
  let vh := (BindQueue "logs" "orders" "app.#" None "conn-1" vh).1 in
  let vh := (BindQueue "logs" "audit" "app.*.error" None "conn-1" vh).1 in
  (RegisterConsumer ["ctag-1"] sample_consumer vh).1.

Definition sample_logs : Exchange :=
  default (NewExchange "" "" None) (vh_Exchanges sample_vhost !! "logs").

Lemma sample_logs_lookup : vh_Exchanges sample_vhost !! "logs" = Some sample_logs.
Proof. by vm_compute. Qed.

Lemma sample_vhost_reachable : rtc vhost_step (new_vhost 100 10 true true true) sample_vhost.
Proof.
  unfold sample_vhost.
  eapply rtc_l; [apply step_exchange_declare|]. do 2 (eapply rtc_l; [apply step_queue_declare|]).
  do 2 (eapply rtc_l; [apply step_bind|]). eapply rtc_l; [apply step_consume|]. apply rtc_refl.
Qed.

Lemma sample_vhost_wf : wf_names sample_vhost.
Proof. eapply vhost_steps_wf, new_vhost_wf. apply sample_vhost_reachable. Qed.

Lemma names_well_formed_witness : wf_names sample_vhost.
Proof. exact (names_well_formed 100 10 true true true sample_vhost sample_vhost_reachable). Defined.

End sample.
