(* ===== verification/Routing.v ===== *)
(** * Routing: vhost/message.go, and what binding.go promises it

    [routeLocked] finds the queues a message goes to and saves it for the
    durable ones; [HasRoutingForMessage] answers beforehand whether there are
    any.  Both are compared with the bindings of the exchange. *)

From stdpp Require Import base list gmap strings.
From Stdlib Require Import ZArith Lia.
From S2P Require Import Prelude Bytes Values Properties Methods Topic Args Queue Deliveries Consumers.
From S2P Require Import Json VHost Lifecycle.

Local Open Scope Z_scope.
Local Open Scope string_scope.
Local Open Scope list_scope.

(** ** Definitions *)

Definition is_durable (vh : VHost) (queueName : string) : bool :=
  match vh_Queues vh !! queueName with
  | Some queue => qp_Durable (q_Props queue)
  | None => false
  end.

Definition saveMessageIfDurable (msg : Message) (queueName : string) (vh : VHost) : VHost :=
  persist_if (is_persistent msg && is_durable vh queueName) (SaveMessage queueName msg) vh.

(** The keys of [matchedQueues], a map from the queues; Go visits it in any order. *)
Definition matched_queues (routingKey : string) (bindings : gmap string (list Binding)) : gset string :=
  list_to_set (kbs ← map_to_list bindings;
               if MatchTopic routingKey kbs.1 then b_Queue <$> kbs.2 else []).

(** The queues the message goes to, in the order of the bindings. *)
Definition route_targets (exchange : Exchange) (routingKey : string) : res vh_err (list string) :=
  if decide (ex_Typ exchange = DIRECT) then
    match ex_Bindings exchange !! routingKey with
    | None => Err (PlainError "routing key not found")
    | Some bindings => Ok (b_Queue <$> bindings)
    end
  else if decide (ex_Typ exchange = FANOUT) then
    match ex_Bindings exchange !! "" with
    | None => Err (PlainError "routing key not found")
    | Some bindings => Ok (b_Queue <$> bindings)
    end
  else if decide (ex_Typ exchange = TOPIC) then
    Ok (elements (matched_queues routingKey (ex_Bindings exchange)))
  else Err (PlainError "exchange type not supported yet").

Definition routeLocked (exchangeName routingKey : string) (msg : Message) (vh : VHost)
    : handled (list string) :=
  match vh_Exchanges vh !! resolveExchangeAlias exchangeName with
  | None => (vh, Err (ChannelError NOT_FOUND BASIC BASIC_PUBLISH))
  | Some exchange =>
      if ep_Internal (ex_Props exchange)
      then (vh, Err (PlainError "cannot publish to internal exchange")) else
      match route_targets exchange routingKey with
      | Err e => (vh, Err e)
      | Ok targets => (foldl (λ vh q, saveMessageIfDurable msg q vh) vh targets, Ok targets)
      end
  end.

Definition listFanoutQueuesUnlocked (exchange : Exchange) : list string :=
  b_Queue <$> default [] (ex_Bindings exchange !! "").

Definition HasRoutingForMessage (exchangeName routingKey : string) (vh : VHost) : res vh_err bool :=
  match vh_Exchanges vh !! resolveExchangeAlias exchangeName with
  | None => Err (ChannelError NOT_FOUND QUEUE QUEUE_BIND)
  | Some exchange =>
      if decide (ex_Typ exchange = DIRECT) then
        match ex_Bindings exchange !! routingKey with
        | Some queues => Ok (bool_decide (0 < length queues)%nat)
        | None => Ok false
        end
      else if decide (ex_Typ exchange = FANOUT) then
        Ok (bool_decide (0 < length (listFanoutQueuesUnlocked exchange))%nat)
      else if decide (ex_Typ exchange = TOPIC) then
        Ok (existsb (λ kbs, MatchTopic routingKey kbs.1 && bool_decide (0 < length kbs.2)%nat)
              (map_to_list (ex_Bindings exchange)))
      else Ok false
  end.

(** ** The bindings decide *)

(** Whether a binding filed under [key] takes the messages with [routingKey]. *)
Definition key_takes (typ key routingKey : string) : Prop :=
  if decide (typ = DIRECT) then key = routingKey
  else if decide (typ = FANOUT) then True
  else typ = TOPIC ∧ MatchTopic routingKey key = true.

(** A queue of the exchange [n] that the message should reach. *)
Definition should_reach (vh : VHost) (n routingKey q : string) : Prop :=
  ∃ e key b, vh_Exchanges vh !! n = Some e ∧ bound vh n key b ∧
    key_takes (ex_Typ e) key routingKey ∧ b_Queue b = q.

Definition supported (typ : string) : Prop := typ = DIRECT ∨ typ = FANOUT ∨ typ = TOPIC.

Lemma elem_of_matched_queues rk bs q :
  q ∈ matched_queues rk bs ↔
  ∃ key l b, bs !! key = Some l ∧ MatchTopic rk key = true ∧ b ∈ l ∧ b_Queue b = q.
Proof.
  unfold matched_queues. rewrite elem_of_list_to_set, list_elem_of_bind. split.
  - intros ([key l] & Hin & Hkl%elem_of_map_to_list). cbn in Hin.
    destruct (MatchTopic rk key) eqn:Hm; [|by apply elem_of_nil in Hin].
    apply list_elem_of_fmap in Hin as (b & -> & Hb). by exists key, l, b.
  - intros (key & l & b & Hl & Hm & Hb & <-). exists (key, l). cbn. rewrite Hm.
    split; [by apply list_elem_of_fmap_2|by apply elem_of_map_to_list].
Qed.

Lemma bound_in vh n e key b :
  vh_Exchanges vh !! n = Some e →
  bound vh n key b ↔ ∃ bs, ex_Bindings e !! key = Some bs ∧ b ∈ bs.
Proof. unfold bound. intros He. rewrite He. naive_solver. Qed.

Lemma key_takes_direct key rk : key_takes DIRECT key rk ↔ key = rk.
Proof. unfold key_takes. by rewrite decide_True. Qed.
Lemma key_takes_fanout key rk : key_takes FANOUT key rk ↔ True.
Proof. unfold key_takes. by rewrite decide_False, decide_True. Qed.
Lemma key_takes_topic key rk : key_takes TOPIC key rk ↔ MatchTopic rk key = true.
Proof. unfold key_takes. rewrite decide_False by done. rewrite decide_False by done. naive_solver. Qed.

Lemma supported_neq : FANOUT ≠ DIRECT ∧ TOPIC ≠ DIRECT ∧ TOPIC ≠ FANOUT.
Proof. done. Qed.

Section routing.
Variables (vh : VHost) (n : string) (e : Exchange).
Hypothesis Hwf : wf_names vh.
Hypothesis He : vh_Exchanges vh !! n = Some e.

Lemma should_reach_in rk q :
  should_reach vh n rk q ↔
  ∃ key bs b, ex_Bindings e !! key = Some bs ∧ b ∈ bs ∧ key_takes (ex_Typ e) key rk ∧ b_Queue b = q.
Proof.
  unfold should_reach. split.
  - intros (e' & key & b & He' & Hb & Hk & Hq). rewrite He in He'. injection He' as <-.
    apply (bound_in _ _ _ _ _ He) in Hb as (bs & Hbs & Hb). by exists key, bs, b.
  - intros (key & bs & b & Hbs & Hb & Hk & Hq). exists e, key, b.
    split_and!; try done. apply (bound_in _ _ _ _ _ He). by exists bs.
Qed.

Lemma fanout_key key bs : ex_Typ e = FANOUT → ex_Bindings e !! key = Some bs → key = "".
Proof.
  intros Ht Hbs. destruct (wn_binding _ _ Hwf _ _ _ _ He Hbs) as [Hne Hf].
  destruct bs as [|b bs]; [done|]. apply Forall_cons in Hf as [[_ Hk] _].
  by rewrite decide_True in Hk.
Qed.

Lemma route_targets_spec rk :
  supported (ex_Typ e) →
  match route_targets e rk with
  | Ok targets => ∀ q, q ∈ targets ↔ should_reach vh n rk q
  | Err _ => ∀ q, ¬ should_reach vh n rk q
  end.
Proof.
  intros Hsup. pose proof supported_neq as (Hfd & Htd & Htf). unfold route_targets.
  destruct Hsup as [Ht|[Ht|Ht]]; rewrite Ht.
  - rewrite decide_True by done. destruct (ex_Bindings e !! rk) as [bs|] eqn:Hbs.
    + intros q. rewrite should_reach_in, Ht, list_elem_of_fmap. setoid_rewrite key_takes_direct.
      split; [intros (b & -> & Hb); by exists rk, bs, b|].
      intros (key & bs' & b & Hbs' & Hb & -> & <-). simplify_eq. by exists b.
    + intros q. rewrite should_reach_in, Ht. setoid_rewrite key_takes_direct.
      intros (key & bs' & b & Hbs' & Hb & -> & <-). congruence.
  - rewrite decide_False, decide_True by done. destruct (ex_Bindings e !! "") as [bs|] eqn:Hbs.
    + intros q. rewrite should_reach_in, Ht, list_elem_of_fmap. setoid_rewrite key_takes_fanout.
      split; [intros (b & -> & Hb); by exists "", bs, b|].
      intros (key & bs' & b & Hbs' & Hb & _ & <-).
      rewrite (fanout_key key bs') in Hbs' by done. simplify_eq. by exists b.
    + intros q. rewrite should_reach_in, Ht. intros (key & bs' & b & Hbs' & Hb & _ & <-).
      rewrite (fanout_key key bs') in Hbs' by done. congruence.
  - rewrite !decide_False, decide_True by done. intros q.
    rewrite elem_of_elements, elem_of_matched_queues, should_reach_in, Ht.
    setoid_rewrite key_takes_topic. naive_solver.
Qed.

Lemma should_reach_live rk q : should_reach vh n rk q → is_Some (vh_Queues vh !! q).
Proof.
  rewrite should_reach_in. intros (key & bs & b & Hbs & Hb & _ & <-).
  destruct (wn_binding _ _ Hwf _ _ _ _ He Hbs) as [_ Hf]. rewrite Forall_forall in Hf. by apply Hf.
Qed.

Lemma nonempty_binding key bs :
  ex_Bindings e !! key = Some bs → (0 < length bs)%nat ∧ ∃ b, b ∈ bs.
Proof.
  intros Hbs. destruct (wn_binding _ _ Hwf _ _ _ _ He Hbs) as [Hne _].
  destruct bs as [|b bs]; [done|]. split; [cbn; lia|]. exists b. by left.
Qed.

Lemma has_routing_spec exchangeName rk :
  resolveExchangeAlias exchangeName = n → supported (ex_Typ e) →
  ∃ any, HasRoutingForMessage exchangeName rk vh = Ok any ∧
    (any = true ↔ ∃ q, should_reach vh n rk q).
Proof.
  intros Hn Hsup. pose proof supported_neq as (Hfd & Htd & Htf).
  unfold HasRoutingForMessage. rewrite Hn, He. setoid_rewrite should_reach_in.
  destruct Hsup as [Ht|[Ht|Ht]]; rewrite Ht.
  - rewrite decide_True by done. setoid_rewrite key_takes_direct.
    destruct (ex_Bindings e !! rk) as [bs|] eqn:Hbs; eexists; (split; [done|]).
    + destruct (nonempty_binding _ _ Hbs) as [Hlen [b Hb]]. rewrite bool_decide_true by done.
      split; [intros _|done]. by exists (b_Queue b), rk, bs, b.
    + split; [done|]. intros (q & key & bs & b & Hbs' & _ & -> & _). congruence.
  - rewrite decide_False, decide_True by done. setoid_rewrite key_takes_fanout.
    eexists; (split; [done|]). unfold listFanoutQueuesUnlocked. rewrite length_fmap.
    destruct (ex_Bindings e !! "") as [bs|] eqn:Hbs.
    + destruct (nonempty_binding _ _ Hbs) as [Hlen [b Hb]]. rewrite bool_decide_true by done.
      split; [intros _|done]. by exists (b_Queue b), "", bs, b.
    + rewrite bool_decide_false by (cbn; lia). split; [done|].
      intros (q & key & bs & b & Hbs' & _). rewrite (fanout_key key bs) in Hbs' by done. congruence.
  - rewrite !decide_False, decide_True by done. setoid_rewrite key_takes_topic.
    eexists; (split; [done|]). rewrite existsb_elem. split.
    + intros ([key bs] & Hkv%elem_of_map_to_list & Hm). cbn in Hm. apply andb_true_iff in Hm as [Hm _].
      destruct (nonempty_binding _ _ Hkv) as [_ [b Hb]]. by exists (b_Queue b), key, bs, b.
    + intros (q & key & bs & b & Hbs & _ & Hm & _). exists (key, bs). split; [by apply elem_of_map_to_list|].
      cbn. rewrite Hm. apply bool_decide_true. by apply (nonempty_binding key).
Qed.
End routing.


(** The calls to the persistence layer that routing a message makes, in order. *)
Definition saves (vh : VHost) (msg : Message) (targets : list string) : list persist_call :=
  (λ q, SaveMessage q msg) <$> filter (λ q, is_persistent msg && is_durable vh q = true) targets.

Lemma foldl_save msg l : ∀ vh,
  foldl (λ vh q, saveMessageIfDurable msg q vh) vh l =
  foldl (λ vh call, persist call vh) vh (saves vh msg l).
Proof.
  induction l as [|q l IH]; intros vh; [done|]. cbn [foldl]. rewrite IH. unfold saves.
  rewrite filter_cons. unfold saveMessageIfDurable.
  destruct (is_persistent msg && is_durable vh q) eqn:E; cbn [persist_if].
  - rewrite decide_True by done. cbn [fmap list_fmap foldl]. do 2 f_equal.
  - by rewrite decide_False.
Qed.

Lemma foldl_persist_all calls : ∀ vh,
  let vh' := foldl (λ vh call, persist call vh) vh calls in
  same_queues vh vh' ∧ vh_Exchanges vh' = vh_Exchanges vh ∧
  vh_persist vh' = reverse calls ++ vh_persist vh.
Proof.
  induction calls as [|c calls IH]; intros vh; [done|]. cbn [foldl].
  destruct (IH (persist c vh)) as (Hs & He & Hp). cbn zeta. rewrite He, Hp.
  split; [exact Hs|]. split; [done|]. by rewrite reverse_cons, <-app_assoc.
Qed.

(** C5. Routing reaches exactly the queues bound for it.  In any vhost whose
    names are well formed, a publish to an exchange that clients may use finds
    the live queues with a binding that takes the routing key: the equal key in
    a direct exchange, any binding in a fanout exchange, a matching pattern in a
    topic exchange; when it fails there is none.  The message is saved once for
    each durable target when it is persistent, nothing else of the vhost
    changes, and [HasRoutingForMessage] has answered that there is a target
    exactly when there is one. *)
Theorem routing_follows_bindings (exchangeName routingKey : string) (msg : Message) (e : Exchange) (vh : VHost) :
  let n := resolveExchangeAlias exchangeName in
  wf_names vh → vh_Exchanges vh !! n = Some e →
  ep_Internal (ex_Props e) = false → supported (ex_Typ e) →
  let '(vh', result) := routeLocked exchangeName routingKey msg vh in
  match result with
  | Ok targets =>
      (∀ q, q ∈ targets ↔ should_reach vh n routingKey q) ∧
      (∀ q, q ∈ targets → is_Some (vh_Queues vh !! q)) ∧
      vh_persist vh' = reverse (saves vh msg targets) ++ vh_persist vh
  | Err _ => (∀ q, ¬ should_reach vh n routingKey q) ∧ vh_persist vh' = vh_persist vh
  end ∧
  vh_Exchanges vh' = vh_Exchanges vh ∧ same_queues vh vh' ∧
  ∃ any, HasRoutingForMessage exchangeName routingKey vh = Ok any ∧
    (any = true ↔ ∃ q, should_reach vh n routingKey q).
Proof.
  cbn zeta. set (n := resolveExchangeAlias exchangeName). intros Hwf He Hint Hsup.
  pose proof (route_targets_spec vh n e Hwf He routingKey Hsup) as Hroute.
  unfold routeLocked. fold n. rewrite He, Hint.
  pose proof (has_routing_spec vh n e Hwf He exchangeName routingKey eq_refl Hsup) as Hhas.
  destruct (route_targets e routingKey) as [targets|err]; cbn [fst snd].
  - rewrite foldl_save. destruct (foldl_persist_all (saves vh msg targets) vh) as (Hs & Hex & Hp).
    split; [|by split_and!]. split_and!; [done| |done].
    intros q Hq%Hroute. by eapply should_reach_live.
  - split_and!; done.
Qed.

Section routing_sample.
#[local] Existing Instance sample_runtime.

Definition sample_publish : Message :=
  MkMessage "m-1" 0 [] (set_DeliveryMode 2 empty_props) "logs" "app.eu.error".

Lemma sample_reaches : should_reach sample_vhost "logs" "app.eu.error" "orders".
Proof.
  eexists _, "app.#", (MkBinding "orders" "app.#" None).
  split; [by vm_compute|]. split; [|split; [by vm_compute|done]].
  eexists _, _. split; [by vm_compute|]. split; [by vm_compute|]. by left.
Qed.

Lemma routing_follows_bindings_witness :
  ∃ targets, (routeLocked "logs" "app.eu.error" sample_publish sample_vhost).2 = Ok targets ∧
    "orders" ∈ targets ∧ HasRoutingForMessage "logs" "app.eu.error" sample_vhost = Ok true.
Proof.
  assert (Hsup : supported (ex_Typ sample_logs)) by (do 2 right; by vm_compute).
  pose proof (routing_follows_bindings "logs" "app.eu.error" sample_publish sample_logs sample_vhost
    sample_vhost_wf sample_logs_lookup ltac:(by vm_compute) Hsup) as Hr.
  change (resolveExchangeAlias "logs") with "logs" in Hr.
  destruct (routeLocked _ _ _ _) as [vh' [targets|]]; cbn [snd].
  - destruct Hr as [(Ht & _) (_ & _ & any & Hany & Hiff)]. exists targets.
    split; [done|]. split; [apply Ht, sample_reaches|]. rewrite Hany. f_equal. apply Hiff.
    exists "orders". apply sample_reaches.
  - destruct Hr as [[Hno _] _]. destruct (Hno "orders" sample_reaches).
Defined.
End routing_sample.
