(* ===== verification/Declare.v ===== *)
(** * What clients may declare, bind and consume from

    Functional properties of the declarations of vhost/queue.go and
    vhost/binding.go: binding adds one binding and unbinding undoes it,
    declaring again changes nothing, and an exclusive queue is closed to every
    other connection. *)

From stdpp Require Import base list gmap strings.
From Stdlib Require Import ZArith Lia.
From S2P Require Import Prelude Bytes Values Properties Methods Topic Args Queue Deliveries Consumers.
From S2P Require Import Json VHost Lifecycle.

Local Open Scope Z_scope.
Local Open Scope string_scope.
Local Open Scope list_scope.

Section declare.
Context `{Runtime}.

(** ** Binding *)

(** The key under which an exchange files a binding. *)
Definition filed_key (e : Exchange) (key : string) : string :=
  if decide (ex_Typ e = FANOUT) then "" else key.

(** A binding of the queue with matching arguments is filed under the key. *)
Definition already_bound (e : Exchange) (key queueName : string) (args : option table) : Prop :=
  ∃ b, b ∈ default [] (ex_Bindings e !! key) ∧ b_Queue b = queueName ∧
    bindingArgumentsMatch (b_Args b) args = true.

(** A successful bind, opened. *)
Lemma BindQueue_ok exchange queueName key args connID vh vh' :
  BindQueue exchange queueName key args connID vh = (vh', Ok tt) →
  let n := resolveExchangeAlias exchange in
  ∃ e queue, vh_Exchanges vh !! n = Some e ∧ vh_Queues vh !! queueName = Some queue ∧
    (connID = INTERNAL_CONN_ID ∨ validateQueueOwnership queue connID QUEUE QUEUE_BIND = Ok tt) ∧
    (ex_Typ e = DIRECT ∨ ex_Typ e = FANOUT ∨ ex_Typ e = TOPIC) ∧
    let k := filed_key e key in
    let b := MkBinding queueName key args in
    match add_binding k b queueName k args e with
    | None => vh' = vh
    | Some e' => vh' = persist_if (ep_Durable (ex_Props e) && qp_Durable (q_Props queue))
        (SaveBindingState n queueName k args) (set_Exchanges (<[n := e']> (vh_Exchanges vh)) vh)
    end.
Proof.
  unfold BindQueue. cbn zeta. destruct (vh_Exchanges vh !! _) as [e|] eqn:He; [|done].
  destruct (vh_Queues vh !! queueName) as [queue|] eqn:Hq; [|done].
  destruct (if decide (connID ≠ INTERNAL_CONN_ID) then _ else _) as [[]|] eqn:Hown; [|done].
  intros Hb. exists e, queue. split_and!; [done|done| | |].
  - clear Hb. case_decide as Hc; [by right|left].
    destruct (decide (connID = INTERNAL_CONN_ID)); tauto.
  - clear Hown. repeat case_decide; [by left|by right; left|by do 2 right|done].
  - assert (DIRECT ≠ FANOUT ∧ TOPIC ≠ FANOUT) as [? ?] by done. clear Hown. unfold filed_key.
    repeat case_decide; try congruence; destruct (add_binding _ _ _ _ _ _); by simplify_eq.
Qed.

Lemma BindQueue_err exchange queueName key args connID vh vh' err :
  BindQueue exchange queueName key args connID vh = (vh', Err err) → vh' = vh.
Proof.
  unfold BindQueue. cbn zeta. intros Hb. repeat (case_match || case_decide); by simplify_eq.
Qed.

Lemma existsb_false {A} (f : A → bool) l : existsb f l = false ↔ ∀ x, x ∈ l → f x = false.
Proof.
  induction l as [|x l IH]; cbn; [split; [by intros _ ? ?%elem_of_nil|done]|].
  rewrite orb_false_iff, IH. setoid_rewrite elem_of_cons. naive_solver.
Qed.

(** Binding adds one binding, at most.  A bind that fails changes nothing.
    One that succeeds leaves every binding in place, everything else untouched,
    and adds the new binding under the key it is filed under, unless one with
    the same queue, filed key and arguments was there. *)
Theorem bind_adds_one (exchange queueName key connID : string) (args : option table) (vh : VHost) :
  let '(vh', result) := BindQueue exchange queueName key args connID vh in
  match result with
  | Err _ => vh' = vh
  | Ok _ =>
      let n := resolveExchangeAlias exchange in
      same_queues vh vh' ∧
      ∃ e, vh_Exchanges vh !! n = Some e ∧
      let k := filed_key e key in
      ∀ n' k' b', bound vh' n' k' b' ↔
        bound vh n' k' b' ∨
        (n' = n ∧ k' = k ∧ b' = MkBinding queueName key args ∧
         ∀ b, bound vh n k b → bindingExist b queueName k args = false)
  end.
Proof.
  destruct (BindQueue exchange queueName key args connID vh) as [vh' [[]|err]] eqn:Hb;
    [|by eapply BindQueue_err].
  apply BindQueue_ok in Hb as (e & queue & He & Hq & _ & _ & Hadd). cbn zeta in *.
  set (n := resolveExchangeAlias exchange) in *. set (k := filed_key e key) in *.
  assert (Hbs : ∀ b, bound vh n k b ↔ b ∈ default [] (ex_Bindings e !! k)).
  { intros b. unfold bound. split.
    - intros (e' & bs & He' & Hbs & Hin). rewrite He in He'. injection He' as <-. by rewrite Hbs.
    - intros Hin. destruct (ex_Bindings e !! k) as [bs|] eqn:Hbs; [|by apply elem_of_nil in Hin].
      by exists e, bs. }
  unfold add_binding in Hadd.
  destruct (existsb _ _) eqn:Hex.
  - subst vh'. split; [done|]. exists e. split; [done|]. intros n' k' b'. split; [by left|].
    intros [Hbd|(-> & -> & -> & Hno)]; [done|].
    apply existsb_elem in Hex as (b & Hin & Hb). pose proof (Hno b (proj2 (Hbs b) Hin)) as Hf. cbn beta in Hb. fold k in Hf. congruence.
  - subst vh'. match goal with |- same_queues _ (persist_if ?c ?l ?v) ∧ _ =>
      destruct (persist_if_same c l v) as [Hs Hx] end.
    split; [by etrans; [|exact Hs]|]. exists e. split; [done|]. intros n' k' b'.
    unfold bound at 1. rewrite Hx. cbn [vh_Exchanges set_Exchanges].
    rewrite existsb_false in Hex.
    destruct (decide (n' = n)) as [->|Hn].
    + rewrite lookup_insert_eq. destruct (decide (k' = k)) as [->|Hk].
      * split.
        -- intros (e' & bs & [= <-] & Hl & Hin). cbn in Hl. rewrite lookup_insert_eq in Hl.
           injection Hl as <-. apply elem_of_app in Hin as [Hin| ->%list_elem_of_singleton].
           ++ left. by apply Hbs.
           ++ right. split_and!; try done. intros b Hb%Hbs. by apply Hex.
        -- intros Hd. eexists _, _. split; [done|]. cbn. rewrite lookup_insert_eq.
           split; [done|]. apply elem_of_app. rewrite list_elem_of_singleton.
           destruct Hd as [Hd%Hbs|(_ & _ & -> & _)]; auto.
      * transitivity (bound vh n k' b'); [|naive_solver]. unfold bound. split.
        -- intros (e' & bs & [= <-] & Hl & Hin). cbn in Hl. rewrite lookup_insert_ne in Hl by done.
           by exists e, bs.
        -- intros (e' & bs & He' & Hl & Hin). rewrite He in He'. injection He' as <-.
           eexists _, bs. split; [done|]. cbn. by rewrite lookup_insert_ne by done.
    + rewrite lookup_insert_ne by done. unfold bound. naive_solver.
Qed.

Lemma remove_binding_last queueName args bs b :
  (∀ b', b' ∈ bs → b_Queue b' = queueName → bindingArgumentsMatch (b_Args b') args = false) →
  b_Queue b = queueName → bindingArgumentsMatch (b_Args b) args = true →
  remove_binding queueName args (bs ++ [b]) = Some bs.
Proof.
  intros Hno Hq Ha. induction bs as [|b' bs IH]; cbn.
  - by rewrite bool_decide_true, Ha.
  - rewrite IH by (intros; apply Hno; [by right|done]).
    destruct (decide (b_Queue b' = queueName)) as [Hb'|Hb'].
    + by rewrite (Hno b'), andb_false_r by (first [by left|done]).
    + by rewrite bool_decide_false.
Qed.

Lemma delete_last_binding e k bs b queueName args vh X :
  ex_Bindings e !! k = (if decide (bs = []) then None else Some bs) →
  (ep_AutoDelete (ex_Props e) = true → ex_Bindings e ≠ ∅) →
  remove_binding queueName args (bs ++ [b]) = Some bs →
  vh_Exchanges vh = <[ex_Name e := set_Bindings (<[k := bs ++ [b]]> (ex_Bindings e)) e]> X →
  ∃ vh2, DeleteBindingUnlocked (set_Bindings (<[k := bs ++ [b]]> (ex_Bindings e)) e) queueName k args vh
      = (vh2, Ok tt) ∧
    same_queues vh vh2 ∧ vh_Exchanges vh2 = <[ex_Name e := e]> X.
Proof.
  intros Hk Hauto Hrem HX. set (e1 := set_Bindings _ e) in *. unfold DeleteBindingUnlocked.
  change (ex_Bindings e1) with (<[k := bs ++ [b]]> (ex_Bindings e)).
  change (ex_Name e1) with (ex_Name e). rewrite lookup_insert_eq, Hrem.
  assert (Hback : ∀ m, m = ex_Bindings e → set_Bindings m e1 = e) by (intros m ->; by destruct e).
  case_decide as Hbs.
  - rewrite delete_insert_eq, delete_id by done. rewrite (Hback (ex_Bindings e)) by done.
    cbn [ex_Name set_Bindings]. unfold checkAutoDeleteExchangeUnlocked.
    cbn [vh_Exchanges set_Exchanges]. rewrite lookup_insert_eq.
    rewrite decide_False by (intros [? ?]; by apply Hauto).
    eexists. split; [done|]. split; [done|]. cbn. by rewrite HX, insert_insert_eq.
  - rewrite insert_insert_eq. rewrite (Hback (<[k := bs]> (ex_Bindings e))) by (by apply insert_id).
    eexists. split; [done|]. split; [done|]. cbn. by rewrite HX, insert_insert_eq.
Qed.

(** C33. Unbinding undoes binding: if the queue was not bound under that key with
    matching arguments, the arguments match themselves (they hold no NaN) and
    the exchange would not be deleted for want of other bindings, then a bind
    and an unbind with the same arguments put every exchange back as it was. *)
Theorem unbind_undoes_bind (exchange queueName key connID : string) (args : option table)
    (e : Exchange) (vh vh1 : VHost) :
  wf_names vh → connID ≠ INTERNAL_CONN_ID →
  vh_Exchanges vh !! resolveExchangeAlias exchange = Some e →
  ¬ already_bound e (filed_key e key) queueName args →
  bindingArgumentsMatch args args = true →
  (ep_AutoDelete (ex_Props e) = true → ex_Bindings e ≠ ∅) →
  BindQueue exchange queueName key args connID vh = (vh1, Ok tt) →
  let '(vh2, result) := UnbindQueue exchange queueName key args connID vh1 in
  result = Ok tt ∧ vh_Exchanges vh2 = vh_Exchanges vh ∧ same_queues vh vh2.
Proof.
  intros Hwf Hconn He Hfresh Hself Hauto Hb.
  apply BindQueue_ok in Hb as (e0 & queue & He0 & Hq & Hown & Htyp & Hadd).
  rewrite He in He0. injection He0 as <-. destruct Hown as [|Hown]; [done|].
  cbn zeta in Hadd. set (n := resolveExchangeAlias exchange) in *. set (k := filed_key e key) in *.
  pose proof (wn_exchange _ _ Hwf _ _ He) as Hname.
  unfold add_binding in Hadd. set (bs := default [] (ex_Bindings e !! k)) in *.
  assert (Hno : ∀ b', b' ∈ bs → b_Queue b' = queueName → bindingArgumentsMatch (b_Args b') args = false).
  { intros b' Hin Hb'. destruct (bindingArgumentsMatch (b_Args b') args) eqn:Hm; [|done].
    destruct Hfresh. by exists b'. }
  assert (Hex : existsb (λ b', bindingExist b' queueName k args) bs = false).
  { apply existsb_false. intros b' Hin. unfold bindingExist.
    destruct (decide (b_Queue b' = queueName)) as [Hb'|Hb']; [|by rewrite bool_decide_false].
    by rewrite (Hno b'), andb_false_r. }
  rewrite Hex in Hadd. subst vh1. set (b := MkBinding queueName key args).
  set (e1 := set_Bindings (<[k := bs ++ [b]]> (ex_Bindings e)) e).
  set (vha := set_Exchanges (<[n := e1]> (vh_Exchanges vh)) vh).
  pose proof (persist_if_same (ep_Durable (ex_Props e) && qp_Durable (q_Props queue))
    (SaveBindingState n queueName k args) vha) as [(Hsq & Hsi & Hsc) Hsx].
  set (vh1 := persist_if _ _ vha) in *.
  assert (Hunbind : UnbindQueue exchange queueName key args connID vh1 =
    match DeleteBindingUnlocked e1 queueName k args vh1 with
    | (vh, Err err) => (vh, Err err)
    | (vh, Ok _) => (persist_if (ep_Durable (ex_Props e) && qp_Durable (q_Props queue))
        (DeleteBindingState n queueName k args) vh, Ok tt)
    end).
  { unfold UnbindQueue. fold n. rewrite Hsx. unfold vha at 1. cbn [vh_Exchanges set_Exchanges].
    rewrite lookup_insert_eq, Hsq. change (vh_Queues vha) with (vh_Queues vh). rewrite Hq.
    assert (Hown' : validateQueueOwnership queue connID QUEUE QUEUE_UNBIND = Ok tt).
    { revert Hown. unfold validateQueueOwnership. by case_decide. }
    rewrite Hown'. change (ex_Typ e1) with (ex_Typ e). change (ex_Props e1) with (ex_Props e).
    assert (DIRECT ≠ FANOUT ∧ TOPIC ≠ FANOUT) as [? ?] by done. unfold k, filed_key.
    case_decide as Hd; [rewrite decide_False by (destruct Hd; congruence); done|].
    rewrite decide_True by (destruct Htyp as [|[|]]; tauto).
    by rewrite decide_True by (destruct Htyp as [|[|]]; tauto). }
  rewrite Hunbind.
  destruct (delete_last_binding e k bs b queueName args vh1 (vh_Exchanges vh))
    as (vh2 & Hd & (Hs1 & Hs2 & Hs3 & Hs4 & Hs5) & Hx2).
  - subst bs. destruct (ex_Bindings e !! k) as [bs|] eqn:Hk; [|done].
    rewrite decide_False; [done|]. by apply (wn_binding _ _ Hwf n e k).
  - done.
  - by apply remove_binding_last.
  - by rewrite Hsx, Hname.
  - fold e1 in Hd. rewrite Hd. match goal with |- _ ∧ vh_Exchanges (persist_if ?c ?l ?v) = _ ∧ _ =>
      destruct (persist_if_same c l v) as [(Hp1 & Hp2 & Hp3 & Hp4 & Hp5) Hpx] end.
    split; [done|]. rewrite Hpx, Hx2, Hname. split; [by apply insert_id|].
    unfold same_queues. rewrite Hp1, Hp2, Hp3, Hp4, Hp5, Hs1, Hs2, Hs3, Hs4, Hs5, Hsq, Hsi. tauto.
Qed.

(** ** Declaring *)

Lemma redeclare_ok existing p connID q :
  redeclare existing (Some p) connID = Ok q →
  q = existing ∧ validateQueueOwnership existing connID QUEUE QUEUE_DECLARE = Ok tt ∧
  qp_Durable (q_Props existing) = qp_Durable p ∧ qp_AutoDelete (q_Props existing) = qp_AutoDelete p ∧
  qp_Exclusive (q_Props existing) = qp_Exclusive p ∧
  equalArgs (qp_Arguments (q_Props existing)) (qp_Arguments p) = true.
Proof.
  unfold redeclare. destruct (validateQueueOwnership _ _ _ _) as [[]|] eqn:Ho; [|done].
  case_decide as Hd; [done|]. intros [= ->]. split_and!; try done.
  - destruct (decide (qp_Durable (q_Props q) = qp_Durable p)); tauto.
  - destruct (decide (qp_AutoDelete (q_Props q) = qp_AutoDelete p)); tauto.
  - destruct (decide (qp_Exclusive (q_Props q) = qp_Exclusive p)); tauto.
  - by destruct (equalArgs _ _); [|tauto].
Qed.

Lemma declared_queue_own name props connID vh :
  validateQueueOwnership (declared_queue name props connID vh) connID QUEUE QUEUE_DECLARE = Ok tt.
Proof.
  unfold validateQueueOwnership, declared_queue, set_declared. cbn.
  destruct (qp_Exclusive props); by rewrite decide_False by naive_solver.
Qed.

(** A declaration by name, not passive. *)
Lemma CreateQueue_active candidates name p connID vh :
  name ≠ "" → qp_Passive p = false →
  CreateQueue candidates name (Some p) connID vh =
  match vh_Queues vh !! name with
  | Some existing => (vh, redeclare existing (Some p) connID)
  | None => create_queue name (Some p) connID vh
  end.
Proof.
  intros Hn Hp. unfold CreateQueue, retrievePassiveQueue. rewrite decide_False by done. by rewrite Hp.
Qed.

(** Declaring a queue again is idempotent: after a declaration that
    succeeds the queue is there under its name, and the same connection
    repeating it gets the same queue and changes nothing.  The arguments must
    be such that [encoding/json] can print them. *)
Theorem declare_again (candidates candidates' : list string) (name connID : string)
    (p : QueueProperties) (vh vh1 : VHost) (q : Queue) :
  name ≠ "" → qp_Passive p = false → equalArgs (qp_Arguments p) (qp_Arguments p) = true →
  CreateQueue candidates name (Some p) connID vh = (vh1, Ok q) →
  vh_Queues vh1 !! name = Some q ∧
  CreateQueue candidates' name (Some p) connID vh1 = (vh1, Ok q).
Proof.
  intros Hn Hp Hargs. rewrite !CreateQueue_active by done.
  destruct (vh_Queues vh !! name) as [existing|] eqn:Hq.
  - intros [= <- Hr]. rewrite Hq, Hr. by apply redeclare_ok in Hr as [-> _].
  - unfold create_queue. cbn [default from_option id]. intros [= <- <-].
    match goal with |- context [persist_if ?c ?l ?v] =>
      destruct (persist_if_same c l v) as [(-> & _ & _) _] end.
    cbn [vh_Queues set_Queues]. rewrite lookup_insert_eq. split; [done|].
    unfold redeclare. rewrite declared_queue_own. cbn [q_Props declared_queue set_declared].
    rewrite decide_False; [done|]. rewrite Hargs. by intros [?|[?|[?|?]]].
Qed.

(** What a declaration makes.  Declaring a queue by name, not passively,
    either refuses and changes nothing, or returns the queue that was there and
    changes nothing, or adds one queue: it is running, empty and well formed,
    has no consumers, belongs to the connection exactly when it is exclusive,
    its priority levels are at most the vhost's, and its metadata are saved when
    it is durable. *)
Theorem declare_makes (candidates : list string) (name connID : string) (p : QueueProperties) (vh : VHost) :
  name ≠ "" → qp_Passive p = false → 0 <= vh_maxPriority vh < 256 →
  let '(vh', result) := CreateQueue candidates name (Some p) connID vh in
  match result with
  | Err _ => vh' = vh ∧ is_Some (vh_Queues vh !! name)
  | Ok q =>
      (vh_Queues vh !! name = Some q ∧ vh' = vh) ∨
      (vh_Queues vh !! name = None ∧ vh_Queues vh' = <[name := q]> (vh_Queues vh) ∧
       vh_Exchanges vh' = vh_Exchanges vh ∧ vh_index vh' = vh_index vh ∧
       vh_persist vh' = (if qp_Durable p then [SaveQueueMetadata name p] else []) ++ vh_persist vh ∧
       q_Name q = name ∧ q_Props q = p ∧ q_stopped q = false ∧ q_consumers q = 0 ∧
       contents q = [] ∧ wf_queue q ∧ q_maxPriority q <= vh_maxPriority vh ∧
       q_OwnerConn q = (if qp_Exclusive p then connID else ""))
  end.
Proof.
  intros Hn Hp Hmax. rewrite CreateQueue_active by done.
  destruct (vh_Queues vh !! name) as [existing|] eqn:Hq.
  - destruct (redeclare existing (Some p) connID) as [q|] eqn:Hr; [|by split; [|eexists]].
    left. split; [|done]. by apply redeclare_ok in Hr as [-> _].
  - unfold create_queue. cbn [default from_option id]. right.
    match goal with |- context [persist_if ?c ?l ?v] =>
      destruct (persist_if_same c l v) as [(-> & -> & _) ->] end.
    assert (Hprio : 0 <= declared_max_priority (qp_Arguments p) vh <= vh_maxPriority vh).
    { unfold declared_max_priority, parseMaxPriorityArgument. clear -Hmax.
      repeat (case_match || case_decide); simplify_eq; try lia;
        split; try lia; by apply Z.mod_pos_bound. }
    set (q := declared_queue name p connID vh).
    assert (Hc : contents q = []).
    { unfold contents, q. cbn. case_decide; [|done].
      generalize (Z.to_nat (declared_max_priority (qp_Arguments p) vh)).
      induction n as [|n IH]; cbn; unfold level; rewrite lookup_empty; [done|]. apply IH. }
    split_and!; try done; [by destruct (qp_Durable p)| |by apply Hprio].
    unfold wf_queue. rewrite Hc. change (q_maxPriority q) with (declared_max_priority (qp_Arguments p) vh).
    split; [lia|]. split; [by split; [|constructor]|]. split; [cbn; lia|]. apply map_Forall_empty.
Qed.

End declare.

(** ** Witnesses *)

Section witnesses.
#[local] Existing Instance sample_runtime.

Lemma unbind_undoes_bind_witness :
  ∃ vh1, BindQueue "logs" "orders" "app.eu.*" None "conn-1" sample_vhost = (vh1, Ok tt) ∧
    vh_Exchanges (UnbindQueue "logs" "orders" "app.eu.*" None "conn-1" vh1).1 = vh_Exchanges sample_vhost.
Proof.
  destruct (BindQueue "logs" "orders" "app.eu.*" None "conn-1" sample_vhost) as [vh1 r] eqn:Hb.
  assert (r = Ok tt) as -> by (apply (f_equal snd) in Hb; vm_compute in Hb; by subst).
  exists vh1. split; [done|].
  assert (Hfresh : ¬ already_bound sample_logs (filed_key sample_logs "app.eu.*") "orders" None).
  { assert (default [] (ex_Bindings sample_logs !! filed_key sample_logs "app.eu.*") = []) as Hbs
      by by vm_compute.
    unfold already_bound. rewrite Hbs. intros (b & Hin & _). by apply elem_of_nil in Hin. }
  assert (Hauto : ep_AutoDelete (ex_Props sample_logs) = true → ex_Bindings sample_logs ≠ ∅).
  { intros _ Hempty. apply (f_equal (λ m, bool_decide (m !! "app.#" = None))) in Hempty.
    by vm_compute in Hempty. }
  pose proof (unbind_undoes_bind "logs" "orders" "app.eu.*" "conn-1" None sample_logs sample_vhost vh1
    sample_vhost_wf ltac:(done) sample_logs_lookup Hfresh eq_refl Hauto Hb) as Hu.
  destruct (UnbindQueue _ _ _ _ _ _) as [vh2 r]. apply Hu.
Defined.


(** The binding keeps the routing key of the call while its equal is looked for
    under the empty key: repeating a bind to a fanout exchange with a routing
    key is not idempotent, and the queue gets every message twice. *)
Lemma fanout_bind_repeated :
  let bind := fun vh => (BindQueue "amq.fanout" "orders" "k" None "conn-1" vh).1 in
  (λ e, length (default [] (ex_Bindings e !! ""))) <$> vh_Exchanges (bind (bind sample_vhost)) !! "amq.fanout"
  = Some 2%nat.
Proof. by vm_compute. Qed.

(** A passive declaration, which only asks whether the queue exists, is refused
    when the flags it leaves at their defaults differ from the queue's. *)
Lemma passive_declare_refused :
  (CreateQueue [] "orders" (Some (MkQueueProps true false false false None)) "conn-1" sample_vhost).2
  = Err (ChannelError PRECONDITION_FAILED QUEUE QUEUE_DECLARE).
Proof. by vm_compute. Qed.

Definition private_props : QueueProperties :=
  MkQueueProps false false false true (Some [("x-max-priority", VI32 20)]).
Definition private_queue : Queue := declared_queue "private" private_props "conn-1" sample_vhost.
Definition private_vhost : VHost := (CreateQueue [] "private" (Some private_props) "conn-1" sample_vhost).1.

Lemma declare_makes_witness :
  ∃ q, vh_Queues private_vhost !! "private" = Some q ∧ q_maxPriority q <= 10 ∧ q_OwnerConn q = "conn-1".
Proof.
  pose proof (declare_makes [] "private" "conn-1" private_props sample_vhost ltac:(done) eq_refl
    ltac:(by vm_compute)) as Hd.
  unfold private_vhost. destruct (CreateQueue _ _ _ _ _) as [vh' [q|]].
  - assert (Hnone : vh_Queues sample_vhost !! "private" = None) by by vm_compute.
    destruct Hd as [[Hq _]|(_ & Hq & _ & _ & _ & _ & _ & _ & _ & _ & _ & Hmax & Hown)].
    + rewrite Hnone in Hq. discriminate Hq.
    + exists q. cbn [fst]. rewrite Hq. split; [by apply lookup_insert_eq|]. split; [exact Hmax|exact Hown].
  - destruct Hd as [_ [x Hx]]. assert (Hnone : vh_Queues sample_vhost !! "private" = None) by by vm_compute.
    rewrite Hnone in Hx. discriminate Hx.
Defined.

End witnesses.
