(* ===== verification/Expiry.v ===== *)
(** * Message expiry: ttl.go and [NewMessage] of message.go

    A publisher gives the time to live in milliseconds; [NewMessage] turns it
    into the absolute time of expiry, and [CheckExpiration] compares that, or
    the queue's [x-message-ttl], with the clock.  Times are nanoseconds since
    the Unix epoch; the clock is an argument. *)

From stdpp Require Import base list gmap strings pretty.
From Stdlib Require Import ZArith Lia.
From Stdlib Require Import Strings.Byte.
From S2P Require Import Prelude Bytes Values Reader FieldTable Properties Methods ClientMethods Frames Handshake.
From S2P Require Import Args Queue.

Local Open Scope Z_scope.
Local Open Scope string_scope.
Local Open Scope list_scope.

(** ** Definitions *)

(** [int64] arithmetic wraps around. *)
Definition int64 (z : Z) : Z := (z + 2 ^ 63) mod 2 ^ 64 - 2 ^ 63.

(** [strconv.ParseInt(s, 10, 64)] accepts what [Atoi] accepts. *)
Definition ParseInt (s : string) : option Z := Atoi (bytes_of s).

Definition Millisecond : Z := 1000000.
Definition UnixMilli (t : Z) : Z := t / Millisecond.

(** [NewMessage]: [now] is the clock at its two readings. *)
Definition NewMessage (Body : list byte) (props : BasicProperties) (Exchange RoutingKey id : string)
    (now now' : Z) : Message :=
  let props :=
    if decide (Expiration props = "") then props else
    match ParseInt (Expiration props) with
    | Some ttlMs =>
        if decide (0 < ttlMs)
        then set_Expiration (pretty (UnixMilli (now + int64 (ttlMs * Millisecond)))) props
        else props
    | None => props
    end in
  MkMessage id now' Body props Exchange RoutingKey.

(** [time.Since]: a [Duration] saturates. *)
Definition Since (now t : Z) : Z := Z.max (- 2 ^ 63) (Z.min (2 ^ 63 - 1) (now - t)).

Inductive ttl_result : Type :=
| Expired (b : bool)
| ErrNoTTLConfigured.

Section expiration.
Variable float_out_of_range : Z.

Definition CheckExpiration (msg : Message) (queueArguments : option table) (now : Z) : ttl_result :=
  let by_queue :=
    match parseTTLArgument float_out_of_range queueArguments with
    | (ttlMs, true) =>
        let age := Z.quot (Since now (m_EnqueuedAt msg)) Millisecond in
        Expired (bool_decide (ttlMs <= age))
    | (_, false) => ErrNoTTLConfigured
    end in
  if decide (Expiration (m_Properties msg) = "") then by_queue else
  match ParseInt (Expiration (m_Properties msg)) with
  | Some expirationMs =>
      if decide (0 < expirationMs)
      then Expired (bool_decide (expirationMs <= UnixMilli now))
      else by_queue
  | None => by_queue
  end.
End expiration.

(** ** Printing and reading numbers *)

Lemma digits_value_pretty n : ∀ s,
  digits_value 0 (bytes_of (pretty_N_go n s)) = digits_value (Z.of_N n) (bytes_of s).
Proof.
  induction (N.lt_wf_0 n) as [n _ IH]. intros s.
  destruct (decide (n = 0)%N) as [->|Hn]; [by rewrite pretty_N_go_0|].
  rewrite pretty_N_go_step by lia. rewrite IH by (apply N.div_lt; lia).
  set (c := pretty_N_char (n mod 10)).
  assert (Hc : digit (Ascii.byte_of_ascii c) = Some (Z.of_N (n mod 10))).
  { assert (n mod 10 < 10)%N as Hlt by (by apply N.mod_lt). subst c.
    revert Hlt. generalize (n mod 10)%N. clear. intros d Hd.
    assert (d = 0 ∨ d = 1 ∨ d = 2 ∨ d = 3 ∨ d = 4 ∨ d = 5 ∨ d = 6 ∨ d = 7 ∨ d = 8 ∨ d = 9)%N as H by lia.
    repeat destruct H as [->|H]; [by vm_compute..|]. subst d. by vm_compute. }
  change (bytes_of (String c s)) with (Ascii.byte_of_ascii c :: bytes_of s).
  cbn [digits_value]. rewrite Hc. f_equal.
  rewrite (N.div_mod n 10) at 3 by done. lia.
Qed.

Lemma Atoi_digits ds z :
  ds ≠ [] → digits_value 0 ds = Some z → 0 <= z < 2 ^ 63 → Atoi ds = Some z.
Proof.
  intros Hne Hd Hz. destruct ds as [|b ds]; [done|].
  assert (Hsign : b ≠ x2d ∧ b ≠ x2b).
  { split; intros ->; cbn in Hd; discriminate Hd. }
  unfold Atoi.
  replace (match b with
    | x2d => (true, ds) | x2b => (false, ds) | _ => (false, b :: ds) end) with (false, b :: ds).
  - rewrite Hd. rewrite decide_True by lia. done.
  - destruct Hsign as [H1 H2]. destruct b; try reflexivity; congruence.
Qed.

Lemma ParseInt_pretty z : 0 < z < 2 ^ 63 → ParseInt (pretty z) = Some z.
Proof.
  intros Hz. destruct z as [|p|p]; [lia| |lia]. unfold ParseInt.
  assert (Hp : pretty (Z.pos p) = pretty_N_go (N.pos p) "") by done.
  rewrite Hp. apply Atoi_digits; [|by rewrite digits_value_pretty|lia].
  intros He. assert (Hd := digits_value_pretty (N.pos p) ""). rewrite He in Hd. cbn in Hd. congruence.
Qed.

Lemma pretty_nonempty (z : Z) : 0 < z < 2 ^ 63 → pretty z ≠ "".
Proof. intros Hz He. apply ParseInt_pretty in Hz. by rewrite He in Hz. Qed.

(** ** Expiry on time *)

(** The longest time to live whose nanoseconds fit an [int64]. *)
Definition max_ttl : Z := (2 ^ 63 - 1) / Millisecond.

Lemma int64_small z : - 2 ^ 63 <= z < 2 ^ 63 → int64 z = z.
Proof. intros Hz. unfold int64. rewrite Z.mod_small by lia. lia. Qed.

Lemma Expiration_set v p : Expiration (set_Expiration v p) = v.
Proof. by destruct p. Qed.

(** C39. A message published with a time to live expires on time: if the
    [expiration] property reads as a positive number of milliseconds up to
    [max_ttl] (over 292 years), a check at a later clock finds the message
    expired exactly when that many milliseconds have passed since it was
    published, whatever the time to live of the queue. *)
Theorem message_expires_on_time (oor : Z) (Body : list byte) (props : BasicProperties)
    (Exchange RoutingKey id : string) (ttl published enqueued now : Z) (queueArguments : option table) :
  ParseInt (Expiration props) = Some ttl → 0 < ttl <= max_ttl →
  0 <= published → published + ttl * Millisecond < 2 ^ 63 →
  let msg := NewMessage Body props Exchange RoutingKey id published enqueued in
  CheckExpiration oor msg queueArguments now =
    Expired (bool_decide (UnixMilli published + ttl <= UnixMilli now)).
Proof.
  intros Hparse Httl Hpub Hfit. cbn zeta. unfold NewMessage.
  assert (Hne : Expiration props ≠ "") by (by intros He; rewrite He in Hparse).
  rewrite decide_False by done. rewrite Hparse, decide_True by lia.
  assert (Hns : 0 <= ttl * Millisecond < 2 ^ 63).
  { unfold max_ttl, Millisecond in *. split; [lia|].
    pose proof (Z.mul_div_le (2 ^ 63 - 1) 1000000 ltac:(lia)). lia. }
  rewrite int64_small by lia.
  assert (Hat : UnixMilli (published + ttl * Millisecond) = UnixMilli published + ttl).
  { unfold UnixMilli, Millisecond. by rewrite Z.div_add by lia. }
  rewrite Hat. set (at_ms := UnixMilli published + ttl).
  assert (Hpos : 0 < at_ms < 2 ^ 63).
  { assert (0 <= UnixMilli published) by (apply Z.div_pos; unfold Millisecond; lia).
    split; [lia|]. unfold at_ms. rewrite <-Hat. unfold UnixMilli, Millisecond in *.
    apply Z.div_lt_upper_bound; lia. }
  unfold CheckExpiration. cbn [m_Properties].
  rewrite Expiration_set.
  rewrite decide_False by by apply pretty_nonempty.
  by rewrite ParseInt_pretty, decide_True by lia.
Qed.

Lemma message_expires_on_time_witness :
  let msg := NewMessage [] (set_Expiration "1500" empty_props) "" "orders" "m-1"
               1700000000000000000 1700000000000000000 in
  CheckExpiration 0 msg None 1700000001499999999 = Expired false ∧
  CheckExpiration 0 msg None 1700000001500000000 = Expired true.
Proof.
  cbn zeta. split.
  - rewrite (message_expires_on_time 0 [] (set_Expiration "1500" empty_props) "" "orders" "m-1" 1500
      1700000000000000000 1700000000000000000 1700000001499999999 None); by vm_compute.
  - rewrite (message_expires_on_time 0 [] (set_Expiration "1500" empty_props) "" "orders" "m-1" 1500
      1700000000000000000 1700000000000000000 1700000001500000000 None); by vm_compute.
Defined.

(** Above [max_ttl] the product with a millisecond wraps around: a time to live
    of 584 years expires within a millisecond. *)
Lemma huge_ttl_expires_at_once :
  let msg := NewMessage [] (set_Expiration "18446744073710" empty_props) "" "orders" "m-1"
               1700000000000000000 1700000000000000000 in
  CheckExpiration 0 msg None 1700000000001000000 = Expired true.
Proof. by vm_compute. Qed.
