(* ===== verification/Publish.v ===== *)
(** * Publishing: message.go, dead-letter.go, qll.go and the expiry of ttl.go

    A push can evict messages to keep a queue within [x-max-length]; an evicted
    message is dead-lettered, that is published again, which pushes again.  The
    recursion is on fuel; [push_terminates] gives the fuel that is enough.

    A message's headers are a Go map that its copies in other queues share and
    [addXDeathHeader] updates in place; here each copy has its own.  No property
    of this file reads the headers of another copy. *)

From stdpp Require Import base list gmap strings.
From Stdlib Require Import ZArith Lia.
From S2P Require Import Prelude Bytes Values Properties Methods Topic Args Queue Deliveries Consumers.
From S2P Require Import Json VHost Lifecycle Routing Expiry.

Local Open Scope Z_scope.
Local Open Scope string_scope.
Local Open Scope list_scope.

(** ** Dead letters *)

Definition REASON_REJECTED : string := "rejected".
Definition REASON_EXPIRED : string := "expired".
Definition REASON_MAX_LENGTH : string := "maxlen".

(** [args[key].(string)], with the check that it is not empty. *)
Definition string_arg (key : string) (args : option table) : option string :=
  match args_get key args with
  | Some (VStr s) => if decide (s = "") then None else Some s
  | _ => None
  end.

Definition dead_letter_exchange (queue : Queue) : option string :=
  string_arg "x-dead-letter-exchange" (qp_Arguments (q_Props queue)).
Definition dead_letter_routing_key (queue : Queue) : option string :=
  string_arg "x-dead-letter-routing-key" (qp_Arguments (q_Props queue)).

Definition carbon_copies (key : string) (headers : option table) : list string :=
  match args_get key headers with Some (VStrs l) => l | _ => [] end.

Definition appendCCBCCToRoutingKey (headers : option table) (routingKey : list string) : list string :=
  routingKey ++ carbon_copies "CC" headers ++ carbon_copies "BCC" headers.

(** [now] in nanoseconds. *)
Definition time_value (now : Z) : value := VTime (now / 10 ^ 9) (now mod 10 ^ 9).

Definition addXDeathHeader (headers : option table) (expiration exchange queue : string)
    (routingKeys : list string) (reason : string) (now : Z) : table :=
  let headers := default [] headers in
  let death := [("reason", VStr reason); ("queue", VStr queue); ("time", time_value now);
                ("exchange", VStr exchange); ("routing-keys", VStrs routingKeys)] in
  let death := if decide (expiration = "") then death
               else tbl_set "original-expiration" (VStr expiration) death in
  let headers :=
    match tbl_get "x-death" headers with
    | Some (VTables xDeathEvents) =>
        let death := tbl_set "count" (VU64 (Z.of_nat (length xDeathEvents) + 1)) death in
        tbl_set "x-death" (VTables (death :: xDeathEvents)) headers
    | _ => tbl_set "x-death" (VTables [tbl_set "count" (VU64 1) death]) headers
    end in
  let headers :=
    match tbl_get "x-first-death-queue" headers with
    | Some _ => headers
    | None =>
        tbl_set "x-first-death-exchange" (VStr exchange)
          (tbl_set "x-first-death-reason" (VStr reason)
            (tbl_set "x-first-death-queue" (VStr queue) headers))
    end in
  tbl_set "x-last-death-exchange" (VStr exchange)
    (tbl_set "x-last-death-reason" (VStr reason)
      (tbl_set "x-last-death-queue" (VStr queue) headers)).

(** The message [DeadLetter] publishes, and the routing key it uses. *)
Definition dead_letter (msg : Message) (queue : Queue) (dlx reason : string) (now : Z)
    : Message * string :=
  let props := m_Properties msg in
  let headers := Headers props in
  let routingKey := appendCCBCCToRoutingKey headers [m_RoutingKey msg] in
  let props := set_Headers (Some (addXDeathHeader headers (Expiration props) (m_Exchange msg)
    (q_Name queue) routingKey reason now)) (set_Expiration "" props) in
  let dlk := default (m_RoutingKey msg) (dead_letter_routing_key queue) in
  (MkMessage (m_ID msg) (m_EnqueuedAt msg) (m_Body msg) props dlx dlk, dlk).

(** ** Publishing *)

(** How a call fails to return: fuel spent, a panic, a lock its own goroutine
    holds. *)
Inductive stop : Type :=
| FuelSpent
| GoPanic (p : go_panic)
| Deadlock.

(** The messages [EnforceMaxLength] takes out of the FIFO channel. *)
Fixpoint evict (excess : nat) (q : Queue) : list Message * Queue :=
  match excess with
  | O => ([], q)
  | S excess =>
      match popUnlocked q with
      | (None, q) => ([], q)
      | (Some oldest, q) => let '(ms, q) := evict excess q in (oldest :: ms, q)
      end
  end.

(** How many: [count] and the limit are compared as [uint32]. *)
Definition excess (queue : Queue) : nat :=
  let currentCount := q_count queue mod 2 ^ 32 in
  if decide (q_maxLength queue = 0) then 0%nat
  else if decide (currentCount < q_maxLength queue) then 0%nat
  else Z.to_nat (currentCount - q_maxLength queue + 1).

Definition put_queue (queue : Queue) (vh : VHost) : VHost :=
  set_Queues (<[q_Name queue := queue]> (vh_Queues vh)) vh.

Definition deleteMessage (msg : Message) (queue : Queue) (vh : VHost) : VHost :=
  persist_if (is_persistent msg) (DeleteMessage (q_Name queue) (m_ID msg)) vh.

Section publish.
(** The clock while the operation runs. *)
Variable now : Z.

Section with_push.
Variable push_to : string → Message → VHost → res stop VHost.

Fixpoint push_targets (targets : list string) (msg : Message) (vh : VHost) : res stop VHost :=
  match targets with
  | [] => Ok vh
  | q :: targets => vh ← push_to q msg vh; push_targets targets msg vh
  end.

Definition Publish_with (exchangeName routingKey : string) (msg : Message) (vh : VHost)
    : res stop (handled string) :=
  match routeLocked exchangeName routingKey msg vh with
  | (vh, Err e) => Ok (vh, Err e)
  | (vh, Ok targets) => vh ← push_targets targets msg vh; Ok (vh, Ok (m_ID msg))
  end.

(** Whether the message was dead-lettered. *)
Definition handleDeadLetter_with (queue : Queue) (msg : Message) (reason : string) (vh : VHost)
    : res stop (VHost * bool) :=
  if negb (vh_EnableDLX vh) then Ok (vh, false) else
  match dead_letter_exchange queue with
  | None => Ok (vh, false)
  | Some dlx =>
      let '(msg, dlk) := dead_letter msg queue dlx reason now in
      published ← Publish_with dlx dlk msg vh;
      Ok (published.1, is_ok published.2)
  end.

Fixpoint process_evicted (queue : Queue) (evicted : list Message) (vh : VHost) : res stop VHost :=
  match evicted with
  | [] => Ok vh
  | msg :: evicted =>
      handled ← handleDeadLetter_with queue msg REASON_MAX_LENGTH vh;
      process_evicted queue evicted (deleteMessage msg queue handled.1)
  end.

Definition EnforceMaxLength_with (queue : Queue) (vh : VHost) : res stop VHost :=
  if negb (vh_EnableQLL vh) then Ok vh else
  let '(evicted, queue) := evict (excess queue) queue in
  process_evicted queue evicted (put_queue queue vh).
End with_push.

(** [Queue.Push]; a queue no longer in the map is stopped and discards it. *)
Fixpoint Push (fuel : nat) (queueName : string) (msg : Message) (vh : VHost) : res stop VHost :=
  match fuel with
  | O => Err FuelSpent
  | S fuel =>
      match vh_Queues vh !! queueName with
      | None => Ok vh
      | Some queue =>
          vh ← (if decide (0 < q_maxLength queue) then EnforceMaxLength_with (Push fuel) queue vh
                else Ok vh);
          match vh_Queues vh !! queueName with
          | None => Ok vh
          | Some queue =>
              queue ← map_err GoPanic (push_unlimited msg queue);
              Ok (put_queue queue vh)
          end
      end
  end.

Definition Publish (fuel : nat) : string → string → Message → VHost → res stop (handled string) :=
  Publish_with (Push fuel).
Definition handleDeadLetter (fuel : nat)
  : Queue → Message → string → VHost → res stop (VHost * bool) :=
  handleDeadLetter_with (Push fuel).
End publish.

(** ** What a push leaves alone *)

Lemma push_unlimited_total q msg :
  0 <= q_maxPriority q < 255 → ∃ q', push_unlimited msg q = Ok q' ∧ same_settings q q'.
Proof.
  intros Hm. destruct (bufferPerPriority_ok q Hm) as (capacity & Hc & _).
  unfold push_unlimited, pushPriority, push. rewrite Hc. cbn.
  repeat (case_match || case_decide); eexists; (split; [done|done]).
Qed.

Lemma evict_settings n : ∀ q, same_settings q (evict n q).2.
Proof.
  induction n as [|n IH]; intros q; [done|]. cbn. unfold popUnlocked.
  destruct (q_messages q) as [|m ms]; [done|]. specialize (IH (set_fifo ms (q_count q - 1) q)).
  destruct (evict n _) as [l q']. exact IH.
Qed.

(** The exchanges, the settings of every queue and the extensions. *)
Record same_shape (vh vh' : VHost) : Prop := {
  ss_exchanges : vh_Exchanges vh' = vh_Exchanges vh;
  ss_dlx : vh_EnableDLX vh' = vh_EnableDLX vh;
  ss_qll : vh_EnableQLL vh' = vh_EnableQLL vh;
  ss_queues n : match vh_Queues vh !! n, vh_Queues vh' !! n with
                | Some q, Some q' => same_settings q q'
                | None, None => True
                | _, _ => False
                end;
}.

Lemma same_settings_trans q1 q2 q3 : same_settings q1 q2 → same_settings q2 q3 → same_settings q1 q3.
Proof. unfold same_settings. intuition congruence. Qed.

Lemma same_settings_refl q : same_settings q q.
Proof. done. Qed.
#[local] Hint Resolve same_settings_refl : core.

Lemma same_shape_refl vh : same_shape vh vh.
Proof. split; try done. intros n. case_match; auto. Qed.

Lemma same_shape_trans vh1 vh2 vh3 : same_shape vh1 vh2 → same_shape vh2 vh3 → same_shape vh1 vh3.
Proof.
  intros H1 H2. split; [etrans; [apply H2|apply H1]..|]. intros n.
  pose proof (ss_queues _ _ H1 n). pose proof (ss_queues _ _ H2 n).
  destruct (vh_Queues vh1 !! n), (vh_Queues vh2 !! n), (vh_Queues vh3 !! n); try done.
  by eapply same_settings_trans.
Qed.

Lemma put_queue_shape vh q q' :
  vh_Queues vh !! q_Name q = Some q → same_settings q q' → same_shape vh (put_queue q' vh).
Proof.
  intros Hq Hs. assert (q_Name q' = q_Name q) as Hn by apply Hs. split; try done. intros n. cbn. rewrite Hn.
  destruct (decide (q_Name q = n)) as [<-|].
  - by rewrite Hq, lookup_insert_eq.
  - rewrite lookup_insert_ne by done. case_match; auto.
Qed.

Lemma persist_if_shape b call vh : same_shape vh (persist_if b call vh) ∧ vh_Queues (persist_if b call vh) = vh_Queues vh.
Proof. split; [|by destruct b]. destruct b; (split; try done); intros n; cbn; case_match; auto. Qed.

(** A queue that an eviction from [q] can push to. *)
Definition evicts_to (vh : VHost) (q q' : string) : Prop :=
  vh_EnableDLX vh = true ∧ vh_EnableQLL vh = true ∧
  ∃ queue dlx key b, vh_Queues vh !! q = Some queue ∧ 0 < q_maxLength queue ∧
    dead_letter_exchange queue = Some dlx ∧ bound vh (resolveExchangeAlias dlx) key b ∧ b_Queue b = q'.

(** The dead-letter exchanges form no cycle of limited queues: a rank falls
    along every eviction. *)
Definition ranked (rank : string → nat) (vh : VHost) : Prop :=
  ∀ q q', evicts_to vh q q' → (rank q' < rank q)%nat.

Lemma ranked_shape rank vh vh' : same_shape vh vh' → ranked rank vh → ranked rank vh'.
Proof.
  intros Hs Hr q q' (Hd & Hl & queue & dlx & key & b & Hq & Hm & Hdlx & Hb & Hbq).
  apply Hr. rewrite (ss_dlx _ _ Hs) in Hd. rewrite (ss_qll _ _ Hs) in Hl.
  pose proof (ss_queues _ _ Hs q) as Hqq. rewrite Hq in Hqq.
  destruct (vh_Queues vh !! q) as [queue0|] eqn:Hq0; [|done].
  destruct Hqq as (_ & Hp & _ & _ & _ & _ & _ & Hml).
  split; [done|]. split; [done|]. exists queue0, dlx, key, b.
  unfold dead_letter_exchange in *. rewrite Hp in Hdlx. rewrite Hml in Hm.
  unfold bound in *. rewrite (ss_exchanges _ _ Hs) in Hb. done.
Qed.

(** Queues are filed under their names, and no level count overflows. *)
Definition pushable (vh : VHost) : Prop :=
  ∀ n q, vh_Queues vh !! n = Some q → q_Name q = n ∧ 0 <= q_maxPriority q < 255.

Lemma pushable_shape vh vh' : same_shape vh vh' → pushable vh → pushable vh'.
Proof.
  intros Hs Hp n q' Hq'. pose proof (ss_queues _ _ Hs n) as Hn. rewrite Hq' in Hn.
  destruct (vh_Queues vh !! n) as [q|] eqn:Hq; [|done]. destruct (Hp _ _ Hq) as [Hname Hm].
  destruct Hn as (-> & _ & _ & -> & _). done.
Qed.

(** The queues at or above a rank, except [q], are as they were. *)
Definition untouched_above (rank : string → nat) (r : nat) (vh vh' : VHost) : Prop :=
  ∀ n, (r <= rank n)%nat → vh_Queues vh' !! n = vh_Queues vh !! n.

Lemma route_targets_bound e n vh rk targets :
  vh_Exchanges vh !! n = Some e → route_targets e rk = Ok targets →
  ∀ q, q ∈ targets → ∃ key b, bound vh n key b ∧ b_Queue b = q.
Proof.
  intros He Ht q Hq. unfold route_targets in Ht.
  assert (Hkey : ∀ key bs, ex_Bindings e !! key = Some bs → q ∈ b_Queue <$> bs →
    ∃ key b, bound vh n key b ∧ b_Queue b = q).
  { intros key bs Hbs (b & -> & Hb)%list_elem_of_fmap. exists key, b. split; [|done]. by exists e, bs. }
  repeat case_decide; try done.
  - destruct (ex_Bindings e !! rk) eqn:E; [|done]. injection Ht as <-. by eapply Hkey.
  - destruct (ex_Bindings e !! "") eqn:E; [|done]. injection Ht as <-. by eapply Hkey.
  - injection Ht as <-. apply elem_of_elements, elem_of_matched_queues in Hq
      as (key & l & b & Hl & _ & Hb & <-). exists key, b. split; [|done]. by exists e, l.
Qed.

Lemma routeLocked_shape ex rk msg vh :
  let '(vh', r) := routeLocked ex rk msg vh in
  same_shape vh vh' ∧ vh_Queues vh' = vh_Queues vh ∧
  match r with
  | Ok targets => ∀ q, q ∈ targets → ∃ key b, bound vh (resolveExchangeAlias ex) key b ∧ b_Queue b = q
  | Err _ => True
  end.
Proof.
  unfold routeLocked. destruct (vh_Exchanges vh !! _) as [e|] eqn:He; [|split; [apply same_shape_refl|done]].
  destruct (ep_Internal (ex_Props e)); [split; [apply same_shape_refl|done]|].
  destruct (route_targets e rk) as [targets|] eqn:Ht; [|split; [apply same_shape_refl|done]].
  rewrite foldl_save.
  assert (Hfold : ∀ calls vh, same_shape vh (foldl (λ vh call, persist call vh) vh calls) ∧
    vh_Queues (foldl (λ vh call, persist call vh) vh calls) = vh_Queues vh).
  { clear. induction calls as [|c calls IH]; intros vh; [split; [apply same_shape_refl|done]|].
    cbn [foldl]. destruct (IH (persist c vh)) as [Hs Hq]. split; [|done].
    eapply same_shape_trans; [|exact Hs]. apply (persist_if_shape true c vh). }
  destruct (Hfold (saves vh msg targets) vh) as [Hs Hq]. split; [done|]. split; [done|].
  by eapply route_targets_bound.
Qed.

(** ** Every push returns *)

(** The queue after [EnforceMaxLength], before the message goes in. *)
Definition made_room (vh : VHost) (queue : Queue) : Queue :=
  if decide (0 < q_maxLength queue ∧ vh_EnableQLL vh = true)
  then (evict (excess queue) queue).2 else queue.

Section termination.
Variable now : Z.
Variable rank : string → nat.

(** [push_to] works for the queues below rank [r], and leaves alone every queue
    but its own at or above that queue's rank. *)
Definition push_good (r : nat) (push_to : string → Message → VHost → res stop VHost) : Prop :=
  ∀ q msg vh, ranked rank vh → pushable vh → (rank q < r)%nat →
  ∃ vh', push_to q msg vh = Ok vh' ∧ same_shape vh vh' ∧
    ∀ n, (rank q ≤ rank n)%nat → n ≠ q → vh_Queues vh' !! n = vh_Queues vh !! n.

Section below.
Variables (r : nat) (push_to : string → Message → VHost → res stop VHost).
Hypothesis Hgood : push_good r push_to.

Lemma push_targets_good targets msg : ∀ vh,
  ranked rank vh → pushable vh → (∀ q, q ∈ targets → (rank q < r)%nat) →
  ∃ vh', push_targets push_to targets msg vh = Ok vh' ∧ same_shape vh vh' ∧
    untouched_above rank r vh vh'.
Proof.
  induction targets as [|q targets IH]; intros vh Hr Hp Ht; cbn [push_targets].
  { exists vh. split; [done|]. split; [apply same_shape_refl|by intros n _]. }
  destruct (Hgood q msg vh Hr Hp) as (vh1 & -> & Hs1 & Hf1); [apply Ht; by left|]. cbn.
  destruct (IH vh1) as (vh2 & -> & Hs2 & Hf2).
  - by eapply ranked_shape.
  - by eapply pushable_shape.
  - intros q' Hq'. apply Ht. by right.
  - exists vh2. split; [done|]. split; [by eapply same_shape_trans|]. intros n Hn.
    assert (rank q < r)%nat by (apply Ht; by left).
    rewrite Hf2 by done. apply Hf1; [lia|]. intros ->. lia.
Qed.

(** The queues that dead letters of [queue] can reach. *)
Definition dead_letters_below (queue : Queue) (vh : VHost) : Prop :=
  vh_EnableDLX vh = true → ∀ dlx key b, dead_letter_exchange queue = Some dlx →
    bound vh (resolveExchangeAlias dlx) key b → (rank (b_Queue b) < r)%nat.

Lemma dead_letters_below_shape queue vh vh' :
  same_shape vh vh' → dead_letters_below queue vh → dead_letters_below queue vh'.
Proof.
  intros Hs Hb Hd dlx key b Hdlx Hbd. rewrite (ss_dlx _ _ Hs) in Hd.
  unfold bound in Hbd. rewrite (ss_exchanges _ _ Hs) in Hbd. by eapply Hb.
Qed.

Lemma handleDeadLetter_good queue msg reason vh :
  ranked rank vh → pushable vh → dead_letters_below queue vh →
  ∃ vh' done, handleDeadLetter_with now push_to queue msg reason vh = Ok (vh', done) ∧
    same_shape vh vh' ∧ untouched_above rank r vh vh'.
Proof.
  intros Hr Hp Hb. unfold handleDeadLetter_with.
  destruct (vh_EnableDLX vh) eqn:Hdlx; cbn [negb];
    [|exists vh, false; split; [done|]; split; [apply same_shape_refl|by intros n _]].
  destruct (dead_letter_exchange queue) as [dlx|] eqn:Hx;
    [|exists vh, false; split; [done|]; split; [apply same_shape_refl|by intros n _]].
  destruct (dead_letter msg queue dlx reason now) as [msg' dlk]. unfold Publish_with.
  pose proof (routeLocked_shape dlx dlk msg' vh) as Hroute.
  destruct (routeLocked dlx dlk msg' vh) as [vh1 [targets|e]]; destruct Hroute as (Hs1 & Hq1 & Ht).
  - destruct (push_targets_good targets msg' vh1) as (vh2 & -> & Hs2 & Hf2).
    + by eapply ranked_shape.
    + by eapply pushable_shape.
    + intros q (key & b & Hbd & <-)%Ht. by eapply Hb.
    + cbn. exists vh2, true. split; [done|]. split; [by eapply same_shape_trans|].
      intros n Hn. rewrite Hf2 by done. by rewrite Hq1.
  - cbn. exists vh1, false. split; [done|]. split; [done|]. intros n _. by rewrite Hq1.
Qed.

Lemma process_evicted_good queue evicted : ∀ vh,
  ranked rank vh → pushable vh → dead_letters_below queue vh →
  ∃ vh', process_evicted now push_to queue evicted vh = Ok vh' ∧
    same_shape vh vh' ∧ untouched_above rank r vh vh'.
Proof.
  induction evicted as [|msg evicted IH]; intros vh Hr Hp Hb; cbn [process_evicted].
  { exists vh. split; [done|]. split; [apply same_shape_refl|by intros n _]. }
  destruct (handleDeadLetter_good queue msg REASON_MAX_LENGTH vh Hr Hp Hb)
    as (vh1 & done & -> & Hs1 & Hf1). cbn.
  unfold deleteMessage. match goal with |- context [persist_if ?c ?l ?v] =>
    destruct (persist_if_shape c l v) as [Hs2 Hq2] end.
  assert (Hs12 := same_shape_trans _ _ _ Hs1 Hs2).
  destruct (IH _ (ranked_shape _ _ _ Hs12 Hr) (pushable_shape _ _ Hs12 Hp)
    (dead_letters_below_shape _ _ _ Hs12 Hb)) as (vh3 & -> & Hs3 & Hf3).
  exists vh3. split; [done|]. split; [by eapply same_shape_trans|].
  intros n Hn. rewrite Hf3, Hq2 by done. by apply Hf1.
Qed.

Lemma EnforceMaxLength_good queue vh :
  ranked rank vh → pushable vh → vh_Queues vh !! q_Name queue = Some queue →
  0 < q_maxLength queue → r = rank (q_Name queue) →
  ∃ vh', EnforceMaxLength_with now push_to queue vh = Ok vh' ∧ same_shape vh vh' ∧
    vh_Queues vh' !! q_Name queue = Some (made_room vh queue) ∧
    ∀ n, (r ≤ rank n)%nat → n ≠ q_Name queue → vh_Queues vh' !! n = vh_Queues vh !! n.
Proof.
  intros Hr Hp Hq Hm Hrank. unfold EnforceMaxLength_with, made_room.
  destruct (vh_EnableQLL vh) eqn:Hqll; cbn [negb].
  - rewrite decide_True by done. pose proof (evict_settings (excess queue) queue) as Hset.
    destruct (evict (excess queue) queue) as [evicted queue']. cbn [snd] in *.
    assert (Hs1 := put_queue_shape vh queue queue' Hq Hset).
    assert (Hname : q_Name queue' = q_Name queue) by apply Hset.
    assert (Hb : dead_letters_below queue' (put_queue queue' vh)).
    { eapply dead_letters_below_shape; [done|]. intros Hd dlx key b Hdlx Hbd. rewrite Hrank.
      apply Hr. split; [done|]. split; [done|]. exists queue, dlx, key, b.
      unfold dead_letter_exchange in *. rewrite (proj1 (proj2 Hset)) in Hdlx. done. }
    destruct (process_evicted_good queue' evicted _ (ranked_shape _ _ _ Hs1 Hr)
      (pushable_shape _ _ Hs1 Hp) Hb) as (vh2 & -> & Hs2 & Hf2).
    exists vh2. split; [done|]. split; [by eapply same_shape_trans|]. split.
    + rewrite Hf2 by lia. unfold put_queue. cbn. by rewrite Hname, lookup_insert_eq.
    + intros n Hn Hne. rewrite Hf2 by done. unfold put_queue. cbn.
      by rewrite Hname, lookup_insert_ne.
  - rewrite decide_False by naive_solver. exists vh. split; [done|]. split; [apply same_shape_refl|].
    by split.
Qed.
End below.

(** Fuel above the rank of the queue is enough; the queue itself gets the
    message after room is made, and no other queue of its rank is touched. *)
Lemma Push_spec fuel : ∀ q msg vh, ranked rank vh → pushable vh → (rank q < fuel)%nat →
  ∃ vh', Push now fuel q msg vh = Ok vh' ∧ same_shape vh vh' ∧
    (∀ n, (rank q ≤ rank n)%nat → n ≠ q → vh_Queues vh' !! n = vh_Queues vh !! n) ∧
    match vh_Queues vh !! q with
    | None => True
    | Some queue => ∃ queue', push_unlimited msg (made_room vh queue) = Ok queue' ∧
        vh_Queues vh' !! q = Some queue'
    end.
Proof.
  induction fuel as [|fuel IH]; intros q msg vh Hr Hp Hfuel; [lia|]. cbn [Push].
  destruct (vh_Queues vh !! q) as [queue|] eqn:Hq;
    [|exists vh; split; [done|]; split; [apply same_shape_refl|done]].
  destruct (Hp _ _ Hq) as [Hname Hmax].
  assert (Henf : ∃ vh1, (if decide (0 < q_maxLength queue)
      then EnforceMaxLength_with now (Push now fuel) queue vh else Ok vh) = Ok vh1 ∧
    same_shape vh vh1 ∧ vh_Queues vh1 !! q = Some (made_room vh queue) ∧
    ∀ n, (rank q ≤ rank n)%nat → n ≠ q → vh_Queues vh1 !! n = vh_Queues vh !! n).
  { case_decide as Hm.
    - destruct (EnforceMaxLength_good (rank q) (Push now fuel)) with (queue := queue) (vh := vh)
        as (vh1 & -> & Hs & Hroom & Hf); try done; rewrite ?Hname in *; try done.
      + intros q' msg' vh' Hr' Hp' Hlt. destruct (IH q' msg' vh' Hr' Hp') as (vh'' & He & Hs & Hf & _); [lia|].
        by exists vh''.
      + by exists vh1.
    - exists vh. unfold made_room. rewrite decide_False by tauto.
      split; [done|]. split; [apply same_shape_refl|]. by split. }
  destruct Henf as (vh1 & -> & Hs1 & Hroom & Hf1). cbn. rewrite Hroom.
  assert (Hp1 := pushable_shape _ _ Hs1 Hp). destruct (Hp1 _ _ Hroom) as [Hname1 Hmax1].
  destruct (push_unlimited_total (made_room vh queue) msg Hmax1) as (queue' & Hpush & Hset).
  rewrite Hpush. cbn. eexists. split; [done|].
  assert (Hname' : q_Name queue' = q) by (rewrite (proj1 Hset); done).
  split; [|split].
  - eapply same_shape_trans; [done|]. eapply put_queue_shape; [|done]. by rewrite Hname1.
  - intros n Hn Hne. cbn. rewrite Hname', lookup_insert_ne by done. by apply Hf1.
  - exists queue'. split; [done|]. cbn. by rewrite Hname', lookup_insert_eq.
Qed.
End termination.

(** C17. Publishing always returns.  If no dead-letter exchange leads from a
    limited queue back to itself through limited queues (the queues can be
    ranked so that every eviction goes down), then with fuel above every rank a
    publish, with all the evictions and dead letters it causes, gives a state
    and a result, the one routing gave; exchanges, bindings and the settings of
    every queue are as before. *)
Theorem publish_returns (now : Z) (rank : string → nat) (fuel : nat)
    (exchange routingKey : string) (msg : Message) (vh : VHost) :
  ranked rank vh → pushable vh → (∀ q, (rank q < fuel)%nat) →
  ∃ vh' result, Publish now fuel exchange routingKey msg vh = Ok (vh', result) ∧
    same_shape vh vh' ∧
    match (routeLocked exchange routingKey msg vh).2 with
    | Ok _ => result = Ok (m_ID msg)
    | Err e => result = Err e
    end.
Proof.
  intros Hr Hp Hfuel. unfold Publish, Publish_with.
  pose proof (routeLocked_shape exchange routingKey msg vh) as Hroute.
  destruct (routeLocked exchange routingKey msg vh) as [vh1 [targets|e]]; destruct Hroute as (Hs1 & Hq1 & _);
    [|by exists vh1, (Err e)].
  assert (Hgood : push_good rank fuel (Push now fuel)).
  { intros q m vh0 Hr0 Hp0 Hq0. destruct (Push_spec now rank fuel q m vh0 Hr0 Hp0 Hq0)
      as (vh2 & He & Hs & Hf & _). by exists vh2. }
  destruct (push_targets_good rank fuel (Push now fuel) Hgood targets msg vh1) as (vh2 & -> & Hs2 & _).
  - by eapply ranked_shape.
  - by eapply pushable_shape.
  - intros q _. apply Hfuel.
  - exists vh2, (Ok (m_ID msg)). split; [done|]. split; [by eapply same_shape_trans|done].
Qed.

(** ** The length limit *)

Lemma evict_fifo n : ∀ q,
  evict n q = (take n (q_messages q),
    set_fifo (drop n (q_messages q)) (q_count q - Z.of_nat (length (take n (q_messages q)))) q).
Proof.
  induction n as [|n IH]; intros q; cbn [evict].
  - destruct q. cbn. by rewrite Z.sub_0_r.
  - unfold popUnlocked. destruct (q_messages q) as [|m ms] eqn:E.
    + rewrite take_nil, drop_nil. destruct q. cbn in *. subst. by rewrite Z.sub_0_r.
    + rewrite IH. destruct q. cbn in *. f_equal. unfold set_fifo. cbn. f_equal. lia.
Qed.

Lemma made_room_fifo vh queue :
  wf_queue queue → q_maxPriority queue = 0 → Z.of_nat (length (contents queue)) < 2 ^ 32 →
  0 < q_maxLength queue → vh_EnableQLL vh = true →
  q_messages (made_room vh queue) =
    drop (length (contents queue) + 1 - Z.to_nat (q_maxLength queue)) (contents queue).
Proof.
  intros (_ & (Hc & _) & _) Hm Hlen Hl Hq. unfold made_room. rewrite decide_True by done.
  rewrite evict_fifo. cbn [snd q_messages set_fifo].
  assert (Hcont : contents queue = q_messages queue) by (unfold contents; by rewrite decide_False by lia).
  rewrite Hcont in *. f_equal. unfold excess. rewrite Hc.
  rewrite Z.mod_small by lia. rewrite decide_False by lia. case_decide; lia.
Qed.


(** ** Delivery to the targets *)

Lemma Push_unlimited now fuel name queue msg vh :
  vh_Queues vh !! name = Some queue → q_Name queue = name → q_maxLength queue = 0 →
  0 <= q_maxPriority queue < 255 →
  ∃ queue', push_unlimited msg queue = Ok queue' ∧ q_Name queue' = name ∧
    Push now (S fuel) name msg vh = Ok (set_Queues (<[name := queue']> (vh_Queues vh)) vh).
Proof.
  intros Hq Hname Hl Hm. destruct (push_unlimited_total queue msg Hm) as (queue' & Hp & Hs).
  assert (Hn : q_Name queue' = name) by (by rewrite (proj1 Hs)).
  exists queue'. split; [done|]. split; [done|]. cbn [Push]. rewrite Hq.
  rewrite decide_False by lia. cbn. rewrite Hq, Hp. cbn. unfold put_queue. by rewrite Hn.
Qed.

Lemma push_targets_unlimited now fuel msg targets : ∀ vh,
  NoDup targets →
  (∀ q, q ∈ targets → ∃ queue, vh_Queues vh !! q = Some queue ∧ q_Name queue = q ∧
     q_maxLength queue = 0 ∧ 0 <= q_maxPriority queue < 255) →
  ∃ vh', push_targets (Push now (S fuel)) targets msg vh = Ok vh' ∧
    ∀ n, match vh_Queues vh !! n with
         | Some queue => if decide (n ∈ targets)
                         then ∃ queue', push_unlimited msg queue = Ok queue' ∧ vh_Queues vh' !! n = Some queue'
                         else vh_Queues vh' !! n = Some queue
         | None => vh_Queues vh' !! n = None
         end.
Proof.
  induction targets as [|q targets IH]; intros vh Hnd Ht; cbn [push_targets].
  { exists vh. split; [done|]. intros n. destruct (vh_Queues vh !! n) eqn:E; [|done].
    by rewrite decide_False by apply not_elem_of_nil. }
  apply NoDup_cons in Hnd as [Hq Hnd]. destruct (Ht q ltac:(by left)) as (queue & Hlook & Hn & Hl & Hm).
  destruct (Push_unlimited now fuel q queue msg vh Hlook Hn Hl Hm) as (queue' & Hp & Hn' & ->).
  cbn [mbind res_mbind res_bind].
  set (vh1 := set_Queues _ vh).
  assert (Hne : ∀ n, n ≠ q → vh_Queues vh1 !! n = vh_Queues vh !! n) by (intros; cbn; by rewrite lookup_insert_ne).
  destruct (IH vh1 Hnd) as (vh' & -> & Hspec).
  { intros q' Hq'. rewrite Hne by (by intros ->). apply Ht. by right. }
  exists vh'. split; [done|]. intros n. specialize (Hspec n). destruct (decide (n = q)) as [->|Hnq].
  - rewrite Hlook. rewrite decide_True by (by left). unfold vh1 in Hspec. cbn in Hspec.
    rewrite lookup_insert_eq in Hspec. rewrite decide_False in Hspec by done. by exists queue'.
  - rewrite Hne in Hspec by done. destruct (vh_Queues vh !! n); [|done].
    destruct (decide (n ∈ targets)) as [Hin|Hin].
    + rewrite decide_True by (by right). done.
    + rewrite decide_False by (rewrite elem_of_cons; tauto). done.
Qed.


(** ** The x-death header *)

(** The deaths recorded so far; a header of another type is not one. *)
Definition deaths (headers : option table) : list table :=
  match args_get "x-death" headers with Some (VTables l) => l | _ => [] end.

Definition death_keys : list string :=
  ["x-death"; "x-first-death-queue"; "x-first-death-reason"; "x-first-death-exchange";
   "x-last-death-queue"; "x-last-death-reason"; "x-last-death-exchange"].

Lemma tbl_get_set_decide k k' v t :
  tbl_get k (tbl_set k' v t) = if decide (k = k') then Some v else tbl_get k t.
Proof. case_decide; [subst; apply tbl_get_set_eq|by apply tbl_get_set_ne]. Qed.

Ltac tbl_lookup :=
  repeat (rewrite tbl_get_set_decide;
          first [rewrite decide_True by reflexivity
                |rewrite decide_False by (assumption || discriminate)]).
Lemma death_recorded_table (t : table) (expiration exchange queue reason : string)
    (routingKeys : list string) (now : Z) :
  let h := addXDeathHeader (Some t) expiration exchange queue routingKeys reason now in
  (∃ death, deaths (Some h) = death :: deaths (Some t) ∧
     tbl_get "queue" death = Some (VStr queue) ∧ tbl_get "reason" death = Some (VStr reason) ∧
     tbl_get "exchange" death = Some (VStr exchange) ∧
     tbl_get "routing-keys" death = Some (VStrs routingKeys) ∧
     tbl_get "count" death = Some (VU64 (Z.of_nat (length (deaths (Some t))) + 1)) ∧
     tbl_get "original-expiration" death = (if decide (expiration = "") then None else Some (VStr expiration))) ∧
  (tbl_get "x-first-death-queue" h, tbl_get "x-first-death-reason" h, tbl_get "x-first-death-exchange" h) =
    (match tbl_get "x-first-death-queue" t with
     | Some q => (Some q, tbl_get "x-first-death-reason" t, tbl_get "x-first-death-exchange" t)
     | None => (Some (VStr queue), Some (VStr reason), Some (VStr exchange))
     end) ∧
  (tbl_get "x-last-death-queue" h, tbl_get "x-last-death-reason" h, tbl_get "x-last-death-exchange" h) =
    (Some (VStr queue), Some (VStr reason), Some (VStr exchange)) ∧
  (∀ k, k ∉ death_keys → tbl_get k h = tbl_get k t).
Proof.
  unfold deaths, addXDeathHeader. cbn [args_get default from_option id]. cbn zeta.
  set (death0 := if decide (expiration = "") then _ else _).
  set (prev := match tbl_get "x-death" t with Some (VTables l) => l | _ => [] end).
  set (death := tbl_set "count" (VU64 (Z.of_nat (length prev) + 1)) death0).
  assert (Hstep : match tbl_get "x-death" t with
    | Some (VTables xs) =>
        tbl_set "x-death" (VTables (tbl_set "count" (VU64 (Z.of_nat (length xs) + 1)) death0 :: xs)) t
    | _ => tbl_set "x-death" (VTables [tbl_set "count" (VU64 1) death0]) t
    end = tbl_set "x-death" (VTables (death :: prev)) t).
  { unfold death, prev. by destruct (tbl_get "x-death" t) as [[]|]. }
  rewrite Hstep. clear Hstep. rewrite (tbl_get_set_ne "x-first-death-queue") by done.
  split; [|split; [|split]].
  - exists death. split.
    { destruct (tbl_get "x-first-death-queue" t); by tbl_lookup. }
    unfold death, death0. case_decide; done.
  - destruct (tbl_get "x-first-death-queue" t) eqn:E; tbl_lookup; by rewrite ?E.
  - by tbl_lookup.
  - intros k Hk. unfold death_keys in Hk. rewrite !not_elem_of_cons in Hk.
    destruct Hk as (? & ? & ? & ? & ? & ? & ? & _).
    destruct (tbl_get "x-first-death-queue" t); by tbl_lookup.
Qed.

(** Dead-lettering keeps the history of a message.  The new death, with the
    queue, the reason, the exchange and its number, goes in front of the ones
    recorded before; the first death is written once and then kept; the last
    death is this one; and no other header changes. *)
Theorem death_recorded (headers : option table) (expiration exchange queue reason : string)
    (routingKeys : list string) (now : Z) :
  let h := addXDeathHeader headers expiration exchange queue routingKeys reason now in
  (∃ death, deaths (Some h) = death :: deaths headers ∧
     tbl_get "queue" death = Some (VStr queue) ∧ tbl_get "reason" death = Some (VStr reason) ∧
     tbl_get "exchange" death = Some (VStr exchange) ∧
     tbl_get "routing-keys" death = Some (VStrs routingKeys) ∧
     tbl_get "count" death = Some (VU64 (Z.of_nat (length (deaths headers)) + 1)) ∧
     tbl_get "original-expiration" death = (if decide (expiration = "") then None else Some (VStr expiration))) ∧
  (tbl_get "x-first-death-queue" h, tbl_get "x-first-death-reason" h, tbl_get "x-first-death-exchange" h) =
    (match args_get "x-first-death-queue" headers with
     | Some q => (Some q, args_get "x-first-death-reason" headers, args_get "x-first-death-exchange" headers)
     | None => (Some (VStr queue), Some (VStr reason), Some (VStr exchange))
     end) ∧
  (tbl_get "x-last-death-queue" h, tbl_get "x-last-death-reason" h, tbl_get "x-last-death-exchange" h) =
    (Some (VStr queue), Some (VStr reason), Some (VStr exchange)) ∧
  (∀ k, k ∉ death_keys → tbl_get k h = args_get k headers).
Proof.
  destruct headers as [t|]; [apply death_recorded_table|].
  exact (death_recorded_table [] expiration exchange queue reason routingKeys now).
Qed.

(** ** Checking a rank *)

(** Goes through every limited queue with a dead-letter exchange and every
    binding of that exchange. *)
Definition ranked_check (rank : string → nat) (vh : VHost) : bool :=
  forallb (λ kv : string * Queue,
    let '(q, queue) := kv in
    match dead_letter_exchange queue with
    | None => true
    | Some dlx =>
        bool_decide (q_maxLength queue <= 0) ||
        match vh_Exchanges vh !! resolveExchangeAlias dlx with
        | None => true
        | Some e => forallb (λ kbs : string * list Binding,
            forallb (λ b, bool_decide (rank (b_Queue b) < rank q)%nat) kbs.2)
              (map_to_list (ex_Bindings e))
        end
    end) (map_to_list (vh_Queues vh)).

Lemma forallb_elem {A} (f : A → bool) l x : forallb f l = true → x ∈ l → f x = true.
Proof. rewrite forallb_forall. intros H Hx. by apply H, list_elem_of_In. Qed.

Lemma ranked_check_sound rank vh : ranked_check rank vh = true → ranked rank vh.
Proof.
  intros Hc q q' (_ & _ & queue & dlx & key & b & Hq & Hm & Hdlx & (e & bs & He & Hbs & Hb) & <-).
  pose proof (forallb_elem _ _ (q, queue) Hc) as H1. cbn beta iota in H1.
  rewrite Hdlx, He, bool_decide_false in H1 by lia.
  specialize (H1 ltac:(by apply elem_of_map_to_list)). cbn [orb] in H1.
  pose proof (forallb_elem _ _ (key, bs) H1 ltac:(by apply elem_of_map_to_list)) as H2.
  cbn in H2. pose proof (forallb_elem _ _ b H2 Hb) as H3. by apply bool_decide_eq_true in H3.
Qed.

Definition pushable_check (vh : VHost) : bool :=
  forallb (λ kv : string * Queue, bool_decide (q_Name kv.2 = kv.1 ∧ 0 <= q_maxPriority kv.2 < 255))
    (map_to_list (vh_Queues vh)).

Lemma pushable_check_sound vh : pushable_check vh = true → pushable vh.
Proof.
  intros Hc n q Hq. pose proof (forallb_elem _ _ (n, q) Hc ltac:(by apply elem_of_map_to_list)) as H.
  by apply bool_decide_eq_true in H.
Qed.

(** ** A sample with a dead-letter queue *)

Section sample.
#[local] Existing Instance sample_runtime.

Definition jobs_props : QueueProperties := MkQueueProps false false false false (Some
  [("x-max-length", VI32 2); ("x-dead-letter-exchange", VStr "amq.direct");
   ("x-dead-letter-routing-key", VStr "dead")]).
Definition dead_props : QueueProperties := MkQueueProps false false false false None.

(** [jobs] holds two messages and dead-letters into [dead]. *)
Definition jobs_vhost : VHost :=
  let vh := new_vhost 100 10 true true true in
  let vh := (CreateQueue [] "jobs" (Some jobs_props) "conn-1" vh).1 in
  let vh := (CreateQueue [] "dead" (Some dead_props) "conn-1" vh).1 in
  let vh := (BindQueue "" "jobs" "jobs" None INTERNAL_CONN_ID vh).1 in
  (BindQueue "amq.direct" "dead" "dead" None "conn-1" vh).1.

Definition jobs_rank (q : string) : nat := if decide (q = "jobs") then 1%nat else 0%nat.

Definition job (id : string) : Message := MkMessage id 0 [] empty_props "" "jobs".

Definition publish_all (ids : list string) (vh : VHost) : VHost :=
  foldl (λ vh id, match Publish 0 5 "" "jobs" (job id) vh with
                  | Ok (vh, _) => vh | Err _ => vh end) vh ids.

(** The identifiers queued. *)
Definition queued (name : string) (vh : VHost) : list string :=
  m_ID <$> default [] (contents <$> vh_Queues vh !! name).

Definition full_vhost : VHost := publish_all ["1"; "2"] jobs_vhost.

Example third_job_evicts_the_first :
  (queued "jobs" full_vhost, queued "jobs" (publish_all ["3"] full_vhost),
   queued "dead" (publish_all ["3"] full_vhost)) = (["1"; "2"], ["2"; "3"], ["1"]).
Proof. by vm_compute. Qed.

Lemma full_ranked : ranked jobs_rank full_vhost.
Proof. apply ranked_check_sound. by vm_compute. Qed.

Lemma full_pushable : pushable full_vhost.
Proof. apply pushable_check_sound. by vm_compute. Qed.

Lemma publish_returns_witness :
  ∃ vh', Publish 0 2 "" "jobs" (job "3") full_vhost = Ok (vh', Ok "3").
Proof.
  destruct (publish_returns 0 jobs_rank 2 "" "jobs" (job "3") full_vhost full_ranked full_pushable)
    as (vh' & r & Hp & _ & Hr).
  - intros q. unfold jobs_rank. case_decide; lia.
  - exists vh'. rewrite Hp. f_equal. f_equal.
    assert (Hroute : is_ok (routeLocked "" "jobs" (job "3") full_vhost).2 = true) by by vm_compute.
    destruct (routeLocked "" "jobs" (job "3") full_vhost).2; [exact Hr|discriminate Hroute].
Defined.

Definition full_jobs : Queue := default (NewQueue "" 0) (vh_Queues full_vhost !! "jobs").

Lemma full_jobs_ready :
  vh_Queues full_vhost !! "jobs" = Some full_jobs ∧ wf_queue full_jobs ∧ q_stopped full_jobs = false ∧
  q_maxPriority full_jobs = 0 ∧ Z.of_nat (length (contents full_jobs)) < 2 ^ 32 ∧
  0 < q_maxLength full_jobs <= q_bufferSize full_jobs.
Proof.
  split; [by vm_compute|]. split; [unfold wf_queue; apply (bool_decide_unpack _); by vm_compute|].
  by vm_compute.
Qed.



(** ** Where the limit is not kept *)

(** Messages are evicted from the FIFO channel only: a priority queue with room
    for one message takes three. *)
Definition priority_vhost : VHost :=
  let vh := new_vhost 100 10 true true true in
  let vh := (CreateQueue [] "jobs" (Some (MkQueueProps false false false false (Some
    [("x-max-length", VI32 1); ("x-max-priority", VI32 5)]))) "conn-1" vh).1 in
  (BindQueue "" "jobs" "jobs" None INTERNAL_CONN_ID vh).1.

Lemma priority_queue_not_limited :
  queued "jobs" (publish_all ["1"; "2"; "3"] priority_vhost) = ["1"; "2"; "3"].
Proof. by vm_compute. Qed.

(** A queue that dead-letters into itself grows past its limit: the evicted
    message is back before the new one goes in. *)
Definition cycle_vhost : VHost :=
  let vh := new_vhost 100 10 true true true in
  let vh := (CreateQueue [] "jobs" (Some (MkQueueProps false false false false (Some
    [("x-max-length", VI32 1); ("x-dead-letter-exchange", VStr "amq.default")]))) "conn-1" vh).1 in
  (BindQueue "" "jobs" "jobs" None INTERNAL_CONN_ID vh).1.

Lemma dead_letter_cycle_not_limited :
  queued "jobs" (publish_all ["1"; "2"] cycle_vhost) = ["1"; "2"].
Proof. by vm_compute. Qed.
End sample.
