(* ===== verification/Settle.v ===== *)
(** * Settling and redelivering: vhost/ack.go, recover.go, delivery.go, message.go

    What the virtual host does with the deliveries of a channel: handing a
    message to a consumer, basic.get, acknowledging, rejecting and recovering.
    The records a client settles are those [Deliveries] pops; here they meet the
    queues: requeued, dead-lettered or deleted from persistence.

    The frames written go to the sender of [Delivering]; the ones it accepted
    are kept in the order they were written. *)

From stdpp Require Import base list gmap strings.
From Stdlib Require Import ZArith Lia.
From S2P Require Import Prelude Bytes Values FieldTable Properties Methods Frames Topic Args Queue.
From S2P Require Import Deliveries Consumers Json VHost Lifecycle Routing Expiry Publish.

Local Open Scope Z_scope.
Local Open Scope string_scope.
Local Open Scope list_scope.

(** What a virtual host needs of its broker ([FrameSender]): whether a write to a
    connection succeeds, given those that did before it, and whether the
    connection's client asked to be told of cancelled consumers. *)
Definition sent_frames : Type := string * list Byte.byte.
Class FrameSender : Type := {
  SendFrame : list sent_frames → string → list Byte.byte → bool;
  ConsumerCancelNotify : string → bool;
}.

(** ** Channels of a virtual host *)

Definition put_channel (key : ConnectionChannelKey) (ch : ChannelDeliveryState) (vh : VHost) : VHost :=
  set_ChannelDeliveries (<[key := ch]> (vh_ChannelDeliveries vh)) vh.

Definition GetOrCreateChannelDelivery (key : ConnectionChannelKey) (vh : VHost)
    : ChannelDeliveryState * VHost :=
  match vh_ChannelDeliveries vh !! key with
  | Some ch => (ch, vh)
  | None => (new_channel_state, put_channel key new_channel_state vh)
  end.

Definition HandleBasicQos (key : ConnectionChannelKey) (prefetchCount : Z) (global : bool) (vh : VHost)
    : VHost :=
  let '(state, vh) := GetOrCreateChannelDelivery key vh in
  put_channel key (qos_state prefetchCount global state) vh.

Definition HandleChannelFlow (key : ConnectionChannelKey) (flowActive byBroker : bool) (vh : VHost)
    : VHost :=
  let '(state, vh) := GetOrCreateChannelDelivery key vh in
  put_channel key (flow_state flowActive byBroker state) vh.

(** [FlowActive] and [FlowInitiatedByBroker]. *)
Definition GetChannelFlowState (key : ConnectionChannelKey) (vh : VHost) : bool * bool :=
  match vh_ChannelDeliveries vh !! key with
  | None => (true, false)
  | Some state => (FlowActive state, FlowInitiatedByBroker state)
  end.

(** [ChannelDeliveryStats]: [UnackedCount], [PrefetchCount], [FlowActive]. *)
Definition GetChannelDeliveryStats (key : ConnectionChannelKey) (vh : VHost) : option (nat * Z * bool) :=
  match vh_ChannelDeliveries vh !! key with
  | None => None
  | Some state => Some (size (UnackedByTag state), NextPrefetchCount state, FlowActive state)
  end.

(** ** Redelivery marks *)

Definition markAsRedelivered (msgID : string) (vh : VHost) : VHost :=
  set_redelivered ({[msgID]} ∪ vh_redeliveredMessages vh) vh.
Definition clearRedeliveredMark (msgID : string) (vh : VHost) : VHost :=
  set_redelivered (vh_redeliveredMessages vh ∖ {[msgID]}) vh.
Definition ShouldRedeliver (msgID : string) (vh : VHost) : bool :=
  bool_decide (msgID ∈ vh_redeliveredMessages vh).

(** ** Acknowledging *)

Section settle.
Context `{Runtime}.

(** [popUnackedRecords] on the channel of [key]. *)
Definition pop_unacked (key : ConnectionChannelKey) (deliveryTag : Z) (multiple : bool) (methodID : Z)
    (vh : VHost) : handled (list DeliveryRecord) :=
  match popUnackedRecords range_records deliveryTag multiple methodID
          (vh_ChannelDeliveries vh !! key) with
  | Err _ => (vh, Err (ChannelError PRECONDITION_FAILED BASIC methodID))
  | Ok (removed, None) => (vh, Ok removed)
  | Ok (removed, Some ch) => (put_channel key ch vh, Ok removed)
  end.

(** The persisted copy of a settled message; none when its queue is gone. *)
Definition forget_persisted (record : DeliveryRecord) (vh : VHost) : VHost :=
  persist_if (dr_Persistent record) (DeleteMessage (dr_QueueName record) (m_ID (dr_Message record))) vh.

Definition ack_record (vh : VHost) (record : DeliveryRecord) : VHost :=
  if dr_QueueDeleted record then vh else forget_persisted record vh.

Definition HandleBasicAck (key : ConnectionChannelKey) (deliveryTag : Z) (multiple : bool) (vh : VHost)
    : handled unit :=
  match pop_unacked key deliveryTag multiple BASIC_ACK vh with
  | (vh, Err e) => (vh, Err e)
  | (vh, Ok toDelete) => (foldl ack_record vh toDelete, Ok tt)
  end.

Section clocked.
Variables (now : Z) (fuel : nat).

(** Whether the message had expired; it is then dead-lettered and deleted. *)
Definition handleTTLExpiration_with (push_to : string → Message → VHost → res stop VHost)
    (msg : Message) (queue : Queue) (vh : VHost) : res stop (VHost * bool) :=
  if negb (vh_EnableTTL vh) then Ok (vh, false) else
  match CheckExpiration out_of_range_int msg (qp_Arguments (q_Props queue)) now with
  | Expired true =>
      dead ← handleDeadLetter_with now push_to queue msg REASON_EXPIRED vh;
      Ok (deleteMessage msg queue dead.1, true)
  | _ => Ok (vh, false)
  end.
Definition handleTTLExpiration : Message → Queue → VHost → res stop (VHost * bool) :=
  handleTTLExpiration_with (Push now fuel).

(** One record of a nack or reject with requeue. *)
Definition nack_requeue (record : DeliveryRecord) (vh : VHost) : res stop VHost :=
  if dr_QueueDeleted record then Ok vh else
  match vh_Queues vh !! dr_QueueName record with
  | None => Ok vh
  | Some queue =>
      expiry ← handleTTLExpiration (dr_Message record) queue vh;
      let '(vh, expired) := expiry in
      if expired : bool then Ok vh else
      Push now fuel (dr_QueueName record) (dr_Message record)
        (markAsRedelivered (m_ID (dr_Message record)) vh)
  end.

(** One without requeue: dead-lettered, or else discarded. *)
Definition nack_discard (record : DeliveryRecord) (vh : VHost) : res stop VHost :=
  if dr_QueueDeleted record then Ok vh else
  match vh_Queues vh !! dr_QueueName record with
  | None => Ok vh
  | Some queue =>
      dead ← handleDeadLetter now fuel queue (dr_Message record) REASON_REJECTED vh;
      let '(vh, ok) := dead in
      if ok : bool then Ok vh else Ok (forget_persisted record vh)
  end.

Definition handleBasicNack (key : ConnectionChannelKey) (deliveryTag : Z) (multiple requeue : bool)
    (methodID : Z) (vh : VHost) : res stop (handled unit) :=
  match pop_unacked key deliveryTag multiple methodID vh with
  | (vh, Err e) => Ok (vh, Err e)
  | (vh, Ok recordsToNack) =>
      vh ← for_each (if requeue then nack_requeue else nack_discard) recordsToNack vh;
      Ok (vh, Ok tt)
  end.

Definition HandleBasicReject (key : ConnectionChannelKey) (deliveryTag : Z) (requeue : bool) (vh : VHost) :=
  handleBasicNack key deliveryTag false requeue BASIC_REJECT vh.
Definition HandleBasicNack (key : ConnectionChannelKey) (deliveryTag : Z) (multiple requeue : bool) (vh : VHost) :=
  handleBasicNack key deliveryTag multiple requeue BASIC_NACK vh.

(** ** basic.get *)

Definition GetMessage (queueName : string) (vh : VHost) : res stop (VHost * option Message) :=
  match vh_Queues vh !! queueName with
  | None => Ok (vh, None)
  | Some queue =>
      let '(msg, queue) := Pop queue in
      let vh := put_queue queue vh in
      match msg with
      | None => Ok (vh, None)
      | Some msg =>
          expiry ← handleTTLExpiration msg queue vh;
          let '(vh, expired) := expiry in
          Ok (vh, if expired : bool then None else Some msg)
      end
  end.

Definition GetMessageCount (queueName : string) (vh : VHost) : option Z :=
  Len <$> (vh_Queues vh !! queueName).

(** [requeueMessage] pushes the message whatever its expiry was found to be. *)
Definition requeueMessage (record : DeliveryRecord) (vh : VHost) : res stop VHost :=
  match vh_Queues vh !! dr_QueueName record with
  | None => Ok vh
  | Some queue =>
      expiry ← handleTTLExpiration (dr_Message record) queue vh;
      Push now fuel (dr_QueueName record) (dr_Message record)
        (markAsRedelivered (m_ID (dr_Message record)) expiry.1)
  end.
End clocked.
End settle.

(** ** Delivering *)

Inductive deliver_err : Type :=
| NotActive
| EncodingFailed (e : enc_err)
| SendFailed.

Section deliver.
Context `{FrameSender}.

(** The method, header and body frames of a delivery, written as one. *)
Definition delivery_frames (consumer : Consumer) (msg : Message) (tag : Z) (redelivered : bool)
    : res enc_err (list Byte.byte) :=
  method ← createBasicDeliverFrame (c_Channel consumer) (c_Tag consumer) (m_Exchange msg)
    (m_RoutingKey msg) tag redelivered;
  header ← createHeaderFrame (c_Channel consumer) BASIC (m_Body msg) (m_Properties msg);
  Ok (method ++ header ++ createBodyFrame (c_Channel consumer) (c_FrameMax consumer) (m_Body msg)).

(** A delivery that was not written is untracked again; its tag stays used. *)
Definition untrack_failed (noAck : bool) (key : ConnectionChannelKey) (tag : Z)
    (ch : ChannelDeliveryState) (vh : VHost) : VHost :=
  match UnackedByTag ch !! tag with
  | Some record => if noAck then vh else put_channel key (deleteUnackedDelivery record ch) vh
  | None => vh
  end.

(** After the write: a message nobody will acknowledge is forgotten, and the
    redelivery mark is used up. *)
Definition after_send (consumer : Consumer) (msg : Message) (redelivered : bool) (vh : VHost) : VHost :=
  let vh := persist_if (c_NoAck consumer && is_persistent msg)
    (DeleteMessage (c_QueueName consumer) (m_ID msg)) vh in
  if redelivered then clearRedeliveredMark (m_ID msg) vh else vh.

(** The state the delivery leaves, with the frames written so far. *)
Definition deliverToConsumer (consumer : Consumer) (msg : Message) (redelivered : bool)
    (vh : VHost) (out : list sent_frames) : VHost * list sent_frames * res deliver_err unit :=
  let redelivered := redelivered || ShouldRedeliver (m_ID msg) vh in
  if negb (c_Active consumer) then (vh, out, Err NotActive) else
  let key := channel_key consumer in
  let '(ch, vh) := GetOrCreateChannelDelivery key vh in
  let '(tag, ch) := track_consumer_delivery (c_NoAck consumer) (c_Tag consumer) (c_QueueName consumer)
    msg ch in
  let vh := put_channel key ch vh in
  match delivery_frames consumer msg tag redelivered with
  | Err e => (untrack_failed (c_NoAck consumer) key tag ch vh, out, Err (EncodingFailed e))
  | Ok frames =>
      if SendFrame out (c_ConnectionID consumer) frames
      then (after_send consumer msg redelivered vh,
            out ++ [(c_ConnectionID consumer, frames)], Ok tt)
      else (untrack_failed (c_NoAck consumer) key tag ch vh, out, Err SendFailed)
  end.
End deliver.

(** ** basic.recover *)

Section recover.
Context `{Runtime, FrameSender}.
Variables (now : Z) (fuel : nat).

(** The consumer a record goes back to: the one registered on the channel with
    its tag, unless the record came from basic.get or its consumer was cancelled. *)
Definition recover_target (key : ConnectionChannelKey) (record : DeliveryRecord) (vh : VHost)
    : option Consumer :=
  if dr_FromGet record || dr_ConsumerCancelled record then None else
  head (filter (λ c, c_Tag c = dr_ConsumerTag record)
    (omap (λ addr, ix_heap (vh_index vh) !! addr) (by_channel (vh_index vh) key))).

Definition recover_record (key : ConnectionChannelKey) (requeue : bool) (record : DeliveryRecord)
    (state : VHost * list sent_frames) : res stop (VHost * list sent_frames) :=
  let '(vh, out) := state in
  expiry ← match vh_Queues vh !! dr_QueueName record with
           | None => Ok (vh, false)
           | Some q => handleTTLExpiration now fuel (dr_Message record) q vh
           end;
  let '(vh, expired) := expiry in
  if expired : bool then Ok (vh, out) else
  let requeued := fun vh out => vh ← requeueMessage now fuel record vh; Ok (vh, out) in
  if requeue : bool then requeued vh out else
  match recover_target key record vh with
  | None => requeued vh out
  | Some consumer =>
      match deliverToConsumer consumer (dr_Message record) true vh out with
      | (vh, out, Ok _) => Ok (vh, out)
      | (vh, out, Err _) => requeued vh out
      end
  end.

Definition HandleBasicRecover (key : ConnectionChannelKey) (requeue : bool) (vh : VHost)
    (out : list sent_frames) : res stop (handled unit * list sent_frames) :=
  match vh_ChannelDeliveries vh !! key with
  | None => Ok ((vh, Err (PlainError "no channel delivery state for channel")), out)
  | Some ch =>
      let unackedMessages := fetchUnackedMessages range_records ch in
      let vh := put_channel key (clear_unacked ch) vh in
      state ← for_each (recover_record key requeue) unackedMessages (vh, out);
      Ok ((state.1, Ok tt), state.2)
  end.
End recover.

(** ** Putting messages back *)

(** The messages of a list of records that go back to queue [n]. *)
Definition returned (n : string) (records : list DeliveryRecord) : list Message :=
  dr_Message <$> filter (λ r, dr_QueueName r = n ∧ dr_QueueDeleted r = false) records.

Definition ready (vh : VHost) (n : string) : list Message :=
  from_option contents [] (vh_Queues vh !! n).

(** The number of messages a queue takes before it drops any. *)
Definition capacity (q : Queue) : Z :=
  if decide (0 < q_maxPriority q)
  then match bufferPerPriority q with Ok c => c | Err _ => 0 end
  else q_bufferSize q.

(** A live queue without a length limit. *)
Definition hosts (vh : VHost) (n : string) (q : Queue) : Prop :=
  vh_Queues vh !! n = Some q ∧ q_Name q = n ∧ q_stopped q = false ∧ wf_queue q ∧
  q_maxPriority q < 255 ∧ q_maxLength q = 0.

Lemma level_length ls k n : (k ≤ n)%nat → (length (level ls k) ≤ length (levels_down n ls))%nat.
Proof.
  induction n as [|n IH]; intros Hk; cbn [levels_down]; rewrite length_app.
  - replace k with 0%nat by lia. lia.
  - destruct (decide (k = S n)) as [->|]; [lia|]. specialize (IH ltac:(lia)). lia.
Qed.

Lemma capacity_room q msg :
  wf_queue q → 0 <= Priority (m_Properties msg) →
  Z.of_nat (length (contents q)) < capacity q → has_room q msg = true.
Proof.
  intros (Hm & _) Hp. unfold capacity, has_room, contents. case_decide as Hd.
  - destruct (bufferPerPriority q) as [c|e]; [|lia]. intros Hl. apply bool_decide_eq_true.
    pose proof (effective_priority_range q msg ltac:(lia) Hp).
    pose proof (level_length (q_priorityMessages q) (Z.to_nat (effective_priority q msg))
      (Z.to_nat (q_maxPriority q)) ltac:(lia)). lia.
  - intros Hl. by apply bool_decide_eq_true.
Qed.

Lemma push_fifo_contents q q' msg :
  q_maxPriority q = 0 → push_unlimited msg q = Ok q' → q_stopped q = false →
  has_room q msg = true → contents q' = contents q ++ [msg].
Proof.
  intros Hm. unfold push_unlimited, has_room. destruct (decide (0 < q_maxPriority q)); [lia|].
  intros Hp Hs Hr%bool_decide_eq_true. apply (inj Ok) in Hp as <-. unfold push. rewrite Hs, decide_True by done.
  rewrite !contents_fifo by done. done.
Qed.

Section requeue.
Context `{Runtime}.
Variables (now : Z) (fuel : nat).

(** The body of the loop of [requeue], for a batch marked as redelivered. *)
Definition requeue_record (record : DeliveryRecord) (vh : VHost) : res stop VHost :=
  Push now fuel (dr_QueueName record) (dr_Message record)
    (markAsRedelivered (m_ID (dr_Message record)) vh).

(** What a requeue leaves alone. *)
Definition same_but_queues (vh vh' : VHost) : Prop :=
  vh_Exchanges vh' = vh_Exchanges vh ∧ vh_index vh' = vh_index vh ∧
  vh_ChannelDeliveries vh' = vh_ChannelDeliveries vh ∧ vh_persist vh' = vh_persist vh ∧
  vh_EnableTTL vh' = vh_EnableTTL vh.

(** Pushing to a live queue with room and no length limit. *)
Lemma push_one n msg vh q :
  (0 < fuel)%nat → hosts vh n q → 0 <= Priority (m_Properties msg) →
  Z.of_nat (length (contents q)) < capacity q →
  ∃ vh' q', Push now fuel n msg vh = Ok vh' ∧ same_but_queues vh vh' ∧
    vh_redeliveredMessages vh' = vh_redeliveredMessages vh ∧
    hosts vh' n q' ∧ same_settings q q' ∧
    (∀ n', n' ≠ n → vh_Queues vh' !! n' = vh_Queues vh !! n') ∧
    contents q' ≡ₚ contents q ++ [msg] ∧
    (q_maxPriority q = 0 → contents q' = contents q ++ [msg]).
Proof.
  intros Hfuel (Hq & Hname & Hst & Hwf & Hmp & Hml) Hprio Hroom.
  pose proof (proj1 Hwf) as Hm0. assert (Hf : S (pred fuel) = fuel) by lia.
  destruct (push_unlimited_spec q msg Hwf Hmp Hst Hprio) as (q' & Hp & Hwf' & Hs & Hin & _).
  assert (Hr : has_room q msg = true) by by apply capacity_room.
  destruct (Push_unlimited now (pred fuel) n q msg vh) as (q'' & Hp' & Hn & Hpush); try done; [lia|].
  rewrite Hf in Hpush. rewrite Hp in Hp'. apply (inj Ok) in Hp' as <-.
  rewrite Hpush. eexists _, q'. split; [done|]. split; [done|]. split; [done|].
  split; [|split; [done|split; [|split]]].
  - destruct Hs as (Hs1 & _ & _ & Hs4 & Hs5 & _ & _ & Hs8).
    split; [cbn; by rewrite lookup_insert_eq|]. split; [done|]. split; [congruence|].
    split; [done|]. split; [lia|congruence].
  - intros n' Hne. cbn. by rewrite lookup_insert_ne.
  - destruct (Hin Hr) as (a & b & -> & -> & _). solve_Permutation.
  - intros H0. by apply push_fifo_contents.
Qed.

Lemma requeue_one r vh q :
  (0 < fuel)%nat → hosts vh (dr_QueueName r) q → 0 <= Priority (m_Properties (dr_Message r)) →
  Z.of_nat (length (contents q)) < capacity q →
  ∃ vh' q', requeue_record r vh = Ok vh' ∧ same_but_queues vh vh' ∧
    vh_redeliveredMessages vh' = {[m_ID (dr_Message r)]} ∪ vh_redeliveredMessages vh ∧
    hosts vh' (dr_QueueName r) q' ∧ same_settings q q' ∧
    (∀ n, n ≠ dr_QueueName r → vh_Queues vh' !! n = vh_Queues vh !! n) ∧
    contents q' ≡ₚ contents q ++ [dr_Message r] ∧
    (q_maxPriority q = 0 → contents q' = contents q ++ [dr_Message r]).
Proof. by apply (push_one (dr_QueueName r) (dr_Message r) (markAsRedelivered (m_ID (dr_Message r)) vh)). Qed.

(** Every queue the records go back to is live and has room for them. *)
Definition takes_back (records : list DeliveryRecord) (vh : VHost) : Prop :=
  Forall (λ r, 0 <= Priority (m_Properties (dr_Message r))) records ∧
  ∀ n, returned n records ≠ [] → ∃ q, hosts vh n q ∧
    Z.of_nat (length (contents q) + length (returned n records)) <= capacity q.

Lemma returned_cons n r records :
  returned n (r :: records) =
  (if decide (dr_QueueName r = n ∧ dr_QueueDeleted r = false) then [dr_Message r] else []) ++ returned n records.
Proof. unfold returned. rewrite filter_cons. by case_decide. Qed.

Lemma returned_elem n records :
  returned n records ≠ [] → ∃ r, r ∈ records ∧ dr_QueueName r = n.
Proof.
  unfold returned. destruct (filter _ records) as [|r l] eqn:E; [done|]. intros _. exists r.
  assert (Hr : r ∈ r :: l) by by left. rewrite <-E in Hr. apply list_elem_of_filter in Hr. tauto.
Qed.

Lemma capacity_settings q q' : same_settings q q' → capacity q' = capacity q.
Proof.
  intros (_ & _ & Hb & Hm & _). unfold capacity, bufferPerPriority. by rewrite Hb, Hm.
Qed.

Lemma takes_back_next r records vh :
  (0 < fuel)%nat → dr_QueueDeleted r = false → takes_back (r :: records) vh →
  ∃ vh' q q', hosts vh (dr_QueueName r) q ∧ hosts vh' (dr_QueueName r) q' ∧ same_settings q q' ∧
    requeue_record r vh = Ok vh' ∧ same_but_queues vh vh' ∧
    vh_redeliveredMessages vh' = {[m_ID (dr_Message r)]} ∪ vh_redeliveredMessages vh ∧
    (∀ n, n ≠ dr_QueueName r → vh_Queues vh' !! n = vh_Queues vh !! n) ∧
    contents q' ≡ₚ contents q ++ [dr_Message r] ∧
    (q_maxPriority q = 0 → contents q' = contents q ++ [dr_Message r]) ∧ takes_back records vh'.
Proof.
  intros Hfuel Hr [Hprio Htake]. apply Forall_cons in Hprio as [Hpr Hprio].
  destruct (Htake (dr_QueueName r)) as (q & Hq & Hroom); [by rewrite returned_cons, decide_True|].
  rewrite returned_cons, decide_True in Hroom by done. cbn [length app] in Hroom.
  destruct (requeue_one r vh q Hfuel Hq Hpr) as (vh1 & q1 & Hrq & Hsame & Hred & Hq1 & Hset & Hne & Hperm & Hfifo);
    [lia|].
  exists vh1, q, q1. repeat (split; [done|]). intros n Hn.
  destruct (decide (n = dr_QueueName r)) as [->|Hnn].
  - exists q1. split; [done|]. rewrite (capacity_settings _ _ Hset), Hperm, length_app. cbn. lia.
  - destruct (Htake n) as (q2 & Hq2 & Hroom2).
    { rewrite returned_cons. rewrite decide_False by naive_solver. done. }
    rewrite returned_cons, decide_False in Hroom2 by naive_solver.
    exists q2. split; [|done]. unfold hosts. by rewrite Hne.
Qed.

(** Requeuing a batch of live records puts each message back in its queue, once
    and marked as redelivered; a FIFO queue gets them in the batch's order. *)
Lemma requeue_all records : ∀ vh,
  (0 < fuel)%nat → Forall (λ r, dr_QueueDeleted r = false) records → takes_back records vh →
  ∃ vh', for_each requeue_record records vh = Ok vh' ∧ same_but_queues vh vh' ∧
    vh_redeliveredMessages vh' =
      list_to_set ((λ r, m_ID (dr_Message r)) <$> records) ∪ vh_redeliveredMessages vh ∧
    (∀ n, ready vh' n ≡ₚ ready vh n ++ returned n records) ∧
    (∀ n q, vh_Queues vh !! n = Some q → q_maxPriority q = 0 ∨ returned n records = [] →
       ready vh' n = ready vh n ++ returned n records) ∧
    (∀ n, is_Some (vh_Queues vh' !! n) ↔ is_Some (vh_Queues vh !! n)).
Proof.
  induction records as [|r records IH]; intros vh Hfuel Hlive Htake.
  { exists vh. cbn. split; [done|]. split; [done|]. split; [set_solver|].
    split; [|split; [|done]]; intros; by rewrite app_nil_r. }
  apply Forall_cons in Hlive as [Hr Hlive].
  destruct (takes_back_next r records vh Hfuel Hr Htake)
    as (vh1 & q & q1 & Hq & Hq1 & Hset & Hrq & Hsame & Hred & Hne & Hperm & Hfifo & Htake1).
  destruct (IH vh1 Hfuel Hlive Htake1) as (vh2 & Hfe & Hsame2 & Hred2 & Hperm2 & Hfifo2 & Hdom2).
  exists vh2. cbn [for_each]. rewrite Hrq. cbn [mbind res_mbind res_bind]. split; [done|].
  split; [unfold same_but_queues in *; intuition congruence|]. split; [rewrite Hred2, Hred; set_solver|].
  assert (Hready1 : ∀ n, n ≠ dr_QueueName r → ready vh1 n = ready vh n).
  { intros n Hnn. unfold ready. by rewrite Hne. }
  assert (Hq0 : ready vh (dr_QueueName r) = contents q) by (unfold ready; by rewrite (proj1 Hq)).
  assert (Hq1' : ready vh1 (dr_QueueName r) = contents q1) by (unfold ready; by rewrite (proj1 Hq1)).
  split; [|split].
  - intros n. rewrite Hperm2, returned_cons. destruct (decide (n = dr_QueueName r)) as [->|Hnn].
    + rewrite decide_True by done. rewrite Hq1', Hq0, Hperm. by rewrite <-app_assoc.
    + rewrite decide_False by naive_solver. by rewrite Hready1.
  - intros n q2 Hq2 H0. rewrite returned_cons. destruct (decide (n = dr_QueueName r)) as [->|Hnn].
    + assert (q2 = q) as -> by (destruct Hq as [Hq _]; congruence).
      rewrite returned_cons, decide_True in H0 by done. destruct H0 as [H0|]; [|done].
      rewrite decide_True by done. destruct Hset as (_ & _ & _ & Hm & _).
      rewrite (Hfifo2 _ q1 (proj1 Hq1)) by (left; congruence).
      rewrite Hq1', Hq0, Hfifo by done. by rewrite <-app_assoc.
    + assert (Hr0 : ¬ (dr_QueueName r = n ∧ dr_QueueDeleted r = false)) by naive_solver.
      rewrite returned_cons, decide_False in H0 by done. rewrite decide_False by done.
      rewrite (Hfifo2 n q2) by (try done; by rewrite Hne). by rewrite Hready1.
  - intros n. rewrite Hdom2. destruct (decide (n = dr_QueueName r)) as [->|Hnn].
    + rewrite (proj1 Hq1), (proj1 Hq). by split; intros _; eexists.
    + by rewrite Hne.
Qed.

(** No record's message has expired in its queue. *)
Definition unexpired (records : list DeliveryRecord) (vh : VHost) : Prop :=
  vh_EnableTTL vh = true → ∀ r q, r ∈ records → vh_Queues vh !! dr_QueueName r = Some q →
    CheckExpiration out_of_range_int (dr_Message r) (qp_Arguments (q_Props q)) now ≠ Expired true.

Definition live (records : list DeliveryRecord) : list DeliveryRecord :=
  filter (λ r, dr_QueueDeleted r = false) records.

Lemma not_expired r vh q :
  unexpired [r] vh → vh_Queues vh !! dr_QueueName r = Some q →
  handleTTLExpiration now fuel (dr_Message r) q vh = Ok (vh, false).
Proof.
  intros Hun Hq. unfold handleTTLExpiration, handleTTLExpiration_with. destruct (vh_EnableTTL vh) eqn:Ht; [|done].
  specialize (Hun Ht r q ltac:(by left) Hq). cbn [negb]. by repeat case_match.
Qed.

Lemma unexpired_next r records vh vh' q q' :
  hosts vh (dr_QueueName r) q → hosts vh' (dr_QueueName r) q' → same_settings q q' →
  same_but_queues vh vh' → (∀ n, n ≠ dr_QueueName r → vh_Queues vh' !! n = vh_Queues vh !! n) →
  unexpired (r :: records) vh → unexpired records vh'.
Proof.
  intros Hq Hq' Hs Hsame Hne Hun Ht r' q2 Hr' Hq2. rewrite (proj2 (proj2 (proj2 (proj2 Hsame)))) in Ht.
  destruct (decide (dr_QueueName r' = dr_QueueName r)) as [He|Hn].
  - rewrite He, (proj1 Hq') in Hq2. injection Hq2 as <-. rewrite (proj1 (proj2 Hs)).
    apply Hun; [done|by right|]. rewrite He. apply Hq.
  - rewrite Hne in Hq2 by done. apply Hun; [done|by right|done].
Qed.

Lemma nack_requeue_dead r vh :
  dr_QueueDeleted r = true → nack_requeue now fuel r vh = Ok vh.
Proof. intros Hr. unfold nack_requeue. by rewrite Hr. Qed.

Lemma nack_requeue_live r vh q :
  dr_QueueDeleted r = false → vh_Queues vh !! dr_QueueName r = Some q → unexpired [r] vh →
  nack_requeue now fuel r vh = requeue_record r vh.
Proof. intros Hr Hq Hun. unfold nack_requeue. by rewrite Hr, Hq, (not_expired r vh q). Qed.

(** A nack with requeue is the requeue of the records whose queue is there. *)
Lemma nack_requeue_all records : ∀ vh,
  (0 < fuel)%nat → takes_back (live records) vh → unexpired records vh →
  for_each (nack_requeue now fuel) records vh = for_each requeue_record (live records) vh.
Proof.
  induction records as [|r records IH]; intros vh Hfuel Htake Hun; [done|].
  unfold live in *. rewrite filter_cons in *. cbn [for_each].
  destruct (dr_QueueDeleted r) eqn:Hr.
  - rewrite decide_False in * by done. rewrite nack_requeue_dead by done. apply IH; [done|done|].
    intros Ht r' q Hr'. apply Hun; [done|by right].
  - rewrite decide_True in * by done. cbn [for_each].
    destruct (takes_back_next r _ vh Hfuel Hr Htake)
      as (vh1 & q & q1 & Hq & Hq1 & Hset & Hrq & Hsame & _ & Hne & _ & _ & Htake1).
    rewrite (nack_requeue_live r vh q); [|done|apply Hq|].
    + rewrite Hrq. cbn [mbind res_mbind res_bind]. apply IH; [done|done|]. exact (unexpired_next r records vh vh1 q q1 Hq Hq1 Hset Hsame Hne Hun).
    + intros Ht r0 q0 ->%list_elem_of_singleton Hq0. apply Hun; [done|by left|done].
Qed.
End requeue.

(** ** Where the messages of a queue are *)

Definition records_of (ch : ChannelDeliveryState) : list DeliveryRecord :=
  (map_to_list (UnackedByTag ch)).*2.

(** The deliveries of queue [n] still to be settled, on any channel. *)
Definition outstanding (vh : VHost) (n : string) : list Message :=
  kc ← map_to_list (vh_ChannelDeliveries vh); returned n (records_of kc.2).

(** All the messages of a queue: those ready and those outstanding. *)
Definition holdings (vh : VHost) (n : string) : list Message := ready vh n ++ outstanding vh n.

Lemma returned_app n l1 l2 : returned n (l1 ++ l2) = returned n l1 ++ returned n l2.
Proof. unfold returned. by rewrite filter_app, fmap_app. Qed.

Lemma returned_live n l : returned n (live l) = returned n l.
Proof.
  unfold returned, live. f_equal. rewrite list_filter_filter. apply list_filter_iff. tauto.
Qed.

#[export] Instance returned_proper n : Proper ((≡ₚ) ==> (≡ₚ)) (returned n).
Proof. intros l1 l2 H. unfold returned. by rewrite H. Qed.

Lemma outstanding_put vh key ch ch' n :
  vh_ChannelDeliveries vh !! key = Some ch →
  outstanding (put_channel key ch' vh) n ++ returned n (records_of ch) ≡ₚ
  outstanding vh n ++ returned n (records_of ch').
Proof.
  intros Hch. unfold outstanding, put_channel. cbn [vh_ChannelDeliveries set_ChannelDeliveries].
  rewrite <-(insert_delete_id (vh_ChannelDeliveries vh) key ch Hch) at 2.
  rewrite <-(insert_delete_eq (vh_ChannelDeliveries vh) key ch').
  rewrite !map_to_list_insert by apply lookup_delete_eq. cbn. solve_Permutation.
Qed.

Lemma outstanding_delete vh key ch n :
  vh_ChannelDeliveries vh !! key = Some ch →
  outstanding (set_ChannelDeliveries (delete key (vh_ChannelDeliveries vh)) vh) n ++
    returned n (records_of ch) ≡ₚ outstanding vh n.
Proof.
  intros Hch. unfold outstanding. cbn [vh_ChannelDeliveries set_ChannelDeliveries].
  rewrite <-(insert_delete_id (vh_ChannelDeliveries vh) key ch Hch) at 2.
  rewrite map_to_list_insert by apply lookup_delete_eq. cbn. solve_Permutation.
Qed.

(** The records an acknowledgement pops are taken out of the channel's. *)
Lemma pop_records (range : gmap Z DeliveryRecord → list (Z * DeliveryRecord))
    deliveryTag multiple ch ch' (removed : list DeliveryRecord) :
  wf_channel ch → NoDup (dr_DeliveryTag <$> removed) →
  (∀ r, r ∈ removed ↔
     selects deliveryTag multiple (dr_DeliveryTag r) ∧ UnackedByTag ch !! dr_DeliveryTag r = Some r) →
  (∀ t, UnackedByTag ch' !! t =
     if decide (selects deliveryTag multiple t) then None else UnackedByTag ch !! t) →
  records_of ch ≡ₚ removed ++ records_of ch'.
Proof.
  intros (_ & Htags & _) Hnd Hin Hrest. unfold records_of.
  assert (Hm : map_to_list (UnackedByTag ch) ≡ₚ
            ((λ r, (dr_DeliveryTag r, r)) <$> removed) ++ map_to_list (UnackedByTag ch')).
  { apply NoDup_Permutation; [apply NoDup_map_to_list|..].
    - apply NoDup_app. split; [|split; [|apply NoDup_map_to_list]].
      + apply (NoDup_fmap_1 fst). rewrite <-list_fmap_compose. exact Hnd.
      + intros [t r] (r' & [= -> ->] & Hr')%list_elem_of_fmap Hel%elem_of_map_to_list.
        rewrite Hrest in Hel. apply Hin in Hr' as [? _]. by case_decide.
    - intros [t r]. rewrite elem_of_app, list_elem_of_fmap, !elem_of_map_to_list, Hrest. split.
      + intros Hr. case_decide as Hs; [|by right]. left. exists r.
        destruct (Htags _ _ Hr) as [Ht _]. split; [by rewrite Ht|]. apply Hin. by rewrite Ht.
      + intros [(r' & [= -> ->] & Hr')|Hr]; [by apply Hin|]. by case_decide. }
  rewrite Hm, fmap_app, <-list_fmap_compose. rewrite (list_fmap_ext _ id removed), list_fmap_id by done. done.
Qed.

Lemma takes_back_app_l l1 l2 l vh : l ≡ₚ l1 ++ l2 → takes_back l vh → takes_back l1 vh.
Proof.
  intros Hl [Hp Ht]. rewrite Hl in Hp. apply Forall_app in Hp as [Hp _]. split; [done|].
  intros n Hn. destruct (Ht n) as (q & Hq & Hroom).
  - intros He. apply Hn. assert (Hr : returned n l ≡ₚ returned n l1 ++ returned n l2)
      by (by rewrite Hl, returned_app). rewrite He in Hr. symmetry in Hr.
    apply Permutation_nil_r in Hr. by apply app_nil in Hr as [? _].
  - exists q. split; [done|]. rewrite Hl, returned_app, length_app in Hroom. lia.
Qed.

Lemma takes_back_live l vh : takes_back l vh → takes_back (live l) vh.
Proof.
  intros [Hp Ht]. split.
  { apply Forall_forall. intros r [_ Hr]%list_elem_of_filter. by apply (proj1 (Forall_forall _ _) Hp). }
  intros n. rewrite returned_live. apply Ht.
Qed.

Section conservation.
Context `{Runtime}.

(** A nack with requeue takes the records it names off the channel and puts
    their messages back. *)
Lemma nack_requeue_spec (now : Z) (fuel : nat) (key : ConnectionChannelKey) (deliveryTag : Z)
    (multiple : bool) (methodID : Z) (vh : VHost) (ch : ChannelDeliveryState) :
  (0 < fuel)%nat → wf_channel ch → vh_ChannelDeliveries vh !! key = Some ch →
  acceptable deliveryTag multiple ch → takes_back (records_of ch) vh → unexpired now (records_of ch) vh →
  ∃ removed vh' ch', handleBasicNack now fuel key deliveryTag multiple true methodID vh = Ok (vh', Ok tt) ∧
    (∀ r, r ∈ removed ↔ selects deliveryTag multiple (dr_DeliveryTag r) ∧
       UnackedByTag ch !! dr_DeliveryTag r = Some r) ∧
    (∀ t, UnackedByTag ch' !! t =
       if decide (selects deliveryTag multiple t) then None else UnackedByTag ch !! t) ∧
    records_of ch ≡ₚ removed ++ records_of ch' ∧
    vh_ChannelDeliveries vh' = <[key := ch']> (vh_ChannelDeliveries vh) ∧
    vh_redeliveredMessages vh' =
      list_to_set ((λ r, m_ID (dr_Message r)) <$> live removed) ∪ vh_redeliveredMessages vh ∧
    ∀ n, ready vh' n ≡ₚ ready vh n ++ returned n removed ∧
      (∀ q, vh_Queues vh !! n = Some q → q_maxPriority q = 0 → ready vh' n = ready vh n ++ returned n removed).
Proof.
  intros Hfuel Hwf Hch Hacc Htake Hun.
  destruct (pop_ok range_records range_records_visits deliveryTag multiple methodID ch Hwf Hacc)
    as (removed & ch' & Hpop & Hwf' & Hnd & Hin & Hrest).
  assert (Hperm := pop_records range_records _ _ _ _ _ Hwf Hnd Hin Hrest).
  unfold handleBasicNack, pop_unacked. rewrite Hch, Hpop.
  set (vh1 := put_channel key ch' vh).
  assert (Htake1 : takes_back (live removed) vh1).
  { apply takes_back_live. eapply takes_back_app_l; [exact Hperm|]. exact Htake. }
  assert (Hun1 : unexpired now removed vh1).
  { intros Ht r q Hr Hq. apply Hun; [done| |done]. rewrite Hperm. apply elem_of_app. by left. }
  rewrite (nack_requeue_all now fuel removed vh1) by done.
  destruct (requeue_all now fuel (live removed) vh1) as (vh2 & -> & Hsame & Hred & Hready & Hfifo & _); try done.
  { apply Forall_forall. intros r Hr%list_elem_of_filter. apply Hr. }
  cbn [mbind res_mbind res_bind]. destruct Hsame as (_ & _ & Hcs & _).
  exists removed, vh2, ch'. split_and!; try done. intros n. rewrite Hready, returned_live. split; [done|].
  intros q Hq H0. rewrite <-(returned_live n removed). apply (Hfifo n q); [done|by left].
Qed.

(** C10. A nack or reject with requeue loses nothing and duplicates nothing.  On
    a channel whose live deliveries have room in their queues and have not
    expired, it returns; each queue then holds, ready or outstanding, the same
    messages as before; the deliveries named have left the channel and no other
    did; and their messages are marked to be redelivered.  Whatever the order
    in which the deliveries are visited. *)
Theorem nack_requeue_conserves (now : Z) (fuel : nat) (key : ConnectionChannelKey) (deliveryTag : Z)
    (multiple : bool) (methodID : Z) (vh : VHost) (ch : ChannelDeliveryState) :
  (0 < fuel)%nat → wf_channel ch → vh_ChannelDeliveries vh !! key = Some ch →
  acceptable deliveryTag multiple ch → takes_back (records_of ch) vh → unexpired now (records_of ch) vh →
  ∃ vh' ch', handleBasicNack now fuel key deliveryTag multiple true methodID vh = Ok (vh', Ok tt) ∧
    (∀ n, holdings vh' n ≡ₚ holdings vh n) ∧
    vh_ChannelDeliveries vh' = <[key := ch']> (vh_ChannelDeliveries vh) ∧
    (∀ t, UnackedByTag ch' !! t =
       if decide (selects deliveryTag multiple t) then None else UnackedByTag ch !! t) ∧
    (∀ t r, selects deliveryTag multiple t → UnackedByTag ch !! t = Some r →
       dr_QueueDeleted r = false → ShouldRedeliver (m_ID (dr_Message r)) vh' = true).
Proof.
  intros Hfuel Hwf Hch Hacc Htake Hun.
  destruct (nack_requeue_spec now fuel key deliveryTag multiple methodID vh ch Hfuel Hwf Hch Hacc Htake Hun)
    as (removed & vh' & ch' & -> & Hin & Hrest & Hperm & Hcs & Hred & Hready).
  exists vh', ch'. split; [done|]. split; [|split; [|split]]; try done.
  - intros n. unfold holdings. rewrite (proj1 (Hready n)).
    assert (Hput := outstanding_put vh key ch ch' n Hch).
    assert (Ho : outstanding vh' n = outstanding (put_channel key ch' vh) n) by (unfold outstanding; by rewrite Hcs).
    rewrite Hperm, returned_app in Hput. rewrite Ho, <-app_assoc. f_equiv.
    apply (Permutation_app_inv_r (returned n (records_of ch'))). rewrite <-Hput. solve_Permutation.
  - intros t r Hs Hr Hd. apply bool_decide_eq_true. rewrite Hred. apply elem_of_union_l.
    apply elem_of_list_to_set, list_elem_of_fmap. exists r. split; [done|].
    apply list_elem_of_filter. split; [done|]. apply Hin.
    destruct Hwf as (_ & Htags & _). destruct (Htags _ _ Hr) as [-> _]. done.
Qed.
End conservation.

(** ** A delivery is made or not made *)

Section delivery.
Context `{FrameSender}.

(** A channel without a state has the one a first delivery creates. *)
Definition channel_of (vh : VHost) (key : ConnectionChannelKey) : ChannelDeliveryState :=
  default new_channel_state (vh_ChannelDeliveries vh !! key).

Lemma get_or_create key vh :
  GetOrCreateChannelDelivery key vh =
    (channel_of vh key,
     if vh_ChannelDeliveries vh !! key then vh else put_channel key new_channel_state vh).
Proof. unfold GetOrCreateChannelDelivery, channel_of. by destruct (vh_ChannelDeliveries vh !! key). Qed.

Lemma put_channel_twice key ch ch' vh : put_channel key ch (put_channel key ch' vh) = put_channel key ch vh.
Proof. unfold put_channel, set_ChannelDeliveries. cbn. by rewrite insert_insert_eq. Qed.

(** The state of a channel after a delivery that was tracked and untracked. *)
Lemma untracked noAck consumerTag queueName msg ch tag ch1 r :
  wf_channel ch → LastDeliveryTag ch < 2 ^ 64 - 1 →
  track_consumer_delivery noAck consumerTag queueName msg ch = (tag, ch1) →
  UnackedByTag ch1 !! tag = Some r → noAck = false →
  let ch2 := deleteUnackedDelivery r ch1 in
  wf_channel ch2 ∧ UnackedByTag ch2 = UnackedByTag ch ∧ UnackedByGet ch2 = UnackedByGet ch ∧
  ∀ c, consumer_tags ch2 c = consumer_tags ch c.
Proof.
  intros Hwf Hlast Ht Hr -> ch2.
  pose proof (track_consumer_delivery_wf false consumerTag queueName msg ch Hwf Hlast) as Hwf1.
  rewrite Ht in Hwf1. cbn [snd] in Hwf1.
  assert (Hwf2 : wf_channel ch2) by by eapply deleteUnackedDelivery_wf.
  assert (Htag : dr_DeliveryTag r = tag) by apply (proj1 (proj2 Hwf1) _ _ Hr).
  assert (Htags : UnackedByTag ch2 = UnackedByTag ch).
  { unfold ch2. rewrite deleteUnackedDelivery_tags, Htag. unfold track_consumer_delivery in Ht.
    injection Ht as <- <-. cbn. rewrite delete_insert_id; [done|].
    rewrite next_tag_small by (split; [apply Hwf|done]). apply fresh_tag; [done|lia]. }
  split; [done|]. split; [done|].
  destruct Hwf as (_ & _ & Hc & Hg & _), Hwf2 as (_ & _ & Hc2 & Hg2 & _). split.
  - apply leibniz_equiv. intros t. by rewrite Hg, Hg2, Htags.
  - intros c. apply leibniz_equiv. intros t. by rewrite Hc, Hc2, Htags.
Qed.

Lemma channel_of_put key ch vh : channel_of (put_channel key ch vh) key = ch.
Proof. unfold channel_of. cbn. by rewrite lookup_insert_eq. Qed.

Lemma untrack_failed_spec noAck consumerTag queueName msg key ch tag ch1 vh :
  wf_channel ch → LastDeliveryTag ch < 2 ^ 64 - 1 →
  track_consumer_delivery noAck consumerTag queueName msg ch = (tag, ch1) →
  let vh' := untrack_failed noAck key tag ch1 (put_channel key ch1 vh) in
  let ch' := channel_of vh' key in
  wf_channel ch' ∧ vh_Queues vh' = vh_Queues vh ∧
  vh_redeliveredMessages vh' = vh_redeliveredMessages vh ∧ vh_persist vh' = vh_persist vh ∧
  UnackedByTag ch' = UnackedByTag ch ∧ UnackedByGet ch' = UnackedByGet ch ∧
  ∀ c, consumer_tags ch' c = consumer_tags ch c.
Proof.
  intros Hwf Hlast Ht. unfold untrack_failed. destruct noAck eqn:Hno.
  - pose proof (track_consumer_delivery_wf true consumerTag queueName msg ch Hwf Hlast) as Hwf1.
    rewrite Ht in Hwf1. cbn [snd] in Hwf1. injection Ht as <- <-.
    case_match; rewrite channel_of_put; done.
  - destruct (UnackedByTag ch1 !! tag) as [r|] eqn:Hr.
    + rewrite put_channel_twice, channel_of_put.
      destruct (untracked false _ _ _ _ _ _ _ Hwf Hlast Ht Hr eq_refl) as (? & ? & ? & ?). done.
    + injection Ht as <- <-. cbn in Hr. by rewrite lookup_insert_eq in Hr.
Qed.

Lemma after_send_spec consumer msg redelivered vh0 key ch vh :
  vh0 = put_channel key ch vh →
  let vh' := after_send consumer msg (redelivered || ShouldRedeliver (m_ID msg) vh) vh0 in
  channel_of vh' key = ch ∧ vh_Queues vh' = vh_Queues vh ∧ ShouldRedeliver (m_ID msg) vh' = false.
Proof.
  intros -> vh'. unfold vh', after_send. generalize (c_NoAck consumer && is_persistent msg). intros b.
  destruct (redelivered || _) eqn:Hr; [|apply orb_false_iff in Hr as [_ Hr%bool_decide_eq_false]].
  - split; [by destruct b; apply channel_of_put|]. split; [by destruct b|].
    apply bool_decide_eq_false. cbn. set_solver.
  - split; [by destruct b; apply channel_of_put|]. split; [by destruct b|].
    apply bool_decide_eq_false. by destruct b.
Qed.

(** A delivery whose frames encode and are written: the state it leaves. *)
Lemma deliver_sent consumer msg redelivered vh out frames :
  let key := channel_key consumer in
  let ch := channel_of vh key in
  let flag := redelivered || ShouldRedeliver (m_ID msg) vh in
  let ch' := (track_consumer_delivery (c_NoAck consumer) (c_Tag consumer) (c_QueueName consumer) msg ch).2 in
  wf_channel ch → LastDeliveryTag ch < 2 ^ 64 - 1 → c_Active consumer = true →
  delivery_frames consumer msg (LastDeliveryTag ch + 1) flag = Ok frames →
  SendFrame out (c_ConnectionID consumer) frames = true →
  deliverToConsumer consumer msg redelivered vh out =
    (after_send consumer msg flag (put_channel key ch' vh), out ++ [(c_ConnectionID consumer, frames)], Ok tt) ∧
  UnackedByTag ch' =
    (if c_NoAck consumer then UnackedByTag ch
     else <[LastDeliveryTag ch + 1 := MkRecord (LastDeliveryTag ch + 1) (c_Tag consumer) false
            (c_QueueName consumer) msg (is_persistent msg) false false]> (UnackedByTag ch)).
Proof.
  intros key ch flag ch' Hwf Hlast Hact Hframes Hsend. unfold deliverToConsumer. rewrite Hact. cbn [negb].
  rewrite get_or_create. fold key ch.
  assert (Hch : track_consumer_delivery (c_NoAck consumer) (c_Tag consumer) (c_QueueName consumer) msg ch =
    (LastDeliveryTag ch + 1, ch')).
  { unfold ch', track_consumer_delivery. rewrite next_tag_small by (split; [apply Hwf|done]).
    by destruct (c_NoAck consumer). }
  rewrite Hch. fold flag. rewrite Hframes, Hsend. split.
  - do 3 f_equal. case_match; [done|apply put_channel_twice].
  - unfold ch', track_consumer_delivery. rewrite next_tag_small by (split; [apply Hwf|done]).
    by destruct (c_NoAck consumer).
Qed.

(** What a delivery leaves, whether it was made or not. *)
Lemma delivery_spec (consumer : Consumer) (msg : Message) (redelivered : bool)
    (vh : VHost) (out : list sent_frames) :
  let key := channel_key consumer in
  let ch := channel_of vh key in
  let tag := LastDeliveryTag ch + 1 in
  wf_channel ch → LastDeliveryTag ch < 2 ^ 64 - 1 →
  let '(vh', out', r) := deliverToConsumer consumer msg redelivered vh out in
  let ch' := channel_of vh' key in
  wf_channel ch' ∧ vh_Queues vh' = vh_Queues vh ∧
  match r with
  | Ok _ => ∃ frames, c_Active consumer = true ∧
      delivery_frames consumer msg tag (redelivered || ShouldRedeliver (m_ID msg) vh) = Ok frames ∧
      out' = out ++ [(c_ConnectionID consumer, frames)] ∧
      LastDeliveryTag ch' = tag ∧ ShouldRedeliver (m_ID msg) vh' = false ∧
      UnackedByTag ch' =
        (if c_NoAck consumer then UnackedByTag ch
         else <[tag := MkRecord tag (c_Tag consumer) false (c_QueueName consumer) msg
                  (is_persistent msg) false false]> (UnackedByTag ch))
  | Err _ => out' = out ∧ vh_redeliveredMessages vh' = vh_redeliveredMessages vh ∧
      vh_persist vh' = vh_persist vh ∧ UnackedByTag ch' = UnackedByTag ch ∧
      UnackedByGet ch' = UnackedByGet ch ∧ ∀ c, consumer_tags ch' c = consumer_tags ch c
  end.
Proof.
  intros key ch tag Hwf Hlast. unfold deliverToConsumer.
  destruct (c_Active consumer) eqn:Hact; cbn [negb]; [|done].
  rewrite get_or_create. fold key ch.
  destruct (track_consumer_delivery (c_NoAck consumer) (c_Tag consumer) (c_QueueName consumer) msg ch)
    as [tag0 ch1] eqn:Ht.
  pose proof (track_consumer_delivery_wf (c_NoAck consumer) (c_Tag consumer) (c_QueueName consumer) msg ch Hwf Hlast) as Hwf1.
  rewrite Ht in Hwf1. cbn [snd] in Hwf1.
  set (vh0 := if vh_ChannelDeliveries vh !! key then vh else _).
  assert (Hput : put_channel key ch1 vh0 = put_channel key ch1 vh).
  { unfold vh0. case_match; [done|]. apply put_channel_twice. }
  rewrite Hput. clear Hput vh0.
  assert (Hch1 : tag0 = tag ∧ LastDeliveryTag ch1 = tag ∧ UnackedByTag ch1 =
      if c_NoAck consumer then UnackedByTag ch else <[tag := MkRecord tag (c_Tag consumer) false
        (c_QueueName consumer) msg (is_persistent msg) false false]> (UnackedByTag ch)).
  { unfold track_consumer_delivery in Ht. rewrite next_tag_small in Ht by (split; [apply Hwf|done]).
    by destruct (c_NoAck consumer); injection Ht as <- <-. }
  destruct Hch1 as (-> & Hlast1 & Htags).
  pose proof (untrack_failed_spec _ _ _ _ key _ _ _ vh Hwf Hlast Ht) as Hfail.
  destruct (delivery_frames consumer msg tag _) as [frames|e] eqn:Hframes; [|naive_solver].
  destruct (SendFrame out (c_ConnectionID consumer) frames); [|naive_solver].
  destruct (after_send_spec consumer msg redelivered _ key ch1 vh eq_refl) as (-> & -> & Hred).
  split; [done|]. split; [done|]. exists frames. rewrite Hlast1, Htags. done.
Qed.

(** C16. A delivery is made as a whole or not at all.  When it succeeds, exactly
    one write went out, to the consumer's connection: the frames of the message
    under the channel's next tag, flagged as redelivered if the message was
    marked; the message is outstanding under that tag, charged to the consumer,
    unless the consumer does not acknowledge; and the mark is gone.  When it
    fails (an inactive consumer, a name too long for its frame, a failed write),
    nothing was written, the channel's outstanding deliveries and their indexes
    are as before, and so are the queues, the marks and the persisted messages. *)
Theorem delivery_all_or_nothing (consumer : Consumer) (msg : Message) (redelivered : bool)
    (vh : VHost) (out : list sent_frames) :
  let key := channel_key consumer in
  let ch := channel_of vh key in
  let tag := LastDeliveryTag ch + 1 in
  wf_channel ch → LastDeliveryTag ch < 2 ^ 64 - 1 →
  let '(vh', out', r) := deliverToConsumer consumer msg redelivered vh out in
  let ch' := channel_of vh' key in
  wf_channel ch' ∧ vh_Queues vh' = vh_Queues vh ∧
  match r with
  | Ok _ => ∃ frames, c_Active consumer = true ∧
      delivery_frames consumer msg tag (redelivered || ShouldRedeliver (m_ID msg) vh) = Ok frames ∧
      out' = out ++ [(c_ConnectionID consumer, frames)] ∧
      LastDeliveryTag ch' = tag ∧ ShouldRedeliver (m_ID msg) vh' = false ∧
      UnackedByTag ch' =
        (if c_NoAck consumer then UnackedByTag ch
         else <[tag := MkRecord tag (c_Tag consumer) false (c_QueueName consumer) msg
                  (is_persistent msg) false false]> (UnackedByTag ch))
  | Err _ => out' = out ∧ vh_redeliveredMessages vh' = vh_redeliveredMessages vh ∧
      vh_persist vh' = vh_persist vh ∧ UnackedByTag ch' = UnackedByTag ch ∧
      UnackedByGet ch' = UnackedByGet ch ∧ ∀ c, consumer_tags ch' c = consumer_tags ch c
  end.
Proof. apply delivery_spec. Qed.
End delivery.

(** ** Samples *)

Section settle_sample.
#[local] Existing Instance sample_runtime.

(** Every write succeeds; the clients do not ask for basic.cancel. *)
Definition sample_sender : FrameSender := {|
  SendFrame := λ _ _ _, true;
  ConsumerCancelNotify := λ _, false;
|}.
#[local] Existing Instance sample_sender.

(** Three deliveries of "orders" outstanding on one channel. *)
Definition sample_unacked : VHost := put_channel ("conn-1", 1) sample_channel sample_vhost.
Definition sample_orders : Queue := default (NewQueue "" 0) (vh_Queues sample_unacked !! "orders").

Lemma sample_orders_hosts : hosts sample_unacked "orders" sample_orders.
Proof.
  split; [by vm_compute|]. split; [by vm_compute|]. split; [by vm_compute|].
  split; [|split; by vm_compute]. unfold wf_queue. apply (bool_decide_unpack _). by vm_compute.
Qed.

Lemma sample_takes_back : takes_back (records_of sample_channel) sample_unacked.
Proof.
  split; [apply (bool_decide_unpack _); by vm_compute|]. intros n Hn.
  destruct (decide (n = "orders")) as [->|Hne].
  - exists sample_orders. split; [apply sample_orders_hosts|]. by vm_compute.
  - destruct (returned_elem n _ Hn) as (r & Hr & Hrn).
    assert (Hall : Forall (λ r, dr_QueueName r = "orders") (records_of sample_channel))
      by (apply (bool_decide_unpack _); by vm_compute).
    apply (proj1 (Forall_forall _ _) Hall) in Hr. congruence.
Qed.

Lemma nack_requeue_conserves_witness :
  ∃ vh', HandleBasicNack 0 1 ("conn-1", 1) 2 true true sample_unacked = Ok (vh', Ok tt) ∧
    holdings vh' "orders" ≡ₚ holdings sample_unacked "orders" ∧ ShouldRedeliver "m1" vh' = true.
Proof.
  destruct (nack_requeue_conserves 0 1 ("conn-1", 1) 2 true BASIC_NACK sample_unacked sample_channel)
    as (vh' & ch' & Hn & Hh & _ & _ & Hred).
  - lia.
  - apply sample_channel_wf.
  - by vm_compute.
  - right. apply (bool_decide_unpack _). by vm_compute.
  - apply sample_takes_back.
  - intros _ r q Hr Hq.
    assert (Hall : Forall (λ r, Expiration (m_Properties (dr_Message r)) = "" ∧
        dr_QueueName r = "orders") (records_of sample_channel))
      by (apply (bool_decide_unpack _); by vm_compute).
    destruct (proj1 (Forall_forall _ _) Hall r Hr) as [He Hname]. rewrite Hname in Hq.
    assert (Ha : qp_Arguments (q_Props q) = None) by (vm_compute in Hq; by injection Hq as <-).
    rewrite Ha. unfold CheckExpiration. by rewrite decide_True.
  - exists vh'. unfold HandleBasicNack. split; [exact Hn|]. split; [exact (Hh "orders")|].
    assert (Hs : selects 2 true 1) by (right; lia).
    exact (Hred 1 (MkRecord 1 "c1" false "orders" (sample_delivery "m1") false false false)
      Hs ltac:(by vm_compute) eq_refl).
Defined.

Definition sample_delivered : Message := MkMessage "m9" 0 [Byte.x01] empty_props "logs" "app.x".

Lemma delivery_all_or_nothing_witness :
  ∃ vh' frames, deliverToConsumer (set_Tag "c1" (set_Active true sample_consumer)) sample_delivered false
      sample_unacked [] = (vh', [("conn-1", frames)], Ok tt) ∧
    UnackedByTag (channel_of vh' ("conn-1", 1)) !! 4 =
      Some (MkRecord 4 "c1" false "orders" sample_delivered false false false).
Proof.
  pose proof (delivery_all_or_nothing (set_Tag "c1" (set_Active true sample_consumer)) sample_delivered
    false sample_unacked []) as Hd.
  assert (Hch : channel_of sample_unacked ("conn-1", 1) = sample_channel) by by vm_compute.
  cbn zeta in Hd. change (channel_key _) with ("conn-1", 1) in Hd. rewrite Hch in Hd.
  specialize (Hd sample_channel_wf ltac:(by vm_compute)).
  assert (Hok : is_ok (deliverToConsumer (set_Tag "c1" (set_Active true sample_consumer)) sample_delivered
    false sample_unacked []).2 = true) by by vm_compute.
  destruct (deliverToConsumer _ _ _ _ _) as [[vh' out'] [[]|e]]; [|discriminate Hok].
  destruct Hd as (_ & _ & frames & _ & _ & -> & _ & _ & Hu). exists vh', frames. split; [done|].
  rewrite Hu. by vm_compute.
Defined.
End settle_sample.
