(* ===== verification/Purge.v ===== *)
(** * queue.purge: PurgeQueue of vhost/queue.go

    The queue's own lock is held from the first message to the last.  A message
    that has expired is dead-lettered under that lock; when the dead letter comes
    back to the queue, through its own dead-letter exchange or through one more
    eviction, the purge waits for itself. *)

From stdpp Require Import base list gmap strings.
From Stdlib Require Import ZArith Lia.
From S2P Require Import Prelude Bytes Values Properties Methods Topic Args Queue Deliveries Consumers.
From S2P Require Import Json VHost Lifecycle Routing Expiry Publish Settle.

Local Open Scope Z_scope.
Local Open Scope string_scope.
Local Open Scope list_scope.

Section purge.
Context `{Runtime}.
Variable now : Z.

(** [Queue.Push] while [q.mu] of the queue [locked] is held by the caller. *)
Fixpoint Push_locked (locked : string) (fuel : nat) (queueName : string) (msg : Message) (vh : VHost)
    : res stop VHost :=
  match fuel with
  | O => Err FuelSpent
  | S fuel =>
      if decide (queueName = locked ∧ is_Some (vh_Queues vh !! queueName)) then Err Deadlock else
      match vh_Queues vh !! queueName with
      | None => Ok vh
      | Some queue =>
          vh ← (if decide (0 < q_maxLength queue)
                then EnforceMaxLength_with now (Push_locked locked fuel) queue vh else Ok vh);
          match vh_Queues vh !! queueName with
          | None => Ok vh
          | Some queue =>
              queue ← map_err GoPanic (push_unlimited msg queue);
              Ok (put_queue queue vh)
          end
      end
  end.

(** The callback of [PurgeQueue]. *)
Definition purge_message (fuel : nat) (name : string) (queue : Queue) (msg : Message) (vh : VHost)
    : res stop VHost :=
  expiry ← handleTTLExpiration_with now (Push_locked name fuel) msg queue vh;
  let '(vh, expired) := expiry in
  if expired : bool then Ok vh
  else Ok (persist_if (is_persistent msg) (DeleteMessage name (m_ID msg)) vh).

Definition PurgeQueue (fuel : nat) (name connID : string) (vh : VHost) : res stop (handled Z) :=
  match vh_Queues vh !! name with
  | None => Ok (vh, Err (ChannelError NOT_FOUND QUEUE QUEUE_PURGE))
  | Some queue =>
  match validateQueueOwnership queue connID QUEUE QUEUE_PURGE with
  | Err e => Ok (vh, Err e)
  | Ok _ =>
      let '(taken, purged, queue) := StreamPurge queue in
      vh ← for_each (purge_message fuel name queue) taken (put_queue queue vh);
      Ok (vh, Ok purged)
  end end.

Definition CheckQueueOwnership (queueName connID : string) (classID methodID : Z) (vh : VHost)
    : res vh_err unit :=
  match vh_Queues vh !! queueName with
  | None => Ok tt
  | Some queue => validateQueueOwnership queue connID classID methodID
  end.

(** The persisted copies deleted, the last one first. *)
Definition purged_copies (name : string) (taken : list Message) : list persist_call :=
  reverse ((λ msg, DeleteMessage name (m_ID msg)) <$> filter (λ msg, is_persistent msg = true) taken).

Lemma purge_all fuel name queue taken : ∀ vh,
  (vh_EnableTTL vh = true → Forall (λ msg,
     CheckExpiration out_of_range_int msg (qp_Arguments (q_Props queue)) now ≠ Expired true) taken) →
  ∃ vh', for_each (purge_message fuel name queue) taken vh = Ok vh' ∧
    vh_persist vh' = purged_copies name taken ++ vh_persist vh ∧ vh_Queues vh' = vh_Queues vh ∧
    vh_ChannelDeliveries vh' = vh_ChannelDeliveries vh ∧ vh_Exchanges vh' = vh_Exchanges vh.
Proof.
  induction taken as [|msg taken IH]; intros vh Hexp; [by exists vh|]. cbn [for_each].
  assert (Hone : purge_message fuel name queue msg vh =
    Ok (persist_if (is_persistent msg) (DeleteMessage name (m_ID msg)) vh)).
  { unfold purge_message, handleTTLExpiration_with. destruct (vh_EnableTTL vh) eqn:Ht; [|done].
    specialize (Hexp eq_refl). apply Forall_cons in Hexp as [Hm _]. cbn [negb].
    by destruct (CheckExpiration _ _ _ _) as [[]|]. }
  rewrite Hone. cbn [mbind res_mbind res_bind].
  destruct (IH (persist_if (is_persistent msg) (DeleteMessage name (m_ID msg)) vh))
    as (vh' & Hf & Hp & Hq & Hc & He).
  { intros Ht. destruct (is_persistent msg); by apply Forall_cons in Hexp as [_ ?]. }
  exists vh'. split; [done|]. rewrite Hp, Hq, Hc, He. unfold purged_copies. rewrite filter_cons.
  destruct (is_persistent msg); [|done].
  rewrite decide_True, fmap_cons, reverse_cons, <-app_assoc by done. done.
Qed.

(** Purging empties the queue and nothing else, and deletes the persisted copy
    of every persistent message; the number it answers is that of the messages. *)
Lemma purge_spec fuel name connID vh q :
  vh_Queues vh !! name = Some q → q_Name q = name → wf_queue q →
  validateQueueOwnership q connID QUEUE QUEUE_PURGE = Ok tt →
  (vh_EnableTTL vh = true → Forall (λ msg,
     CheckExpiration out_of_range_int msg (qp_Arguments (q_Props q)) now ≠ Expired true) (contents q)) →
  ∃ vh', PurgeQueue fuel name connID vh = Ok (vh', Ok (Z.of_nat (length (contents q)) mod 2 ^ 32)) ∧
    ready vh' name = [] ∧ (∀ n, n ≠ name → vh_Queues vh' !! n = vh_Queues vh !! n) ∧
    vh_ChannelDeliveries vh' = vh_ChannelDeliveries vh ∧ vh_Exchanges vh' = vh_Exchanges vh ∧
    vh_persist vh' = purged_copies name (contents q) ++ vh_persist vh.
Proof.
  intros Hq Hname Hwf Hown Hexp. unfold PurgeQueue. rewrite Hq, Hown.
  pose proof (StreamPurge_spec q Hwf) as Hp.
  destruct (StreamPurge q) as [[taken n] q']. destruct Hp as (-> & -> & Hempty & _ & Hset).
  destruct Hset as (Hname' & Hprops & _).
  destruct (purge_all fuel name q' (contents q) (put_queue q' vh)) as (vh' & -> & Hp & Hqs & Hc & He).
  { rewrite Hprops. exact Hexp. }
  exists vh'. split; [done|]. unfold ready. rewrite Hqs, Hp, Hc, He. unfold put_queue. cbn.
  rewrite Hname', Hname, lookup_insert_eq. split; [done|]. split; [|done].
  intros n' Hn. by rewrite lookup_insert_ne.
Qed.
End purge.

(** ** A purge that waits for itself *)

Section purge_sample.
#[local] Existing Instance sample_runtime.

Definition looping_props : QueueProperties := MkQueueProps false true false false
  (Some [("x-dead-letter-exchange", VStr DEFAULT_EXCHANGE); ("x-dead-letter-routing-key", VStr "loop");
         ("x-message-ttl", VI32 1)]).

(** A queue that dead-letters to itself, with one message past its time. *)
Definition looping_vhost : res stop VHost :=
  let vh := (CreateQueue [] "loop" (Some looping_props) "conn-1" (new_vhost 100 10 true true true)).1 in
  let vh := (BindQueue DEFAULT_EXCHANGE "loop" "loop" None INTERNAL_CONN_ID vh).1 in
  Push 0 5 "loop" (MkMessage "m-1" 0 [] empty_props "" "loop") vh.

Lemma purge_deadlocks :
  (vh ← looping_vhost; PurgeQueue (10 ^ 9) 5 "loop" "conn-1" vh) = Err Deadlock.
Proof. by vm_compute. Qed.
End purge_sample.
