(* ===== verification/Preserve.v ===== *)
(** * Every operation keeps a virtual host well formed

    [names_well_formed] (Lifecycle.v) is about elementary steps.  Here are the
    operations themselves, whole: publishing with all the evictions and dead
    letters it sets off, settling, recovering, delivering and purging. *)

From stdpp Require Import base list gmap strings sorting.
From Stdlib Require Import ZArith Lia.
From S2P Require Import Prelude Bytes Values FieldTable Properties Methods Frames Topic Args Queue.
From S2P Require Import Deliveries Consumers Json VHost Lifecycle Routing Expiry Publish Settle Purge.

Local Open Scope Z_scope.
Local Open Scope string_scope.
Local Open Scope list_scope.

(** ** What a push leaves alone *)

Definition named (vh : VHost) : Prop := ∀ n q, vh_Queues vh !! n = Some q → q_Name q = n.

(** A call about a message of a queue. *)
Definition message_call (call : persist_call) : Prop :=
  match call with SaveMessage _ _ | DeleteMessage _ _ => True | _ => False end.

(** The calls to the persistence layer are about messages only. *)
Definition messages_only (vh vh' : VHost) : Prop :=
  ∃ calls, vh_persist vh' = calls ++ vh_persist vh ∧ Forall message_call calls.

Lemma messages_only_refl vh vh' : vh_persist vh' = vh_persist vh → messages_only vh vh'.
Proof. intros E. by exists []. Qed.

Lemma messages_only_trans vh1 vh2 vh3 : messages_only vh1 vh2 → messages_only vh2 vh3 → messages_only vh1 vh3.
Proof.
  intros (c1 & E1 & H1) (c2 & E2 & H2). exists (c2 ++ c1). rewrite E2, E1, app_assoc.
  split; [done|]. by apply Forall_app.
Qed.

(** The contents of queues, the redelivery marks and the messages persisted are
    all that changes. *)
Record same_frame (vh vh' : VHost) : Prop := {
  sf_shape : same_shape vh vh';
  sf_index : vh_index vh' = vh_index vh;
  sf_channels : vh_ChannelDeliveries vh' = vh_ChannelDeliveries vh;
  sf_persist : messages_only vh vh';
}.

Lemma same_log_frame vh vh' : same_shape vh vh' → vh_index vh' = vh_index vh →
  vh_ChannelDeliveries vh' = vh_ChannelDeliveries vh → vh_persist vh' = vh_persist vh → same_frame vh vh'.
Proof. intros. split; [done..|]. by apply messages_only_refl. Qed.

Lemma same_frame_refl vh : same_frame vh vh.
Proof. apply same_log_frame; [apply same_shape_refl|done..]. Qed.

Lemma same_frame_trans vh1 vh2 vh3 : same_frame vh1 vh2 → same_frame vh2 vh3 → same_frame vh1 vh3.
Proof.
  intros H1 H2. split; [eapply same_shape_trans; [apply H1|apply H2]|..].
  - by rewrite (sf_index _ _ H2), (sf_index _ _ H1).
  - by rewrite (sf_channels _ _ H2), (sf_channels _ _ H1).
  - eapply messages_only_trans; [apply H1|apply H2].
Qed.
#[export] Instance same_frame_preorder : PreOrder same_frame.
Proof. split; [exact same_frame_refl|exact same_frame_trans]. Qed.

Lemma persist_if_frame b call vh : message_call call → same_frame vh (persist_if b call vh).
Proof.
  intros Hc. destruct b; [|apply same_frame_refl]. split; [apply (persist_if_shape true)|done..|].
  exists [call]. split; [done|]. by constructor.
Qed.

Lemma named_frame vh vh' : same_frame vh vh' → named vh → named vh'.
Proof.
  intros Hs Hn n q' Hq'. pose proof (ss_queues _ _ (sf_shape _ _ Hs) n) as Hq. rewrite Hq' in Hq.
  destruct (vh_Queues vh !! n) as [q|] eqn:E; [|done]. rewrite <-(Hn n q E). apply Hq.
Qed.

Lemma put_queue_frame vh n q q' :
  named vh → vh_Queues vh !! n = Some q → same_settings q q' → same_frame vh (put_queue q' vh).
Proof.
  intros Hn Hq Hs. apply same_log_frame; [|done..]. eapply put_queue_shape; [|exact Hs]. by rewrite (Hn n q Hq).
Qed.

Lemma routeLocked_frame exchange key msg vh : same_frame vh (routeLocked exchange key msg vh).1.
Proof.
  unfold routeLocked. destruct (vh_Exchanges vh !! _) as [e|]; [|apply same_frame_refl].
  destruct (ep_Internal _); [apply same_frame_refl|].
  destruct (route_targets e key) as [targets|]; [|apply same_frame_refl]. cbn [fst].
  revert vh. induction targets as [|q targets IH]; intros vh; [apply same_frame_refl|]. cbn [foldl].
  etrans; [|apply IH]. unfold saveMessageIfDurable. by apply persist_if_frame.
Qed.

Lemma pop_settings q : same_settings q (Pop q).2.
Proof.
  unfold Pop, popPriorityUnlocked, popUnlocked. case_decide.
  - by destruct (pop_level _ _) as [[]|].
  - by destruct (q_messages q).
Qed.

Lemma push_settings msg q q' : push_unlimited msg q = Ok q' → same_settings q q'.
Proof.
  unfold push_unlimited, pushPriority, push. intros Hp.
  repeat (case_match || case_decide); inv_ok; repeat case_decide; by subst.
Qed.

Section push_frame.
Variable now : Z.

Definition framed (push_to : string → Message → VHost → res stop VHost) : Prop :=
  ∀ q msg vh vh', named vh → push_to q msg vh = Ok vh' → same_frame vh vh'.

Section below.
Variable push_to : string → Message → VHost → res stop VHost.
Hypothesis Hpush : framed push_to.

Lemma push_targets_frame targets msg : ∀ vh vh',
  named vh → push_targets push_to targets msg vh = Ok vh' → same_frame vh vh'.
Proof.
  induction targets as [|q targets IH]; intros vh vh' Hn Hp; cbn in Hp.
  - apply (inj Ok) in Hp as <-. apply same_frame_refl.
  - apply res_bind_ok in Hp as (vh1 & Hp1 & Hp). apply Hpush in Hp1; [|done].
    etrans; [exact Hp1|]. apply IH; [by eapply named_frame|done].
Qed.

Lemma Publish_with_frame exchange key msg vh vh' r :
  named vh → Publish_with push_to exchange key msg vh = Ok (vh', r) → same_frame vh vh'.
Proof.
  intros Hn Hp. unfold Publish_with in Hp. pose proof (routeLocked_frame exchange key msg vh) as Hr.
  destruct (routeLocked exchange key msg vh) as [vh1 [targets|e]]; cbn [fst] in Hr; [|by inv_ok].
  apply res_bind_ok in Hp as (vh2 & Hp & E). apply (inj Ok) in E. injection E as <- _.
  etrans; [exact Hr|]. eapply push_targets_frame; [by eapply named_frame|done].
Qed.

Lemma handleDeadLetter_frame queue msg reason vh vh' ok :
  named vh → handleDeadLetter_with now push_to queue msg reason vh = Ok (vh', ok) → same_frame vh vh'.
Proof.
  intros Hn Hd. unfold handleDeadLetter_with in Hd.
  destruct (negb _); [inv_ok; apply same_frame_refl|].
  destruct (dead_letter_exchange queue); [|inv_ok; apply same_frame_refl].
  destruct (dead_letter _ _ _ _ _) as [m k]. apply res_bind_ok in Hd as ([vh1 r] & Hp & E).
  apply (inj Ok) in E. injection E as <- _. by eapply Publish_with_frame.
Qed.

Lemma process_evicted_frame queue evicted : ∀ vh vh',
  named vh → process_evicted now push_to queue evicted vh = Ok vh' → same_frame vh vh'.
Proof.
  induction evicted as [|m evicted IH]; intros vh vh' Hn Hp; cbn in Hp.
  - apply (inj Ok) in Hp as <-. apply same_frame_refl.
  - apply res_bind_ok in Hp as ([vh1 ok] & Hd & Hp). apply handleDeadLetter_frame in Hd; [|done].
    assert (Hs : same_frame vh (deleteMessage m queue vh1)).
    { etrans; [exact Hd|]. by apply persist_if_frame. }
    etrans; [exact Hs|]. apply IH; [by eapply named_frame|exact Hp].
Qed.

Lemma EnforceMaxLength_frame n queue vh vh' :
  named vh → vh_Queues vh !! n = Some queue → EnforceMaxLength_with now push_to queue vh = Ok vh' →
  same_frame vh vh'.
Proof.
  intros Hn Hq He. unfold EnforceMaxLength_with in He.
  destruct (negb _); [inv_ok; apply same_frame_refl|].
  pose proof (evict_settings (excess queue) queue) as Hs.
  destruct (evict (excess queue) queue) as [evicted q']. cbn [snd] in Hs.
  pose proof (put_queue_frame vh n queue q' Hn Hq Hs) as Hput.
  etrans; [exact Hput|]. eapply process_evicted_frame; [by eapply named_frame|exact He].
Qed.
End below.

Lemma push_last_frame msg n vh vh' :
  named vh → match vh_Queues vh !! n with
             | None => Ok vh
             | Some queue => queue ← map_err GoPanic (push_unlimited msg queue); Ok (put_queue queue vh)
             end = Ok vh' → same_frame vh vh'.
Proof.
  intros Hn Hp. destruct (vh_Queues vh !! n) as [q|] eqn:Hq; [|inv_ok; apply same_frame_refl].
  apply res_bind_ok in Hp as (q' & Hq' & E). apply (inj Ok) in E as <-. apply map_err_ok in Hq'.
  eapply put_queue_frame; [done|exact Hq|by eapply push_settings].
Qed.

Lemma Push_frame fuel : framed (Push now fuel).
Proof.
  induction fuel as [|fuel IH]; intros n msg vh vh' Hn Hp; [done|]. cbn [Push] in Hp.
  destruct (vh_Queues vh !! n) as [q|] eqn:Hq; [|inv_ok; apply same_frame_refl].
  apply res_bind_ok in Hp as (vh1 & He & Hp).
  assert (Hs : same_frame vh vh1).
  { case_decide; [by eapply EnforceMaxLength_frame|]. inv_ok. apply same_frame_refl. }
  etrans; [exact Hs|]. eapply push_last_frame; [by eapply named_frame|exact Hp].
Qed.

Lemma Push_locked_frame locked fuel : framed (Push_locked now locked fuel).
Proof.
  induction fuel as [|fuel IH]; intros n msg vh vh' Hn Hp; [done|]. cbn [Push_locked] in Hp.
  case_decide; [done|].
  destruct (vh_Queues vh !! n) as [q|] eqn:Hq; [|inv_ok; apply same_frame_refl].
  apply res_bind_ok in Hp as (vh1 & He & Hp).
  assert (Hs : same_frame vh vh1).
  { case_decide; [by eapply EnforceMaxLength_frame|]. inv_ok. apply same_frame_refl. }
  etrans; [exact Hs|]. eapply push_last_frame; [by eapply named_frame|exact Hp].
Qed.
End push_frame.

(** ** Well-formed virtual hosts stay so *)

Lemma wf_named C vh : wf_names_but C vh → named vh.
Proof. intros Hwf n q Hq. apply (wn_queue _ _ Hwf _ _ Hq). Qed.

(** Queues may change anything but their name, their state and their count of
    consumers. *)
Definition alike (q q' : Queue) : Prop :=
  q_Name q' = q_Name q ∧ q_stopped q' = q_stopped q ∧ q_consumers q' = q_consumers q.

Lemma wf_names_alike C vh vh' :
  vh_Exchanges vh' = vh_Exchanges vh → vh_index vh' = vh_index vh →
  vh_ChannelDeliveries vh' = vh_ChannelDeliveries vh →
  (∀ n, option_Forall2 alike (vh_Queues vh !! n) (vh_Queues vh' !! n)) →
  wf_names_but C vh → wf_names_but C vh'.
Proof.
  intros Ee Ei Ec Hq Hwf.
  assert (Hsome : ∀ n, is_Some (vh_Queues vh !! n) → is_Some (vh_Queues vh' !! n)).
  { intros n [q Hn]. specialize (Hq n). rewrite Hn in Hq. inversion Hq; subst. by eexists. }
  assert (Hback : ∀ n q', vh_Queues vh' !! n = Some q' → ∃ q, vh_Queues vh !! n = Some q ∧ alike q q').
  { intros n q' Hn. specialize (Hq n). rewrite Hn in Hq. inversion Hq; subst. by eexists. }
  split; rewrite ?Ee, ?Ei, ?Ec; try apply Hwf.
  - intros n e key bs He Hb. destruct (wn_binding _ _ Hwf _ _ _ _ He Hb) as [? Hf].
    split; [done|]. by eapply wf_binding_mono.
  - intros n q' (q & Hn & -> & -> & _)%Hback. by apply (wn_queue _ _ Hwf).
  - intros n Hn. by apply Hsome, (wn_consumers _ _ Hwf).
  - intros n q' (q & Hn & _ & _ & ->)%Hback. by apply (wn_count _ _ Hwf).
Qed.

Lemma wf_names_frame C vh vh' : same_frame vh vh' → wf_names_but C vh → wf_names_but C vh'.
Proof.
  intros Hs. apply wf_names_alike; [apply Hs..|]. intros n.
  pose proof (ss_queues _ _ (sf_shape _ _ Hs) n) as Hq.
  destruct (vh_Queues vh !! n), (vh_Queues vh' !! n); try done; constructor. split; [apply Hq|split; apply Hq].
Qed.

Lemma put_channel_wf C key ch vh : wf_channel ch → wf_names_but C vh → wf_names_but C (put_channel key ch vh).
Proof.
  intros Hch Hwf. apply wf_names_channels; [done|]. intros k c. rewrite lookup_insert_Some.
  intros [[_ <-]|[_ Hk]]; [done|by apply (wn_channel _ _ Hwf k)].
Qed.

Lemma channel_of_wf key vh : wf_names vh → wf_channel (channel_of vh key).
Proof.
  intros Hwf. unfold channel_of. destruct (vh_ChannelDeliveries vh !! key) as [ch|] eqn:E;
    [by apply (wn_channel _ _ Hwf key)|apply new_channel_wf].
Qed.

Lemma get_or_create_wf key vh :
  wf_names vh → wf_names (GetOrCreateChannelDelivery key vh).2 ∧ wf_channel (GetOrCreateChannelDelivery key vh).1.
Proof.
  intros Hwf. rewrite get_or_create. cbn [fst snd]. split; [|by apply channel_of_wf].
  destruct (vh_ChannelDeliveries vh !! key); [done|]. apply put_channel_wf; [apply new_channel_wf|done].
Qed.

Section settling.
Context `{Runtime}.

Lemma put_step_wf key ch ch' vh :
  wf_names vh → wf_channel ch → channel_step ch ch' → wf_names (put_channel key ch' vh).
Proof. intros Hwf Hch Hs. apply put_channel_wf; [by eapply channel_step_wf|done]. Qed.

Lemma HandleBasicQos_wf key n global vh : wf_names vh → wf_names (HandleBasicQos key n global vh).
Proof.
  intros Hwf. unfold HandleBasicQos. destruct (get_or_create_wf key vh Hwf) as [Hv Hc].
  destruct (GetOrCreateChannelDelivery key vh) as [ch vh']. eapply put_step_wf; [done..|apply step_qos].
Qed.
Lemma HandleChannelFlow_wf key active by_ vh : wf_names vh → wf_names (HandleChannelFlow key active by_ vh).
Proof.
  intros Hwf. unfold HandleChannelFlow. destruct (get_or_create_wf key vh Hwf) as [Hv Hc].
  destruct (GetOrCreateChannelDelivery key vh) as [ch vh']. eapply put_step_wf; [done..|apply step_flow].
Qed.

Lemma pop_unacked_wf key deliveryTag multiple methodID vh :
  wf_names vh → wf_names (pop_unacked key deliveryTag multiple methodID vh).1.
Proof.
  intros Hwf. unfold pop_unacked.
  destruct (popUnackedRecords _ _ _ _ _) as [[removed [ch|]]|e] eqn:Hp; [|done..].
  cbn [fst]. destruct (vh_ChannelDeliveries vh !! key) as [ch0|] eqn:E.
  - eapply put_step_wf; [done|by apply (wn_channel _ _ Hwf key)|].
    eapply step_settle; [apply range_records_visits|exact Hp].
  - unfold popUnackedRecords in Hp. by repeat case_match.
Qed.

Lemma ack_records_frame records : ∀ vh, same_frame vh (foldl ack_record vh records).
Proof.
  induction records as [|r records IH]; intros vh; [apply same_frame_refl|]. cbn [foldl].
  etrans; [|apply IH]. unfold ack_record. destruct (dr_QueueDeleted r); [apply same_frame_refl|].
  by apply persist_if_frame.
Qed.

Lemma HandleBasicAck_wf key deliveryTag multiple vh :
  wf_names vh → wf_names (HandleBasicAck key deliveryTag multiple vh).1.
Proof.
  intros Hwf. unfold HandleBasicAck. pose proof (pop_unacked_wf key deliveryTag multiple BASIC_ACK vh Hwf) as Hp.
  destruct (pop_unacked _ _ _ _ _) as [vh' [removed|e]]; cbn [fst] in *; [|done].
  eapply wf_names_frame; [apply ack_records_frame|done].
Qed.

Section timed.
Variables (now : Z) (fuel : nat).

(** A step of a handler that keeps the frame of a named vhost. *)
Definition frames_one {A} (f : A → VHost → res stop VHost) : Prop :=
  ∀ x vh vh', named vh → f x vh = Ok vh' → same_frame vh vh'.

Lemma for_each_frame {A} (f : A → VHost → res stop VHost) l : frames_one f → ∀ vh vh',
  named vh → for_each f l vh = Ok vh' → same_frame vh vh'.
Proof.
  intros Hf. induction l as [|x l IH]; intros vh vh' Hn Hl; cbn in Hl.
  - apply (inj Ok) in Hl as <-. apply same_frame_refl.
  - apply res_bind_ok in Hl as (vh1 & H1 & Hl). apply Hf in H1; [|done].
    etrans; [exact H1|]. apply IH; [by eapply named_frame|done].
Qed.

Lemma expiration_frame push_to msg queue vh vh' expired :
  framed push_to → named vh → handleTTLExpiration_with now push_to msg queue vh = Ok (vh', expired) →
  same_frame vh vh'.
Proof.
  intros Hp Hn Ht. unfold handleTTLExpiration_with in Ht.
  destruct (negb _); [inv_ok; apply same_frame_refl|].
  destruct (CheckExpiration _ _ _ _) as [[]|]; [|inv_ok; apply same_frame_refl..].
  apply res_bind_ok in Ht as ([vh1 ok] & Hd & E). apply (inj Ok) in E. injection E as <- _.
  etrans; [by eapply handleDeadLetter_frame|]. by apply persist_if_frame.
Qed.

Lemma mark_frame id vh : same_frame vh (markAsRedelivered id vh).
Proof. apply same_log_frame; [|done..]. split; [done..|]. exact (ss_queues _ _ (same_shape_refl vh)). Qed.

Lemma marked_push_frame n id msg vh vh' :
  named vh → Push now fuel n msg (markAsRedelivered id vh) = Ok vh' → same_frame vh vh'.
Proof.
  intros Hn Hp. etrans; [apply (mark_frame id)|]. eapply Push_frame; [|exact Hp].
  by eapply named_frame; [apply mark_frame|].
Qed.

Lemma requeueMessage_frame : frames_one (requeueMessage now fuel).
Proof.
  intros r vh vh' Hn Hr. unfold requeueMessage in Hr.
  destruct (vh_Queues vh !! dr_QueueName r) as [q|]; [|inv_ok; apply same_frame_refl].
  apply res_bind_ok in Hr as ([vh1 expired] & Ht & Hr). apply expiration_frame in Ht; [|apply Push_frame|done].
  etrans; [exact Ht|]. eapply marked_push_frame; [by eapply named_frame|exact Hr].
Qed.

Lemma nack_requeue_frame : frames_one (nack_requeue now fuel).
Proof.
  intros r vh vh' Hn Hr. unfold nack_requeue in Hr.
  destruct (dr_QueueDeleted r); [inv_ok; apply same_frame_refl|].
  destruct (vh_Queues vh !! dr_QueueName r) as [q|]; [|inv_ok; apply same_frame_refl].
  apply res_bind_ok in Hr as ([vh1 expired] & Ht & Hr). apply expiration_frame in Ht; [|apply Push_frame|done].
  destruct expired; [inv_ok; done|]. etrans; [exact Ht|].
  eapply marked_push_frame; [by eapply named_frame|exact Hr].
Qed.

Lemma nack_discard_frame : frames_one (nack_discard now fuel).
Proof.
  intros r vh vh' Hn Hr. unfold nack_discard in Hr.
  destruct (dr_QueueDeleted r); [inv_ok; apply same_frame_refl|].
  destruct (vh_Queues vh !! dr_QueueName r) as [q|]; [|inv_ok; apply same_frame_refl].
  apply res_bind_ok in Hr as ([vh1 ok] & Hd & Hr). apply handleDeadLetter_frame in Hd; [|apply Push_frame|done].
  destruct ok; inv_ok; [done|]. etrans; [exact Hd|]. by apply persist_if_frame.
Qed.

Lemma handleBasicNack_wf key deliveryTag multiple requeue methodID vh vh' r :
  wf_names vh → handleBasicNack now fuel key deliveryTag multiple requeue methodID vh = Ok (vh', r) → wf_names vh'.
Proof.
  intros Hwf Hn. unfold handleBasicNack in Hn.
  pose proof (pop_unacked_wf key deliveryTag multiple methodID vh Hwf) as Hp.
  destruct (pop_unacked _ _ _ _ _) as [vh1 [records|e]]; cbn [fst] in Hp; [|by inv_ok].
  apply res_bind_ok in Hn as (vh2 & Hl & E). apply (inj Ok) in E. injection E as <- _.
  eapply wf_names_frame; [|exact Hp]. eapply for_each_frame; [|by eapply wf_named|exact Hl].
  destruct requeue; [apply nack_requeue_frame|apply nack_discard_frame].
Qed.

Lemma put_popped_frame n q vh : named vh → vh_Queues vh !! n = Some q → same_frame vh (put_queue (Pop q).2 vh).
Proof. intros Hn Hq. eapply put_queue_frame; [done|done|apply pop_settings]. Qed.

Lemma GetMessage_frame n vh vh' msg :
  named vh → GetMessage now fuel n vh = Ok (vh', msg) → same_frame vh vh'.
Proof.
  intros Hn Hg. unfold GetMessage in Hg. destruct (vh_Queues vh !! n) as [q|] eqn:Hq;
    [|inv_ok; apply same_frame_refl].
  pose proof (put_popped_frame n q vh Hn Hq) as Hput.
  destruct (Pop q) as [[m|] q']; cbn [snd] in Hput; [|by inv_ok].
  apply res_bind_ok in Hg as ([vh1 expired] & Ht & E). apply (inj Ok) in E. injection E as <- _.
  apply expiration_frame in Ht; [|apply Push_frame|by eapply named_frame]. by etrans.
Qed.

Lemma purge_message_frame locked q : frames_one (purge_message now fuel locked q).
Proof.
  intros m vh vh' Hn Hp. unfold purge_message in Hp. apply res_bind_ok in Hp as ([vh1 expired] & Ht & Hp).
  apply expiration_frame in Ht; [|apply Push_locked_frame|done].
  destruct expired; inv_ok; [done|]. etrans; [exact Ht|]. by apply persist_if_frame.
Qed.
End timed.
End settling.

(** ** Delivery tags

    A channel's next tag is new as long as its 64-bit counter has not wrapped
    around; [tags_left k] leaves room for [k] more deliveries on each channel. *)
Definition tags_left (k : Z) (vh : VHost) : Prop :=
  0 <= k < 2 ^ 64 - 1 ∧ ∀ key ch, vh_ChannelDeliveries vh !! key = Some ch → LastDeliveryTag ch + k < 2 ^ 64 - 1.

Lemma tags_left_frame k vh vh' : same_frame vh vh' → tags_left k vh → tags_left k vh'.
Proof. intros Hs [Hk Ht]. split; [done|]. by rewrite (sf_channels _ _ Hs). Qed.

Lemma tags_left_less k k' vh : 0 <= k' <= k → tags_left k vh → tags_left k' vh.
Proof. intros Hk [? Ht]. split; [lia|]. intros key ch Hch. specialize (Ht key ch Hch). lia. Qed.

Lemma tags_left_put k key ch vh : LastDeliveryTag ch + k < 2 ^ 64 - 1 → tags_left k vh → tags_left k (put_channel key ch vh).
Proof.
  intros Hch [Hk Ht]. split; [done|]. intros k' ch'. cbn. rewrite lookup_insert_Some.
  intros [[_ <-]|[_ Hc]]; [done|by eapply Ht].
Qed.

Lemma channel_of_left k key vh : tags_left k vh → LastDeliveryTag (channel_of vh key) + k < 2 ^ 64 - 1.
Proof.
  intros [Hk Ht]. unfold channel_of. destruct (vh_ChannelDeliveries vh !! key) as [ch|] eqn:E; [by eapply Ht|].
  change (LastDeliveryTag (default new_channel_state None)) with 0. lia.
Qed.

Section delivering.
Context `{Runtime, FrameSender}.

Lemma after_send_frame consumer msg redelivered vh : same_frame vh (after_send consumer msg redelivered vh).
Proof.
  unfold after_send.
  etrans; [by apply (persist_if_frame (c_NoAck consumer && is_persistent msg)
    (DeleteMessage (c_QueueName consumer) (m_ID msg)))|]. destruct redelivered; [|apply same_frame_refl].
  apply same_log_frame; [|done..]. split; [done..|]. exact (ss_queues _ _ (same_shape_refl _)).
Qed.

Lemma untrack_failed_wf noAck key tag ch vh :
  wf_channel ch → wf_names vh → wf_names (untrack_failed noAck key tag ch vh).
Proof.
  intros Hch Hwf. unfold untrack_failed. destruct (UnackedByTag ch !! tag) as [r|] eqn:Hr; [|done].
  destruct noAck; [done|]. eapply put_step_wf; [done..|by eapply step_send_failed].
Qed.

Lemma untrack_failed_left k noAck key tag ch vh :
  LastDeliveryTag ch + k < 2 ^ 64 - 1 → tags_left k vh → tags_left k (untrack_failed noAck key tag ch vh).
Proof.
  intros Hch Ht. unfold untrack_failed. destruct (UnackedByTag ch !! tag) as [r|]; [|done].
  destruct noAck; [done|]. apply tags_left_put; [|done]. unfold deleteUnackedDelivery, untrackDeliverySource.
  by repeat case_match.
Qed.

Lemma deliverToConsumer_wf k consumer msg redelivered vh out :
  0 <= k → tags_left (1 + k) vh → wf_names vh →
  let vh' := (deliverToConsumer consumer msg redelivered vh out).1.1 in wf_names vh' ∧ tags_left k vh'.
Proof.
  intros Hk Hleft Hwf. pose proof (tags_left_less (1 + k) k _ ltac:(lia) Hleft) as Hless.
  pose proof (proj1 Hless) as Hbound. unfold deliverToConsumer.
  destruct (negb (c_Active consumer)); [done|].
  set (key := channel_key consumer). pose proof (channel_of_left _ key _ Hleft) as Hlast.
  pose proof (channel_of_wf key _ Hwf) as Hch. destruct (get_or_create_wf key vh Hwf) as [Hwf1 _].
  rewrite get_or_create in *. cbn [snd] in Hwf1. set (vh1 := if vh_ChannelDeliveries vh !! key then vh else _) in *.
  assert (Hleft1 : tags_left k vh1).
  { unfold vh1. destruct (vh_ChannelDeliveries vh !! key); [done|].
    apply tags_left_put; [|done]. change (LastDeliveryTag new_channel_state) with 0. lia. }
  set (ch := channel_of vh key) in *.
  pose proof (track_consumer_delivery_wf (c_NoAck consumer) (c_Tag consumer) (c_QueueName consumer) msg ch Hch ltac:(lia)) as Hwf2.
  assert (Htag : LastDeliveryTag (track_consumer_delivery (c_NoAck consumer) (c_Tag consumer)
      (c_QueueName consumer) msg ch).2 = LastDeliveryTag ch + 1).
  { unfold track_consumer_delivery. rewrite next_tag_small by (split; [apply Hch|lia]).
    by destruct (c_NoAck consumer). }
  destruct (track_consumer_delivery _ _ _ _ _) as [tag ch2]. cbn [snd] in Hwf2, Htag.
  assert (Hput : wf_names (put_channel key ch2 vh1)) by by apply put_channel_wf.
  assert (Hputl : tags_left k (put_channel key ch2 vh1)) by (apply tags_left_put; [lia|done]).
  assert (Hfail : ∀ noAck, wf_names (untrack_failed noAck key tag ch2 (put_channel key ch2 vh1)) ∧
      tags_left k (untrack_failed noAck key tag ch2 (put_channel key ch2 vh1))).
  { intros noAck. split; [by apply untrack_failed_wf|]. apply untrack_failed_left; [lia|done]. }
  destruct (delivery_frames _ _ _ _); [|apply Hfail].
  destruct (SendFrame _ _ _); [|apply Hfail]. cbn [fst].
  pose proof (after_send_frame consumer msg (redelivered || ShouldRedeliver (m_ID msg) vh) (put_channel key ch2 vh1)) as Hs.
  split; [by eapply wf_names_frame|by eapply tags_left_frame].
Qed.

Section timed.
Variables (now : Z) (fuel : nat).

Lemma recover_record_wf k key requeue record vh out vh' out' :
  0 <= k → tags_left (1 + k) vh → wf_names vh →
  recover_record now fuel key requeue record (vh, out) = Ok (vh', out') → wf_names vh' ∧ tags_left k vh'.
Proof.
  intros Hk Hleft Hwf Hr. unfold recover_record in Hr.
  apply res_bind_ok in Hr as ([vh1 expired] & Ht & Hr).
  assert (Hs : same_frame vh vh1).
  { destruct (vh_Queues vh !! dr_QueueName record); [|inv_ok; apply same_frame_refl].
    eapply expiration_frame; [apply Push_frame|by eapply wf_named|exact Ht]. }
  assert (Hwf1 : wf_names vh1) by by eapply wf_names_frame.
  assert (Hleft1 : tags_left (1 + k) vh1) by by eapply tags_left_frame.
  pose proof (tags_left_less (1 + k) k _ ltac:(lia) Hleft1) as Hless.
  assert (Hrequeue : ∀ vh2 out2, wf_names vh2 ∧ tags_left k vh2 →
    (vh ← requeueMessage now fuel record vh2; Ok (vh, out2)) = Ok (vh', out') → wf_names vh' ∧ tags_left k vh').
  { intros vh2 out2 [Hw Hl] Hq. apply res_bind_ok in Hq as (vh3 & Hq & E). injection E as <- _.
    apply requeueMessage_frame in Hq; [|by eapply wf_named].
    split; [by eapply wf_names_frame|by eapply tags_left_frame]. }
  destruct expired; [by inv_ok|]. destruct requeue; [by eapply Hrequeue|].
  destruct (recover_target key record vh1) as [consumer|]; [|by eapply Hrequeue].
  pose proof (deliverToConsumer_wf k consumer (dr_Message record) true vh1 out Hk Hleft1 Hwf1) as Hd.
  destruct (deliverToConsumer _ _ _ _ _) as [[vh2 out2] [[]|e]]; cbn [fst] in Hd; [by inv_ok|by eapply Hrequeue].
Qed.

Lemma recover_records_wf key requeue records : ∀ vh out vh' out',
  tags_left (Z.of_nat (length records)) vh → wf_names vh →
  for_each (recover_record now fuel key requeue) records (vh, out) = Ok (vh', out') → wf_names vh'.
Proof.
  induction records as [|r records IH]; intros vh out vh' out' Hleft Hwf Hl; cbn in Hl; [by inv_ok|].
  apply res_bind_ok in Hl as ([vh1 out1] & Hr & Hl).
  eapply (recover_record_wf (Z.of_nat (length records))) in Hr as [Hwf1 Hleft1]; [by eapply IH|lia| |done].
  by replace (1 + Z.of_nat (length records)) with (Z.of_nat (length (r :: records))) by (cbn [length]; lia).
Qed.

Lemma HandleBasicRecover_wf key requeue vh out vh' r out' :
  wf_names vh → (∀ ch, vh_ChannelDeliveries vh !! key = Some ch → tags_left (Z.of_nat (size (UnackedByTag ch))) vh) →
  HandleBasicRecover now fuel key requeue vh out = Ok ((vh', r), out') → wf_names vh'.
Proof.
  intros Hwf Hleft Hr. unfold HandleBasicRecover in Hr.
  destruct (vh_ChannelDeliveries vh !! key) as [ch|] eqn:Hch; [|by inv_ok].
  apply res_bind_ok in Hr as ([vh1 out1] & Hl & E). apply (inj Ok) in E. injection E as <- _ _.
  specialize (Hleft ch eq_refl). pose proof (wn_channel _ _ Hwf _ _ Hch) as Hwc.
  eapply recover_records_wf; [| |exact Hl].
  - apply (tags_left_less (Z.of_nat (size (UnackedByTag ch)))).
    + split; [lia|]. apply inj_le. unfold fetchUnackedMessages.
      etrans; [apply length_filter|]. rewrite length_fmap, (range_records_visits (UnackedByTag ch)). by rewrite length_map_to_list.
    + apply tags_left_put; [|done]. by apply (proj2 Hleft _ _ Hch).
  - eapply put_step_wf; [done|exact Hwc|apply step_recover].
Qed.
End timed.
End delivering.

(** ** Purging and publishing *)

Section purging.
Context `{Runtime}.
Variables (now : Z) (fuel : nat).

Lemma purge_levels_settings q : same_settings q (StreamPurge q).2.
Proof.
  unfold StreamPurge. case_decide; [|done]. by destruct (purge_levels _ _).
Qed.

Lemma PurgeQueue_wf name connID vh vh' r :
  wf_names vh → PurgeQueue now fuel name connID vh = Ok (vh', r) → wf_names vh'.
Proof.
  intros Hwf Hp. unfold PurgeQueue in Hp. destruct (vh_Queues vh !! name) as [q|] eqn:Hq; [|by inv_ok].
  destruct (validateQueueOwnership q connID QUEUE QUEUE_PURGE); [|by inv_ok].
  pose proof (put_queue_frame vh name q _ (wf_named _ _ Hwf) Hq (purge_levels_settings q)) as Hput.
  destruct (StreamPurge q) as [[taken purged] q']. cbn [snd] in Hput.
  apply res_bind_ok in Hp as (vh1 & Hl & E). apply (inj Ok) in E. injection E as <- _.
  eapply wf_names_frame; [|exact Hwf]. etrans; [exact Hput|].
  eapply for_each_frame; [apply purge_message_frame| |exact Hl]. by eapply named_frame, wf_named.
Qed.

Lemma Publish_wf exchange key msg vh vh' r :
  wf_names vh → Publish now fuel exchange key msg vh = Ok (vh', r) → wf_names vh'.
Proof.
  intros Hwf Hp. eapply wf_names_frame; [|exact Hwf].
  eapply Publish_with_frame; [apply Push_frame|by eapply wf_named|exact Hp].
Qed.
End purging.
