(* ===== verification/Recovery.v ===== *)
(** * Starting from persisted state: vhost/vhost.go, vhost/message.go, broker.go

    What the vhost hands to the persistence layer, what it makes of what the
    layer gives back, and the virtual hosts a broker starts with. *)

From stdpp Require Import base list gmap strings.
From Stdlib Require Import ZArith Lia.
From S2P Require Import Prelude Bytes Paths Values Properties Methods Args Queue Deliveries Consumers Json VHost.
From S2P Require Import Store Lifecycle Routing Declare Expiry Publish.

Local Open Scope Z_scope.
Local Open Scope string_scope.
Local Open Scope list_scope.

(** ** Conversions *)

Definition queue_ToPersistence (p : QueueProperties) : persistence.QueueProperties :=
  persistence.MkQueueProperties (qp_Durable p) (qp_Exclusive p) (qp_AutoDelete p) (qp_Arguments p).

Definition exchange_ToPersistence (p : ExchangeProperties) : persistence.ExchangeProperties :=
  persistence.MkExchangeProperties (ep_Durable p) (ep_AutoDelete p) (ep_Internal p) (ep_Arguments p).

Definition convertToPersistedProperties (p : BasicProperties) : persistence.MessageProperties :=
  let timestamp := if IsZero (Timestamp p) then 0 else (Timestamp p).1 in
  persistence.MkMessageProperties (ContentType p) (ContentEncoding p) (Headers p) (DeliveryMode p)
    (Priority p) (CorrelationID p) (ReplyTo p) (Expiration p) (MessageID p) timestamp (Type_ p)
    (UserID p) (AppID p).

Definition ToPersistence (m : Message) : persistence.Message :=
  persistence.MkMessage (m_ID m) (m_Body m) (convertToPersistedProperties (m_Properties m))
    (UnixMilli (m_EnqueuedAt m)).

Definition FromPersistence (m : persistence.Message) : Message :=
  let p := persistence.pm_Properties m in
  MkMessage (persistence.pm_ID m) (persistence.pm_EnqueuedAt m * Millisecond) (persistence.pm_Body m)
    (MkProps (persistence.mp_ContentType p) (persistence.mp_ContentEncoding p) (persistence.mp_Headers p)
       (persistence.mp_DeliveryMode p) (persistence.mp_Priority p) (persistence.mp_CorrelationID p)
       (persistence.mp_ReplyTo p) (persistence.mp_Expiration p) (persistence.mp_MessageID p)
       (persistence.mp_Timestamp p, 0) (persistence.mp_Type p) (persistence.mp_UserID p)
       (persistence.mp_AppID p) "") "" "".

(** ** NewVhost *)

Section recovery.
Context `{Runtime, JsonReader, Sha256}.

(** Time does not matter: a recovered queue has no limit, so nothing is
    dead-lettered while its messages are pushed. *)
Definition push_recovered (name : string) (m : persistence.Message) (vh : VHost) : res stop VHost :=
  Push 0 1 name (FromPersistence m) vh.

(** The properties of a recovered queue; the settings [x-max-length] and
    [x-max-priority] ask for stay at zero. *)
Definition recovered_props (p : persistence.QueueProperties) : QueueProperties :=
  MkQueueProps false (persistence.pq_Durable p) (persistence.pq_AutoDelete p) (persistence.pq_Exclusive p)
    (persistence.pq_Arguments p).

Definition recovered_queue (name : string) (p : persistence.QueueProperties) (vh : VHost) : Queue :=
  set_declared (recovered_props p) 0 0 "" (NewQueue name (vh_queueBufferSize vh)).

Definition recover_queue (snapshot : persistence.QueueSnapshot) (vh : VHost) : res stop VHost :=
  let name := persistence.qs_Name snapshot in
  let p := persistence.qs_Properties snapshot in
  if persistence.pq_Exclusive p then Ok vh else
  let vh := set_Queues (<[name := recovered_queue name p vh]> (vh_Queues vh)) vh in
  for_each (push_recovered name) (persistence.qs_Messages snapshot) vh.

Definition skipped_queues (queues : list persistence.QueueSnapshot) : list string :=
  persistence.qs_Name <$> filter (λ q, persistence.pq_Exclusive (persistence.qs_Properties q) = true) queues.

(** The errors of [BindQueue] are logged. *)
Definition recover_binding (exchange : string) (skipped : list string) (vh : VHost)
    (b : persistence.BindingData) : VHost :=
  if decide (persistence.bd_QueueName b ∈ skipped) then vh
  else (BindQueue exchange (persistence.bd_QueueName b) (persistence.bd_RoutingKey b)
          (persistence.bd_Arguments b) INTERNAL_CONN_ID vh).1.

Definition recovered_exchange_props (p : persistence.ExchangeProperties) : ExchangeProperties :=
  MkExchangeProps false (persistence.pe_Durable p) (persistence.pe_AutoDelete p) false false
    (persistence.pe_Arguments p).

Definition recover_exchange (skipped : list string) (vh : VHost) (snapshot : persistence.ExchangeSnapshot)
    : VHost :=
  let name := persistence.es_Name snapshot in
  let exchange := NewExchange name (persistence.es_Type snapshot)
    (Some (recovered_exchange_props (persistence.es_Properties snapshot))) in
  foldl (recover_binding name skipped) (set_Exchanges (<[name := exchange]> (vh_Exchanges vh)) vh)
    (persistence.es_Bindings snapshot).

Definition loadPersistedState (name : string) (d : disk) (vh : VHost) : res stop VHost :=
  let queues := JsonPersistence.LoadAllQueues name d in
  vh ← for_each recover_queue queues vh;
  Ok (foldl (recover_exchange (skipped_queues queues)) vh (JsonPersistence.LoadAllExchanges name d)).

(** The extensions are set up after the state is loaded; nothing that loading
    does looks at them. *)
Definition NewVhost (name : string) (queueBufferSize maxPriority : Z) (dlx ttl qll : bool) (d : disk)
    : res stop VHost :=
  loadPersistedState name d (new_vhost queueBufferSize maxPriority dlx ttl qll).

(** ** Loading always succeeds *)

(** A vhost that is being loaded: no consumers and no deliveries yet, and queues
    without a limit and without priorities. *)
Record loading (vh : VHost) : Prop := {
  ld_names : wf_names vh;
  ld_index : vh_index vh = empty_index;
  ld_queues : ∀ n q, vh_Queues vh !! n = Some q → q_maxLength q = 0 ∧ q_maxPriority q = 0;
}.

Lemma push_recovered_ok name m vh q : vh_Queues vh !! name = Some q → q_maxLength q = 0 → q_maxPriority q = 0 →
  push_recovered name m vh = Ok (put_queue (push (FromPersistence m) q) vh).
Proof.
  intros Hq Hl Hp. unfold push_recovered, Push. rewrite Hq, decide_False by lia.
  cbn [mbind res_mbind res_bind]. rewrite Hq. unfold push_unlimited. by rewrite decide_False by lia.
Qed.

Lemma push_keeps_settings m q : q_Name (push m q) = q_Name q ∧ q_stopped (push m q) = q_stopped q ∧
  q_consumers (push m q) = q_consumers q ∧ q_maxLength (push m q) = q_maxLength q ∧
  q_maxPriority (push m q) = q_maxPriority q ∧ q_Props (push m q) = q_Props q ∧ q_bufferSize (push m q) = q_bufferSize q.
Proof. unfold push. destruct (q_stopped q) eqn:E; [done|]. by case_decide. Qed.

Lemma put_queue_loading q q' vh : loading vh → vh_Queues vh !! q_Name q = Some q →
  q_Name q' = q_Name q → q_stopped q' = q_stopped q → q_consumers q' = q_consumers q →
  q_maxLength q' = 0 → q_maxPriority q' = 0 → loading (put_queue q' vh).
Proof.
  intros [Hwf Hix Hqs] Hq Hn Hst Hc Hl Hp. split; [|done|].
  - unfold put_queue. rewrite Hn. by apply (wf_names_contents ∅ vh (q_Name q) q q').
  - cbn. intros n x. rewrite Hn, lookup_insert_Some. intros [[<- <-]|[_ Hx]]; [done|by apply (Hqs n)].
Qed.

Lemma push_all_loading name ms vh q :
  loading vh → vh_Queues vh !! name = Some q →
  ∃ vh', for_each (push_recovered name) ms vh = Ok vh' ∧ loading vh' ∧
    vh_Exchanges vh' = vh_Exchanges vh ∧ vh_queueBufferSize vh' = vh_queueBufferSize vh ∧
    vh_persist vh' = vh_persist vh ∧
    vh_Queues vh' = <[name := foldl (λ q m, push (FromPersistence m) q) q ms]> (vh_Queues vh).
Proof.
  revert vh q. induction ms as [|m ms IH]; intros vh q Hld Hq.
  - exists vh. split_and!; try done. by rewrite insert_id.
  - cbn [for_each foldl]. destruct (ld_queues vh Hld name q Hq) as [Hl Hp].
    assert (q_Name q = name) as Hn by apply (wn_queue _ _ (ld_names vh Hld) name q Hq).
    rewrite (push_recovered_ok name m vh q) by done. cbn [mbind res_mbind res_bind].
    set (q' := push (FromPersistence m) q).
    destruct (push_keeps_settings (FromPersistence m) q) as (Hn' & Hst & Hc & Hl' & Hp' & _). fold q' in Hn', Hst, Hc, Hl', Hp'.
    destruct (IH (put_queue q' vh) q') as (vh' & -> & Hld' & He & Hb & Hps & Hqs).
    + apply (put_queue_loading q); try done; [by rewrite Hn|congruence..].
    + cbn. rewrite Hn', Hn. apply lookup_insert_eq.
    + exists vh'. split_and!; try done. rewrite Hqs. cbn. by rewrite Hn', Hn, insert_insert_eq.
Qed.

Lemma recovered_queue_loading name p vh : loading vh →
  loading (set_Queues (<[name := recovered_queue name p vh]> (vh_Queues vh)) vh).
Proof.
  intros [Hwf Hix Hqs].
  assert (∀ n, by_queue (vh_index vh) n = []) as Hempty by (intros n; by rewrite Hix).
  split; [split; cbn; try apply Hwf|done|].
  - intros n e key bs He Hb. destruct (wn_binding _ _ Hwf _ _ _ _ He Hb) as [Hne Hf].
    split; [done|]. eapply wf_binding_mono; [|done]. cbn. intros n' Hn'.
    destruct (decide (name = n')) as [->|]; [rewrite lookup_insert_eq; by eexists|by rewrite lookup_insert_ne].
  - intros n q. rewrite lookup_insert_Some. intros [[<- <-]|[_ Hq]]; [done|by apply (wn_queue _ _ Hwf)].
  - intros n Hn. by destruct Hn.
  - intros n q. rewrite lookup_insert_Some. intros [[<- <-]|[_ Hq]]; [by rewrite Hempty|by apply (wn_count _ _ Hwf)].
  - cbn. intros n q. rewrite lookup_insert_Some. intros [[<- <-]|[_ Hq]]; [done|by apply (Hqs n)].
Qed.

(** The contents of a queue after its messages were pushed. *)
Definition refilled (q : Queue) (ms : list persistence.Message) : Queue :=
  foldl (λ q m, push (FromPersistence m) q) q ms.

Lemma recover_queue_loading s vh : loading vh →
  ∃ vh', recover_queue s vh = Ok vh' ∧ loading vh' ∧ vh_Exchanges vh' = vh_Exchanges vh ∧
    vh_queueBufferSize vh' = vh_queueBufferSize vh ∧ vh_persist vh' = vh_persist vh ∧
    let p := persistence.qs_Properties s in
    let name := persistence.qs_Name s in
    vh_Queues vh' = if persistence.pq_Exclusive p then vh_Queues vh else
      <[name := refilled (recovered_queue name p vh) (persistence.qs_Messages s)]> (vh_Queues vh).
Proof.
  intros Hld. unfold recover_queue. destruct (persistence.pq_Exclusive _); [by exists vh|].
  set (name := persistence.qs_Name s). set (p := persistence.qs_Properties s).
  destruct (push_all_loading name (persistence.qs_Messages s) _ (recovered_queue name p vh)
    (recovered_queue_loading name p vh Hld)) as (vh' & -> & Hld' & He & Hb & Hps & Hqs);
    [apply lookup_insert_eq|].
  exists vh'. split_and!; try done. rewrite Hqs. cbn. by rewrite insert_insert_eq.
Qed.

Lemma recover_queues_loading ss vh : loading vh →
  ∃ vh', for_each recover_queue ss vh = Ok vh' ∧ loading vh' ∧ vh_Exchanges vh' = vh_Exchanges vh ∧
    vh_queueBufferSize vh' = vh_queueBufferSize vh ∧ vh_persist vh' = vh_persist vh.
Proof.
  revert vh. induction ss as [|s ss IH]; intros vh Hld; [by exists vh|]. cbn [for_each].
  destruct (recover_queue_loading s vh Hld) as (vh1 & -> & Hld1 & He1 & Hb1 & Hp1 & _). cbn [mbind res_mbind res_bind].
  destruct (IH vh1 Hld1) as (vh2 & -> & Hld2 & He2 & Hb2 & Hp2). exists vh2. split_and!; try done; congruence.
Qed.

Lemma BindQueue_frame exchange queue key args connID vh :
  let vh' := (BindQueue exchange queue key args connID vh).1 in same_queues vh vh'.
Proof.
  unfold BindQueue. cbn zeta. repeat (case_match || case_decide); try done; cbn [fst];
    match goal with |- same_queues _ (persist_if ?c ?l ?v) => exact (proj1 (persist_if_same c l v)) end.
Qed.

Lemma same_queues_loading vh vh' : same_queues vh vh' → wf_names vh' → loading vh → loading vh'.
Proof. intros (Hq & Hi & _) Hwf' [Hwf Hix Hqs]. split; [done|congruence|]. by rewrite Hq. Qed.

Lemma recover_exchange_loading skipped vh s : loading vh →
  loading (recover_exchange skipped vh s) ∧ vh_Queues (recover_exchange skipped vh s) = vh_Queues vh.
Proof.
  intros Hld. unfold recover_exchange.
  set (e := NewExchange _ _ _). set (n := persistence.es_Name s).
  assert (loading (set_Exchanges (<[n := e]> (vh_Exchanges vh)) vh)) as Hld1.
  { apply (same_queues_loading vh); [done| |done]. apply wf_names_insert; [apply Hld|done|].
    cbn. intros key bs Hb. by rewrite lookup_empty in Hb. }
  revert Hld1. change (vh_Queues vh) with (vh_Queues (set_Exchanges (<[n := e]> (vh_Exchanges vh)) vh)).
  generalize (set_Exchanges (<[n := e]> (vh_Exchanges vh)) vh).
  induction (persistence.es_Bindings s) as [|b bs IH]; intros vh1 Hld1; [done|]. cbn [foldl].
  set (vh2 := recover_binding n skipped vh1 b).
  assert (loading vh2 ∧ vh_Queues vh2 = vh_Queues vh1) as [Hld2 <-]; [|by apply IH].
  unfold vh2, recover_binding. case_decide; [done|].
  pose proof (BindQueue_frame n (persistence.bd_QueueName b) (persistence.bd_RoutingKey b)
    (persistence.bd_Arguments b) INTERNAL_CONN_ID vh1) as Hf. split; [|apply Hf].
  apply (same_queues_loading vh1); [exact Hf| |done]. apply BindQueue_wf, Hld1.
Qed.

Lemma recover_exchanges_loading skipped ss vh : loading vh →
  loading (foldl (recover_exchange skipped) vh ss) ∧
  vh_Queues (foldl (recover_exchange skipped) vh ss) = vh_Queues vh.
Proof.
  revert vh. induction ss as [|s ss IH]; intros vh Hld; [done|]. cbn [foldl].
  destruct (recover_exchange_loading skipped vh s Hld) as [Hld1 <-]. by apply IH.
Qed.

Lemma CreateExchange_frame name typ props vh : same_queues vh (CreateExchange name typ props vh).1.
Proof.
  unfold CreateExchange. cbv zeta. destruct (vh_Exchanges vh !! name) as [e|].
  - destruct props as [p|]; [destruct (ep_Passive p)|]; repeat case_decide; done.
  - destruct props as [p|]; [|done]. destruct (ep_Passive p); [done|]. cbn [fst].
    match goal with |- same_queues _ (persist_if ?c ?l ?v) => exact (proj1 (persist_if_same c l v)) end.
Qed.

Lemma mandatory_queues vh : same_queues vh (createMandatoryExchanges vh).
Proof.
  unfold createMandatoryExchanges. generalize mandatoryExchanges. intros l. revert vh.
  induction l as [|x l IH]; intros vh; [done|]. cbn [foldl].
  destruct (CreateExchange_frame x.1 x.2 (Some (MkExchangeProps false false false false false None)) vh)
    as (E1 & E2 & E3 & E4 & E5). destruct (IH (CreateExchange x.1 x.2
    (Some (MkExchangeProps false false false false false None)) vh).1) as (F1 & F2 & F3 & F4 & F5).
  split; [exact (eq_trans F1 E1)|]. split; [exact (eq_trans F2 E2)|]. split; [exact (eq_trans F3 E3)|].
  split; [exact (eq_trans F4 E4)|exact (eq_trans F5 E5)].
Qed.

Lemma new_vhost_loading bufferSize maxPriority dlx ttl qll : loading (new_vhost bufferSize maxPriority dlx ttl qll).
Proof.
  destruct (mandatory_queues (bare_vhost bufferSize maxPriority dlx ttl qll)) as (Hq & Hi & _).
  split; [apply new_vhost_wf|exact Hi|]. intros n q Hn. unfold new_vhost in Hn. rewrite Hq in Hn.
  discriminate Hn.
Qed.

(** Starting from any files gives a vhost, and a well-formed one. *)
Lemma NewVhost_loading name bufferSize maxPriority dlx ttl qll d :
  ∃ vh, NewVhost name bufferSize maxPriority dlx ttl qll d = Ok vh ∧ loading vh.
Proof.
  unfold NewVhost, loadPersistedState.
  destruct (recover_queues_loading (JsonPersistence.LoadAllQueues name d) _
    (new_vhost_loading bufferSize maxPriority dlx ttl qll)) as (vh & -> & Hld & _).
  eexists. split; [done|]. by apply recover_exchanges_loading.
Qed.
End recovery.
