(* ===== verification/Catalogue.v ===== *)
(** * What the store keeps: a catalogue of queues, exchanges and messages

    The abstract specification of json.go: a map from names to queues and one to
    exchanges, and what each call of the vhost does to them.  Files, encoded
    names and the reading back of JSON are hidden; [store_implements_catalogue]
    shows that the files implement it. *)

From stdpp Require Import base list gmap strings sorting.
From Stdlib Require Import ZArith Lia.
From S2P Require Import Prelude Bytes Paths Values Properties Methods Args Queue Deliveries Consumers Json VHost.
From S2P Require Import Store Lifecycle Routing Declare Expiry Publish Recovery.

Local Open Scope Z_scope.
Local Open Scope string_scope.
Local Open Scope list_scope.

(** ** Reading a text twice *)

Lemma utf8_skip k bs : (k <= length bs)%nat → utf8_bytes k bs = take k bs ++ utf8_bytes 0 (drop k bs).
Proof.
  revert bs. induction k as [|k IH]; intros bs Hk; [done|].
  destruct bs as [|b bs]; cbn in Hk; [lia|]. cbn [utf8_bytes take drop app]. by rewrite IH by lia.
Qed.

(** A rune is told by its own bytes. *)
Lemma rune_length_spec bs n : rune_length bs = Some n →
  (1 < n <= length bs)%nat ∧ ∀ rest, rune_length (take n bs ++ rest) = Some n.
Proof.
  intros Hr. destruct bs as [|a [|b rest]]; [done|done|]. unfold rune_length in Hr. cbv zeta beta in Hr.
  destruct ((194 <=? a)%nat && (a <=? 223)%nat) eqn:E1.
  { destruct ((128 <=? b)%nat && (b <=? 191)%nat) eqn:E2; [|done]. injection Hr as <-. split; [simpl; lia|].
    intros y. cbn [take app]. unfold rune_length. cbv zeta beta. by rewrite E1, E2. }
  destruct ((224 <=? a)%nat && (a <=? 239)%nat) eqn:E2.
  { destruct rest as [|c rest]; [done|].
    match type of Hr with (if ?x then _ else _) = _ => destruct x eqn:E3; [|done] end.
    injection Hr as <-. split; [simpl; lia|].
    intros y. cbn [take app]. unfold rune_length. cbv zeta beta. by rewrite E1, E2, E3. }
  destruct ((240 <=? a)%nat && (a <=? 244)%nat) eqn:E3; [|done].
  destruct rest as [|c [|d rest]]; [done|done|].
  match type of Hr with (if ?x then _ else _) = _ => destruct x eqn:E4; [|done] end.
  injection Hr as <-. split; [simpl; lia|].
  intros y. cbn [take app]. unfold rune_length. cbv zeta beta. by rewrite E1, E2, E3, E4.
Qed.

Lemma utf8_bytes_cons b bs : utf8_bytes 0 (b :: bs) =
  if (b <? 128)%nat then b :: utf8_bytes 0 bs else
  match rune_length (b :: bs) with
  | None => replacement ++ utf8_bytes 0 bs
  | Some n => take n (b :: bs) ++ utf8_bytes 0 (drop n (b :: bs))
  end.
Proof.
  cbn [utf8_bytes]. destruct (b <? 128)%nat; [done|].
  destruct (rune_length (b :: bs)) as [n|] eqn:E; [|done].
  destruct (rune_length_spec _ _ E) as [Hn _]. cbn [length] in Hn.
  rewrite utf8_skip by lia. destruct n as [|n]; [lia|]. cbn [take drop app]. cbn [Nat.sub]. by rewrite ?Nat.sub_0_r.
Qed.

Lemma utf8_bytes_idem bs : utf8_bytes 0 (utf8_bytes 0 bs) = utf8_bytes 0 bs.
Proof.
  remember (length bs) as len eqn:El. revert bs El. induction (lt_wf len) as [len _ IH]. intros bs ->.
  destruct bs as [|b bs]; [done|]. rewrite (utf8_bytes_cons b bs).
  destruct (b <? 128)%nat eqn:Eb.
  - rewrite utf8_bytes_cons, Eb. f_equal. by apply (IH (length bs)); [cbn; lia|].
  - destruct (rune_length (b :: bs)) as [n|] eqn:E; cycle 1.
    { transitivity (replacement ++ utf8_bytes 0 (utf8_bytes 0 bs)); [done|]. f_equal.
      by apply (IH (length bs)); [cbn; lia|]. }
    destruct (rune_length_spec _ _ E) as [Hn Hrune].
    set (y := utf8_bytes 0 (drop n (b :: bs))).
    assert (utf8_bytes 0 y = y) as Hy.
    { apply (IH (length (drop n (b :: bs)))); [rewrite length_drop; cbn; lia|done]. }
    assert (∃ t, take n (b :: bs) = b :: t) as [t Ht] by (destruct n; [lia|by eexists]).
    pose proof (Hrune y) as Hr. rewrite Ht in Hr |- *. cbn [app] in Hr |- *.
    rewrite utf8_bytes_cons, Eb, Hr.
    assert (n = length (b :: t)) as -> by (rewrite <-Ht, length_take; cbn in *; lia).
    change (b :: t ++ y) with ((b :: t) ++ y). by rewrite take_app_length, drop_app_length, Hy.
Qed.

Lemma codes_of_codes bs : Forall (λ b, (b < 256)%nat) bs → codes (string_of_codes bs) = bs.
Proof.
  induction 1 as [|b bs Hb Hbs IH]; [done|]. cbn. rewrite Ascii.nat_ascii_embedding by done.
  f_equal. exact IH.
Qed.

Lemma codes_range s : Forall (λ b, (b < 256)%nat) (codes s).
Proof.
  unfold codes. apply Forall_fmap, Forall_true. intros a. apply Ascii.nat_ascii_bounded.
Qed.

Lemma utf8_bytes_range k bs : Forall (λ b, (b < 256)%nat) bs → Forall (λ b, (b < 256)%nat) (utf8_bytes k bs).
Proof.
  intros Hbs. revert k. induction Hbs as [|b bs Hb Hbs IH]; intros k; [done|]. cbn [utf8_bytes].
  destruct k; [|by constructor]. destruct (b <? 128)%nat; [by constructor|].
  destruct (rune_length _); [by constructor|]. apply Forall_app. split; [|done].
  unfold replacement. repeat constructor; lia.
Qed.

Lemma json_text_idem s : json_text (json_text s) = json_text s.
Proof.
  unfold json_text. rewrite codes_of_codes by apply utf8_bytes_range, codes_range.
  by rewrite utf8_bytes_idem.
Qed.

(** ASCII text comes back as it is. *)
Lemma json_text_ascii s : Forall (λ b, (b < 128)%nat) (codes s) → json_text s = s.
Proof.
  unfold json_text. intros Hs. assert (utf8_bytes 0 (codes s) = codes s) as ->.
  { induction Hs as [|b bs Hb Hbs IH]; [done|]. cbn [utf8_bytes].
    apply Nat.ltb_lt in Hb. rewrite Hb. by rewrite IH. }
  unfold codes, string_of_codes. clear Hs. induction s as [|a s IH]; [done|]. cbn.
  by rewrite Ascii.ascii_nat_embedding, IH.
Qed.

(** ** The catalogue *)

Record catalogue : Type := MkCatalogue {
  cat_queues : gmap string (persistence.QueueProperties * list JsonMessageData);
  cat_exchanges : gmap string (string * persistence.ExchangeProperties * list persistence.BindingData);
}.

Definition empty_catalogue : catalogue := MkCatalogue ∅ ∅.

Definition with_args (a : option table) (p : persistence.QueueProperties) : persistence.QueueProperties :=
  persistence.MkQueueProperties (persistence.pq_Durable p) (persistence.pq_Exclusive p)
    (persistence.pq_AutoDelete p) a.

Definition with_exchange_args (a : option table) (p : persistence.ExchangeProperties)
    : persistence.ExchangeProperties :=
  persistence.MkExchangeProperties (persistence.pe_Durable p) (persistence.pe_AutoDelete p)
    (persistence.pe_Internal p) a.

(** The message [SaveMessage] is given. *)
Definition message_data (m : Message) : JsonMessageData :=
  MkMessageData (m_ID m) (m_Body m) (convertToPersistedProperties (m_Properties m)).

Section catalogue.
Context `{Runtime, JsonReader, Sha256}.

Definition add_binding_data (q k : string) (args args' : option table)
    (bs : list persistence.BindingData) : list persistence.BindingData :=
  if existsb (JsonPersistence.same_binding q k args) bs then bs
  else bs ++ [persistence.MkBindingData (json_text q) (json_text k) args'].

(** What a call of the vhost does to the catalogue.  A call whose arguments have
    no JSON text does nothing. *)
Definition note (call : persist_call) (c : catalogue) : catalogue :=
  match call with
  | VHost.SaveExchangeMetadata n typ p =>
      match reread_args (ep_Arguments p) with
      | Some a => MkCatalogue (cat_queues c) (<[n := (json_text typ,
          with_exchange_args a (exchange_ToPersistence p), [])]> (cat_exchanges c))
      | None => c
      end
  | VHost.DeleteExchangeMetadata n => MkCatalogue (cat_queues c) (delete n (cat_exchanges c))
  | VHost.SaveBindingState e q k a =>
      match reread_args a with
      | Some a' => MkCatalogue (cat_queues c) (alter (λ x, (x.1, add_binding_data q k a a' x.2)) e (cat_exchanges c))
      | None => c
      end
  | VHost.DeleteBindingState e q k a =>
      MkCatalogue (cat_queues c)
        (alter (λ x, (x.1, filter (λ b, JsonPersistence.same_binding q k a b = false) x.2)) e (cat_exchanges c))
  | VHost.SaveQueueMetadata n p =>
      match reread_args (qp_Arguments p) with
      | Some a => MkCatalogue (<[n := (with_args a (queue_ToPersistence p),
          default [] (snd <$> cat_queues c !! n))]> (cat_queues c)) (cat_exchanges c)
      | None => c
      end
  | VHost.DeleteQueueMetadata n => MkCatalogue (delete n (cat_queues c)) (cat_exchanges c)
  | VHost.SaveMessage q m =>
      match reread_message (message_data m) with
      | Some m' => MkCatalogue (alter (λ x, (x.1, x.2 ++ [m'])) q (cat_queues c)) (cat_exchanges c)
      | None => c
      end
  | VHost.DeleteMessage q id =>
      MkCatalogue (alter (λ x, (x.1, filter (λ m, jm_ID m ≠ id) x.2)) q (cat_queues c)) (cat_exchanges c)
  end.

(** The calls of the vhost, the last one first. *)
Definition catalogue_of (calls : list persist_call) : catalogue := foldr note empty_catalogue calls.

(** The same call to the store. *)
Definition store_call (vhost : string) (call : persist_call) (d : disk) : disk :=
  match call with
  | VHost.SaveExchangeMetadata n typ p =>
      (JsonPersistence.SaveExchangeMetadata vhost n typ (exchange_ToPersistence p) d).1
  | VHost.DeleteExchangeMetadata n => (JsonPersistence.DeleteExchangeMetadata vhost n d).1
  | VHost.SaveBindingState e q k a => (JsonPersistence.SaveBindingState vhost e q k a d).1
  | VHost.DeleteBindingState e q k a => (JsonPersistence.DeleteBindingState vhost e q k a d).1
  | VHost.SaveQueueMetadata n p => (JsonPersistence.SaveQueueMetadata vhost n (queue_ToPersistence p) d).1
  | VHost.DeleteQueueMetadata n => (JsonPersistence.DeleteQueueMetadata vhost n d).1
  | VHost.SaveMessage q m =>
      (JsonPersistence.SaveMessage vhost q (m_ID m) (m_Body m)
         (convertToPersistedProperties (m_Properties m)) d).1
  | VHost.DeleteMessage q id => (JsonPersistence.DeleteMessage vhost q id d).1
  end.

Definition stored (vhost : string) (calls : list persist_call) (d : disk) : disk :=
  foldr (store_call vhost) d calls.

(** ** What can be stored *)

(** Arguments that JSON gives back as something it then keeps. *)
Definition settles (args : option table) : Prop :=
  match reread_args args with Some a => reread_args a = Some a | None => False end.

Definition message_settles (m : Message) : Prop :=
  match reread_message (message_data m) with Some m' => reread_message m' = Some m' | None => False end.

(** Names whose files are told apart and read back. *)
Definition distinguishable (names : string → Prop) : Prop :=
  (∀ n n', names n → names n' → encodeName n = encodeName n' → n = n') ∧
  ∀ n, names n → entityName (file_of n) (json_text n) = Some n.

Definition storable (names : string → Prop) (call : persist_call) : Prop :=
  match call with
  | VHost.SaveExchangeMetadata n typ p => names n ∧ settles (ep_Arguments p)
  | VHost.SaveQueueMetadata n p => names n ∧ settles (qp_Arguments p)
  | VHost.SaveBindingState e q k a => names e ∧ settles a
  | VHost.DeleteBindingState e _ _ _ => names e
  | VHost.DeleteExchangeMetadata n | VHost.DeleteQueueMetadata n | VHost.DeleteMessage n _ => names n
  | VHost.SaveMessage q m => names q ∧ message_settles m
  end.

(** Names of at most 124 bytes are. *)
Lemma short_names_distinguishable : distinguishable (λ n, slen n <= 124).
Proof.
  split.
  - intros n n' Hn Hn' E. pose proof (decode_encodeName n) as D. pose proof (decode_encodeName n') as D'.
    rewrite decide_True in D by by apply base32_name_short. rewrite decide_True in D' by by apply base32_name_short.
    congruence.
  - intros n Hn. unfold entityName, file_of. rewrite TrimSuffix_app. cbv zeta.
    rewrite decode_encodeName, decide_True by by apply base32_name_short. done.
Qed.
End catalogue.

(** ** The files implement the catalogue *)

Lemma alter_present {A} (f : A → A) (m : gmap string A) k x : m !! k = Some x → alter f k m = <[k := f x]> m.
Proof.
  intros Hk. apply map_eq. intros i. destruct (decide (i = k)) as [->|].
  - by rewrite lookup_alter_eq, lookup_insert_eq, Hk.
  - by rewrite lookup_alter_ne, lookup_insert_ne.
Qed.

Lemma alter_absent {A} (f : A → A) (m : gmap string A) k : m !! k = None → alter f k m = m.
Proof.
  intros Hk. apply map_eq. intros i. destruct (decide (i = k)) as [->|].
  - by rewrite lookup_alter_eq, Hk.
  - by rewrite lookup_alter_ne.
Qed.

Section implementation.
Context `{Runtime, JsonReader, Sha256}.
Context (names : string → Prop) (vhost : string).
Hypothesis Hnames : distinguishable names.

Definition queue_file (n : string) (x : persistence.QueueProperties * list JsonMessageData)
    : option JsonQueueData := Some (MkQueueData (json_text n) x.1 x.2).
Definition exchange_file (n : string)
    (x : string * persistence.ExchangeProperties * list persistence.BindingData) : option JsonExchangeData :=
  Some (MkExchangeData (json_text n) x.1.1 x.1.2 x.2).

Definition queue_settled (x : persistence.QueueProperties * list JsonMessageData) : Prop :=
  reread_args (persistence.pq_Arguments x.1) = Some (persistence.pq_Arguments x.1) ∧
  Forall (λ m, reread_message m = Some m) x.2.
Definition exchange_settled
    (x : string * persistence.ExchangeProperties * list persistence.BindingData) : Prop :=
  json_text x.1.1 = x.1.1 ∧ reread_args (persistence.pe_Arguments x.1.2) = Some (persistence.pe_Arguments x.1.2) ∧
  Forall (λ b, reread_binding b = Some b) x.2.

(** A directory holds a map of names when it has a file for each, and no other. *)
Definition holds {A B} (file : string → A → B) (ok : A → Prop) (dir : gmap string B) (m : gmap string A) : Prop :=
  (∀ n, names n → dir !! file_of n = file n <$> m !! n) ∧
  (∀ f x, dir !! f = Some x → ∃ n, names n ∧ f = file_of n) ∧
  (∀ n x, m !! n = Some x → names n ∧ ok x).

Definition implements (d : disk) (c : catalogue) : Prop :=
  holds queue_file queue_settled (d_queues (dir_of vhost d)) (cat_queues c) ∧
  holds exchange_file exchange_settled (d_exchanges (dir_of vhost d)) (cat_exchanges c).

Lemma file_of_inj n n' : names n → names n' → file_of n = file_of n' → n = n'.
Proof.
  intros Hn Hn' E. apply Hnames; [done..|].
  unfold file_of in E. rewrite <-(TrimSuffix_app (encodeName n) ".json"), E. apply TrimSuffix_app.
Qed.

Lemma holds_insert {A B} (file : string → A → B) ok dir m n x :
  holds file ok dir m → names n → ok x → holds file ok (<[file_of n := file n x]> dir) (<[n := x]> m).
Proof.
  intros (Hfile & Hdir & Hm) Hn Hx. split; [|split].
  - intros n' Hn'. destruct (decide (n = n')) as [->|Hne]; [by rewrite !lookup_insert_eq|].
    rewrite !lookup_insert_ne by (try done; intros E; by apply Hne, file_of_inj). by apply Hfile.
  - intros f y. rewrite lookup_insert_Some. intros [[<- _]|[_ Hy]]; [by exists n|by apply (Hdir f y)].
  - intros n' y. rewrite lookup_insert_Some. intros [[<- <-]|[_ Hy]]; [done|by apply Hm].
Qed.

Lemma holds_delete {A B} (file : string → A → B) ok dir m n :
  holds file ok dir m → names n → holds file ok (delete (file_of n) dir) (delete n m).
Proof.
  intros (Hfile & Hdir & Hm) Hn. split; [|split].
  - intros n' Hn'. destruct (decide (n = n')) as [->|Hne]; [by rewrite !lookup_delete_eq|].
    rewrite !lookup_delete_ne by (try done; intros E; by apply Hne, file_of_inj). by apply Hfile.
  - intros f y [_ Hy]%lookup_delete_Some. by apply (Hdir f y).
  - intros n' y [_ Hy]%lookup_delete_Some. by apply Hm.
Qed.

Lemma dir_of_put dir d : dir_of vhost (put_dir vhost dir d) = dir.
Proof. unfold dir_of, put_dir. cbn. by rewrite lookup_insert_eq. Qed.

Lemma ensure_dir d : d_queues (dir_of vhost (ensureVHostDir vhost d)) = d_queues (dir_of vhost d) ∧
  d_exchanges (dir_of vhost (ensureVHostDir vhost d)) = d_exchanges (dir_of vhost d).
Proof. unfold ensureVHostDir. destruct (d_name (dir_of vhost d)); [done|]. by rewrite dir_of_put. Qed.

Lemma implements_ensure d c : implements d c → implements (ensureVHostDir vhost d) c.
Proof. unfold implements. by destruct (ensure_dir d) as [-> ->]. Qed.

Lemma mapM_settled {A} (f : A → option A) l : Forall (λ x, f x = Some x) l → mapM f l = Some l.
Proof. intros Hl. apply mapM_Some. by apply Forall_Forall2_diag. Qed.

(** Writing a queue's file, with new properties or a new list of messages. *)
Lemma saveQueueFile_implements n name p a ms ms' d c :
  implements d c → names n → json_text name = json_text n →
  reread_args (persistence.pq_Arguments p) = Some a → mapM reread_message ms = Some ms' →
  queue_settled (with_args a p, ms') →
  implements (saveQueueFile vhost n (MkQueueData name p ms) d).1
    (MkCatalogue (<[n := (with_args a p, ms')]> (cat_queues c)) (cat_exchanges c)).
Proof.
  intros [Hq He] Hn Hname Ha Hms Hset. unfold saveQueueFile, reread_queue. cbn [jq_Properties jq_Messages jq_Name].
  rewrite Ha, Hms, Hname. cbn. unfold implements. rewrite dir_of_put. split; [|done].
  by apply (holds_insert queue_file queue_settled _ _ n (with_args a p, ms')).
Qed.

Lemma saveExchangeFile_implements n typ p a bs bs' d c :
  implements d c → names n →
  reread_args (persistence.pe_Arguments p) = Some a → mapM reread_binding bs = Some bs' →
  exchange_settled (json_text typ, with_exchange_args a p, bs') →
  implements (saveExchangeFile vhost n (MkExchangeData n typ p bs) d).1
    (MkCatalogue (cat_queues c) (<[n := (json_text typ, with_exchange_args a p, bs')]> (cat_exchanges c))).
Proof.
  intros [Hq He] Hn Ha Hbs Hset. unfold saveExchangeFile, reread_exchange.
  cbn [je_Properties je_Bindings je_Name je_Type].
  rewrite Ha, Hbs. cbn. unfold implements. rewrite dir_of_put. split; [done|].
  by apply (holds_insert exchange_file exchange_settled _ _ n (json_text typ, with_exchange_args a p, bs')).
Qed.

Lemma load_queue d c n : implements d c → names n →
  loadQueueFile vhost n d = match cat_queues c !! n with
  | Some x => Ok (MkQueueData (json_text n) x.1 x.2) | None => Err NotExist end.
Proof.
  intros [(Hf & _) _] Hn. unfold loadQueueFile. rewrite Hf by done. by destruct (cat_queues c !! n).
Qed.

Lemma load_exchange d c n : implements d c → names n →
  loadExchangeFile vhost n d = match cat_exchanges c !! n with
  | Some x => Ok (MkExchangeData (json_text n) x.1.1 x.1.2 x.2) | None => Err NotExist end.
Proof.
  intros [_ (Hf & _)] Hn. unfold loadExchangeFile. rewrite Hf by done. by destruct (cat_exchanges c !! n).
Qed.

Lemma queue_is_settled d c n x : implements d c → cat_queues c !! n = Some x → queue_settled x.
Proof. intros [(_ & _ & Hm) _] Hx. by apply (Hm n). Qed.
Lemma exchange_is_settled d c n x : implements d c → cat_exchanges c !! n = Some x → exchange_settled x.
Proof. intros [_ (_ & _ & Hm)] Hx. by apply (Hm n). Qed.

Lemma with_args_id p : with_args (persistence.pq_Arguments p) p = p.
Proof. by destruct p. Qed.
Lemma with_exchange_args_id p : with_exchange_args (persistence.pe_Arguments p) p = p.
Proof. by destruct p. Qed.

(** ** Each call *)

Lemma settles_reread a : settles a → ∃ a', reread_args a = Some a' ∧ reread_args a' = Some a'.
Proof. unfold settles. destruct (reread_args a) as [a'|]; [by exists a'|done]. Qed.

Lemma save_queue_implements n p d c : implements d c → names n → settles (qp_Arguments p) →
  implements (store_call vhost (VHost.SaveQueueMetadata n p) d) (note (VHost.SaveQueueMetadata n p) c).
Proof.
  intros Hi%implements_ensure Hn (a & Ha & Ha')%settles_reread.
  cbn [store_call note]. unfold JsonPersistence.SaveQueueMetadata. rewrite Ha, (load_queue _ c) by done.
  destruct (cat_queues c !! n) as [[p0 ms]|] eqn:Hq; cbn [default snd jq_Messages].
  - destruct (queue_is_settled _ _ _ _ Hi Hq) as [_ Hms]. cbn in Hms.
    by apply (saveQueueFile_implements n n (queue_ToPersistence p) a ms ms); [..|apply mapM_settled|].
  - by apply (saveQueueFile_implements n n (queue_ToPersistence p) a [] []).
Qed.

Lemma save_exchange_implements n typ p d c : implements d c → names n → settles (ep_Arguments p) →
  implements (store_call vhost (VHost.SaveExchangeMetadata n typ p) d) (note (VHost.SaveExchangeMetadata n typ p) c).
Proof.
  intros Hi%implements_ensure Hn (a & Ha & Ha')%settles_reread.
  cbn [store_call note]. unfold JsonPersistence.SaveExchangeMetadata. rewrite Ha.
  apply (saveExchangeFile_implements n typ (exchange_ToPersistence p) a [] []); try done.
  split; [apply json_text_idem|done].
Qed.

Lemma delete_queue_implements n d c : implements d c → names n →
  implements (store_call vhost (VHost.DeleteQueueMetadata n) d) (note (VHost.DeleteQueueMetadata n) c).
Proof.
  intros [Hq He] Hn. cbn [store_call note]. unfold JsonPersistence.DeleteQueueMetadata.
  pose proof (holds_delete _ _ _ _ n Hq Hn) as Hd.
  destruct (d_queues (dir_of vhost d) !! file_of n) eqn:E; cbn [fst].
  - unfold implements. by rewrite dir_of_put.
  - rewrite (delete_id (d_queues _)) in Hd by done. by split.
Qed.

Lemma delete_exchange_implements n d c : implements d c → names n →
  implements (store_call vhost (VHost.DeleteExchangeMetadata n) d) (note (VHost.DeleteExchangeMetadata n) c).
Proof.
  intros [Hq He] Hn. cbn [store_call note]. unfold JsonPersistence.DeleteExchangeMetadata.
  pose proof (holds_delete _ _ _ _ n He Hn) as Hd.
  destruct (d_exchanges (dir_of vhost d) !! file_of n) eqn:E; cbn [fst].
  - unfold implements. by rewrite dir_of_put.
  - rewrite (delete_id (d_exchanges _)) in Hd by done. by split.
Qed.

(** A call that changes the list of messages, or of bindings, of one file. *)
Lemma update_queue_implements n name p ms ms' ms'' d c :
  implements d c → names n → cat_queues c !! n = Some (p, ms) → json_text name = json_text n →
  mapM reread_message ms' = Some ms'' → Forall (λ m, reread_message m = Some m) ms'' →
  implements (saveQueueFile vhost n (MkQueueData name p ms') d).1
    (MkCatalogue (<[n := (p, ms'')]> (cat_queues c)) (cat_exchanges c)).
Proof.
  intros Hi Hn Hq Hname Hms Hset. destruct (queue_is_settled _ _ _ _ Hi Hq) as [Hp _]. cbn in Hp.
  rewrite <-(with_args_id p) at 2.
  apply (saveQueueFile_implements n name p (persistence.pq_Arguments p) ms' ms''); done.
Qed.

Lemma update_exchange_implements n typ p bs bs' bs'' d c :
  implements d c → names n → cat_exchanges c !! n = Some (typ, p, bs) →
  mapM reread_binding bs' = Some bs'' → Forall (λ b, reread_binding b = Some b) bs'' →
  implements (saveExchangeFile vhost n (MkExchangeData n typ p bs') d).1
    (MkCatalogue (cat_queues c) (<[n := (typ, p, bs'')]> (cat_exchanges c))).
Proof.
  intros Hi Hn He Hbs Hset. destruct (exchange_is_settled _ _ _ _ Hi He) as (Ht & Hp & _). cbn in Ht, Hp.
  rewrite <-(with_exchange_args_id p) at 2. rewrite <-Ht at 2.
  apply (saveExchangeFile_implements n typ p (persistence.pe_Arguments p) bs' bs''); try done.
  split; [apply json_text_idem|done].
Qed.

Lemma save_binding_implements e q k a d c : implements d c → names e → settles a →
  implements (store_call vhost (VHost.SaveBindingState e q k a) d) (note (VHost.SaveBindingState e q k a) c).
Proof.
  intros Hi Hn (a' & Ha & Ha')%settles_reread. cbn [store_call note].
  unfold JsonPersistence.SaveBindingState. rewrite Ha, (load_exchange _ c) by done.
  destruct (cat_exchanges c !! e) as [[[typ p] bs]|] eqn:He; cycle 1.
  { rewrite alter_absent by done. by destruct c. }
  rewrite (alter_present _ _ _ _ He). cbn [fst snd je_Bindings je_Type je_Properties].
  destruct (exchange_is_settled _ _ _ _ Hi He) as (_ & _ & Hbs). cbn in Hbs.
  unfold add_binding_data. destruct (existsb _ bs).
  - by apply (update_exchange_implements e typ p bs bs); [..|apply mapM_settled|].
  - apply (update_exchange_implements e typ p bs); [done..| |].
    + apply mapM_Some, Forall2_app; [by apply Forall_Forall2_diag|]. constructor; [|done].
      unfold reread_binding. cbn. by rewrite Ha.
    + apply Forall_app. split; [done|]. constructor; [|done].
      unfold reread_binding. cbn. by rewrite Ha', !json_text_idem.
Qed.

Lemma delete_binding_implements e q k a d c : implements d c → names e →
  implements (store_call vhost (VHost.DeleteBindingState e q k a) d) (note (VHost.DeleteBindingState e q k a) c).
Proof.
  intros Hi Hn. cbn [store_call note].
  unfold JsonPersistence.DeleteBindingState. rewrite (load_exchange _ c) by done.
  destruct (cat_exchanges c !! e) as [[[typ p] bs]|] eqn:He; cycle 1.
  { rewrite alter_absent by done. by destruct c. }
  rewrite (alter_present _ _ _ _ He). cbn [fst snd je_Bindings je_Type je_Properties].
  destruct (exchange_is_settled _ _ _ _ Hi He) as (_ & _ & Hbs). cbn in Hbs.
  assert (Forall (λ b, reread_binding b = Some b)
    (filter (λ b, JsonPersistence.same_binding q k a b = false) bs)) as Hf.
  { apply Forall_forall. intros b [_ Hb]%list_elem_of_filter. rewrite Forall_forall in Hbs. by apply Hbs. }
  by apply (update_exchange_implements e typ p bs); [..|apply mapM_settled|].
Qed.

Lemma save_message_implements q m d c : implements d c → names q → message_settles m →
  implements (store_call vhost (VHost.SaveMessage q m) d) (note (VHost.SaveMessage q m) c).
Proof.
  intros Hi Hn Hm. unfold message_settles in Hm. cbn [store_call note].
  unfold JsonPersistence.SaveMessage. rewrite (load_queue _ c) by done.
  destruct (reread_message (message_data m)) as [m'|] eqn:Hread; [|done].
  destruct (cat_queues c !! q) as [[p ms]|] eqn:Hq; cycle 1.
  { rewrite alter_absent by done. by destruct c. }
  rewrite (alter_present _ _ _ _ Hq). cbn [fst snd jq_Name jq_Properties jq_Messages].
  destruct (queue_is_settled _ _ _ _ Hi Hq) as [_ Hms]. cbn in Hms.
  apply (update_queue_implements q _ p ms); [done..|apply json_text_idem| |].
  - apply mapM_Some, Forall2_app; [by apply Forall_Forall2_diag|]. by constructor.
  - apply Forall_app. split; [done|]. by constructor.
Qed.

Lemma delete_message_implements q id d c : implements d c → names q →
  implements (store_call vhost (VHost.DeleteMessage q id) d) (note (VHost.DeleteMessage q id) c).
Proof.
  intros Hi Hn. cbn [store_call note]. unfold JsonPersistence.DeleteMessage. rewrite (load_queue _ c) by done.
  destruct (cat_queues c !! q) as [[p ms]|] eqn:Hq; cycle 1.
  { rewrite alter_absent by done. by destruct c. }
  rewrite (alter_present _ _ _ _ Hq). cbn [fst snd jq_Name jq_Properties jq_Messages].
  destruct (queue_is_settled _ _ _ _ Hi Hq) as [_ Hms]. cbn in Hms.
  case_decide as Hl; cbn [fst].
  - rewrite (filter_all _ ms); [rewrite insert_id by done; by destruct c|].
    apply Forall_forall. intros m Hm Hid.
    pose proof (length_filter_lt (λ m, jm_ID m ≠ id) ms m Hm ltac:(auto)). lia.
  - assert (Forall (λ m, reread_message m = Some m) (filter (λ m, jm_ID m ≠ id) ms)) as Hf.
    { apply Forall_forall. intros m [_ Hm]%list_elem_of_filter. rewrite Forall_forall in Hms. by apply Hms. }
    by apply (update_queue_implements q _ p ms); [..|apply json_text_idem|apply mapM_settled|].
Qed.

Lemma store_call_implements call d c : implements d c → storable names call →
  implements (store_call vhost call d) (note call c).
Proof.
  intros Hi Hs. destruct call; cbn [storable] in Hs.
  - apply save_exchange_implements; tauto.
  - by apply delete_exchange_implements.
  - apply save_binding_implements; tauto.
  - by apply delete_binding_implements.
  - apply save_queue_implements; tauto.
  - by apply delete_queue_implements.
  - apply save_message_implements; tauto.
  - by apply delete_message_implements.
Qed.

(** ** Reading the directory *)

Lemma read_dir_snapshots {A B C} (file : string → A → B) ok dir (m : gmap string A)
    (snap : string * B → list C) (view : string * A → C) :
  holds file ok dir m → (∀ n x, names n → snap (file_of n, file n x) = [view (n, x)]) →
  (JsonPersistence.ReadDir dir ≫= snap) ≡ₚ view <$> map_to_list m.
Proof.
  intros (Hfile & Hdir & Hm) Hsnap. unfold JsonPersistence.ReadDir. rewrite merge_sort_Permutation.
  transitivity (((λ nx, (file_of nx.1, file nx.1 nx.2)) <$> map_to_list m) ≫= snap).
  - apply bind_Permutation, NoDup_Permutation.
    + apply NoDup_map_to_list.
    + apply NoDup_fmap_2_strong; [|apply NoDup_map_to_list].
      intros [n x] [n' x'] Hx%elem_of_map_to_list Hx'%elem_of_map_to_list [= E _].
      apply file_of_inj in E as <-; [congruence|by eapply Hm..].
    + intros [f y]. rewrite elem_of_map_to_list, list_elem_of_fmap. split.
      * intros Hy. destruct (Hdir f y Hy) as (n & Hn & ->). rewrite Hfile in Hy by done.
        apply fmap_Some in Hy as (x & Hx & ->). exists (n, x). split; [done|by apply elem_of_map_to_list].
      * intros ([n x] & [= -> ->] & Hx%elem_of_map_to_list). cbn. rewrite Hfile by by eapply Hm.
        by rewrite Hx.
  - apply Permutation_refl'.
    assert (Forall (λ nx, names nx.1) (map_to_list m)) as Hall.
    { apply Forall_forall. intros [n x] Hx%elem_of_map_to_list. by eapply Hm. }
    induction Hall as [|[n x] l Hn Hl IH]; [done|]. cbn. cbn in Hn. rewrite Hsnap by done. cbn. by f_equal.
Qed.

Definition queue_snapshot_of (nx : string * (persistence.QueueProperties * list JsonMessageData))
    : persistence.QueueSnapshot :=
  persistence.MkQueueSnapshot nx.1 nx.2.1 (JsonPersistence.loaded_message <$> nx.2.2).
Definition exchange_snapshot_of
    (nx : string * (string * persistence.ExchangeProperties * list persistence.BindingData))
    : persistence.ExchangeSnapshot :=
  persistence.MkExchangeSnapshot nx.1 nx.2.1.1 nx.2.1.2 nx.2.2.

Lemma json_suffix n : HasSuffix ".json" (file_of n) = true.
Proof. unfold HasSuffix, file_of. rewrite CutSuffix_app. by apply bool_decide_true. Qed.

Lemma LoadAllQueues_implements d c : implements d c →
  JsonPersistence.LoadAllQueues vhost d ≡ₚ queue_snapshot_of <$> map_to_list (cat_queues c).
Proof.
  intros [Hq _]. unfold JsonPersistence.LoadAllQueues. eapply read_dir_snapshots; [exact Hq|].
  intros n x Hn. unfold JsonPersistence.queue_snapshot. cbn [fst snd queue_file jq_Name]. rewrite json_suffix.
  by rewrite (proj2 Hnames).
Qed.

Lemma LoadAllExchanges_implements d c : implements d c →
  JsonPersistence.LoadAllExchanges vhost d ≡ₚ exchange_snapshot_of <$> map_to_list (cat_exchanges c).
Proof.
  intros [_ He]. unfold JsonPersistence.LoadAllExchanges. eapply read_dir_snapshots; [exact He|].
  intros n x Hn. unfold JsonPersistence.exchange_snapshot. cbn [fst snd exchange_file je_Name]. rewrite json_suffix.
  by rewrite (proj2 Hnames).
Qed.

Lemma stored_implements calls d c : implements d c → Forall (storable names) calls →
  implements (stored vhost calls d) (foldr note c calls).
Proof.
  intros Hi Hc. induction Hc as [|call calls Hcall Hcalls IH]; [done|]. cbn [stored foldr].
  by apply store_call_implements.
Qed.

Lemma empty_implements layout : implements (MkDisk layout ∅) empty_catalogue.
Proof.
  unfold implements, dir_of. cbn [k_vhosts]. rewrite lookup_empty.
  split; (split; [|split]); cbn; intros *; rewrite ?lookup_empty; done.
Qed.
End implementation.

Section catalogue_theorem.
Context `{Runtime, JsonReader, Sha256}.

(** C7. The files implement the catalogue.  Take any files that hold a
    catalogue, and any sequence of calls of a virtual host with names whose files
    are told apart and arguments that JSON can keep.  Afterwards every read of
    the store, of one queue or exchange, its messages or bindings, or of all of
    them as at a restart, gives what the same calls make of the catalogue: the
    queues and exchanges saved and not deleted since, each with its messages in
    the order they were saved, without those deleted, and its bindings, each
    once. *)
Theorem store_implements_catalogue (names : string → Prop) (vhost : string)
    (calls : list persist_call) (d : disk) (c : catalogue) :
  distinguishable names → implements names vhost d c → Forall (storable names) calls →
  let d' := stored vhost calls d in
  let c' := foldr note c calls in
  implements names vhost d' c' ∧
  JsonPersistence.LoadAllQueues vhost d' ≡ₚ queue_snapshot_of <$> map_to_list (cat_queues c') ∧
  JsonPersistence.LoadAllExchanges vhost d' ≡ₚ exchange_snapshot_of <$> map_to_list (cat_exchanges c') ∧
  ∀ n, names n →
    match cat_queues c' !! n with
    | Some (p, ms) =>
        JsonPersistence.LoadQueueMetadata vhost n d' = Ok p ∧
        JsonPersistence.LoadMessages vhost n d' = Ok (JsonPersistence.loaded_message <$> ms)
    | None => JsonPersistence.LoadQueueMetadata vhost n d' = Err NotExist
    end ∧
    match cat_exchanges c' !! n with
    | Some (typ, p, bs) =>
        JsonPersistence.LoadExchangeMetadata vhost n d' = Ok (typ, p) ∧
        JsonPersistence.LoadExchangeBindings vhost n d' = Ok bs
    | None => JsonPersistence.LoadExchangeMetadata vhost n d' = Err NotExist
    end.
Proof.
  intros Hnames Hi Hcalls d' c'.
  pose proof (stored_implements names vhost Hnames calls d c Hi Hcalls) as Hi'. fold d' c' in Hi'.
  split; [done|]. split; [by apply (LoadAllQueues_implements names)|].
  split; [by apply (LoadAllExchanges_implements names)|]. intros n Hn.
  unfold JsonPersistence.LoadQueueMetadata, JsonPersistence.LoadMessages,
    JsonPersistence.LoadExchangeMetadata, JsonPersistence.LoadExchangeBindings.
  rewrite (load_queue names vhost d' c' n Hi' Hn), (load_exchange names vhost d' c' n Hi' Hn).
  by destruct (cat_queues c' !! n) as [[p ms]|], (cat_exchanges c' !! n) as [[[typ q] bs]|].
Qed.
End catalogue_theorem.

(** ** A concrete store *)

(** Every number reads as zero, every time as the empty text. *)
Definition sample_reader : JsonReader := {| parse_float := λ _, 0; time_string := λ _ _, Some "" |}.

Section sample.
#[local] Existing Instance sample_runtime.
#[local] Existing Instance sample_reader.
#[local] Existing Instance sample_sha256.

(** A durable queue, two messages, and the first of them settled; the last call
    comes first. *)
Definition sample_calls : list persist_call :=
  [VHost.DeleteMessage "orders" "m-1";
   VHost.SaveMessage "orders" (MkMessage "m-2" 0 [] empty_props "" "orders");
   VHost.SaveMessage "orders" (MkMessage "m-1" 0 [] empty_props "" "orders");
   VHost.SaveQueueMetadata "orders" (MkQueueProps false true false false None)].

Lemma store_implements_catalogue_witness :
  let names n := slen n <= 124 in
  let d' := stored "/" sample_calls (MkDisk None ∅) in
  distinguishable names ∧ implements names "/" (MkDisk None ∅) empty_catalogue ∧
  Forall (storable names) sample_calls ∧
  ∃ ms, JsonPersistence.LoadMessages "/" "orders" d' = Ok (JsonPersistence.loaded_message <$> ms) ∧
    jm_ID <$> ms = ["m-2"].
Proof.
  cbv zeta. set (names n := slen n <= 124).
  assert (Hi : implements names "/" (MkDisk None ∅) empty_catalogue) by apply empty_implements.
  assert (Hc : Forall (storable names) sample_calls) by (repeat constructor; by vm_compute).
  split; [exact short_names_distinguishable|]. split; [exact Hi|]. split; [exact Hc|].
  destruct (store_implements_catalogue names "/" sample_calls (MkDisk None ∅) empty_catalogue
    short_names_distinguishable Hi Hc) as (_ & _ & _ & Hread).
  destruct (Hread "orders") as [Hq _]; [by vm_compute|].
  assert (Hids : match cat_queues (foldr note empty_catalogue sample_calls) !! "orders" with
    | Some x => bool_decide (jm_ID <$> x.2 = ["m-2"]) | None => false end = true) by by vm_compute.
  destruct (cat_queues (foldr note empty_catalogue sample_calls) !! "orders") as [[p ms]|]; [|discriminate Hids].
  exists ms. split; [apply Hq|]. by apply bool_decide_eq_true in Hids.
Defined.
End sample.
