(* ===== verification/Restart.v ===== *)
(** * What survives a restart

    The calls a vhost makes to the persistence layer keep the catalogue
    (Catalogue) in step with its durable exchanges, queues and bindings; loading
    the files they leave ([NewVhost], Recovery) gives those back. *)

From stdpp Require Import base list gmap strings.
From Stdlib Require Import ZArith Lia.
From S2P Require Import Prelude Bytes Paths Values Properties Methods Args Queue Deliveries Consumers Json VHost.
From S2P Require Import Store Lifecycle Routing Declare Expiry Publish Settle Purge Preserve Recovery Catalogue.

Local Open Scope Z_scope.
Local Open Scope string_scope.
Local Open Scope list_scope.

(** ** The catalogue of a vhost *)

Definition pair_of (b : persistence.BindingData) : string * string :=
  (persistence.bd_RoutingKey b, persistence.bd_QueueName b).

(** Under the key [k] the exchange has a binding to [q]. *)
Definition bound_to (e : Exchange) (k q : string) : Prop :=
  ∃ bs b, ex_Bindings e !! k = Some bs ∧ b ∈ bs ∧ b_Queue b = q.

(** Most clients bind without arguments. *)
Definition no_args (a : option table) : Prop := default [] a = [].

Section mirror.
Context `{Runtime, JsonReader, Sha256}.
Context (names : string → Prop).

Definition catalogue_now (vh : VHost) : catalogue := catalogue_of (vh_persist vh).

Definition stored_queue (q : Queue) : option persistence.QueueProperties :=
  if qp_Durable (q_Props q)
  then (λ a, with_args a (queue_ToPersistence (q_Props q))) <$> reread_args (qp_Arguments (q_Props q))
  else None.

Definition stored_exchange (e : Exchange) : option (string * persistence.ExchangeProperties) :=
  if ep_Durable (ex_Props e)
  then (λ a, (json_text (ex_Typ e), with_exchange_args a (exchange_ToPersistence (ex_Props e))))
       <$> reread_args (ep_Arguments (ex_Props e))
  else None.

(** The bindings of an exchange to durable queues, each stored once. *)
Definition bindings_stored (vh : VHost) (e : Exchange) (bs : list persistence.BindingData) : Prop :=
  Forall (λ b, no_args (persistence.bd_Arguments b)) bs ∧
  ∀ k q, (k, q) ∈ pair_of <$> bs ↔ bound_to e k q ∧ is_durable vh q = true.

(** The catalogue lists what is durable. *)
Record mirrors (vh : VHost) (c : catalogue) : Prop := {
  mr_queue n : fst <$> cat_queues c !! n = vh_Queues vh !! n ≫= stored_queue;
  mr_exchange n : fst <$> cat_exchanges c !! n = vh_Exchanges vh !! n ≫= stored_exchange;
  mr_bindings n e x : vh_Exchanges vh !! n = Some e → cat_exchanges c !! n = Some x →
    bindings_stored vh e x.2;
}.

(** Bindings without arguments, each under its routing key and once per queue. *)
Definition plain_bindings (e : Exchange) : Prop :=
  ∀ k bs, ex_Bindings e !! k = Some bs →
    NoDup (b_Queue <$> bs) ∧ Forall (λ b, no_args (b_Args b) ∧ b_RoutingKey b = k) bs ∧ json_text k = k.

(** An exchange clients can declare. *)
Definition ordinary (n : string) : Prop := resolveExchangeAlias n = n ∧ is_mandatory n = false.

Definition storable_name (n : string) : Prop := names n ∧ json_text n = n.

(** What the vhost holds can be stored. *)
Record plain (vh : VHost) : Prop := {
  pl_names : wf_names vh;
  pl_queue n q : vh_Queues vh !! n = Some q → storable_name n ∧ settles (qp_Arguments (q_Props q));
  pl_exchange n e : vh_Exchanges vh !! n = Some e → plain_bindings e ∧
    (ep_Durable (ex_Props e) = true →
     storable_name n ∧ ordinary n ∧ supported (ex_Typ e) ∧ settles (ep_Arguments (ex_Props e)));
}.

(** The invariant of this file. *)
Definition restartable (vh : VHost) : Prop :=
  plain vh ∧ mirrors vh (catalogue_now vh) ∧ Forall (storable names) (vh_persist vh).

(** ** Small facts *)

Lemma no_args_reread a : no_args a → reread_args a = Some a.
Proof. destruct a as [[|]|]; done. Qed.

Lemma no_args_settles a : no_args a → settles a.
Proof. intros Ha. unfold settles. by rewrite (no_args_reread a Ha), (no_args_reread a Ha). Qed.

Lemma no_args_equal a b : no_args a → no_args b → JsonPersistence.equalArgs a b = true.
Proof. intros Ha Hb. unfold JsonPersistence.equalArgs. by rewrite decide_True. Qed.

Lemma no_args_match a b : no_args a → no_args b → bindingArgumentsMatch a b = true.
Proof. unfold no_args, bindingArgumentsMatch. intros -> ->. done. Qed.

Lemma same_binding_pair q k a b : no_args a → no_args (persistence.bd_Arguments b) →
  JsonPersistence.same_binding q k a b = bool_decide (pair_of b = (k, q)).
Proof.
  intros Ha Hb. unfold JsonPersistence.same_binding, pair_of. rewrite (no_args_equal _ _ Hb Ha), andb_true_r.
  apply eq_bool_prop_intro. rewrite andb_True, !bool_decide_spec. naive_solver.
Qed.

Lemma settles_is_Some a : settles a → is_Some (reread_args a).
Proof. unfold settles. destruct (reread_args a); [by eexists|done]. Qed.

Lemma stored_exchange_durable e : settles (ep_Arguments (ex_Props e)) → ep_Durable (ex_Props e) = true →
  is_Some (stored_exchange e).
Proof. intros [a Ha]%settles_is_Some Hd. unfold stored_exchange. rewrite Hd, Ha. by eexists. Qed.

Lemma stored_exchange_not_durable e : ep_Durable (ex_Props e) = false → stored_exchange e = None.
Proof. unfold stored_exchange. by intros ->. Qed.

Lemma catalogue_persist_if b call vh :
  catalogue_now (persist_if b call vh) = if b then note call (catalogue_now vh) else catalogue_now vh.
Proof. by destruct b. Qed.

(** Only durable exchanges are in the catalogue. *)
Lemma mirror_exchange vh c n e : mirrors vh c → vh_Exchanges vh !! n = Some e →
  (∃ x, cat_exchanges c !! n = Some x ∧ stored_exchange e = Some x.1) ∨
  cat_exchanges c !! n = None ∧ stored_exchange e = None.
Proof.
  intros Hm He. pose proof (mr_exchange _ _ Hm n) as E. rewrite He in E. cbn in E.
  destruct (cat_exchanges c !! n) as [x|]; [left; by exists x|by right].
Qed.

Lemma mirror_no_exchange vh c n : mirrors vh c → vh_Exchanges vh !! n = None → cat_exchanges c !! n = None.
Proof.
  intros Hm He. pose proof (mr_exchange _ _ Hm n) as E. rewrite He in E. by destruct (cat_exchanges c !! n).
Qed.

Lemma mirror_no_queue vh c n : mirrors vh c → vh_Queues vh !! n = None → cat_queues c !! n = None.
Proof.
  intros Hm He. pose proof (mr_queue _ _ Hm n) as E. rewrite He in E. by destruct (cat_queues c !! n).
Qed.

(** The queues' durability is all that [mirrors] needs of them. *)
Lemma bindings_stored_ext vh vh' e e' bs :
  (∀ k q, bound_to e' k q ↔ bound_to e k q) → (∀ k q, bound_to e k q → is_durable vh' q = is_durable vh q) →
  bindings_stored vh e bs → bindings_stored vh' e' bs.
Proof.
  intros He Hq [Ha Hp]. split; [done|]. intros k q. rewrite Hp, He. split; intros [Hb Hd]; (split; [done|]).
  - by rewrite (Hq k q).
  - by rewrite <-(Hq k q).
Qed.

(** ** Exchanges *)

(** Replacing one exchange, and its entry in the catalogue. *)
Lemma mirrors_set_exchange vh c n e
    (x : option (string * persistence.ExchangeProperties * list persistence.BindingData)) :
  mirrors vh c → fst <$> x = stored_exchange e →
  (∀ y, x = Some y → bindings_stored vh e y.2) →
  mirrors (set_Exchanges (<[n := e]> (vh_Exchanges vh)) vh)
    (MkCatalogue (cat_queues c) (match x with Some y => <[n := y]> | None => delete n end (cat_exchanges c))).
Proof.
  intros Hm Hx Hb. split; cbn [vh_Queues vh_Exchanges set_Exchanges cat_queues cat_exchanges].
  - apply Hm.
  - intros n'. destruct (decide (n = n')) as [<-|Hne].
    + rewrite lookup_insert_eq. cbn. rewrite <-Hx.
      destruct x; [by rewrite lookup_insert_eq|by rewrite lookup_delete_eq].
    + rewrite lookup_insert_ne by done. rewrite <-(mr_exchange _ _ Hm n').
      destruct x; [by rewrite lookup_insert_ne|by rewrite lookup_delete_ne].
  - intros n' e' y He' Hy. destruct (decide (n = n')) as [<-|Hne].
    + rewrite lookup_insert_eq in He'. injection He' as <-. apply Hb.
      destruct x; [by rewrite lookup_insert_eq in Hy; injection Hy as <-|by rewrite lookup_delete_eq in Hy].
    + rewrite lookup_insert_ne in He' by done. apply (mr_bindings _ _ Hm n' e' y He').
      destruct x; [by rewrite lookup_insert_ne in Hy|by rewrite lookup_delete_ne in Hy].
Qed.

Lemma mirrors_delete_exchange vh c n : mirrors vh c →
  mirrors (set_Exchanges (delete n (vh_Exchanges vh)) vh)
    (MkCatalogue (cat_queues c) (delete n (cat_exchanges c))).
Proof.
  intros Hm. split; cbn [vh_Queues vh_Exchanges set_Exchanges cat_queues cat_exchanges].
  - apply Hm.
  - intros n'. destruct (decide (n = n')) as [<-|Hne]; [by rewrite !lookup_delete_eq|].
    rewrite !lookup_delete_ne by done. apply (mr_exchange _ _ Hm).
  - intros n' e y [_ He]%lookup_delete_Some [_ Hy]%lookup_delete_Some. by apply (mr_bindings _ _ Hm n').
Qed.

Lemma catalogue_eta c : MkCatalogue (cat_queues c) (cat_exchanges c) = c.
Proof. by destruct c. Qed.

(** The vhost may change in what the catalogue does not see. *)
Lemma mirrors_ext vh vh' c : mirrors vh c → vh_Queues vh' = vh_Queues vh → vh_Exchanges vh' = vh_Exchanges vh →
  mirrors vh' c.
Proof.
  intros [Hq He Hb] Eq Ee. split; [by rewrite Eq|by rewrite Ee|]. intros n e x. rewrite Ee. intros Hn Hx.
  destruct (Hb n e x Hn Hx) as [Ha Hp]. split; [done|]. unfold is_durable. by rewrite Eq.
Qed.

(** A call that is made only for a durable exchange and does nothing to the
    catalogue otherwise. *)
Lemma mirrors_persist_if vh (b : bool) call c' :
  mirrors vh c' → c' = (if b then note call (catalogue_now vh) else catalogue_now vh) →
  mirrors (persist_if b call vh) (catalogue_now (persist_if b call vh)).
Proof.
  intros Hm ->. rewrite catalogue_persist_if. apply (mirrors_ext vh); [done|by destruct b..].
Qed.

Lemma storable_persist_if b call vh : (b = true → storable names call) →
  Forall (storable names) (vh_persist vh) → Forall (storable names) (vh_persist (persist_if b call vh)).
Proof. intros Hc Hf. destruct b; [|done]. constructor; auto. Qed.

Lemma plain_persist_if b call vh : plain vh → plain (persist_if b call vh).
Proof.
  intros [Hw Hq He]. split; [by apply wf_names_persist|by destruct b|by destruct b].
Qed.

Lemma plain_exchanges vh vh' :
  plain vh → wf_names vh' → vh_Queues vh' = vh_Queues vh →
  (∀ n e, vh_Exchanges vh' !! n = Some e → plain_bindings e ∧ (ep_Durable (ex_Props e) = true →
     storable_name n ∧ ordinary n ∧ supported (ex_Typ e) ∧ settles (ep_Arguments (ex_Props e)))) →
  plain vh'.
Proof. intros [Hw Hq He] Hw' Eq Hex. split; [done|by rewrite Eq|done]. Qed.

Lemma empty_bindings e : ex_Bindings e = ∅ → plain_bindings e ∧ ∀ k q, ¬ bound_to e k q.
Proof.
  intros E. split; [intros k bs|intros k q (bs & b & Hbs & _)]; [|revert Hbs]; rewrite E, lookup_empty; done.
Qed.

Lemma CreateExchange_restartable name typ props vh :
  restartable vh →
  (∀ p, props = Some p → ep_Durable p = true →
     storable_name name ∧ ordinary name ∧ supported typ ∧ settles (ep_Arguments p)) →
  restartable (CreateExchange name typ props vh).1.
Proof.
  intros (Hp & Hm & Hl) Hok. pose proof (CreateExchange_wf name typ props vh (pl_names _ Hp)) as Hwf'.
  unfold CreateExchange in *. cbv zeta in *. destruct (vh_Exchanges vh !! name) as [e|] eqn:He.
  { destruct props as [p|]; [destruct (ep_Passive p)|]; repeat case_decide; done. }
  set (pr := default (MkExchangeProps false false false false false None) props).
  set (e := NewExchange name typ props) in *. assert (ex_Props e = pr) as Hpr by done.
  destruct (empty_bindings e eq_refl) as [Hpl Hnb].
  destruct (match props with Some p => ep_Passive p | None => false end); [done|].
  set (vh1 := set_Exchanges (<[name := e]> (vh_Exchanges vh)) vh) in *.
  assert (∀ n e', vh_Exchanges vh1 !! n = Some e' → plain_bindings e' ∧ (ep_Durable (ex_Props e') = true →
    storable_name n ∧ ordinary n ∧ supported (ex_Typ e') ∧ settles (ep_Arguments (ex_Props e')))) as Hex.
  { intros n e'. cbn. rewrite lookup_insert_Some. intros [[<- <-]|[_ Hn]]; [|by apply (pl_exchange _ Hp)].
    split; [done|]. rewrite Hpr. unfold pr. destruct props as [p|]; [|done]. by apply Hok. }
  pose proof (mirror_no_exchange vh _ name Hm He) as Hc.
  assert (ep_Durable pr = false → restartable vh1) as Hnot.
  { intros Hd. split; [|split; [|done]].
    - apply (plain_exchanges vh); [done| |done..]. destruct props as [p|]; [|exact Hwf'].
      cbn in Hd. rewrite Hd in Hwf'. exact Hwf'.
    - pose proof (mirrors_set_exchange vh _ name e None Hm) as Hs.
      cbv match in Hs. rewrite delete_id, catalogue_eta in Hs by done. apply Hs; [|done].
      by rewrite stored_exchange_not_durable. }
  destruct props as [p|]; [|by apply Hnot]. cbn [fst] in *.
  destruct (ep_Durable p) eqn:Hd; [|by apply Hnot]. cbn [persist_if] in *.
  destruct (Hok p eq_refl Hd) as ((Hn & _) & _ & _ & Hset).
  destruct (settles_is_Some _ Hset) as [a Ha].
  split; [|split].
  - apply (plain_exchanges vh); done.
  - apply (mirrors_ext vh1); [|done..]. cbn [catalogue_now catalogue_of vh_persist persist foldr note].
    rewrite Ha. apply (mirrors_set_exchange vh _ name e
      (Some (json_text typ, with_exchange_args a (exchange_ToPersistence p), []))); [done| |].
    + unfold stored_exchange. rewrite Hpr. cbn. by rewrite Hd, Ha.
    + intros y [= <-]. split; [done|]. intros k q. cbn. split; [by intros ?%elem_of_nil|by intros [?%Hnb _]].
  - constructor; done.
Qed.

Lemma deleteExchange_restartable name vh : restartable vh → restartable (deleteExchangeUnlocked name vh).1.
Proof.
  intros (Hp & Hm & Hl). pose proof (deleteExchange_wf name vh (pl_names _ Hp)) as Hwf'.
  unfold deleteExchangeUnlocked in *. destruct (is_mandatory name); [done|].
  destruct (vh_Exchanges vh !! name) as [e|] eqn:He; [|done]. cbn [fst] in *.
  set (vh1 := set_Exchanges (delete name (vh_Exchanges vh)) vh) in *.
  destruct (pl_exchange _ Hp name e He) as [_ Hdur]. split; [|split].
  - apply (plain_exchanges vh); [done|exact Hwf'|by destruct (ep_Durable _)|].
    intros n e' Hn. apply (pl_exchange _ Hp). destruct (ep_Durable _); cbn in Hn;
      by apply lookup_delete_Some in Hn as [_ ?].
  - apply (mirrors_persist_if vh1 _ _ (MkCatalogue (cat_queues (catalogue_now vh))
      (delete name (cat_exchanges (catalogue_now vh))))); [by apply mirrors_delete_exchange|].
    change (catalogue_now vh1) with (catalogue_now vh). destruct (ep_Durable (ex_Props e)) eqn:Hd; [done|].
    rewrite delete_id, catalogue_eta; [done|].
    destruct (mirror_exchange _ _ _ _ Hm He) as [(x & Hx & Hs)|[Hx _]]; [|done].
    by rewrite stored_exchange_not_durable in Hs.
  - apply storable_persist_if; [|done]. intros Hd. cbn. apply (Hdur Hd).
Qed.

Lemma checkAutoDeleteExchange_restartable name vh :
  restartable vh → restartable (checkAutoDeleteExchangeUnlocked name vh).1.
Proof.
  intros Hr. pose proof (deleteExchange_restartable name vh Hr) as Hd. unfold checkAutoDeleteExchangeUnlocked.
  destruct (vh_Exchanges vh !! name); [|done]. case_decide; [|done].
  by destruct (deleteExchangeUnlocked name vh) as [vh' []].
Qed.

(** ** Declaring queues *)

(** No binding leads to a queue that does not exist. *)
Lemma bound_to_live vh n e k q : wf_names vh → vh_Exchanges vh !! n = Some e → bound_to e k q →
  is_Some (vh_Queues vh !! q).
Proof.
  intros Hwf He (bs & b & Hbs & Hb & <-). destruct (wn_binding _ _ Hwf n e k bs He Hbs) as [_ Hf].
  rewrite Forall_forall in Hf. apply (Hf b Hb).
Qed.

Lemma create_queue_restartable name props connID vh :
  restartable vh → vh_Queues vh !! name = None → storable_name name →
  settles (qp_Arguments (default NewQueueProperties props)) →
  restartable (create_queue name props connID vh).1.
Proof.
  intros (Hp & Hm & Hl) Hnone Hn Hset. pose proof (pl_names _ Hp) as Hw.
  pose proof (create_queue_wf name props connID vh Hw Hnone) as Hwf'.
  unfold create_queue in *. cbv zeta in *. set (p := default NewQueueProperties props) in *. cbn [fst] in *.
  set (q := declared_queue name p connID vh) in *. assert (q_Props q = p) as Hq by done.
  set (vh1 := set_Queues (<[name := q]> (vh_Queues vh)) vh) in *.
  destruct (settles_is_Some _ Hset) as [a Ha]. pose proof (mirror_no_queue _ _ name Hm Hnone) as Hcq.
  assert (∀ n e k q0, vh_Exchanges vh !! n = Some e → bound_to e k q0 → is_durable vh1 q0 = is_durable vh q0) as Hdur.
  { intros n e k q0 He Hb. destruct (bound_to_live vh n e k q0 Hw He Hb) as [x Hx].
    unfold is_durable. cbn. by rewrite lookup_insert_ne by congruence. }
  split; [|split].
  - split; [exact Hwf'| |].
    + intros n x Hx. assert (<[name := q]> (vh_Queues vh) !! n = Some x) as Hx' by by destruct (qp_Durable p).
      apply lookup_insert_Some in Hx' as [[<- <-]|[_ Hx']]; [by rewrite Hq|by apply (pl_queue _ Hp)].
    + intros n e He. apply (pl_exchange _ Hp n e). by destruct (qp_Durable p).
  - set (c' := if qp_Durable p then note (VHost.SaveQueueMetadata name p) (catalogue_now vh1) else catalogue_now vh1).
    apply (mirrors_persist_if vh1 _ _ c'); [|done].
    assert (cat_exchanges c' = cat_exchanges (catalogue_now vh)) as Ece.
    { unfold c'. destruct (qp_Durable p); [|done]. cbn [note]. by rewrite Ha. }
    split.
    + intros n. unfold c', vh1. cbn [vh_Queues set_Queues]. destruct (decide (name = n)) as [<-|Hne].
      * rewrite lookup_insert_eq. cbn. unfold stored_queue. rewrite Hq.
        destruct (qp_Durable p); [cbn [note]; rewrite Ha; cbn; by rewrite lookup_insert_eq|].
        change (fst <$> cat_queues (catalogue_now vh) !! name = None). by rewrite Hcq.
      * rewrite lookup_insert_ne by done. rewrite <-(mr_queue _ _ Hm n).
        destruct (qp_Durable p); [|done]. cbn [note]. rewrite Ha. cbn. by rewrite lookup_insert_ne.
    + intros n. rewrite Ece. apply (mr_exchange _ _ Hm).
    + intros n e x He. rewrite Ece. intros Hx.
      apply (bindings_stored_ext vh vh1 e e); [done| |by apply (mr_bindings _ _ Hm n)].
      intros k q0. by apply (Hdur n).
  - apply storable_persist_if; [|done]. intros _. split; [apply Hn|done].
Qed.

Lemma CreateQueue_restartable candidates name props connID vh :
  restartable vh → Forall storable_name candidates → (name = "" ∨ storable_name name) →
  settles (qp_Arguments props) →
  restartable (CreateQueue candidates name (Some props) connID vh).1.
Proof.
  intros Hr Hc Hn Hset. unfold CreateQueue. case_decide as Hname.
  - destruct (generated_name candidates vh) as [name'|] eqn:Hg; [|done].
    apply create_queue_restartable; [done|by eapply generated_name_fresh| |done].
    unfold generated_name in Hg. apply head_Some_elem_of, list_elem_of_filter in Hg as [_ Hin].
    rewrite Forall_forall in Hc. apply Hc. by apply elem_of_take in Hin as (i & Hi%list_elem_of_lookup_2 & _).
  - destruct Hn as [->|Hn]; [done|]. unfold retrievePassiveQueue.
    destruct (qp_Passive props).
    + by destruct (vh_Queues vh !! name).
    + destruct (vh_Queues vh !! name) eqn:E; [done|]. by apply create_queue_restartable.
Qed.

(** ** Binding *)

Lemma bound_to_default e k q : bound_to e k q ↔ q ∈ b_Queue <$> default [] (ex_Bindings e !! k).
Proof.
  unfold bound_to. rewrite list_elem_of_fmap. split.
  - intros (bs & b & -> & Hb & <-). by exists b.
  - intros (b & -> & Hb). destruct (ex_Bindings e !! k) as [bs|]; [by exists bs, b|by apply elem_of_nil in Hb].
Qed.

Lemma add_binding_plain e k q args e' :
  plain_bindings e → no_args args → json_text k = k →
  add_binding k (MkBinding q k args) q k args e = Some e' →
  plain_bindings e' ∧ ¬ bound_to e k q ∧ (∀ k' q', bound_to e' k' q' ↔ bound_to e k' q' ∨ (k', q') = (k, q)) ∧
  e' = set_Bindings (ex_Bindings e') e.
Proof.
  intros Hpl Ha Hk. unfold add_binding. set (bs := default [] (ex_Bindings e !! k)).
  destruct (existsb _ bs) eqn:Hex; [done|]. intros [= <-].
  assert (NoDup (b_Queue <$> bs) ∧ Forall (λ b, no_args (b_Args b) ∧ b_RoutingKey b = k) bs) as [Hnd Hf].
  { unfold bs. destruct (ex_Bindings e !! k) as [bs0|] eqn:E; [|split; constructor]. by destruct (Hpl k bs0 E) as (? & ? & _). }
  assert (¬ bound_to e k q) as Hnot.
  { rewrite bound_to_default. fold bs. intros (b & Hq & Hb)%list_elem_of_fmap.
    rewrite existsb_false in Hex. specialize (Hex b Hb). rewrite Forall_forall in Hf. destruct (Hf b Hb) as [Hb1 Hb2].
    unfold bindingExist in Hex. rewrite !bool_decide_true, no_args_match in Hex by (done || congruence). done. }
  split; [|split; [done|split; [|done]]].
  - intros k' bs'. cbn. rewrite lookup_insert_Some. intros [[<- <-]|[_ Hbs]]; [|by apply Hpl].
    split; [|split; [|done]].
    + rewrite fmap_app. apply NoDup_app. split; [done|]. split; [|apply NoDup_singleton].
      intros x Hx Hxq. apply list_elem_of_singleton in Hxq as ->. apply Hnot. by rewrite bound_to_default.
    + apply Forall_app. split; [done|]. by constructor.
  - intros k' q'. rewrite !bound_to_default. cbn. destruct (decide (k = k')) as [<-|Hne].
    + rewrite lookup_insert_eq. cbn. fold bs. rewrite fmap_app, elem_of_app. cbn. rewrite list_elem_of_singleton. naive_solver.
    + rewrite lookup_insert_ne by done. naive_solver.
Qed.

Lemma wf_names_unpersist b call vh : wf_names (persist_if b call vh) → wf_names vh.
Proof.
  intros Hw. destruct b; [|done]. apply (wf_names_exchanges ∅ _ vh Hw); [done|]. intros n e He.
  split; [by apply (wn_exchange _ _ Hw)|]. intros key bs Hb. by apply (wn_binding _ _ Hw n).
Qed.

(** Storing one more binding of a durable exchange to a durable queue. *)
Lemma bindings_stored_add vh e e' k q args bs :
  bindings_stored vh e bs → no_args args → json_text k = k → json_text q = q → ¬ bound_to e k q →
  (∀ k' q', bound_to e' k' q' ↔ bound_to e k' q' ∨ (k', q') = (k, q)) → is_durable vh q = true →
  bindings_stored vh e' (add_binding_data q k args args bs).
Proof.
  intros [Hargs Hpairs] Ha Hk Hq Hnot Hb Hdur. unfold add_binding_data.
  assert (existsb (JsonPersistence.same_binding q k args) bs = false) as ->.
  { apply existsb_false. intros b Hin. rewrite Forall_forall in Hargs. rewrite same_binding_pair by auto.
    apply bool_decide_false. intros E. apply Hnot, (proj1 (Hpairs k q)), list_elem_of_fmap. by exists b. }
  rewrite Hk, Hq. split.
  - apply Forall_app. split; [done|]. by constructor.
  - intros k' q'. rewrite fmap_app, elem_of_app, Hpairs, Hb. cbn. rewrite list_elem_of_singleton.
    split; [|naive_solver]. intros [[? ?]|E]; [by split; [left|]|]. injection E as -> ->. by split; [right|].
Qed.

Lemma bindings_stored_hidden vh e e' k q bs :
  bindings_stored vh e bs → (∀ k' q', bound_to e' k' q' ↔ bound_to e k' q' ∨ (k', q') = (k, q)) →
  is_durable vh q = false → bindings_stored vh e' bs.
Proof.
  intros [Hargs Hpairs] Hb Hdur. split; [done|]. intros k' q'. rewrite Hpairs, Hb. split; [naive_solver|].
  intros [[?|E] Hd]; [done|]. injection E as -> ->. congruence.
Qed.

(** The entry of an exchange whose bindings change. *)
Lemma mirrors_rebind vh c n e e' x f :
  mirrors vh c → vh_Exchanges vh !! n = Some e → cat_exchanges c !! n = Some x →
  stored_exchange e' = stored_exchange e → bindings_stored vh e' (f x.2) →
  mirrors (set_Exchanges (<[n := e']> (vh_Exchanges vh)) vh)
    (MkCatalogue (cat_queues c) (alter (λ x, (x.1, f x.2)) n (cat_exchanges c))).
Proof.
  intros Hm He Hx Hs Hb. rewrite (alter_present _ _ _ _ Hx).
  apply (mirrors_set_exchange vh c n e' (Some (x.1, f x.2))); [done| |by intros y [= <-]].
  rewrite Hs. destruct (mirror_exchange _ _ _ _ Hm He) as [(y & Hy & ->)|[Hy _]]; cbn; congruence.
Qed.

(** The entry stays as it is. *)
Lemma mirrors_rebind_same vh c n e e' :
  mirrors vh c → vh_Exchanges vh !! n = Some e → stored_exchange e' = stored_exchange e →
  (∀ x, cat_exchanges c !! n = Some x → bindings_stored vh e' x.2) →
  mirrors (set_Exchanges (<[n := e']> (vh_Exchanges vh)) vh) c.
Proof.
  intros Hm He Hs Hb. destruct (mirror_exchange _ _ _ _ Hm He) as [(x & Hx & Hsx)|[Hx Hsx]].
  - pose proof (mirrors_set_exchange vh c n e' (Some x) Hm) as Hr. cbn in Hr.
    rewrite (insert_id (cat_exchanges c)), catalogue_eta in Hr by done. apply Hr; [by rewrite Hs, Hsx|]. intros y [= <-]. by apply Hb.
  - pose proof (mirrors_set_exchange vh c n e' None Hm) as Hr. cbv match in Hr.
    rewrite delete_id, catalogue_eta in Hr by done. apply Hr; [by rewrite Hs, Hsx|done].
Qed.

Lemma plain_rebind vh n e bs : plain vh → vh_Exchanges vh !! n = Some e →
  let e' := set_Bindings bs e in
  let vh' := set_Exchanges (<[n := e']> (vh_Exchanges vh)) vh in
  wf_names vh' → plain_bindings e' → plain vh'.
Proof.
  intros Hp He e' vh' Hw Hpl. apply (plain_exchanges vh); [done|done|done|].
  intros n' e1. cbn. rewrite lookup_insert_Some. intros [[<- <-]|[_ Hn]]; [|by apply (pl_exchange _ Hp)].
  split; [done|]. apply (pl_exchange _ Hp n e He).
Qed.

Lemma BindQueue_restartable exchange queue key args connID vh :
  restartable vh → no_args args → json_text key = key →
  (∀ e, vh_Exchanges vh !! resolveExchangeAlias exchange = Some e → ex_Typ e = FANOUT → key = "") →
  restartable (BindQueue exchange queue key args connID vh).1.
Proof.
  intros (Hp & Hm & Hl) Ha Hk Hfan. pose proof (BindQueue_wf exchange queue key args connID vh (pl_names _ Hp)) as Hwf'.
  destruct (BindQueue exchange queue key args connID vh) as [vh' [[]|err]] eqn:Hb;
    [|apply BindQueue_err in Hb as ->; done].
  apply BindQueue_ok in Hb as (e & q & He & Hq & _ & _ & Hadd). cbn [fst] in *. cbv zeta in Hadd.
  set (n := resolveExchangeAlias exchange) in *.
  assert (filed_key e key = key) as Hf.
  { unfold filed_key. case_decide; [|done]. symmetry. by apply (Hfan e). }
  rewrite Hf in Hadd. destruct (add_binding key _ queue key args e) as [e'|] eqn:Hab; [|by subst vh'].
  destruct (pl_exchange _ Hp n e He) as [Hpl Hdur]. destruct (pl_queue _ Hp queue q Hq) as [[Hqn Hqt] _].
  destruct (add_binding_plain e key queue args e' Hpl Ha Hk Hab) as (Hpl' & Hnot & Hbd & Ee).
  set (vh1 := set_Exchanges (<[n := e']> (vh_Exchanges vh)) vh) in *.
  set (b := ep_Durable (ex_Props e) && qp_Durable (q_Props q)) in *.
  assert (wf_names vh1) as Hw1 by (rewrite Hadd in Hwf'; by apply wf_names_unpersist in Hwf').
  assert (is_durable vh queue = qp_Durable (q_Props q)) as Hqd by (unfold is_durable; by rewrite Hq).
  assert (stored_exchange e' = stored_exchange e) as Hs by by rewrite Ee.
  rewrite Hadd. split; [|split].
  - apply plain_persist_if. revert Hw1. unfold vh1. rewrite Ee. intros Hw1.
    apply (plain_rebind vh n e); [done..|]. by rewrite <-Ee.
  - set (c' := if b then note (VHost.SaveBindingState n queue key args) (catalogue_now vh1) else catalogue_now vh1).
    apply (mirrors_persist_if vh1 _ _ c'); [|done]. unfold c', b. rewrite <-Hqd.
    destruct (ep_Durable (ex_Props e)) eqn:Hd; cycle 1.
    { cbn [andb]. apply (mirrors_rebind_same vh _ n e e' Hm He Hs). intros x Hx.
      destruct (mirror_exchange _ _ _ _ Hm He) as [(y & Hy & Hsy)|[Hy _]]; [|congruence].
      by rewrite stored_exchange_not_durable in Hsy. }
    destruct (mirror_exchange _ _ _ _ Hm He) as [(x & Hx & Hsx)|[_ Hsx]]; cycle 1.
    { destruct (stored_exchange_durable e) as [y Hy]; [by apply Hdur|done|congruence]. }
    pose proof (mr_bindings _ _ Hm n e x He Hx) as Hst. cbn [andb]. destruct (is_durable vh queue) eqn:Hqd'.
    + cbn [note]. rewrite (no_args_reread args Ha).
      apply (mirrors_rebind vh _ n e e' x (add_binding_data queue key args args)); try done.
      by apply (bindings_stored_add vh e).
    + apply (mirrors_rebind_same vh _ n e e' Hm He Hs). intros y Hy.
      assert (y = x) as -> by (change (catalogue_now vh1) with (catalogue_now vh) in *; congruence).
      by apply (bindings_stored_hidden vh e e' key queue).
  - apply storable_persist_if; [|done]. unfold b. intros [Hd _]%andb_true_iff. cbn.
    split; [apply (Hdur Hd)|by apply no_args_settles].
Qed.

(** ** Unbinding *)

Lemma remove_binding_plain q args bs rest :
  no_args args → Forall (λ b, no_args (b_Args b)) bs → NoDup (b_Queue <$> bs) →
  remove_binding q args bs = Some rest →
  sublist rest bs ∧ ∀ x, x ∈ b_Queue <$> rest ↔ x ∈ b_Queue <$> bs ∧ x ≠ q.
Proof.
  intros Ha. revert rest. induction bs as [|b bs IH]; intros rest Hf Hnd; cbn [remove_binding]; [done|].
  apply Forall_cons in Hf as [Hb Hf]. cbn in Hnd. apply NoDup_cons in Hnd as [Hnot Hnd].
  rewrite no_args_match, andb_true_r by done. case_bool_decide as Hq.
  - intros [= <-]. split; [by apply sublist_cons|]. intros x. cbn. rewrite elem_of_cons.
    split; [intros Hx; split; [by right|congruence]|naive_solver].
  - destruct (remove_binding q args bs) as [rest'|] eqn:E; [|done]. intros [= <-].
    destruct (IH rest' Hf Hnd eq_refl) as [Hs Hx]. split; [by apply sublist_skip|].
    intros x. cbn. rewrite !elem_of_cons, Hx. naive_solver.
Qed.

Lemma plain_bindings_sublist e bs :
  plain_bindings e → (∀ k b, bs !! k = Some b → ∃ b0, ex_Bindings e !! k = Some b0 ∧ sublist b b0) →
  plain_bindings (set_Bindings bs e).
Proof.
  intros Hpl Hsub k b Hk. destruct (Hsub k b Hk) as (b0 & Hb0 & Hs). destruct (Hpl k b0 Hb0) as (Hnd & Hf & Hkt).
  split; [|split; [|done]].
  - by apply (sublist_NoDup _ (b_Queue <$> b0)), fmap_sublist.
  - apply Forall_forall. intros x Hx. rewrite Forall_forall in Hf. apply Hf. by apply (sublist_subseteq b).
Qed.

Lemma filter_pairs q k a bs k' q' :
  no_args a → Forall (λ b, no_args (persistence.bd_Arguments b)) bs →
  (k', q') ∈ pair_of <$> filter (λ b, JsonPersistence.same_binding q k a b = false) bs ↔
  (k', q') ∈ pair_of <$> bs ∧ (k', q') ≠ (k, q).
Proof.
  intros Ha Hargs. rewrite !list_elem_of_fmap. setoid_rewrite list_elem_of_filter.
  rewrite Forall_forall in Hargs. split.
  - intros (b & E & Hs & Hin). split; [by exists b|].
    rewrite same_binding_pair in Hs by auto. apply bool_decide_eq_false in Hs. congruence.
  - intros [(b & E & Hin) Hne]. exists b. split; [done|]. split; [|done].
    rewrite same_binding_pair by auto. apply bool_decide_eq_false. congruence.
Qed.

(** Taking a binding out of the file of a durable exchange. *)
Lemma bindings_stored_remove vh e e' k q args bs :
  bindings_stored vh e bs → no_args args →
  (∀ k' q', bound_to e' k' q' ↔ bound_to e k' q' ∧ (k', q') ≠ (k, q)) →
  bindings_stored vh e' (filter (λ b, JsonPersistence.same_binding q k args b = false) bs).
Proof.
  intros [Hargs Hpairs] Ha Hb. split.
  - apply Forall_forall. intros b [_ Hin]%list_elem_of_filter. rewrite Forall_forall in Hargs. by apply Hargs.
  - intros k' q'. rewrite filter_pairs, Hpairs, Hb by done. tauto.
Qed.

Lemma bindings_stored_unseen vh e e' k q bs :
  bindings_stored vh e bs → is_durable vh q = false →
  (∀ k' q', bound_to e' k' q' ↔ bound_to e k' q' ∧ (k', q') ≠ (k, q)) → bindings_stored vh e' bs.
Proof.
  intros [Hargs Hpairs] Hd Hb. split; [done|]. intros k' q'. rewrite Hpairs, Hb. split.
  - intros [Hkq Hdq]. split; [|done]. split; [done|]. intros E. injection E as -> ->. congruence.
  - tauto.
Qed.

(** The exchange after an unbind, while its file still has the binding. *)
Lemma rebind_mirrors vh n e e' q k args :
  plain vh → mirrors vh (catalogue_now vh) → vh_Exchanges vh !! n = Some e →
  stored_exchange e' = stored_exchange e → no_args args →
  (∀ k' q', bound_to e' k' q' ↔ bound_to e k' q' ∧ (k', q') ≠ (k, q)) →
  let vh1 := set_Exchanges (<[n := e']> (vh_Exchanges vh)) vh in
  mirrors vh1 (if ep_Durable (ex_Props e) && is_durable vh q
               then note (VHost.DeleteBindingState n q k args) (catalogue_now vh1) else catalogue_now vh1).
Proof.
  intros Hp Hm He Hs Ha Hb vh1. destruct (pl_exchange _ Hp n e He) as [_ Hdur].
  destruct (ep_Durable (ex_Props e)) eqn:Hd; cbn [andb]; cycle 1.
  { apply (mirrors_rebind_same vh _ n e e' Hm He Hs). intros x Hx.
    destruct (mirror_exchange _ _ _ _ Hm He) as [(y & Hy & Hsy)|[Hy _]]; [|congruence].
    by rewrite stored_exchange_not_durable in Hsy. }
  destruct (mirror_exchange _ _ _ _ Hm He) as [(x & Hx & Hsx)|[_ Hsx]]; cycle 1.
  { destruct (stored_exchange_durable e) as [y Hy]; [by apply Hdur|done|congruence]. }
  pose proof (mr_bindings _ _ Hm n e x He Hx) as Hst. destruct (is_durable vh q) eqn:Hqd.
  - cbn [note]. apply (mirrors_rebind vh _ n e e' x
      (filter (λ b, JsonPersistence.same_binding q k args b = false))); try done.
    by apply (bindings_stored_remove vh e).
  - apply (mirrors_rebind_same vh _ n e e' Hm He Hs). intros y Hy.
    assert (y = x) as -> by (change (catalogue_now vh1) with (catalogue_now vh) in *; congruence).
    by apply (bindings_stored_unseen vh e e' k q).
Qed.

(** What [DeleteBindingUnlocked] makes of an exchange: nothing, or one binding
    less, and then the exchange may go as well. *)
Lemma DeleteBinding_cases vh n e queue key args :
  plain vh → vh_Exchanges vh !! n = Some e → no_args args →
  let r := DeleteBindingUnlocked e queue key args vh in
  r.1 = vh ∧ is_ok r.2 = false ∨
  ∃ bs, let e' := set_Bindings bs e in
    let vh1 := set_Exchanges (<[n := e']> (vh_Exchanges vh)) vh in
    plain_bindings e' ∧ wf_names vh1 ∧
    (∀ k' q', bound_to e' k' q' ↔ bound_to e k' q' ∧ (k', q') ≠ (key, queue)) ∧
    (r.1 = vh1 ∧ (r.2 = Ok tt ∨ is_mandatory n = true ∧ is_ok r.2 = false) ∨
     r.1 = (deleteExchangeUnlocked n vh1).1 ∧ r.2 = Ok tt).
Proof.
  intros Hp He Ha. unfold DeleteBindingUnlocked.
  destruct (ex_Bindings e !! key) as [bs0|] eqn:Hk; [|by left].
  destruct (remove_binding queue args bs0) as [rest|] eqn:Hr; [right|by left].
  destruct (pl_exchange _ Hp n e He) as [Hpl _]. destruct (Hpl key bs0 Hk) as (Hnd & Hf & _).
  assert (ex_Name e = n) as Hn by apply (wn_exchange _ _ (pl_names _ Hp) n e He).
  destruct (remove_binding_plain queue args bs0 rest Ha) as [Hsub Hin]; [|done|done|].
  { apply (Forall_impl _ _ _ Hf). tauto. }
  set (bs := if decide (rest = []) then delete key (ex_Bindings e) else <[key := rest]> (ex_Bindings e)).
  assert (∀ k b, bs !! k = Some b → b ≠ [] ∧ ∃ b0, ex_Bindings e !! k = Some b0 ∧ sublist b b0) as Hbs.
  { intros k b. unfold bs. case_decide as Hrest.
    - intros [_ Hb]%lookup_delete_Some. split; [|by exists b].
      by apply (wn_binding _ _ (pl_names _ Hp) n e k b He Hb).
    - rewrite lookup_insert_Some. intros [[<- <-]|[_ Hb]]; [split; [done|by exists bs0]|].
      split; [|by exists b]. by apply (wn_binding _ _ (pl_names _ Hp) n e k b He Hb). }
  assert (wf_names (set_Exchanges (<[n := set_Bindings bs e]> (vh_Exchanges vh)) vh)) as Hw.
  { apply wf_names_insert; [apply Hp|done|]. intros k b Hb. destruct (Hbs k b Hb) as (Hne & b0 & Hb0 & Hs).
    split; [done|]. destruct (wn_binding _ _ (pl_names _ Hp) n e k b0 He Hb0) as [_ Hall].
    apply Forall_forall. intros x Hx. rewrite Forall_forall in Hall. apply Hall. by apply (sublist_subseteq b). }
  exists bs. cbv zeta. split; [by apply plain_bindings_sublist; [done|]; intros k b Hb; apply (Hbs k b Hb)|].
  split; [exact Hw|]. split.
  - intros k' q'. rewrite !bound_to_default. cbn. destruct (decide (k' = key)) as [->|Hne].
    + rewrite Hk. cbn. transitivity (q' ∈ b_Queue <$> rest); [|rewrite Hin; naive_solver].
      unfold bs. case_decide as Hrest; [rewrite lookup_delete_eq; by subst rest|by rewrite lookup_insert_eq].
    + assert (bs !! k' = ex_Bindings e !! k') as -> by (unfold bs; case_decide;
        [by apply lookup_delete_ne|by apply lookup_insert_ne]). naive_solver.
  - assert (∀ b, ex_Name (set_Bindings b e) = n) as Hn' by done. rewrite !Hn'. unfold bs. case_decide as Hrest; [|left; split; [done|by left]].
    set (e' := set_Bindings (delete key (ex_Bindings e)) e).
    set (vh1 := set_Exchanges (<[n := e']> (vh_Exchanges vh)) vh).
    assert (vh_Exchanges vh1 !! n = Some e') as He1 by apply lookup_insert_eq.
    unfold checkAutoDeleteExchangeUnlocked. rewrite He1.
    case_decide; [|left; split; [done|by left]].
    destruct (deleteExchangeUnlocked n vh1) as [vh2 [[]|err]] eqn:Hd; [right; done|left].
    unfold deleteExchangeUnlocked in Hd. destruct (is_mandatory n) eqn:Hmand.
    + injection Hd as <- _. split; [done|]. by right.
    + by rewrite He1 in Hd.
Qed.

(** Deleting an exchange before one of its bindings is taken out of its file, or
    after, is the same. *)
Lemma note_swap n q k args c :
  note (VHost.DeleteBindingState n q k args) (note (VHost.DeleteExchangeMetadata n) c) =
  note (VHost.DeleteExchangeMetadata n) (note (VHost.DeleteBindingState n q k args) c).
Proof.
  cbn [note cat_queues cat_exchanges]. f_equal. rewrite alter_absent by apply lookup_delete_eq.
  apply map_eq. intros i. destruct (decide (i = n)) as [->|]; [by rewrite !lookup_delete_eq|].
  by rewrite !lookup_delete_ne, lookup_alter_ne.
Qed.

Lemma unbound_restartable vh n e q queue key args :
  restartable vh → vh_Exchanges vh !! n = Some e → vh_Queues vh !! queue = Some q → no_args args →
  restartable (match DeleteBindingUnlocked e queue key args vh with
    | (vh, Err err) => (vh, Err err)
    | (vh, Ok _) => (persist_if (ep_Durable (ex_Props e) && qp_Durable (q_Props q))
        (VHost.DeleteBindingState n queue key args) vh, Ok tt)
    end : handled unit).1.
Proof.
  intros (Hp & Hm & Hl) He Hq Ha. destruct (pl_exchange _ Hp n e He) as [_ Hdur].
  assert (is_durable vh queue = qp_Durable (q_Props q)) as Hqd by (unfold is_durable; by rewrite Hq).
  set (b := ep_Durable (ex_Props e) && qp_Durable (q_Props q)) in *.
  set (call := VHost.DeleteBindingState n queue key args).
  assert (∀ v, Forall (storable names) (vh_persist v) → Forall (storable names) (vh_persist (persist_if b call v))) as Hst.
  { intros v. apply storable_persist_if. unfold b. intros [Hd _]%andb_true_iff. apply (Hdur Hd). }
  pose proof (DeleteBinding_cases vh n e queue key args Hp He Ha) as Hc. cbv zeta in Hc.
  destruct (DeleteBindingUnlocked e queue key args vh) as [vh' r]. cbn [fst snd] in Hc.
  destruct Hc as [[-> Hr]|(bs & Hpl & Hw & Hb & Hc)]; [by destruct r|].
  set (vh1 := set_Exchanges (<[n := set_Bindings bs e]> (vh_Exchanges vh)) vh) in *.
  pose proof (plain_rebind vh n e bs Hp He Hw Hpl) as Hp1. fold vh1 in Hp1.
  pose proof (rebind_mirrors vh n e (set_Bindings bs e) queue key args Hp Hm He eq_refl Ha Hb) as Hm1.
  fold vh1 call in Hm1. rewrite Hqd in Hm1. fold b in Hm1. cbv zeta in Hm1.
  destruct Hc as [[-> [->|[Hmand Hr]]]|[-> ->]].
  - cbn [fst]. split; [by apply plain_persist_if|]. split; [|by apply Hst]. by eapply mirrors_persist_if.
  - destruct r as [|err]; [done|]. cbn [fst]. split; [done|]. split; [|done].
    assert (b = false) as E; [|by rewrite E in Hm1].
    unfold b. destruct (ep_Durable (ex_Props e)) eqn:Hd; [|done].
    destruct (Hdur eq_refl) as (_ & [_ Hno] & _). congruence.
  - cbn [fst]. pose proof (deleteExchange_wf n vh1 Hw) as Hw2. unfold deleteExchangeUnlocked in *.
    destruct (is_mandatory n) eqn:Hmand.
    { split; [by apply plain_persist_if|]. split; [|by apply Hst]. by eapply mirrors_persist_if. }
    cbn [vh_Exchanges set_Exchanges] in *. change (vh_Exchanges vh1) with (<[n := set_Bindings bs e]> (vh_Exchanges vh)) in *.
    rewrite lookup_insert_eq in *. cbn [fst ex_Props set_Bindings] in *.
    set (vh2 := set_Exchanges (delete n _) vh1) in *.
    split; [|split].
    + apply plain_persist_if. apply (plain_exchanges vh1); [done|exact Hw2|by destruct (ep_Durable _)|].
      intros n' e' Hn. apply (pl_exchange _ Hp1 n' e'). destruct (ep_Durable _); cbn in Hn |- *;
        by apply lookup_delete_Some in Hn as [_ ?].
    + set (vh3 := persist_if (ep_Durable (ex_Props e)) (VHost.DeleteExchangeMetadata n) vh2).
      eapply (mirrors_persist_if vh3); [|done]. unfold vh3. rewrite catalogue_persist_if.
      apply (mirrors_ext vh2); [|by destruct (ep_Durable _)..].
      pose proof (mirrors_delete_exchange vh1 _ n Hm1) as Hd. fold vh2 in Hd. revert Hd. unfold b.
      change (catalogue_now vh2) with (catalogue_now vh1).
      destruct (ep_Durable (ex_Props e)) eqn:Hdu; cbn [andb].
      * destruct (qp_Durable (q_Props q)); [|done]. unfold call. by rewrite note_swap.
      * rewrite (delete_id (cat_exchanges _)), catalogue_eta; [exact id|].
        change (cat_exchanges (catalogue_now vh1)) with (cat_exchanges (catalogue_now vh)).
        destruct (mirror_exchange _ _ _ _ Hm He) as [(y & Hy & Hsy)|[Hy _]]; [|done].
        by rewrite stored_exchange_not_durable in Hsy.
    + apply Hst. apply storable_persist_if; [|done]. intros Hd. apply (Hdur Hd).
Qed.

Lemma UnbindQueue_restartable exchange queue key args connID vh :
  restartable vh → no_args args → restartable (UnbindQueue exchange queue key args connID vh).1.
Proof.
  intros Hr Ha. unfold UnbindQueue. cbv zeta.
  destruct (vh_Exchanges vh !! resolveExchangeAlias exchange) as [e|] eqn:He; [|done].
  destruct (vh_Queues vh !! queue) as [q|] eqn:Hq; [|done].
  destruct (validateQueueOwnership q connID QUEUE QUEUE_UNBIND); [|done].
  repeat case_decide; try done; by apply unbound_restartable.
Qed.

(** ** Deleting queues *)

(** The calls that take the bindings [l] to [q] out of the file of [n]. *)
Definition unbind_calls (n q : string) (l : list (string * Binding)) : list persist_call :=
  (λ kb, VHost.DeleteBindingState n q kb.1 (b_Args kb.2)) <$> l.

Definition unbind_all (q : string) (l : list (string * Binding)) (bs : list persistence.BindingData)
    : list persistence.BindingData :=
  foldl (λ bs kb, filter (λ b, JsonPersistence.same_binding q kb.1 (b_Args kb.2) b = false) bs) bs l.

Lemma unbind_all_pairs q l bs :
  Forall (λ kb, no_args (b_Args kb.2)) l → Forall (λ b, no_args (persistence.bd_Arguments b)) bs →
  Forall (λ b, no_args (persistence.bd_Arguments b)) (unbind_all q l bs) ∧
  ∀ k' q', (k', q') ∈ pair_of <$> unbind_all q l bs ↔
    (k', q') ∈ pair_of <$> bs ∧ ∀ kb, kb ∈ l → (k', q') ≠ (kb.1, q).
Proof.
  intros Hl. revert bs. induction Hl as [|kb l Hkb Hl IH]; intros bs Hbs.
  { split; [done|]. intros k' q'. split; [|tauto]. intros Hin. split; [exact Hin|]. by intros kb ?%elem_of_nil. }
  cbn [unbind_all foldl]. set (bs' := filter _ bs).
  assert (Forall (λ b, no_args (persistence.bd_Arguments b)) bs') as Hbs'.
  { apply Forall_forall. intros b [_ Hin]%list_elem_of_filter. rewrite Forall_forall in Hbs. by apply Hbs. }
  destruct (IH bs' Hbs') as [Hf Hp]. split; [exact Hf|]. intros k' q'. change (foldl _ bs' l) with (unbind_all q l bs').
  rewrite Hp. unfold bs'. rewrite filter_pairs by done. setoid_rewrite elem_of_cons. split.
  - intros [[Hin Hne] Hall]. split; [done|]. intros kb' [->|Hkb']; [done|by apply Hall].
  - intros [Hin Hall]. split; [split; [done|apply Hall; by left]|]. intros kb' Hkb'. apply Hall. by right.
Qed.

Lemma foldl_persist_if (b : bool) (f : string * Binding → persist_call) l vh :
  vh_persist (foldl (λ vh kb, persist_if b (f kb) vh) vh l) = (if b then reverse (f <$> l) else []) ++ vh_persist vh.
Proof.
  revert vh. induction l as [|kb l IH]; intros vh; [by destruct b|]. cbn [foldl]. rewrite IH.
  destruct b; [|done]. by rewrite fmap_cons, reverse_cons, <-app_assoc.
Qed.

Lemma note_unbind_calls n q l x c : cat_exchanges c !! n = Some x →
  foldr note c (reverse (unbind_calls n q l)) =
  MkCatalogue (cat_queues c) (alter (λ x, (x.1, unbind_all q l x.2)) n (cat_exchanges c)).
Proof.
  revert c x. induction l as [|kb l IH]; intros c x Hx.
  { cbn. rewrite (alter_present _ _ _ _ Hx). change (unbind_all q [] x.2) with x.2.
    destruct c as [cq ce], x. cbn in *. by rewrite insert_id. }
  unfold unbind_calls. rewrite fmap_cons, reverse_cons, foldr_app. cbn [foldr].
  fold (unbind_calls n q l). set (c1 := note _ c).
  assert (cat_exchanges c1 !! n = Some (x.1, filter
    (λ b, JsonPersistence.same_binding q kb.1 (b_Args kb.2) b = false) x.2)) as Hx1
    by (unfold c1; cbn; by rewrite lookup_alter_eq, Hx).
  rewrite (IH c1 _ Hx1). unfold c1. cbn [note cat_queues cat_exchanges]. f_equal.
  rewrite (alter_present _ _ n x Hx), (alter_present _ _ n x Hx).
  rewrite (alter_present _ _ n _ (lookup_insert_eq _ _ _)). by rewrite insert_insert_eq.
Qed.

Lemma removed_bindings_elem q e k b :
  (k, b) ∈ removed_bindings q e ↔ ∃ bs, ex_Bindings e !! k = Some bs ∧ b ∈ bs ∧ b_Queue b = q.
Proof.
  unfold removed_bindings. rewrite list_elem_of_bind. setoid_rewrite list_elem_of_bind.
  setoid_rewrite list_elem_of_singleton. setoid_rewrite list_elem_of_filter. split.
  - intros ([k' bs] & (b' & E & Hq & Hin) & Hkv%elem_of_map_to_list). cbn in *. injection E as -> ->. by exists bs.
  - intros (bs & Hbs & Hin & Hq). exists (k, bs). split; [by exists b|by apply elem_of_map_to_list].
Qed.

(** The exchange without the queue's bindings, against its file. *)
Lemma unbind_all_mirrors vh n e q queue :
  plain vh → mirrors vh (catalogue_now vh) → vh_Exchanges vh !! n = Some e → vh_Queues vh !! q_Name queue = Some q →
  q_Props queue = q_Props q →
  let e' := without_queue queue e in
  let vh1 := set_Exchanges (<[n := e']> (vh_Exchanges vh)) vh in
  mirrors vh1 (foldr note (catalogue_now vh)
    (if ep_Durable (ex_Props e) && qp_Durable (q_Props queue)
     then reverse (unbind_calls n (q_Name queue) (removed_bindings (q_Name queue) e)) else [])).
Proof.
  intros Hp Hm He Hq Hprops e' vh1. set (name := q_Name queue) in *.
  destruct (pl_exchange _ Hp n e He) as [Hpl Hdur].
  assert (is_durable vh name = qp_Durable (q_Props queue)) as Hqd by (unfold is_durable; by rewrite Hq, Hprops).
  assert (∀ k x, bound_to e' k x ↔ bound_to e k x ∧ x ≠ name) as Hb.
  { intros k x. pose proof (without_queue_bound queue e k) as Hwq. fold e' name in Hwq. unfold bound_to. split.
    - intros (bs & b & Hbs & Hin & <-). destruct (proj1 (Hwq b)) as [(bs0 & ? & ?) ?]; [by exists bs|].
      split; [by exists bs0, b|done].
    - intros [(bs & b & Hbs & Hin & <-) Hne]. destruct (proj2 (Hwq b)) as (bs1 & ? & ?); [by split; [exists bs|]|].
      by exists bs1, b. }
  assert (stored_exchange e' = stored_exchange e) as Hs by done.
  destruct (ep_Durable (ex_Props e)) eqn:Hd; cbn [andb]; cycle 1.
  { apply (mirrors_rebind_same vh _ n e e' Hm He Hs). intros x Hx.
    destruct (mirror_exchange _ _ _ _ Hm He) as [(y & Hy & Hsy)|[Hy _]]; [|cbn in Hx; congruence].
    by rewrite stored_exchange_not_durable in Hsy. }
  destruct (mirror_exchange _ _ _ _ Hm He) as [(x & Hx & Hsx)|[_ Hsx]]; cycle 1.
  { destruct (stored_exchange_durable e) as [y Hy]; [by apply Hdur|done|congruence]. }
  destruct (mr_bindings _ _ Hm n e x He Hx) as [Hargs Hpairs]. rewrite <-Hqd. destruct (is_durable vh name) eqn:Hnd.
  - rewrite (note_unbind_calls n name _ x) by done.
    apply (mirrors_rebind vh _ n e e' x (unbind_all name (removed_bindings name e))); try done.
    destruct (unbind_all_pairs name (removed_bindings name e) x.2) as [Hf Hall]; [|done|].
    { apply Forall_forall. intros [k b] (bs & Hbs & Hin & _)%removed_bindings_elem.
      destruct (Hpl k bs Hbs) as (_ & Hpb & _). rewrite Forall_forall in Hpb. by apply Hpb. }
    split; [done|]. intros k y. rewrite Hall, Hpairs, Hb. split.
    + intros [[Hby Hdy] Hno]. split; [split; [done|]|done]. intros ->.
      destruct Hby as (bs & b & Hbs & Hin & Hbq). apply (Hno (k, b)); [|done].
      apply removed_bindings_elem. by exists bs.
    + intros [[Hby Hne] Hdy]. split; [done|]. intros kb _ E. injection E as _ ->. done.
  - cbn [foldr]. apply (mirrors_rebind_same vh _ n e e' Hm He Hs). intros y Hy.
    assert (y = x) as -> by congruence. split; [done|]. intros k z. rewrite Hpairs, Hb. split.
    + intros [Hbz Hdz]. split; [split; [done|]|done]. intros ->. congruence.
    + tauto.
Qed.

Lemma without_queue_wf vh n e queue : wf_names vh → vh_Exchanges vh !! n = Some e →
  wf_names (set_Exchanges (<[n := without_queue queue e]> (vh_Exchanges vh)) vh).
Proof.
  intros Hw He. apply wf_names_insert; [done|by apply (wn_exchange _ _ Hw n e)|]. cbn. intros k b.
  rewrite lookup_omap. intros (b0 & Hb0 & [Hne ->]%kept_bindings_some)%bind_Some. split; [done|].
  destruct (wn_binding _ _ Hw n e k b0 He Hb0) as [_ Hall].
  apply Forall_forall. intros x [_ Hx]%list_elem_of_filter. rewrite Forall_forall in Hall. by apply Hall.
Qed.

Lemma without_queue_plain queue e : plain_bindings e → plain_bindings (without_queue queue e).
Proof.
  intros Hpl. apply plain_bindings_sublist; [done|]. intros k b. rewrite lookup_omap.
  intros (b0 & Hb0 & [_ ->]%kept_bindings_some)%bind_Some. exists b0. split; [done|]. apply sublist_filter.
Qed.

Lemma removeQueueBindings_restartable vh e q queue :
  restartable vh → vh_Exchanges vh !! ex_Name e = Some e → vh_Queues vh !! q_Name queue = Some q →
  q_Props queue = q_Props q → restartable (removeQueueBindingsUnlocked e queue vh).
Proof.
  intros (Hp & Hm & Hl) He Hq Hprops. set (n := ex_Name e) in *.
  destruct (pl_exchange _ Hp n e He) as [Hpl Hdur].
  set (b := ep_Durable (ex_Props e) && qp_Durable (q_Props queue)).
  set (removed := removed_bindings (q_Name queue) e).
  set (vh1 := set_Exchanges (<[n := without_queue queue e]> (vh_Exchanges vh)) vh).
  pose (call kb := VHost.DeleteBindingState n (q_Name queue) kb.1 (b_Args (kb : string * Binding).2)).
  set (vh2 := foldl (λ vh kb, persist_if b (call kb) vh) vh1 removed).
  destruct (foldl_persist b call removed vh1) as [Hsame Hex]. fold vh2 in Hsame, Hex.
  assert (restartable vh2) as Hr2.
  { split; [|split].
    - assert (wf_names vh1) as Hw1 by (apply without_queue_wf; [apply Hp|done]).
      apply (plain_exchanges vh1); [|..].
      + apply (plain_rebind vh n e); [done|done|exact Hw1|by apply without_queue_plain].
      + apply (wf_names_exchanges ∅ vh1); [done|done|]. rewrite Hex. intros n' e' Hn.
        split; [by apply (wn_exchange _ _ Hw1)|]. intros k bs Hbs. by apply (wn_binding _ _ Hw1 n').
      + apply Hsame.
      + rewrite Hex. intros n' e'. cbn. rewrite lookup_insert_Some. intros [[<- <-]|[_ Hn]]; [|by apply (pl_exchange _ Hp)].
        split; [by apply without_queue_plain|done].
    - apply (mirrors_ext vh1); [|apply Hsame|exact Hex].
      unfold catalogue_now, catalogue_of, vh2. rewrite (foldl_persist_if b call), foldr_app.
      exact (unbind_all_mirrors vh n e q queue Hp Hm He Hq Hprops).
    - unfold vh2. rewrite (foldl_persist_if b call). apply Forall_app. split; [|done].
      destruct b eqn:Eb; [|done]. apply Forall_reverse, Forall_fmap, Forall_true. intros kb.
      unfold b in Eb. apply andb_true_iff in Eb as [Hd _]. apply (Hdur Hd). }
  assert (removeQueueBindingsUnlocked e queue vh =
    if decide (removed = []) then vh2 else (checkAutoDeleteExchangeUnlocked n vh2).1) as -> by done.
  case_decide; [done|]. by apply checkAutoDeleteExchange_restartable.
Qed.

(** Taking bindings out does not look at the queues. *)
Lemma persist_if_set_Queues b call Q vh : persist_if b call (set_Queues Q vh) = set_Queues Q (persist_if b call vh).
Proof. by destruct b. Qed.

Lemma removeQueueBindings_set_Queues e queue Q vh :
  removeQueueBindingsUnlocked e queue (set_Queues Q vh) = set_Queues Q (removeQueueBindingsUnlocked e queue vh).
Proof.
  unfold removeQueueBindingsUnlocked. cbv zeta.
  set (e' := set_Bindings _ e). set (l := removed_bindings (q_Name queue) e).
  set (b := ep_Durable (ex_Props e) && qp_Durable (q_Props queue)).
  assert (∀ v, foldl (λ vh kb, persist_if b
      (VHost.DeleteBindingState (ex_Name e) (q_Name queue) kb.1 (b_Args kb.2)) vh) (set_Queues Q v) l =
    set_Queues Q (foldl (λ vh kb, persist_if b
      (VHost.DeleteBindingState (ex_Name e) (q_Name queue) kb.1 (b_Args kb.2)) vh) v l)) as Hl.
  { induction l as [|kb l IH]; intros v; [done|]. cbn [foldl]. by rewrite persist_if_set_Queues, IH. }
  change (set_Exchanges (<[ex_Name e := e']> (vh_Exchanges (set_Queues Q vh))) (set_Queues Q vh)) with
    (set_Queues Q (set_Exchanges (<[ex_Name e := e']> (vh_Exchanges vh)) vh)).
  rewrite Hl. set (v := foldl _ _ l). case_decide; [done|].
  unfold checkAutoDeleteExchangeUnlocked, deleteExchangeUnlocked. cbn [vh_Exchanges set_Queues].
  destruct (vh_Exchanges v !! ex_Name e) as [x|] eqn:Ex; [|done]. case_decide; [|done].
  destruct (is_mandatory (ex_Name e)); [done|]. by destruct (ep_Durable (ex_Props x)).
Qed.

Lemma foldl_remove_set_Queues queue Q l vh :
  foldl (λ vh (kv : string * Exchange), removeQueueBindingsUnlocked kv.2 queue vh) (set_Queues Q vh) l =
  set_Queues Q (foldl (λ vh (kv : string * Exchange), removeQueueBindingsUnlocked kv.2 queue vh) vh l).
Proof. revert vh. induction l as [|kv l IH]; intros vh; [done|]. cbn [foldl]. by rewrite removeQueueBindings_set_Queues. Qed.

Lemma foldl_remove_restartable q queue l vh :
  restartable vh → NoDup l.*1 → (∀ n e, (n, e) ∈ l → vh_Exchanges vh !! n = Some e ∧ ex_Name e = n) →
  vh_Queues vh !! q_Name queue = Some q → q_Props queue = q_Props q →
  restartable (foldl (λ vh (kv : string * Exchange), removeQueueBindingsUnlocked kv.2 queue vh) vh l).
Proof.
  revert vh. induction l as [|[n e] l IH]; intros vh Hr Hnd Hin Hq Hp; [done|]. cbn [foldl snd].
  cbn in Hnd. apply NoDup_cons in Hnd as [Hn Hnd]. destruct (Hin n e ltac:(by left)) as [He Hname].
  destruct (removeQueueBindings_spec queue e vh) as [Hs Hex]. apply IH; [|done| |by rewrite (proj1 Hs)|done].
  - apply (removeQueueBindings_restartable vh e q queue); [done|by rewrite Hname|done|done].
  - intros n' e' Hin'. destruct (Hin n' e' ltac:(by right)) as [He' Hname']. split; [|done]. rewrite Hex.
    assert (ex_Name e ≠ n') as Hne.
    { rewrite Hname. intros ->. apply Hn, list_elem_of_fmap. by exists (n', e'). }
    destruct (after_queue_delete queue e); [by rewrite lookup_insert_ne|by rewrite lookup_delete_ne].
Qed.

(** A queue to which nothing is bound can go. *)
Lemma mirrors_delete_queue vh name : mirrors vh (catalogue_now vh) →
  (∀ n e k, vh_Exchanges vh !! n = Some e → ¬ bound_to e k name) →
  mirrors (set_Queues (delete name (vh_Queues vh)) vh)
    (MkCatalogue (delete name (cat_queues (catalogue_now vh))) (cat_exchanges (catalogue_now vh))).
Proof.
  intros Hm Hno. split; cbn [vh_Queues vh_Exchanges set_Queues cat_queues cat_exchanges].
  - intros n. destruct (decide (name = n)) as [<-|Hne]; [by rewrite !lookup_delete_eq|].
    rewrite !lookup_delete_ne by done. apply (mr_queue _ _ Hm).
  - apply Hm.
  - intros n e x He Hx. apply (bindings_stored_ext vh _ e e); [done| |by apply (mr_bindings _ _ Hm n)].
    intros k q Hb. unfold is_durable. cbn. rewrite lookup_delete_ne; [done|]. intros <-. by apply (Hno n e k).
Qed.

Lemma deleteQueue_restartable name vh : restartable vh → restartable (deleteQueuebyNameUnlocked name vh).1.
Proof.
  intros Hr. pose proof Hr as (Hp & _ & _). pose proof (pl_names _ Hp) as Hw.
  pose proof (deleteQueue_wf ∅ name vh Hw) as Hwf'. unfold deleteQueuebyNameUnlocked in *.
  destruct (vh_Queues vh !! name) as [q|] eqn:Hq; [|done]. cbv zeta in *.
  destruct (wn_queue _ _ Hw name q Hq) as [Hname _].
  rewrite foldl_remove_set_Queues in *. cbn [vh_Exchanges set_Queues] in *.
  set (vh2 := foldl _ vh (map_to_list (vh_Exchanges vh))) in *.
  assert (Hl : ∀ n e, (n, e) ∈ map_to_list (vh_Exchanges vh) → vh_Exchanges vh !! n = Some e ∧ ex_Name e = n).
  { intros n e He%elem_of_map_to_list. split; [done|]. by apply (wn_exchange _ _ Hw). }
  destruct (foldl_removeQueueBindings (set_stopped q) (map_to_list (vh_Exchanges vh)) vh
    (NoDup_fst_map_to_list _) Hl) as [Hs Hex]. fold vh2 in Hs, Hex.
  assert (restartable vh2) as (Hp2 & Hm2 & Hl2).
  { apply (foldl_remove_restartable q (set_stopped q)); [done|apply NoDup_fst_map_to_list|exact Hl| |done].
    cbn. by rewrite Hname. }
  assert (Hno : ∀ n e k, vh_Exchanges vh2 !! n = Some e → ¬ bound_to e k name).
  { intros n e k. rewrite Hex. case_decide as Hin; cycle 1.
    - intros He. destruct Hin. apply list_elem_of_fmap. exists (n, e). split; [done|by apply elem_of_map_to_list].
    - intros (e0 & He0 & ->%after_queue_delete_some)%bind_Some (bs & b & Hbs & Hb & Hbq).
      destruct (proj1 (without_queue_bound (set_stopped q) e0 k b)) as [_ Hne]; [by exists bs|].
      apply Hne. cbn. congruence. }
  assert (vh_Queues vh2 = vh_Queues vh) as Hqs by apply Hs.
  cbn [vh_Queues set_Queues vh_index set_index] in *. rewrite delete_insert_eq in *.
  destruct (removeQueueConsumersLocked name (vh_index vh2)) as [removed ix]. cbn [fst] in *.
  set (vh3 := detachQueueDeliveriesLocked name _) in *.
  change (q_Props (set_stopped q)) with (q_Props q) in *.
  assert (vh_Queues vh3 = delete name (vh_Queues vh2)) as E3 by by rewrite Hqs.
  split; [|split].
  - split; [exact Hwf'| |].
    + intros n x Hx. apply (pl_queue _ Hp2). destruct (qp_Durable (q_Props q)); cbn in Hx;
        rewrite Hqs; by apply lookup_delete_Some in Hx as [_ ?].
    + intros n e He. apply (pl_exchange _ Hp2). by destruct (qp_Durable (q_Props q)).
  - apply (mirrors_persist_if vh3 _ _ (MkCatalogue (delete name (cat_queues (catalogue_now vh2)))
      (cat_exchanges (catalogue_now vh2)))).
    + by apply (mirrors_ext (set_Queues (delete name (vh_Queues vh2)) vh2)); [apply mirrors_delete_queue|..].
    + change (catalogue_now vh3) with (catalogue_now vh2). destruct (qp_Durable (q_Props q)) eqn:Hd; [done|].
      rewrite delete_id, catalogue_eta; [done|]. pose proof (mr_queue _ _ Hm2 name) as E. rewrite Hqs, Hq in E.
      cbn in E. unfold stored_queue in E. rewrite Hd in E. by destruct (cat_queues _ !! name).
  - apply storable_persist_if; [|done]. intros _. cbn. apply (pl_queue _ Hp name q Hq).
Qed.

(** ** Messages

    Publishing, delivering and settling leave the exchanges and the properties
    of the queues alone, and persist nothing but messages. *)
Record message_traffic (vh vh' : VHost) : Prop := {
  mt_exchanges : vh_Exchanges vh' = vh_Exchanges vh;
  mt_queues n : q_Props <$> vh_Queues vh' !! n = q_Props <$> vh_Queues vh !! n;
  mt_persist : messages_only vh vh';
}.

Lemma note_message_calls calls c : Forall message_call calls →
  cat_exchanges (foldr note c calls) = cat_exchanges c ∧
  ∀ n, fst <$> cat_queues (foldr note c calls) !! n = fst <$> cat_queues c !! n.
Proof.
  induction 1 as [|call calls Hc Hcalls [IHe IHq]]; [done|]. cbn [foldr]. rewrite <-IHe. setoid_rewrite <-IHq.
  destruct call as [| | | | | |q m|q id]; try done; cbn [note].
  - destruct (reread_message (message_data m)); [|done]. split; [done|]. intros n. cbn.
    destruct (decide (n = q)) as [->|]; [rewrite lookup_alter_eq|by rewrite lookup_alter_ne].
    by destruct (cat_queues _ !! q).
  - split; [done|]. intros n. cbn.
    destruct (decide (n = q)) as [->|]; [rewrite lookup_alter_eq|by rewrite lookup_alter_ne].
    by destruct (cat_queues _ !! q).
Qed.

Lemma traffic_restartable vh vh' : restartable vh → message_traffic vh vh' → wf_names vh' →
  Forall (storable names) (vh_persist vh') → restartable vh'.
Proof.
  intros (Hp & Hm & Hl) [He Hq (calls & Ecalls & Hcalls)] Hw Hst.
  assert (∀ n x', vh_Queues vh' !! n = Some x' → ∃ x, vh_Queues vh !! n = Some x ∧ q_Props x = q_Props x') as Hback.
  { intros n x' Hx'. specialize (Hq n). rewrite Hx' in Hq. destruct (vh_Queues vh !! n) as [x|]; [|done].
    exists x. split; [done|]. by injection Hq. }
  destruct (note_message_calls calls (catalogue_now vh) Hcalls) as [Ne Nq].
  assert (catalogue_now vh' = foldr note (catalogue_now vh) calls) as Ec
    by (unfold catalogue_now, catalogue_of; by rewrite Ecalls, foldr_app).
  split; [|split; [|done]].
  - split; [done| |].
    + intros n x' (x & Hx & <-)%Hback. by apply (pl_queue _ Hp).
    + rewrite He. apply (pl_exchange _ Hp).
  - rewrite Ec. split.
    + intros n. rewrite Nq, (mr_queue _ _ Hm n). specialize (Hq n).
      destruct (vh_Queues vh !! n) as [x|], (vh_Queues vh' !! n) as [x'|]; try done. injection Hq as Hq.
      cbn. unfold stored_queue. by rewrite Hq.
    + intros n. rewrite Ne, He. apply (mr_exchange _ _ Hm).
    + intros n e x. rewrite He, Ne. intros Hn Hx.
      apply (bindings_stored_ext vh vh' e e x.2); [done| |by apply (mr_bindings _ _ Hm n)].
      intros k q _. unfold is_durable. specialize (Hq q).
      destruct (vh_Queues vh !! q), (vh_Queues vh' !! q); try done. injection Hq as ->. done.
Qed.

Lemma frame_traffic vh vh' : same_frame vh vh' → message_traffic vh vh'.
Proof.
  intros Hf. split; [apply (ss_exchanges _ _ (sf_shape _ _ Hf))| |apply Hf].
  intros n. pose proof (ss_queues _ _ (sf_shape _ _ Hf) n) as Hq.
  destruct (vh_Queues vh !! n), (vh_Queues vh' !! n); try done. cbn. f_equal. apply Hq.
Qed.

Lemma channels_traffic cs vh : message_traffic vh (set_ChannelDeliveries cs vh).
Proof. split; [done|done|by apply messages_only_refl]. Qed.

Lemma traffic_trans vh1 vh2 vh3 : message_traffic vh1 vh2 → message_traffic vh2 vh3 → message_traffic vh1 vh3.
Proof.
  intros [E1 Q1 P1] [E2 Q2 P2]. split; [congruence| |by eapply messages_only_trans].
  intros n. by rewrite Q2.
Qed.

Lemma Publish_traffic now fuel exchange key msg vh vh' r :
  wf_names vh → Publish now fuel exchange key msg vh = Ok (vh', r) → message_traffic vh vh' ∧ wf_names vh'.
Proof.
  intros Hw Hp. assert (same_frame vh vh') as Hf.
  { eapply (Publish_with_frame (Push now fuel)); [apply Push_frame|by eapply wf_named|exact Hp]. }
  split; [by apply frame_traffic|by eapply wf_names_frame].
Qed.

Lemma GetMessage_traffic now fuel n vh vh' msg :
  wf_names vh → GetMessage now fuel n vh = Ok (vh', msg) → message_traffic vh vh' ∧ wf_names vh'.
Proof.
  intros Hw Hg. assert (same_frame vh vh') as Hf by (eapply GetMessage_frame; [by eapply wf_named|exact Hg]).
  split; [by apply frame_traffic|by eapply wf_names_frame].
Qed.

Lemma HandleBasicAck_traffic key tag multiple vh :
  wf_names vh → let vh' := (HandleBasicAck key tag multiple vh).1 in message_traffic vh vh' ∧ wf_names vh'.
Proof.
  intros Hw. split; [|by apply HandleBasicAck_wf]. unfold HandleBasicAck, pop_unacked.
  destruct (popUnackedRecords _ _ _ _ _) as [[removed [ch|]]|e]; cbn [fst].
  - eapply traffic_trans; [apply channels_traffic|apply frame_traffic, ack_records_frame].
  - apply frame_traffic, ack_records_frame.
  - apply frame_traffic, same_frame_refl.
Qed.

(** ** Steps *)

(** What clients do to a vhost: with names, arguments and messages that can be
    stored, bindings without arguments, and fanout bindings without a key. *)
Inductive topology_step (vh : VHost) : VHost → Prop :=
| ts_declare_exchange name typ props :
    (∀ p, props = Some p → ep_Durable p = true →
       storable_name name ∧ ordinary name ∧ supported typ ∧ settles (ep_Arguments p)) →
    topology_step vh (CreateExchange name typ props vh).1
| ts_delete_exchange name : topology_step vh (deleteExchangeUnlocked name vh).1
| ts_declare_queue candidates name props connID :
    Forall storable_name candidates → name = "" ∨ storable_name name → settles (qp_Arguments props) →
    topology_step vh (CreateQueue candidates name (Some props) connID vh).1
| ts_delete_queue name : topology_step vh (deleteQueuebyNameUnlocked name vh).1
| ts_bind exchange queue key args connID :
    no_args args → json_text key = key →
    (∀ e, vh_Exchanges vh !! resolveExchangeAlias exchange = Some e → ex_Typ e = FANOUT → key = "") →
    topology_step vh (BindQueue exchange queue key args connID vh).1
| ts_unbind exchange queue key args connID :
    no_args args → topology_step vh (UnbindQueue exchange queue key args connID vh).1
| ts_messages vh' :
    message_traffic vh vh' → wf_names vh' → Forall (storable names) (vh_persist vh') → topology_step vh vh'.

Lemma topology_step_restartable vh vh' : topology_step vh vh' → restartable vh → restartable vh'.
Proof.
  intros [] Hr.
  - by apply CreateExchange_restartable.
  - by apply deleteExchange_restartable.
  - by apply CreateQueue_restartable.
  - by apply deleteQueue_restartable.
  - by apply BindQueue_restartable.
  - by apply UnbindQueue_restartable.
  - by apply (traffic_restartable vh).
Qed.

Lemma bare_vhost_restartable bufferSize maxPriority dlx ttl qll :
  restartable (bare_vhost bufferSize maxPriority dlx ttl qll).
Proof.
  split; [|split; [|done]].
  - split; [split; cbn; try (intros *; rewrite lookup_empty; done); apply empty_index_wf|..];
      cbn; intros *; by rewrite lookup_empty.
  - split; cbn; intros *; by rewrite !lookup_empty.
Qed.

Lemma new_vhost_restartable bufferSize maxPriority dlx ttl qll :
  restartable (new_vhost bufferSize maxPriority dlx ttl qll).
Proof.
  unfold new_vhost, createMandatoryExchanges.
  generalize (bare_vhost_restartable bufferSize maxPriority dlx ttl qll).
  generalize (bare_vhost bufferSize maxPriority dlx ttl qll). generalize mandatoryExchanges.
  intros l. induction l as [|x l IH]; intros vh Hr; [done|]. cbn [foldl]. apply IH.
  apply CreateExchange_restartable; [done|]. by intros p [= <-].
Qed.

Lemma topology_steps_restartable vh vh' : rtc topology_step vh vh' → restartable vh → restartable vh'.
Proof. induction 1 as [|vh1 vh2 vh3 Hs _ IH]; [done|]. intros Hr. by eapply IH, topology_step_restartable. Qed.
End mirror.
