(* ===== verification/Reload.v ===== *)
(** * A restart gives back what was durable

    What [NewVhost] (Recovery) makes of files that hold a catalogue, and with
    Restart.v: a vhost started from the files another left has its durable
    exchanges, queues and bindings. *)

From stdpp Require Import base list gmap strings.
From Stdlib Require Import ZArith Lia.
From S2P Require Import Prelude Bytes Paths Values Properties Methods Args Queue Deliveries Consumers Json VHost.
From S2P Require Import Store Lifecycle Routing Declare Expiry Publish Settle Purge Preserve.
From S2P Require Import Recovery Catalogue Restart.

Local Open Scope Z_scope.
Local Open Scope string_scope.
Local Open Scope list_scope.

(** ** Queues *)

Section reload.
Context `{Runtime, JsonReader, Sha256}.

(** The messages that fit into the buffer, in order. *)
Lemma refilled_messages ms q : q_stopped q = false →
  q_messages (refilled q ms) = q_messages q ++
    take (Z.to_nat (q_bufferSize q) - length (q_messages q)) (FromPersistence <$> ms).
Proof.
  revert q. induction ms as [|m ms IH]; intros q Hs; [cbn; by rewrite take_nil, app_nil_r|].
  unfold refilled in *. cbn [foldl fmap list_fmap].
  destruct (push_keeps_settings (FromPersistence m) q) as (_ & Hst & _ & _ & _ & _ & Hb).
  rewrite IH by (rewrite Hst; done). rewrite Hb. unfold push. rewrite Hs. case_decide as Hl.
  - cbn [q_messages set_fifo]. rewrite length_app. cbn [length].
    assert (Z.to_nat (q_bufferSize q) - length (q_messages q) =
      S (Z.to_nat (q_bufferSize q) - (length (q_messages q) + 1)))%nat as -> by lia.
    cbn [take]. by rewrite <-app_assoc.
  - assert (Z.to_nat (q_bufferSize q) - length (q_messages q) = 0)%nat as -> by lia. done.
Qed.

Lemma refilled_settings ms q : q_Props (refilled q ms) = q_Props q ∧ q_maxPriority (refilled q ms) = q_maxPriority q.
Proof.
  revert q. induction ms as [|m ms IH]; intros q; [done|]. unfold refilled in *. cbn [foldl].
  destruct (push_keeps_settings (FromPersistence m) q) as (_ & _ & _ & _ & Hp & Hpr & _).
  destruct (IH (push (FromPersistence m) q)) as [-> ->]. done.
Qed.

(** The queue made of a snapshot. *)
Definition queue_of (bufferSize : Z) (s : persistence.QueueSnapshot) : Queue :=
  refilled (set_declared (recovered_props (persistence.qs_Properties s)) 0 0 ""
    (NewQueue (persistence.qs_Name s) bufferSize)) (persistence.qs_Messages s).

Definition kept_queue (s : persistence.QueueSnapshot) : bool :=
  negb (persistence.pq_Exclusive (persistence.qs_Properties s)).

Lemma recover_queues_spec ss vh : loading vh → NoDup (persistence.qs_Name <$> ss) →
  ∃ vh', for_each recover_queue ss vh = Ok vh' ∧ loading vh' ∧ vh_Exchanges vh' = vh_Exchanges vh ∧
    (∀ s, s ∈ ss → kept_queue s = true →
       vh_Queues vh' !! persistence.qs_Name s = Some (queue_of (vh_queueBufferSize vh) s)) ∧
    (∀ n, (∀ s, s ∈ ss → kept_queue s = true → persistence.qs_Name s ≠ n) →
       vh_Queues vh' !! n = vh_Queues vh !! n).
Proof.
  revert vh. induction ss as [|s ss IH]; intros vh Hld Hnd.
  { exists vh. split_and!; try done. by intros s ?%elem_of_nil. }
  cbn [fmap list_fmap] in Hnd. apply NoDup_cons in Hnd as [Hs Hnd]. cbn [for_each].
  destruct (recover_queue_loading s vh Hld) as (vh1 & -> & Hld1 & He1 & Hb1 & _ & Hq1). cbv zeta in Hq1.
  cbn [mbind res_mbind res_bind].
  destruct (IH vh1 Hld1 Hnd) as (vh2 & -> & Hld2 & He2 & Hin & Hout).
  exists vh2. split; [done|]. split; [done|]. split; [congruence|]. rewrite Hb1 in Hin. split.
  - intros s' [->|Hs']%elem_of_cons Hk; [|by apply Hin]. rewrite Hout.
    + rewrite Hq1. unfold kept_queue in Hk. apply negb_true_iff in Hk. rewrite Hk. by rewrite lookup_insert_eq.
    + intros s' Hs' _ E. apply Hs, list_elem_of_fmap. by exists s'.
  - intros n Hn. rewrite Hout by (intros s' Hs'; apply Hn; by right). rewrite Hq1.
    destruct (persistence.pq_Exclusive _) eqn:Hx; [done|]. rewrite lookup_insert_ne; [done|].
    apply (Hn s); [by left|]. unfold kept_queue. by rewrite Hx.
Qed.

(** ** Bindings *)

(** Declared or not, a binding without arguments is there afterwards, once the
    queue exists. *)
Lemma recover_binding_spec n e skipped b vh :
  vh_Exchanges vh !! n = Some e → resolveExchangeAlias n = n → supported (ex_Typ e) → plain_bindings e →
  (ex_Typ e = FANOUT → persistence.bd_RoutingKey b = "") →
  no_args (persistence.bd_Arguments b) → json_text (persistence.bd_RoutingKey b) = persistence.bd_RoutingKey b →
  (∀ q, q ∈ skipped → vh_Queues vh !! q = None) →
  ∃ e', let vh' := recover_binding n skipped vh b in
    vh_Exchanges vh' = <[n := e']> (vh_Exchanges vh) ∧ vh_Queues vh' = vh_Queues vh ∧
    ex_Typ e' = ex_Typ e ∧ ex_Props e' = ex_Props e ∧ plain_bindings e' ∧
    ∀ k q, bound_to e' k q ↔ bound_to e k q ∨ (k, q) = pair_of b ∧ is_Some (vh_Queues vh !! q).
Proof.
  intros He Hn Hsup Hpl Hfan Ha Hk Hskip. unfold recover_binding.
  set (q := persistence.bd_QueueName b). set (k := persistence.bd_RoutingKey b) in *.
  assert (vh_Queues vh !! q = None → ∃ e', vh_Exchanges vh = <[n := e']> (vh_Exchanges vh) ∧ vh_Queues vh = vh_Queues vh ∧
    ex_Typ e' = ex_Typ e ∧ ex_Props e' = ex_Props e ∧ plain_bindings e' ∧
    ∀ k' q', bound_to e' k' q' ↔ bound_to e k' q' ∨ (k', q') = pair_of b ∧ is_Some (vh_Queues vh !! q')) as Hnone.
  { intros Hq. exists e. split_and!; try done; [by rewrite insert_id|]. intros k' q'. split; [by left|].
    intros [?|[[= -> ->] [x Hx]]]; [done|]. fold q in Hx. congruence. }
  case_decide as Hd; [apply Hnone, Hskip, Hd|].
  destruct (vh_Queues vh !! q) as [x|] eqn:Hq; cycle 1.
  { assert ((BindQueue n q k (persistence.bd_Arguments b) INTERNAL_CONN_ID vh).1 = vh) as ->; [|by apply Hnone].
    unfold BindQueue. cbv zeta. by rewrite Hn, He, Hq. }
  set (args := persistence.bd_Arguments b) in *.
  destruct (BindQueue n q k args INTERNAL_CONN_ID vh) as [vh' r] eqn:Hb.
  assert (r = Ok tt) as ->.
  { unfold BindQueue in Hb. cbv zeta in Hb. rewrite Hn, He, Hq in Hb.
    rewrite (decide_False (P := INTERNAL_CONN_ID ≠ INTERNAL_CONN_ID)) in Hb by auto.
    assert (TOPIC ≠ DIRECT ∧ TOPIC ≠ FANOUT ∧ FANOUT ≠ DIRECT) as (? & ? & ?) by done.
    destruct Hsup as [E|[E|E]]; rewrite E in Hb; repeat case_decide; try done;
      destruct (add_binding _ _ _ _ _ _); congruence. }
  apply BindQueue_ok in Hb. cbv zeta in Hb. rewrite Hn in Hb.
  destruct Hb as (e0 & x0 & He0 & Hq0 & _ & _ & Hadd). rewrite He in He0. injection He0 as <-.
  assert (filed_key e k = k) as Hf by (unfold filed_key; case_decide; [symmetry; auto|done]).
  rewrite Hf in Hadd. cbn [fst].
  destruct (add_binding k (MkBinding q k args) q k args e) as [e'|] eqn:Hab; subst vh'.
  - destruct (add_binding_plain (λ _, True) e k q args e' Hpl Ha Hk Hab) as (Hpl' & _ & Hbd & Ee).
    exists e'. set (b0 := _ && _). split_and!; try done.
    + by destruct b0.
    + by destruct b0.
    + by rewrite Ee.
    + by rewrite Ee.
    + intros k' q'. rewrite Hbd. change (pair_of b) with (k, q). split; [|tauto].
      intros [?|E]; [by left|right]. split; [done|]. injection E as -> ->. rewrite Hq. by eexists.
  - exists e. split_and!; try done; [by rewrite insert_id|]. intros k' q'. split; [by left|].
    intros [?|[[= -> ->] _]]; [done|]. change (persistence.bd_RoutingKey b) with k. change (persistence.bd_QueueName b) with q.
    unfold add_binding in Hab. destruct (existsb _ _) eqn:Hex; [|done].
    apply existsb_elem in Hex as (y & Hy & Hm). unfold bindingExist in Hm.
    rewrite !andb_true_iff, !bool_decide_eq_true in Hm. apply bound_to_default, list_elem_of_fmap. exists y.
    split; [symmetry; apply Hm|done].
Qed.

(** ** Exchanges *)

(** A snapshot of an exchange that clients could declare, with its bindings as
    the store keeps them. *)
Record good_snapshot (s : persistence.ExchangeSnapshot) : Prop := {
  gs_name : resolveExchangeAlias (persistence.es_Name s) = persistence.es_Name s;
  gs_type : supported (persistence.es_Type s);
  gs_fanout : persistence.es_Type s = FANOUT →
    Forall (λ b, persistence.bd_RoutingKey b = "") (persistence.es_Bindings s);
  gs_bindings : Forall (λ b, no_args (persistence.bd_Arguments b) ∧
    json_text (persistence.bd_RoutingKey b) = persistence.bd_RoutingKey b) (persistence.es_Bindings s);
}.

(** The exchange made of a snapshot, when [queues] are there. *)
Definition reloaded (queues : gmap string Queue) (s : persistence.ExchangeSnapshot) (e : Exchange) : Prop :=
  ex_Typ e = persistence.es_Type s ∧ ex_Props e = recovered_exchange_props (persistence.es_Properties s) ∧
  ∀ k q, bound_to e k q ↔ (k, q) ∈ pair_of <$> persistence.es_Bindings s ∧ is_Some (queues !! q).

Lemma recover_bindings_spec n skipped bs e vh :
  vh_Exchanges vh !! n = Some e → resolveExchangeAlias n = n → supported (ex_Typ e) → plain_bindings e →
  (ex_Typ e = FANOUT → Forall (λ b, persistence.bd_RoutingKey b = "") bs) →
  Forall (λ b, no_args (persistence.bd_Arguments b) ∧
    json_text (persistence.bd_RoutingKey b) = persistence.bd_RoutingKey b) bs →
  (∀ q, q ∈ skipped → vh_Queues vh !! q = None) →
  ∃ e', let vh' := foldl (recover_binding n skipped) vh bs in
    vh_Exchanges vh' = <[n := e']> (vh_Exchanges vh) ∧ vh_Queues vh' = vh_Queues vh ∧
    ex_Typ e' = ex_Typ e ∧ ex_Props e' = ex_Props e ∧
    ∀ k q, bound_to e' k q ↔ bound_to e k q ∨ (k, q) ∈ pair_of <$> bs ∧ is_Some (vh_Queues vh !! q).
Proof.
  intros He Hn. revert e vh He. induction bs as [|b bs IH]; intros e vh He Hsup Hpl Hfan Hbs Hskip.
  { exists e. split; [by rewrite insert_id|]. split_and!; try done. intros k q. cbn.
    split; [by left|]. by intros [?|[?%elem_of_nil _]]. }
  apply Forall_cons in Hbs as [[Ha Hk] Hbs]. cbn [foldl].
  destruct (recover_binding_spec n e skipped b vh He Hn Hsup Hpl) as (e1 & He1 & Hq1 & Ht1 & Hp1 & Hpl1 & Hb1);
    [|done..|]. { intros Hf. by specialize (Hfan Hf) as [? _]%Forall_cons. }
  set (vh1 := recover_binding n skipped vh b) in *.
  destruct (IH e1 vh1) as (e2 & He2 & Hq2 & Ht2 & Hp2 & Hb2).
  - rewrite He1. by rewrite lookup_insert_eq.
  - by rewrite Ht1.
  - done.
  - rewrite Ht1. intros Hf. by specialize (Hfan Hf) as [_ ?]%Forall_cons.
  - done.
  - by rewrite Hq1.
  - exists e2. cbv zeta. rewrite He2, He1, insert_insert_eq, Hq2, Hq1. split; [done|]. split; [done|].
    split; [congruence|]. split; [congruence|]. intros k q. rewrite Hb2, Hb1, Hq1. cbn. rewrite elem_of_cons. tauto.
Qed.

Lemma recover_exchange_spec skipped vh s :
  good_snapshot s → (∀ q, q ∈ skipped → vh_Queues vh !! q = None) →
  ∃ e, vh_Exchanges (recover_exchange skipped vh s) = <[persistence.es_Name s := e]> (vh_Exchanges vh) ∧
    vh_Queues (recover_exchange skipped vh s) = vh_Queues vh ∧ reloaded (vh_Queues vh) s e.
Proof.
  intros [Hn Hsup Hfan Hbs] Hskip. unfold recover_exchange. set (e0 := NewExchange _ _ _).
  destruct (empty_bindings e0 eq_refl) as [Hpl Hno].
  destruct (recover_bindings_spec (persistence.es_Name s) skipped (persistence.es_Bindings s) e0
    (set_Exchanges (<[persistence.es_Name s := e0]> (vh_Exchanges vh)) vh)) as (e & He & Hq & Ht & Hp & Hb);
    try done; [apply lookup_insert_eq|].
  exists e. split; [rewrite He; cbn; by rewrite insert_insert_eq|]. split; [done|]. split; [done|]. split; [done|].
  intros k q. rewrite Hb. cbn. split; [by intros [?%Hno|?]|by right].
Qed.

Lemma recover_exchanges_spec skipped ss vh :
  Forall good_snapshot ss → NoDup (persistence.es_Name <$> ss) → (∀ q, q ∈ skipped → vh_Queues vh !! q = None) →
  let vh' := foldl (recover_exchange skipped) vh ss in
  (∀ s, s ∈ ss → ∃ e, vh_Exchanges vh' !! persistence.es_Name s = Some e ∧ reloaded (vh_Queues vh) s e) ∧
  (∀ n, n ∉ persistence.es_Name <$> ss → vh_Exchanges vh' !! n = vh_Exchanges vh !! n).
Proof.
  intros Hss. revert vh. induction Hss as [|s ss Hs Hss IH]; intros vh Hnd Hskip; cbn [foldl].
  { split; [by intros s ?%elem_of_nil|done]. }
  cbn [fmap list_fmap] in Hnd. apply NoDup_cons in Hnd as [Hn Hnd].
  destruct (recover_exchange_spec skipped vh s Hs Hskip) as (e & He & Hq & Hr).
  set (vh1 := recover_exchange skipped vh s) in *.
  destruct (IH vh1 Hnd) as [Hin Hout]; [by rewrite Hq|]. cbv zeta. split.
  - intros s' [->|Hs']%elem_of_cons.
    + exists e. rewrite Hout by done. rewrite He, lookup_insert_eq. done.
    + destruct (Hin s' Hs') as (e' & He' & Hr'). exists e'. by rewrite Hq in Hr'.
  - intros n. cbn. rewrite not_elem_of_cons. intros [Hne Hns]. rewrite Hout by done. by rewrite He, lookup_insert_ne.
Qed.

(** ** From the catalogue *)

Lemma new_vhost_queues bufferSize maxPriority dlx ttl qll n :
  vh_Queues (new_vhost bufferSize maxPriority dlx ttl qll) !! n = None.
Proof.
  destruct (mandatory_queues (bare_vhost bufferSize maxPriority dlx ttl qll)) as [Hq _].
  unfold new_vhost. rewrite Hq. apply lookup_empty.
Qed.

Lemma mandatory_settings vh :
  vh_queueBufferSize (createMandatoryExchanges vh) = vh_queueBufferSize vh ∧
  ∀ n, is_Some (vh_Exchanges (createMandatoryExchanges vh) !! n) →
    n ∈ mandatoryExchanges.*1 ∨ is_Some (vh_Exchanges vh !! n).
Proof.
  unfold createMandatoryExchanges. generalize mandatoryExchanges. intros l. revert vh.
  induction l as [|x l IH]; intros vh; [split; [done|by right]|]. cbn [foldl].
  set (vh1 := (CreateExchange x.1 x.2 _ vh).1). destruct (IH vh1) as [Hb He].
  assert (vh_queueBufferSize vh1 = vh_queueBufferSize vh ∧
    ∀ n, is_Some (vh_Exchanges vh1 !! n) → n = x.1 ∨ is_Some (vh_Exchanges vh !! n)) as [Hb1 He1].
  { unfold vh1, CreateExchange. cbv zeta. destruct (vh_Exchanges vh !! x.1) as [e|] eqn:Ex.
    - cbn [ep_Passive]. repeat case_decide; (split; [done|by right]).
    - cbn [ep_Passive ep_Durable persist_if fst]. split; [done|]. cbn. intros n [y Hy].
      destruct (decide (n = x.1)) as [->|Hne]; [by left|right]. rewrite lookup_insert_ne in Hy by done. by exists y. }
  split; [congruence|]. intros n Hn. cbn. rewrite elem_of_cons. destruct (He n Hn) as [?|Hn1]; [by left; right|].
  destruct (He1 n Hn1) as [->|?]; [by left; left|by right].
Qed.

Lemma supported_text typ : supported typ → json_text typ = typ.
Proof. intros [->|[->| ->]]; by vm_compute. Qed.

Section from_catalogue.
Context (names : string → Prop) (vhost : string) (vh : VHost) (d : disk).
Hypothesis Hnames : distinguishable names.
Hypothesis Hrestart : restartable names vh.
Hypothesis Himpl : implements names vhost d (catalogue_now vh).

Lemma snapshot_names : NoDup (persistence.qs_Name <$> JsonPersistence.LoadAllQueues vhost d) ∧
  NoDup (persistence.es_Name <$> JsonPersistence.LoadAllExchanges vhost d).
Proof.
  split.
  - rewrite (LoadAllQueues_implements names vhost Hnames d _ Himpl), <-list_fmap_compose. apply NoDup_fst_map_to_list.
  - rewrite (LoadAllExchanges_implements names vhost Hnames d _ Himpl), <-list_fmap_compose. apply NoDup_fst_map_to_list.
Qed.

Lemma queue_snapshot_elem s : s ∈ JsonPersistence.LoadAllQueues vhost d ↔
  ∃ n x, cat_queues (catalogue_now vh) !! n = Some x ∧ s = queue_snapshot_of (n, x).
Proof.
  rewrite (LoadAllQueues_implements names vhost Hnames d _ Himpl), list_elem_of_fmap. split.
  - intros ([n x] & -> & Hx%elem_of_map_to_list). by exists n, x.
  - intros (n & x & Hx & ->). exists (n, x). split; [done|by apply elem_of_map_to_list].
Qed.

Lemma exchange_snapshot_elem s : s ∈ JsonPersistence.LoadAllExchanges vhost d ↔
  ∃ n x, cat_exchanges (catalogue_now vh) !! n = Some x ∧ s = exchange_snapshot_of (n, x).
Proof.
  rewrite (LoadAllExchanges_implements names vhost Hnames d _ Himpl), list_elem_of_fmap. split.
  - intros ([n x] & -> & Hx%elem_of_map_to_list). by exists n, x.
  - intros (n & x & Hx & ->). exists (n, x). split; [done|by apply elem_of_map_to_list].
Qed.

(** An exchange in the catalogue is a durable one of the vhost. *)
Lemma catalogued_exchange n x : cat_exchanges (catalogue_now vh) !! n = Some x →
  ∃ e, vh_Exchanges vh !! n = Some e ∧ ep_Durable (ex_Props e) = true ∧ stored_exchange e = Some x.1 ∧
    bindings_stored vh e x.2.
Proof.
  destruct Hrestart as (Hp & Hm & _). intros Hx. pose proof (mr_exchange _ _ Hm n) as E. rewrite Hx in E.
  destruct (vh_Exchanges vh !! n) as [e|] eqn:He; [|done]. cbn in E. exists e. split; [done|].
  split; [|split; [done|by apply (mr_bindings _ _ Hm n)]].
  unfold stored_exchange in E. by destruct (ep_Durable (ex_Props e)).
Qed.

Lemma catalogued_queue n x : cat_queues (catalogue_now vh) !! n = Some x →
  ∃ q, vh_Queues vh !! n = Some q ∧ qp_Durable (q_Props q) = true ∧ stored_queue q = Some x.1.
Proof.
  destruct Hrestart as (Hp & Hm & _). intros Hx. pose proof (mr_queue _ _ Hm n) as E. rewrite Hx in E.
  destruct (vh_Queues vh !! n) as [q|] eqn:Hq; [|done]. cbn in E. exists q. split; [done|]. split; [|done].
  unfold stored_queue in E. by destruct (qp_Durable (q_Props q)).
Qed.

Lemma stored_exchange_inv e x : stored_exchange e = Some x →
  ∃ a, reread_args (ep_Arguments (ex_Props e)) = Some a ∧
    x = (json_text (ex_Typ e), with_exchange_args a (exchange_ToPersistence (ex_Props e))).
Proof.
  unfold stored_exchange. destruct (ep_Durable _); [|done]. intros (a & Ha & ->)%fmap_Some. by exists a.
Qed.

Lemma stored_queue_inv q x : stored_queue q = Some x →
  ∃ a, reread_args (qp_Arguments (q_Props q)) = Some a ∧ x = with_args a (queue_ToPersistence (q_Props q)).
Proof.
  unfold stored_queue. destruct (qp_Durable _); [|done]. intros (a & Ha & ->)%fmap_Some. by exists a.
Qed.

Lemma reread_key b b' : reread_binding b = Some b' →
  persistence.bd_RoutingKey b' = json_text (persistence.bd_RoutingKey b).
Proof. unfold reread_binding. intros (a & _ & E)%bind_Some. by injection E as <-. Qed.

Lemma snapshots_good : Forall good_snapshot (JsonPersistence.LoadAllExchanges vhost d).
Proof.
  apply Forall_forall. intros s (n & [[typ p] bs] & Hx & ->)%exchange_snapshot_elem.
  destruct (catalogued_exchange n _ Hx) as (e & He & Hd & Hs & [Hargs Hpairs]).
  destruct (exchange_is_settled names vhost d _ n _ Himpl Hx) as (_ & _ & Hset).
  destruct Hrestart as (Hp & _). destruct (pl_exchange _ _ Hp n e He) as [_ Hdur].
  destruct (Hdur Hd) as (_ & [Halias _] & Hsup & _).
  destruct (stored_exchange_inv e _ Hs) as (a & _ & E). injection E as -> _.
  cbn in Hset, Hargs, Hpairs. split; cbn; [done| | |].
  - by rewrite supported_text.
  - rewrite supported_text by done. intros Hf. apply Forall_forall. intros b Hb.
    destruct (proj1 (Hpairs (persistence.bd_RoutingKey b) (persistence.bd_QueueName b))) as [(l & x & Hl & Hx' & _) _].
    { apply list_elem_of_fmap. by exists b. }
    destruct (wn_binding _ _ (pl_names _ _ Hp) n e _ l He Hl) as [_ Hw]. rewrite Forall_forall in Hw.
    destruct (Hw x Hx') as [_ Hk]. by rewrite decide_True in Hk.
  - apply Forall_forall. intros b Hb. rewrite Forall_forall in Hargs, Hset. split; [by apply Hargs|].
    symmetry. by apply reread_key, Hset.
Qed.
End from_catalogue.

(** ** The vhost that is loaded *)

(** The durable queues, but those exclusive to a connection. *)
Definition survives (vh : VHost) (n : string) (q : Queue) : Prop :=
  vh_Queues vh !! n = Some q ∧ qp_Durable (q_Props q) = true ∧ qp_Exclusive (q_Props q) = false.

(** A queue after the restart: its properties as JSON keeps them, and the
    messages the store has for it, as many as its buffer holds. *)
Definition reloaded_queue (bufferSize : Z) (ms : list JsonMessageData) (q q' : Queue) : Prop :=
  qp_Durable (q_Props q') = true ∧ qp_Exclusive (q_Props q') = false ∧
  qp_AutoDelete (q_Props q') = qp_AutoDelete (q_Props q) ∧
  reread_args (qp_Arguments (q_Props q)) = Some (qp_Arguments (q_Props q')) ∧
  contents q' = take (Z.to_nat bufferSize) (FromPersistence ∘ JsonPersistence.loaded_message <$> ms).

(** An exchange after the restart: a binding to each queue that survives. *)
Definition reloaded_exchange (vh : VHost) (e e' : Exchange) : Prop :=
  ex_Typ e' = ex_Typ e ∧ ep_Durable (ex_Props e') = true ∧
  ep_AutoDelete (ex_Props e') = ep_AutoDelete (ex_Props e) ∧
  reread_args (ep_Arguments (ex_Props e)) = Some (ep_Arguments (ex_Props e')) ∧
  ∀ k q, bound_to e' k q ↔ bound_to e k q ∧ ∃ x, survives vh q x.

Lemma queue_of_contents bufferSize s :
  contents (queue_of bufferSize s) =
  take (Z.to_nat bufferSize) (FromPersistence <$> persistence.qs_Messages s).
Proof.
  unfold contents, queue_of. rewrite decide_False; [by rewrite refilled_messages, Nat.sub_0_r|].
  rewrite (proj2 (refilled_settings _ _)). cbn. lia.
Qed.

Section restarted.
Context (names : string → Prop) (vhost : string) (vh vh1 : VHost) (d : disk).
Hypothesis Hnames : distinguishable names.
Hypothesis Hrestart : restartable names vh.
Hypothesis Himpl : implements names vhost d (catalogue_now vh).
Let queues := JsonPersistence.LoadAllQueues vhost d.
Hypothesis Hin : ∀ s, s ∈ queues → kept_queue s = true →
  vh_Queues vh1 !! persistence.qs_Name s = Some (queue_of (vh_queueBufferSize vh1) s).
Hypothesis Hout : ∀ n, (∀ s, s ∈ queues → kept_queue s = true → persistence.qs_Name s ≠ n) → vh_Queues vh1 !! n = None.

Lemma surviving_queue n q : survives vh n q → ∃ q' p ms,
  vh_Queues vh1 !! n = Some q' ∧ cat_queues (catalogue_now vh) !! n = Some (p, ms) ∧
  reloaded_queue (vh_queueBufferSize vh1) ms q q'.
Proof.
  intros (Hq & Hd & Hx). destruct Hrestart as (Hp & Hm & _). pose proof (mr_queue _ _ Hm n) as E.
  rewrite Hq in E. destruct (pl_queue _ _ Hp n q Hq) as [_ [a Ha]%settles_is_Some].
  cbn in E. unfold stored_queue in E. rewrite Hd, Ha in E.
  destruct (cat_queues (catalogue_now vh) !! n) as [[p ms]|] eqn:Hc; [|done]. injection E as ->.
  set (s := queue_snapshot_of (n, (with_args a (queue_ToPersistence (q_Props q)), ms))).
  exists (queue_of (vh_queueBufferSize vh1) s), (with_args a (queue_ToPersistence (q_Props q))), ms.
  split; [|split; [done|]].
  - apply (Hin s); [|unfold kept_queue; cbn; by rewrite Hx].
    apply (queue_snapshot_elem names vhost vh d Hnames Himpl). by eexists _, _.
  - unfold reloaded_queue. rewrite queue_of_contents, list_fmap_compose.
    unfold queue_of. rewrite (proj1 (refilled_settings _ _)). cbn. by rewrite Hd, Hx, Ha.
Qed.

Lemma loaded_queue n : is_Some (vh_Queues vh1 !! n) → ∃ q, survives vh n q.
Proof.
  intros Hs. destruct (decide (Exists (λ s, kept_queue s = true ∧ persistence.qs_Name s = n) queues)) as [Hex|Hno].
  - apply Exists_exists in Hex as (s & Hs' & Hk & <-).
    apply (queue_snapshot_elem names vhost vh d Hnames Himpl) in Hs' as (n & x & Hx & ->). cbn.
    destruct (catalogued_queue names vh Hrestart n x Hx) as (q & Hq & Hd & Hst).
    destruct (stored_queue_inv q _ Hst) as (a & _ & E).
    exists q. split; [done|]. split; [done|]. unfold kept_queue in Hk. cbn in Hk. rewrite E in Hk.
    cbn in Hk. by apply negb_true_iff in Hk.
  - destruct Hs as [q Hq]. rewrite Hout in Hq; [done|]. intros s Hs Hk E. apply Hno, Exists_exists. by exists s.
Qed.

Lemma skipped_queue q : q ∈ skipped_queues queues → vh_Queues vh1 !! q = None.
Proof.
  unfold skipped_queues. intros (s & -> & [Hx Hs]%list_elem_of_filter)%list_elem_of_fmap. apply Hout.
  intros s' Hs' Hk E.
  apply (queue_snapshot_elem names vhost vh d Hnames Himpl) in Hs as (n & x & Hx1 & ->).
  apply (queue_snapshot_elem names vhost vh d Hnames Himpl) in Hs' as (n' & x' & Hx2 & ->).
  cbn in E. subst n'. assert (x' = x) as -> by congruence. unfold kept_queue in Hk. cbn in Hk, Hx.
  by rewrite Hx in Hk.
Qed.

Lemma reloaded_matches n e x e' :
  vh_Exchanges vh !! n = Some e → cat_exchanges (catalogue_now vh) !! n = Some x →
  reloaded (vh_Queues vh1) (exchange_snapshot_of (n, x)) e' → reloaded_exchange vh e e'.
Proof.
  intros He Hx (Ht & Hp & Hb).
  destruct (catalogued_exchange names vh Hrestart n x Hx) as (e0 & He0 & Hd & Hs & [_ Hpairs]).
  assert (e0 = e) as -> by congruence. destruct (stored_exchange_inv e _ Hs) as (a & Ha & E).
  destruct (pl_exchange _ _ (proj1 Hrestart) n e He) as [_ Hdur]. destruct (Hdur Hd) as (_ & _ & Hsup & _).
  destruct x as [[typ p] bs]. cbn in E, Ht, Hp, Hb, Hpairs. injection E as -> ->.
  unfold reloaded_exchange. rewrite Hp, Ht, supported_text by done. cbn. rewrite Hd, Ha.
  split_and!; try done. intros k q. rewrite Hb, Hpairs. split.
  - intros [[Hbd _] Hq]. split; [done|]. by apply loaded_queue.
  - intros [Hbd [y Hy]]. destruct (surviving_queue q y Hy) as (q' & _ & _ & Hq' & _).
    split; [|by rewrite Hq'; eexists]. split; [done|]. unfold is_durable. destruct Hy as (-> & -> & _). done.
Qed.
End restarted.

(** Starting a vhost from files that hold its catalogue. *)
Lemma NewVhost_restarts names vhost bufferSize maxPriority dlx ttl qll vh d :
  distinguishable names → restartable names vh → implements names vhost d (catalogue_now vh) →
  ∃ vh', NewVhost vhost bufferSize maxPriority dlx ttl qll d = Ok vh' ∧ wf_names vh' ∧
    (∀ n q, survives vh n q → ∃ q' p ms, vh_Queues vh' !! n = Some q' ∧
       cat_queues (catalogue_now vh) !! n = Some (p, ms) ∧ reloaded_queue bufferSize ms q q') ∧
    (∀ n, is_Some (vh_Queues vh' !! n) → ∃ q, survives vh n q) ∧
    (∀ n e, vh_Exchanges vh !! n = Some e → ep_Durable (ex_Props e) = true →
       ∃ e', vh_Exchanges vh' !! n = Some e' ∧ reloaded_exchange vh e e') ∧
    (∀ n, is_Some (vh_Exchanges vh' !! n) → n ∈ mandatoryExchanges.*1 ∨
       ∃ e, vh_Exchanges vh !! n = Some e ∧ ep_Durable (ex_Props e) = true).
Proof.
  intros Hnames Hr Hi. destruct (snapshot_names names vhost vh d Hnames Hi) as [Hndq Hnde].
  set (vh0 := new_vhost bufferSize maxPriority dlx ttl qll).
  destruct (recover_queues_spec (JsonPersistence.LoadAllQueues vhost d) vh0
    (new_vhost_loading bufferSize maxPriority dlx ttl qll) Hndq) as (vh1 & Hf & Hld & Hex & Hin & Hout).
  destruct (recover_queues_loading (JsonPersistence.LoadAllQueues vhost d) vh0
    (new_vhost_loading bufferSize maxPriority dlx ttl qll)) as (vh1' & Hf' & _ & _ & Hbuf & _).
  assert (vh1' = vh1) as -> by congruence.
  destruct (mandatory_settings (bare_vhost bufferSize maxPriority dlx ttl qll)) as [Hb0 Hm0].
  assert (vh_queueBufferSize vh0 = bufferSize) as Eb by exact Hb0. rewrite Eb in Hbuf, Hin. rewrite <-Hbuf in Hin.
  assert (Hout' : ∀ n, (∀ s, s ∈ JsonPersistence.LoadAllQueues vhost d → kept_queue s = true → persistence.qs_Name s ≠ n) →
    vh_Queues vh1 !! n = None).
  { intros n Hn. rewrite Hout by done. apply new_vhost_queues. }
  pose proof (skipped_queue names vhost vh vh1 d Hnames Hi Hout') as Hskip.
  destruct (recover_exchanges_loading (skipped_queues (JsonPersistence.LoadAllQueues vhost d))
    (JsonPersistence.LoadAllExchanges vhost d) vh1 Hld) as [Hld2 Hq2].
  destruct (recover_exchanges_spec (skipped_queues (JsonPersistence.LoadAllQueues vhost d)) _ vh1
    (snapshots_good names vhost vh d Hnames Hr Hi) Hnde Hskip) as [Hein Heout].
  set (vh2 := foldl (recover_exchange _) vh1 _) in *.
  exists vh2. split; [unfold NewVhost, loadPersistedState; fold vh0; by rewrite Hf|].
  split; [apply Hld2|]. rewrite Hq2. split; [|split; [|split]].
  - intros n q Hs. rewrite <-Hbuf. by apply (surviving_queue names vhost vh vh1 d).
  - intros n. by apply (loaded_queue names vhost vh vh1 d).
  - intros n e He Hd. destruct (mirror_exchange _ _ _ _ (proj1 (proj2 Hr)) He) as [(x & Hx & Hs)|[_ Hs]]; cycle 1.
    { destruct (stored_exchange_durable e) as [y Hy]; [by apply (pl_exchange _ _ (proj1 Hr) n e He)|done|congruence]. }
    destruct (Hein (exchange_snapshot_of (n, x))) as (e' & He' & Hre).
    { apply (exchange_snapshot_elem names vhost vh d Hnames Hi). by eexists _, _. }
    exists e'. split; [done|]. by apply (reloaded_matches names vhost vh vh1 d Hnames Hr Hi Hin Hout' n e x e').
  - intros n Hn. destruct (decide (n ∈ persistence.es_Name <$> JsonPersistence.LoadAllExchanges vhost d)) as [Hl|Hl].
    + apply list_elem_of_fmap in Hl as (s & -> & Hs).
      apply (exchange_snapshot_elem names vhost vh d Hnames Hi) in Hs as (n & x & Hx & ->).
      destruct (catalogued_exchange names vh Hr n x Hx) as (e & He & Hd & _). right. by exists e.
    + rewrite Heout, Hex in Hn by done. destruct (Hm0 n Hn) as [?|[y Hy]]; [by left|].
      cbn in Hy. by rewrite lookup_empty in Hy.
Qed.

End reload.

(** ** A durable queue, its binding and a message *)

Section sample.
#[local] Existing Instance sample_runtime.
#[local] Existing Instance sample_reader.
#[local] Existing Instance sample_sha256.

Definition short_name (n : string) : Prop := slen n <= 124.

Definition topology_0 : VHost := new_vhost 100 10 true true true.
Definition topology_1 : VHost := (CreateExchange "logs" TOPIC
  (Some (MkExchangeProps false true false false false None)) topology_0).1.
Definition topology_2 : VHost := (CreateQueue [] "orders"
  (Some (MkQueueProps false true false false (Some [("x-max-length", VI32 10)]))) "conn-1" topology_1).1.
Definition topology_3 : VHost := (BindQueue "logs" "orders" "orders.#" None "conn-1" topology_2).1.

Definition sample_persistent : Message :=
  MkMessage "m-1" 0 (bytes_of "hello") (set_DeliveryMode 2 empty_props) "logs" "orders.new".
Definition topology_4 : VHost :=
  match Publish 0 5 "logs" "orders.new" sample_persistent topology_3 with Ok (vh, _) => vh | Err _ => topology_3 end.

Lemma sample_publish_ok : ∃ r, Publish 0 5 "logs" "orders.new" sample_persistent topology_3 = Ok (topology_4, r).
Proof. unfold topology_4. destruct (Publish _ _ _ _ _ _) as [[vh r]|e] eqn:E; [by exists r|]. by vm_compute in E. Qed.

Lemma sample_topology : rtc (topology_step short_name) topology_0 topology_4.
Proof.
  assert (storable_name short_name "logs" ∧ storable_name short_name "orders") as [Hl Ho]
    by (split; (split; [by vm_compute|by vm_compute])).
  apply (rtc_l _ _ topology_1).
  { apply ts_declare_exchange. intros p [= <-] _. split; [done|]. split; [split; by vm_compute|].
    split; [by do 2 right|by vm_compute]. }
  apply (rtc_l _ _ topology_2); [apply ts_declare_queue; [done|by right|by vm_compute]|].
  apply (rtc_l _ _ topology_3).
  { apply ts_bind; [done|by vm_compute|]. intros e He. by vm_compute in He; injection He as <-. }
  apply (rtc_l _ _ topology_4); [|apply rtc_refl].
  assert (wf_names topology_3) as Hw.
  { apply BindQueue_wf, CreateQueue_wf, CreateExchange_wf, new_vhost_wf. }
  destruct sample_publish_ok as [r Hp]. destruct (Publish_traffic _ _ _ _ _ _ _ _ Hw Hp) as [Ht Hw4].
  apply ts_messages; [done|done|].
  assert (vh_persist topology_4 = [VHost.SaveMessage "orders" sample_persistent;
    VHost.SaveBindingState "logs" "orders" "orders.#" None;
    VHost.SaveQueueMetadata "orders" (MkQueueProps false true false false (Some [("x-max-length", VI32 10)]));
    VHost.SaveExchangeMetadata "logs" TOPIC (MkExchangeProps false true false false false None)]) as ->
    by by vm_compute.
  repeat constructor; by vm_compute.
Qed.

End sample.
