(* ===== verification/Lost.v ===== *)
(** * What does not survive a restart

    Cases outside [durable_topology_survives_restart] (Reload), and what the
    queues and messages it gives back have lost. *)

From stdpp Require Import base list gmap strings.
From Stdlib Require Import ZArith Lia.
From S2P Require Import Prelude Bytes Paths Values Properties Methods Args Queue Deliveries Consumers Json VHost.
From S2P Require Import Store Lifecycle Routing Declare Expiry Publish Recovery Catalogue Restart Reload.

Local Open Scope Z_scope.
Local Open Scope string_scope.
Local Open Scope list_scope.

Section lost.
Context `{Runtime, JsonReader, Sha256}.

(** No queue has a length limit or priorities after a restart, whatever
    [x-max-length] and [x-max-priority] say in its arguments. *)
Lemma restart_forgets_limits vhost bufferSize maxPriority dlx ttl qll d vh :
  NewVhost vhost bufferSize maxPriority dlx ttl qll d = Ok vh →
  ∀ n q, vh_Queues vh !! n = Some q → q_maxLength q = 0 ∧ q_maxPriority q = 0.
Proof.
  intros Hv n q Hq. destruct (NewVhost_loading vhost bufferSize maxPriority dlx ttl qll d) as (vh0 & Hv0 & Hld).
  assert (vh0 = vh) as -> by congruence. by apply (ld_queues vh Hld n).
Qed.

(** A stored message has no time of arrival, so in a queue with a time to live
    it expires as soon as it is looked at, when the clock is past the time to
    live counted from 1970. *)
Lemma recovered_message_expires m args now ttlMs :
  persistence.mp_Expiration (jm_Properties m) = "" → parseTTLArgument out_of_range_int args = (ttlMs, true) →
  0 <= ttlMs * Millisecond <= now → now < 2 ^ 63 →
  CheckExpiration out_of_range_int (FromPersistence (JsonPersistence.loaded_message m)) args now = Expired true.
Proof.
  intros He Ht Hnow Hmax. unfold CheckExpiration. cbn. rewrite He, Ht, decide_True by done. cbv zeta.
  do 2 f_equal. apply bool_decide_true. unfold Since. rewrite Z.sub_0_r, Z.min_r, Z.max_r by lia.
  unfold Millisecond in *. rewrite Z.quot_div_nonneg by lia. apply Z.div_le_lower_bound; lia.
Qed.

(** What a saved message comes back with: its properties, but for an absent
    timestamp, which becomes 1970; no time of arrival, exchange or routing key. *)
Lemma saved_message_comes_back m :
  FromPersistence (JsonPersistence.loaded_message (message_data m)) =
  MkMessage (m_ID m) 0 (m_Body m)
    (set_Timestamp (if IsZero (Timestamp (m_Properties m)) then 0 else (Timestamp (m_Properties m)).1, 0)
       (let '(MkProps a0 a1 a2 a3 a4 a5 a6 a7 a8 a9 a10 a11 a12 _) := m_Properties m in
        MkProps a0 a1 a2 a3 a4 a5 a6 a7 a8 a9 a10 a11 a12 "")) "" "".
Proof. by destruct m as [? ? ? [] ? ?]. Qed.

(** The directory of all virtual hosts passes the check made before a
    directory is removed; no directory that [encodeName] names is it. *)
Lemma vhosts_dir_passes_check : JsonPersistence.checkVHostDir "." = true.
Proof. by vm_compute. Qed.
Lemma vhost_dirs_pass_check name : JsonPersistence.checkVHostDir (encodeName name) = true.
Proof.
  unfold JsonPersistence.checkVHostDir. apply bool_decide_true.
  assert (Hs : Forall (λ c, c ≠ 46 ∧ c ≠ 47) (char_codes (encodeName name)) ∧ char_codes (encodeName name) ≠ []).
  { destruct (encodeName_chars name) as [[-> _]|[-> _]]; (split; [constructor; [done|]|done]).
    - eapply Forall_impl; [apply base32_name_safe|]. unfold safe_char. lia.
    - eapply Forall_impl; [apply hex_encode_safe, sha256_bytes|]. unfold safe_char. lia. }
  destruct Hs as [Hs Hne]. split; [|split]; intros E.
  - by rewrite E in Hne.
  - rewrite E in Hs. by apply Forall_inv in Hs as [? _].
  - rewrite Forall_forall in Hs. by apply Hs in E as [_ ?].
Qed.
End lost.

(** ** Examples *)

Section sample.
#[local] Existing Instance sample_runtime.
#[local] Existing Instance sample_reader.
#[local] Existing Instance sample_sha256.

Definition restarted_from (d : disk) : VHost :=
  match NewVhost "/" 100 10 true true true d with
  | Ok vh => vh
  | Err _ => topology_0
  end.
Definition left_on_disk (vh : VHost) (d : disk) : disk := stored "/" (vh_persist vh) d.
Definition restarted (vh : VHost) : VHost := restarted_from (left_on_disk vh (MkDisk None ∅)).

Definition bound_list (n : string) (vh : VHost) : list (string * list string) :=
  match vh_Exchanges vh !! n with
  | Some e => map (λ kbs : string * list Binding, (kbs.1, map b_Queue kbs.2)) (map_to_list (ex_Bindings e))
  | None => []
  end.

Definition durable_queue : QueueProperties := MkQueueProps false true false false None.
Definition durable_exchange (internal : bool) : ExchangeProperties :=
  MkExchangeProps false true false internal false None.

(** A durable queue, bound to the default exchange under its name and to a
    predeclared exchange. *)
Definition predeclared_bindings : VHost :=
  (BindQueue "amq.topic" "orders" "orders.#" None "conn-1"
    (BindQueue DEFAULT_EXCHANGE "orders" "orders" None INTERNAL_CONN_ID
      (CreateQueue [] "orders" (Some durable_queue) "conn-1" topology_0).1).1).1.

(** The queue comes back with neither binding. *)
Lemma restart_forgets_predeclared_bindings :
  bound_list DEFAULT_EXCHANGE predeclared_bindings = [("orders", ["orders"])] ∧
  bound_list "amq.topic" predeclared_bindings = [("orders.#", ["orders"])] ∧
  is_durable (restarted predeclared_bindings) "orders" = true ∧
  bound_list DEFAULT_EXCHANGE (restarted predeclared_bindings) = [] ∧
  bound_list "amq.topic" (restarted predeclared_bindings) = [].
Proof. by vm_compute. Qed.

Definition internal_exchange : VHost :=
  (CreateExchange "audit" DIRECT (Some (durable_exchange true)) topology_0).1.

(** An internal exchange takes publishes from clients after a restart. *)
Lemma restart_forgets_internal :
  (ep_Internal ∘ ex_Props <$> vh_Exchanges internal_exchange !! "audit") = Some true ∧
  (ep_Internal ∘ ex_Props <$> vh_Exchanges (restarted internal_exchange) !! "audit") = Some false.
Proof. by vm_compute. Qed.

(** A queue bound twice to a fanout exchange with a routing key, and unbound
    once. *)
Definition fanout_bound_once : VHost :=
  let bind := fun vh => (BindQueue "news" "orders" "any" None "conn-1" vh).1 in
  (UnbindQueue "news" "orders" "any" None "conn-1"
    (bind (bind (CreateQueue [] "orders" (Some durable_queue) "conn-1"
      (CreateExchange "news" FANOUT (Some (durable_exchange false)) topology_0).1).1))).1.

(** The binding that is left is not in the file. *)
Lemma restart_forgets_fanout_binding :
  bound_list "news" fanout_bound_once = [("", ["orders"])] ∧ bound_list "news" (restarted fanout_bound_once) = [].
Proof. by vm_compute. Qed.

(** An exclusive durable queue with a message, whose connection is still open
    when the broker stops. *)
Definition exclusive_left : VHost :=
  persist (VHost.SaveMessage "orders" (MkMessage "m-1" 0 [] empty_props "" "orders"))
    (CreateQueue [] "orders" (Some (MkQueueProps false true false true None)) "conn-1" topology_0).1.

(** It is gone after the restart, but its file is not: a queue declared with its
    name has the message at the next restart. *)
Definition disk_left : disk := left_on_disk exclusive_left (MkDisk None ∅).
Definition redeclared : VHost :=
  (CreateQueue [] "orders" (Some durable_queue) "conn-2" (restarted_from disk_left)).1.

Lemma exclusive_messages_return :
  vh_Queues (restarted exclusive_left) !! "orders" = None ∧
  (contents <$> vh_Queues redeclared !! "orders") = Some [] ∧
  (length ∘ contents <$> vh_Queues (restarted_from (left_on_disk redeclared disk_left)) !! "orders") = Some 1%nat.
Proof. by vm_compute. Qed.
End sample.
