(* ===== verification/Loop.v ===== *)
(** * The delivery loop of a queue: queue.go

    Every queue with a consumer has a goroutine that takes messages off the
    queue and delivers them ([startDeliveryLoop] and what it calls).  Other
    goroutines run between its critical sections; here they are a parameter that
    may change the virtual host in any way and delete the queue, so what holds of
    the loop holds of every interleaving.  Each call under a lock is one step. *)

From stdpp Require Import base list gmap strings.
From Stdlib Require Import ZArith Lia.
From S2P Require Import Prelude Values Properties Args Queue Deliveries Consumers Json VHost Lifecycle Expiry.
From S2P Require Import Publish Settle Purge Preserve.

Local Open Scope Z_scope.
Local Open Scope string_scope.
Local Open Scope list_scope.

(** ** State *)

(** What the goroutines share: the virtual host, the frames written, and whether
    the loop's context is cancelled, which only a deletion of the queue does. *)
Record shared : Type := MkShared {
  sh_vh : VHost;
  sh_out : list sent_frames;
  sh_stopping : bool;
}.

(** What a [select] of the loop wakes up for. *)
Inductive wake : Type := WakeDone | WakeConsumers | WakeReady | WakeTimeout.

(** How the loop's world moves on, by the number of the step: what the other
    goroutines do before it, which writes would succeed, what a [select] finds
    ready, the time, and what is left in the queue once it is deleted and no
    longer in the virtual host. *)
Record surroundings : Type := MkSurroundings {
  others : nat → shared → shared;
  sender : nat → FrameSender;
  wakes : nat → wake;
  time : nat → Z;
  detached : nat → Queue;
}.

(** What became of a message that the loop took.  [Discarded] is a push to the
    deleted queue. *)
Inductive fate : Type :=
| TimedOut
| Sent (consumer : Consumer)
| PutBack
| Discarded.

Record world : Type := MkWorld {
  w_shared : shared;
  w_step : nat;
  w_taken : list Message;
  w_fates : list (Message * fate);
}.

Definition loop (A : Type) : Type := world → res stop (world * A).
#[export] Instance loop_ret : MRet loop := λ A a w, Ok (w, a).
#[export] Instance loop_bind : MBind loop := λ A B f m w,
  match m w with Ok (w, a) => f a w | Err s => Err s end.
#[export] Instance loop_fmap : FMap loop := λ A B f m, a ← m; mret (f a).

(** Where the goroutine is between two rounds of [for] in [startDeliveryLoop]. *)
Inductive position : Type := Top | Draining.

(** What one attempt on the list of consumers came to, and what follows. *)
Inductive attempt : Type := Delivered | Failed (addr : nat) | AllThrottled.
Inductive next : Type := Return (handled : bool) | Again (consumers : list nat).

Definition maxRounds : nat := 100.

Section delivery_loop.
Context `{Runtime}.
Variable fuel : nat.
Variable around : surroundings.
(** The queue the goroutine belongs to; its name, properties and maximum priority
    never change. *)
Variable queue : Queue.

(** ** One critical section *)

Definition interfere (n : nat) (sh : shared) : shared :=
  let sh' := others around n sh in
  MkShared (sh_vh sh') (sh_out sh') (sh_stopping sh || sh_stopping sh').

Definition atomic {A} (f : nat → shared → res stop (shared * A)) : loop A := λ w,
  match f (w_step w) (interfere (w_step w) (w_shared w)) with
  | Ok (sh, a) => Ok (MkWorld sh (S (w_step w)) (w_taken w) (w_fates w), a)
  | Err s => Err s
  end.
Definition looks {A} (f : nat → shared → A) : loop A := atomic (λ n sh, Ok (sh, f n sh)).
Definition took (msg : Message) : loop unit := λ w,
  Ok (MkWorld (w_shared w) (w_step w) (w_taken w ++ [msg]) (w_fates w), tt).
Definition dispose (msg : Message) (f : fate) : loop unit := λ w,
  Ok (MkWorld (w_shared w) (w_step w) (w_taken w) (w_fates w ++ [(msg, f)]), tt).

Definition stopping : loop bool := looks (λ _, sh_stopping).
Definition set_vh (vh : VHost) (sh : shared) : shared := MkShared vh (sh_out sh) (sh_stopping sh).

(** The queue's own state: out of the virtual host once it is deleted. *)
Definition gone (sh : shared) : bool :=
  sh_stopping sh || bool_decide (vh_Queues (sh_vh sh) !! q_Name queue = None).
Definition own_queue (n : nat) (sh : shared) : Queue :=
  if gone sh then detached around n
  else default (detached around n) (vh_Queues (sh_vh sh) !! q_Name queue).
Definition put_own (q : Queue) (sh : shared) : shared :=
  if gone sh then sh else set_vh (put_queue q (sh_vh sh)) sh.

(** [q.Push]: the deleted queue is stopped and discards it.  (What it still
    evicts then is left to the others.) *)
Definition push_back (msg : Message) : loop unit :=
  lost ← atomic (λ n sh,
    if gone sh then Ok (sh, true) else
    vh ← Push (time around n) fuel (q_Name queue) msg (sh_vh sh); Ok (set_vh vh sh, false));
  dispose msg (if lost : bool then Discarded else PutBack).

Definition expires (msg : Message) : loop bool :=
  expired ← atomic (λ n sh,
    r ← handleTTLExpiration (time around n) fuel msg queue (sh_vh sh); Ok (set_vh r.1 sh, r.2));
  if expired : bool then dispose msg TimedOut;; mret true else mret false.

Definition active_consumers : loop (list nat) :=
  looks (λ _ sh, GetActiveConsumersForQueue (vh_index (sh_vh sh)) (q_Name queue)).

Definition consumer_at (addr : nat) (sh : shared) : option Consumer := ix_heap (vh_index (sh_vh sh)) !! addr.

(** A consumer is never forgotten by its address; [None] is not reached. *)
Definition throttled (addr : nat) : loop bool := looks (λ _ sh,
  from_option (λ c, shouldThrottle (c_Tag c) (c_PrefetchCount c)
    (vh_ChannelDeliveries (sh_vh sh) !! channel_key c)) true (consumer_at addr sh)).

Definition deliver (addr : nat) (msg : Message) : loop bool :=
  sent ← atomic (λ n sh,
    let _ := sender around n in
    match consumer_at addr sh with
    | None => Ok (sh, None)
    | Some c =>
        let '(vh, out, r) := deliverToConsumer c msg false (sh_vh sh) (sh_out sh) in
        Ok (MkShared vh out (sh_stopping sh), if is_ok r then Some c else None)
    end);
  match sent with
  | Some c => dispose msg (Sent c);; mret true
  | None => mret false
  end.

(** [removeFailedConsumer]: unless the queue was deleted or the consumer's key
    is another's by now.  It may delete an auto-delete queue, this one. *)
Definition remove_failed (addr : nat) : loop unit := atomic (λ _ sh,
  match consumer_at addr sh with
  | None => Ok (sh, tt)
  | Some c =>
      let vh := (cancelConsumer (c_Channel c) (c_Tag c)
        (λ vh, negb (gone sh) &&
               bool_decide (ix_Consumers (vh_index vh) !! consumer_key c = Some addr)) (sh_vh sh)).1 in
      let deleted := negb (gone sh) && bool_decide (vh_Queues vh !! q_Name queue = None) in
      Ok (MkShared vh (sh_out sh) (sh_stopping sh || deleted), tt)
  end).

(** ** deliverMessage *)

(** One round: each consumer once, in their order. *)
Fixpoint try_consumers (consumers : list nat) (msg : Message) : loop attempt :=
  match consumers with
  | [] => mret AllThrottled
  | addr :: consumers =>
      skip ← throttled addr;
      if skip : bool then try_consumers consumers msg else
      sent ← deliver addr msg;
      mret (if sent : bool then Delivered else Failed addr)
  end.

Definition after_failure (addr : nat) (msg : Message) : loop next :=
  stop ← stopping;
  if stop : bool then mret (Return false) else
  remove_failed addr;;
  consumers ← active_consumers;
  match consumers with
  | _ :: _ => mret (Again consumers)
  | [] => stop ← stopping;
      if stop : bool then mret (Return false) else push_back msg;; mret (Return true)
  end.

Fixpoint any_state (consumers : list nat) : loop bool :=
  match consumers with
  | [] => mret false
  | addr :: consumers =>
      known ← looks (λ _ sh, from_option (λ c,
        bool_decide (is_Some (vh_ChannelDeliveries (sh_vh sh) !! channel_key c))) false (consumer_at addr sh));
      if known : bool then mret true else any_state consumers
  end.

(** Every consumer is throttled: wait for a slot, a consumer or a second. *)
Definition wait_for_slot (consumers : list nat) (msg : Message) : loop next :=
  known ← any_state consumers;
  if negb known then mret (Again consumers) else
  woken ← looks (λ n _, wakes around n);
  match woken with
  | WakeReady | WakeTimeout => mret (Again consumers)
  | WakeConsumers =>
      consumers ← active_consumers;
      match consumers with
      | [] => push_back msg;; mret (Return true)
      | _ :: _ => mret (Again consumers)
      end
  | WakeDone =>
      stop ← stopping;
      mret (if stop : bool then Return false else Again consumers)
  end.

Fixpoint deliver_rounds (rounds : nat) (consumers : list nat) (msg : Message) : loop bool :=
  match rounds with
  | O => push_back msg;; mret true
  | S rounds =>
      stop ← stopping;
      if stop : bool then mret false else
      tried ← try_consumers consumers msg;
      after ← (match tried with
               | Delivered => mret (Return true)
               | Failed addr => after_failure addr msg
               | AllThrottled => wait_for_slot consumers msg
               end);
      match after with
      | Return handled => mret handled
      | Again consumers => deliver_rounds rounds consumers msg
      end
  end.

(** [false] only when the loop is stopping and the message is still in hand. *)
Definition deliverMessage (msg : Message) : loop bool :=
  expired ← expires msg;
  if expired : bool then mret true else
  consumers ← active_consumers;
  match consumers with
  | [] => stop ← stopping;
      if stop : bool then mret false else push_back msg;; mret true
  | _ :: _ => deliver_rounds maxRounds consumers msg
  end.

Definition requeueOnShutdown (msg : Message) (handled : bool) : loop bool :=
  stop ← stopping;
  if stop : bool then (if handled then mret tt else push_back msg);; mret true else mret false.

(** ** The loop *)

(** A message taken off the queue, if there is one.  (For a FIFO queue the source
    takes the message and decrements the count in two critical sections.) *)
Definition take : loop (option Message) :=
  popped ← atomic (λ n sh,
    let '(msg, q) := Pop (own_queue n sh) in
    Ok (put_own q sh, msg));
  match popped with
  | Some msg => took msg;; mret (Some msg)
  | None => mret None
  end.

Definition handle (msg : Message) : loop bool :=
  handled ← deliverMessage msg;
  requeueOnShutdown msg handled.

Definition deliverFromFIFOQueue : loop position :=
  woken ← looks (λ n _, wakes around n);
  match woken with
  | WakeReady =>
      msg ← take;
      match msg with
      | Some msg => handle msg;; mret Top
      | None => mret Top
      end
  | _ => mret Top
  end.

(** [messageSignal]: taken when it is there, raised again by [signalMessages]. *)
Definition set_signal (signal : bool) : loop bool := atomic (λ n sh,
  let q := own_queue n sh in
  Ok (put_own (set_levels (q_priorityMessages q) (q_count q) signal q) sh, q_signal q)).

Definition deliverFromPriorityQueue : loop position :=
  woken ← looks (λ n _, wakes around n);
  match woken with
  | WakeReady => signalled ← set_signal false; mret (if signalled : bool then Draining else Top)
  | _ => mret Top
  end.

(** One turn of [for q.Len() > 0]. *)
Definition drain : loop position :=
  count ← looks (λ n sh, Len (own_queue n sh));
  if decide (count <= 0) then mret Top else
  consumers ← looks (λ n sh, q_consumers (own_queue n sh));
  if decide (consumers = 0) then set_signal true;; mret Top else
  msg ← take;
  match msg with
  | None => mret Top
  | Some msg => done ← handle msg; mret (if done : bool then Top else Draining)
  end.

(** One turn of the goroutine; [None] when it returns. *)
Definition turn (at_ : position) : loop (option position) :=
  match at_ with
  | Draining => Some <$> drain
  | Top =>
      stop ← stopping;
      if stop : bool then mret None else
      consumers ← looks (λ n sh, q_consumers (own_queue n sh));
      if decide (consumers = 0) then mret (Some Top) else
      Some <$> (if decide (0 < q_maxPriority queue) then deliverFromPriorityQueue else deliverFromFIFOQueue)
  end.

(** The goroutine for a number of turns, or until it returns. *)
Fixpoint startDeliveryLoop (turns : nat) (at_ : position) : loop (option position) :=
  match turns with
  | O => mret (Some at_)
  | S turns =>
      next ← turn at_;
      match next with
      | None => mret None
      | Some at_ => startDeliveryLoop turns at_
      end
  end.
End delivery_loop.

(** ** Every message taken has one fate *)

Section fates.
Context `{Runtime}.
Variable fuel : nat.
Variable around : surroundings.
Variable queue : Queue.

(** The loop stops short only where a push or an expiry does. *)
Definition stuck (s : stop) : Prop :=
  ∃ n msg vh, Push (time around n) fuel (q_Name queue) msg vh = Err s ∨
    handleTTLExpiration (time around n) fuel msg queue vh = Err s.

(** From a state whose context is cancelled or not ([b]), [m] takes no message
    and leaves a result, the fates it adds and the context as [Q] says. *)
Definition runs {A} (b : bool) (m : loop A) (Q : A → list (Message * fate) → bool → Prop) : Prop :=
  ∀ w, sh_stopping (w_shared w) = b →
  match m w with
  | Ok (w', a) => w_taken w' = w_taken w ∧ ∃ fs, w_fates w' = w_fates w ++ fs ∧
      (b = true → sh_stopping (w_shared w') = true) ∧ Q a fs (sh_stopping (w_shared w'))
  | Err s => stuck s
  end.

Lemma runs_ret {A} b (a : A) Q : Q a [] b → runs b (mret a) Q.
Proof. intros HQ w Hw. cbn. split; [done|]. exists []. rewrite app_nil_r. by subst. Qed.

Lemma runs_bind {A B} b (m : loop A) (f : A → loop B) Q R :
  runs b m Q → (∀ a fs b', (b = true → b' = true) → Q a fs b' → runs b' (f a) (λ c fs' b'', R c (fs ++ fs') b'')) →
  runs b (m ≫= f) R.
Proof.
  intros Hm Hf w Hw. specialize (Hm w Hw). unfold mbind, loop_bind.
  destruct (m w) as [[w1 a]|s]; [|done]. destruct Hm as (Ht & fs & Hfs & Hb & HQ).
  specialize (Hf _ _ _ Hb HQ w1 eq_refl). destruct (f a w1) as [[w2 c]|s]; [|done].
  destruct Hf as (Ht' & fs' & Hfs' & Hb' & HR). split; [congruence|]. exists (fs ++ fs').
  rewrite Hfs', Hfs, app_assoc. split; [done|]. split; [by intros ->; auto|done].
Qed.

Lemma runs_mono {A} b (m : loop A) (Q R : A → list (Message * fate) → bool → Prop) :
  runs b m Q → (∀ a fs b', Q a fs b' → R a fs b') → runs b m R.
Proof.
  intros Hm HQR w Hw. specialize (Hm w Hw). destruct (m w) as [[w1 a]|s]; [|done].
  destruct Hm as (? & fs & ? & ? & ?). eauto 10.
Qed.

Lemma runs_atomic {A} b (f : nat → shared → res stop (shared * A)) (Q : A → bool → Prop) :
  (∀ n sh, match f n sh with
           | Ok (sh', a) => (sh_stopping sh = true → sh_stopping sh' = true) ∧ Q a (sh_stopping sh')
           | Err s => stuck s
           end) →
  runs b (atomic around f) (λ a fs b', fs = [] ∧ Q a b').
Proof.
  intros Hf w Hw. unfold atomic. specialize (Hf (w_step w) (interfere around (w_step w) (w_shared w))).
  destruct (f _ _) as [[sh a]|s]; [|done]. cbn. destruct Hf as [Hs HQ]. split; [done|].
  exists []. rewrite app_nil_r. split; [done|]. split; [|done].
  intros ->. apply Hs. cbn. by rewrite Hw.
Qed.

Lemma runs_looks {A} b (f : nat → shared → A) : runs b (looks around f) (λ _ fs _, fs = []).
Proof.
  apply (runs_mono _ _ (λ _ fs _, fs = [] ∧ True)); [|by intros ??? []].
  by apply (runs_atomic _ _ (λ _ _, True)).
Qed.

Lemma runs_stopping b : runs b (stopping around) (λ s fs b', fs = [] ∧ s = b').
Proof. by apply (runs_atomic _ _ (λ s b', s = b')). Qed.

Lemma runs_dispose b msg f : runs b (dispose msg f) (λ _ fs b', fs = [(msg, f)] ∧ b' = b).
Proof. intros w Hw. cbn. split; [done|]. exists [(msg, f)]. by subst. Qed.

(** One fate if the message is settled, none otherwise. *)
Definition once (msg : Message) (settled : bool) (fs : list (Message * fate)) : Prop :=
  if settled then ∃ f, fs = [(msg, f)] else fs = [].

Lemma runs_push_back b msg : runs b (push_back fuel around queue msg) (λ _ fs _, once msg true fs).
Proof.
  eapply runs_bind.
  - apply (runs_atomic _ _ (λ _ _, True)). intros n sh. destruct (gone queue sh); [done|].
    destruct (Push _ _ _ _ _) eqn:E; cbn; [done|]. exists n, msg, (sh_vh sh). by left.
  - intros lost fs b' _ [-> _]. eapply runs_mono; [apply runs_dispose|]. intros [] fs _ [-> _]. cbn. eauto.
Qed.

Lemma runs_expires b msg : runs b (expires fuel around queue msg) (λ e fs _, once msg e fs).
Proof.
  eapply runs_bind.
  - apply (runs_atomic _ _ (λ _ _, True)). intros n sh.
    destruct (handleTTLExpiration _ _ _ _ _) eqn:E; cbn; [done|]. exists n, msg, (sh_vh sh). by right.
  - intros [] fs b' _ [-> _]; [|by apply runs_ret]. eapply runs_bind; [apply runs_dispose|].
    intros [] fs b'' _ [-> _]. apply runs_ret. cbn. eauto.
Qed.

Lemma runs_deliver b addr msg : runs b (deliver around addr msg) (λ sent fs _, once msg sent fs).
Proof.
  eapply runs_bind.
  - apply (runs_atomic _ _ (λ _ _, True)). intros n sh. destruct (consumer_at addr sh); [|done].
    cbn zeta. by destruct (@deliverToConsumer (sender around n) c msg false (sh_vh sh) (sh_out sh)) as [[vh out] r].
  - intros [c|] fs b' _ [-> _]; [|by apply runs_ret]. eapply runs_bind; [apply runs_dispose|].
    intros [] fs b'' _ [-> _]. apply runs_ret. cbn. eauto.
Qed.

Lemma runs_remove_failed b addr : runs b (remove_failed around queue addr) (λ _ fs _, fs = []).
Proof.
  apply (runs_mono _ _ (λ _ fs _, fs = [] ∧ True)); [|by intros ??? []].
  apply (runs_atomic _ _ (λ _ _, True)). intros n sh. destruct (consumer_at addr sh); [|done].
  cbn. split; [|done]. by intros ->.
Qed.

Lemma runs_try_consumers b consumers msg :
  runs b (try_consumers around consumers msg)
    (λ a fs _, once msg (match a with Delivered => true | _ => false end) fs).
Proof.
  revert b. induction consumers as [|addr consumers IH]; intros b; [by apply runs_ret|].
  cbn [try_consumers]. eapply runs_bind; [apply runs_looks|]. intros [] fs b' _ ->; [apply IH|].
  eapply runs_bind; [apply runs_deliver|]. intros [] fs b'' _ Hfs; apply runs_ret; rewrite app_nil_r; exact Hfs.
Qed.

(** What a round may come to: only [Return true] has settled the message, and
    [Return false] is for a loop that is stopping. *)
Definition settles (msg : Message) (a : next) (fs : list (Message * fate)) (b : bool) : Prop :=
  match a with
  | Return handled => once msg handled fs ∧ (handled = false → b = true)
  | Again _ => fs = []
  end.

Lemma runs_any_state b consumers : runs b (any_state around consumers) (λ _ fs _, fs = []).
Proof.
  revert b. induction consumers as [|addr consumers IH]; intros b; [by apply runs_ret|].
  cbn [any_state]. eapply runs_bind; [apply runs_looks|]. intros [] fs b' _ ->; [by apply runs_ret|apply IH].
Qed.

Lemma runs_push_back_settles b msg :
  runs b (push_back fuel around queue msg;; mret (Return true)) (settles msg).
Proof.
  eapply runs_bind; [apply runs_push_back|]. intros [] fs b' _ Hfs. apply runs_ret.
  rewrite app_nil_r. by split.
Qed.

(** [stop ← stopping; if stop then return false else m]. *)
Lemma runs_unless_stopping b (m : loop next) msg :
  (∀ b', runs b' m (settles msg)) →
  runs b (stop ← stopping around; if stop : bool then mret (Return false) else m) (settles msg).
Proof.
  intros Hm. eapply runs_bind; [apply runs_stopping|]. intros stop fs b' _ [-> ->].
  destruct b'; [by apply runs_ret|apply Hm].
Qed.

Lemma runs_after_failure b addr msg : runs b (after_failure fuel around queue addr msg) (settles msg).
Proof.
  apply runs_unless_stopping. intros b1. eapply runs_bind; [apply runs_remove_failed|].
  intros [] fs b2 _ ->. eapply runs_bind; [apply runs_looks|]. intros [|c cs] fs b3 _ ->.
  - apply runs_unless_stopping. intros b4. apply runs_push_back_settles.
  - by apply runs_ret.
Qed.

Lemma runs_wait_for_slot b consumers msg :
  runs b (wait_for_slot fuel around queue consumers msg) (settles msg).
Proof.
  eapply runs_bind; [apply runs_any_state|]. intros [] fs b1 _ ->; [|by apply runs_ret].
  eapply runs_bind; [apply runs_looks|]. intros [] fs b2 _ ->; try by apply runs_ret.
  - eapply runs_bind; [apply runs_stopping|]. intros stop fs b3 _ [-> ->].
    apply runs_ret. by destruct b3.
  - eapply runs_bind; [apply runs_looks|]. intros [|c cs] fs b3 _ ->;
      [apply runs_push_back_settles|by apply runs_ret].
Qed.

Lemma runs_deliver_rounds rounds b consumers msg :
  runs b (deliver_rounds fuel around queue rounds consumers msg) (λ handled, settles msg (Return handled)).
Proof.
  revert b consumers. induction rounds as [|rounds IH]; intros b consumers.
  { eapply runs_bind; [apply runs_push_back|]. intros [] fs b' _ Hfs. apply runs_ret.
    rewrite app_nil_r. by split. }
  cbn [deliver_rounds]. eapply runs_bind; [apply runs_stopping|]. intros stop fs b1 _ [-> ->].
  destruct b1; [by apply runs_ret|]. eapply runs_bind; [apply runs_try_consumers|].
  intros tried fs b2 _ Hfs. cbn [app]. eapply (runs_bind _ _ _ (λ a fs' b, settles msg a (fs ++ fs') b)).
  - destruct tried; cbn in Hfs; [|rewrite Hfs..].
    + apply runs_ret. rewrite app_nil_r. by split.
    + apply runs_after_failure.
    + apply runs_wait_for_slot.
  - intros [handled|cs] fs' b3 _ Hs; cbn [settles] in Hs.
    + apply runs_ret. by rewrite app_nil_r.
    + apply app_eq_nil in Hs as [-> ->]. apply IH.
Qed.

Lemma runs_deliverMessage b msg :
  runs b (deliverMessage fuel around queue msg) (λ handled, settles msg (Return handled)).
Proof.
  eapply runs_bind; [apply runs_expires|]. intros [] fs b1 _ Hfs.
  { apply runs_ret. rewrite app_nil_r. by split. }
  cbn in Hfs. subst fs. eapply runs_bind; [apply runs_looks|]. intros [|c cs] fs b2 _ ->.
  - eapply runs_bind; [apply runs_stopping|]. intros stop fs b3 _ [-> ->].
    destruct b3; [by apply runs_ret|]. eapply runs_bind; [apply runs_push_back|].
    intros [] fs b4 _ Hfs. apply runs_ret. rewrite app_nil_r. by split.
  - apply runs_deliver_rounds.
Qed.

Lemma runs_handle b msg : runs b (handle fuel around queue msg) (λ _ fs _, once msg true fs).
Proof.
  eapply runs_bind; [apply runs_deliverMessage|]. intros handled fs b1 _ [Hfs Hstop].
  eapply runs_bind; [apply runs_stopping|]. intros stop fs' b2 Hb [-> ->]. cbn [app].
  destruct handled; cbn in Hfs; [destruct Hfs as [f ->]|subst fs; rewrite (Hb (Hstop eq_refl))].
  - destruct b2; [|apply runs_ret; cbn; eauto].
    eapply (runs_bind _ _ _ (λ _ fs _, fs = [])); [by apply runs_ret|].
    intros [] fs b3 _ ->. apply runs_ret. cbn. eauto.
  - eapply runs_bind; [apply runs_push_back|]. intros [] fs b3 _ Hfs. apply runs_ret. by rewrite app_nil_r.
Qed.

(** The messages taken are those with a fate, and the one in hand, if any. *)
Definition in_hand (o : option Message) (w : world) : Prop :=
  (w_fates w).*1 ++ option_list o = w_taken w.
Definition carries {A} (o : option Message) (m : loop A) (o' : A → option Message) : Prop := ∀ w,
  in_hand o w →
  match m w with
  | Ok (w', a) => in_hand (o' a) w'
  | Err s => stuck s
  end.

Lemma carries_ret {A} (a : A) o o' : o' a = o → carries o (mret a) o'.
Proof. by intros <- w. Qed.
Lemma carries_bind {A B} (m : loop A) (f : A → loop B) o o' o'' :
  carries o m o' → (∀ a, carries (o' a) (f a) o'') → carries o (m ≫= f) o''.
Proof.
  intros Hm Hf w Hw. specialize (Hm w Hw). unfold mbind, loop_bind.
  destruct (m w) as [[w1 a]|s]; [|done]. by apply Hf.
Qed.
Lemma carries_fmap {A B} (f : A → B) (m : loop A) o o' :
  carries o m (λ _, o') → carries o (f <$> m) (λ _, o').
Proof. intros Hm. eapply carries_bind; [done|]. intros a. by apply carries_ret. Qed.
(** A part of the loop that does not touch the message. *)
Lemma carries_quiet {A} (m : loop A) o : (∀ b, runs b m (λ _ fs _, fs = [])) → carries o m (λ _, o).
Proof.
  intros Hm w Hw. specialize (Hm _ w eq_refl). destruct (m w) as [[w1 a]|s]; [|done].
  destruct Hm as (Ht & fs & Hfs & _ & ->). unfold in_hand. by rewrite Ht, Hfs, app_nil_r.
Qed.
Lemma carries_looks {A} (f : nat → shared → A) o : carries o (looks around f) (λ _, o).
Proof. apply carries_quiet. intros b. apply runs_looks. Qed.

Lemma carries_handle msg : carries (Some msg) (handle fuel around queue msg) (λ _, None).
Proof.
  intros w Hw. pose proof (runs_handle _ msg w eq_refl) as Hm.
  destruct (handle _ _ _ msg w) as [[w1 a]|s]; [|done].
  destruct Hm as (Ht & fs & Hfs & _ & f & ->). unfold in_hand in *. rewrite Ht, Hfs, fmap_app. cbn.
  by rewrite app_nil_r.
Qed.

Lemma carries_atomic {A} (f : nat → shared → res stop (shared * A)) o :
  (∀ n sh, is_ok (f n sh) = true) → carries o (atomic around f) (λ _, o).
Proof.
  intros Hf w Hw. unfold atomic. specialize (Hf (w_step w) (interfere around (w_step w) (w_shared w))).
  by destruct (f _ _) as [[sh a]|s].
Qed.

Lemma carries_take : carries None (take around queue) (λ o, o).
Proof.
  eapply carries_bind; [apply carries_atomic; intros n sh; by destruct (Pop _)|].
  intros [msg|]; [|by apply carries_ret]. eapply (carries_bind _ _ _ (λ _, Some msg)).
  - intros w Hw. cbn. unfold in_hand in *. cbn in *. by rewrite <- Hw, app_nil_r.
  - intros _. by apply carries_ret.
Qed.

Lemma carries_fifo : carries None (deliverFromFIFOQueue fuel around queue) (λ _, None).
Proof.
  eapply carries_bind; [apply carries_looks|]. intros []; try by apply carries_ret.
  eapply carries_bind; [apply carries_take|]. intros [msg|]; [|by apply carries_ret].
  eapply carries_bind; [apply carries_handle|]. intros ?. by apply carries_ret.
Qed.

Lemma carries_set_signal signal o : carries o (set_signal around queue signal) (λ _, o).
Proof. by apply carries_atomic. Qed.

Lemma carries_turn at_ : carries None (turn fuel around queue at_) (λ _, None).
Proof.
  destruct at_; cbn [turn].
  - eapply carries_bind; [apply carries_looks|]. intros []; [by apply carries_ret|].
    eapply carries_bind; [apply carries_looks|]. intros consumers. case_decide; [by apply carries_ret|].
    apply carries_fmap. case_decide; [|apply carries_fifo].
    eapply carries_bind; [apply carries_looks|]. intros []; try by apply carries_ret.
    eapply carries_bind; [apply carries_set_signal|]. intros signalled. by apply carries_ret.
  - apply carries_fmap. eapply carries_bind; [apply carries_looks|]. intros count.
    case_decide; [by apply carries_ret|]. eapply carries_bind; [apply carries_looks|]. intros consumers.
    case_decide.
    { eapply carries_bind; [apply carries_set_signal|]. intros signalled. by apply carries_ret. }
    eapply carries_bind; [apply carries_take|]. intros [msg|]; [|by apply carries_ret].
    eapply carries_bind; [apply carries_handle|]. intros done_. by apply carries_ret.
Qed.

(** C4. The delivery loop neither loses nor duplicates a message.  Whatever the
    other goroutines do between its steps (deliver, acknowledge, cancel, close,
    delete the queue, declare it again) and whatever it wakes up for, after any
    number of turns every message the loop took has had exactly one fate, in the
    order they were taken: it had expired, it was written to one consumer, it
    was pushed back, or, when the queue was gone, discarded with it.  The loop
    stops short only where a push or an expiry does not return. *)
Theorem one_fate_each (turns : nat) (at_ : position) (w : world) :
  (w_fates w).*1 = w_taken w →
  match startDeliveryLoop fuel around queue turns at_ w with
  | Ok (w', _) => (w_fates w').*1 = w_taken w'
  | Err s => stuck s
  end.
Proof.
  intros Hw. assert (carries None (startDeliveryLoop fuel around queue turns at_) (λ _, None)) as Hc.
  { clear Hw. revert at_. induction turns as [|turns IH]; intros at_; [by apply carries_ret|].
    cbn [startDeliveryLoop]. eapply carries_bind; [apply carries_turn|].
    intros [at'|]; [apply IH|by apply carries_ret]. }
  specialize (Hc w). unfold in_hand in Hc. cbn in Hc. rewrite app_nil_r in Hc. specialize (Hc Hw).
  destruct (startDeliveryLoop _ _ _ _ _ w) as [[w' r]|s]; [|done]. by rewrite app_nil_r in Hc.
Qed.
End fates.

(** ** The loop as a sequence of critical sections

    What one section may do to the shared state; the broker's steps
    (Invariant.v) include these. *)

Inductive loop_section `{Runtime} (s : FrameSender) (fuel : nat) (queue : Queue) (sh : shared) : shared → Prop :=
| sec_look : loop_section s fuel queue sh sh
| sec_take q :
    vh_Queues (sh_vh sh) !! q_Name queue = Some q →
    loop_section s fuel queue sh (set_vh (put_queue (Pop q).2 (sh_vh sh)) sh)
| sec_signal q signal :
    vh_Queues (sh_vh sh) !! q_Name queue = Some q →
    loop_section s fuel queue sh
      (set_vh (put_queue (set_levels (q_priorityMessages q) (q_count q) signal q) (sh_vh sh)) sh)
| sec_expire now msg vh' expired :
    handleTTLExpiration now fuel msg queue (sh_vh sh) = Ok (vh', expired) →
    loop_section s fuel queue sh (set_vh vh' sh)
| sec_push now msg vh' :
    Push now fuel (q_Name queue) msg (sh_vh sh) = Ok vh' → loop_section s fuel queue sh (set_vh vh' sh)
| sec_deliver c msg vh' out' r :
    deliverToConsumer c msg false (sh_vh sh) (sh_out sh) = (vh', out', r) →
    loop_section s fuel queue sh (MkShared vh' out' (sh_stopping sh))
| sec_remove channel tag guard gone :
    loop_section s fuel queue sh (MkShared (cancelConsumer channel tag guard (sh_vh sh)).1 (sh_out sh) gone).

Create HintDb sectioned.

Section sections.
Context `{Runtime}.
Variable fuel : nat.
Variable around : surroundings.
Variable queue : Queue.

(** The others move, then the loop has one section. *)
Definition loop_step (sh sh' : shared) : Prop :=
  ∃ n, loop_section (sender around n) fuel queue (interfere around n sh) sh'.

Definition sectioned {A} (m : loop A) : Prop := ∀ w,
  match m w with
  | Ok (w', _) => rtc loop_step (w_shared w) (w_shared w')
  | Err _ => True
  end.

Lemma sectioned_ret {A} (a : A) : sectioned (mret a).
Proof. intros w. apply rtc_refl. Qed.
Lemma sectioned_bind {A B} (m : loop A) (f : A → loop B) :
  sectioned m → (∀ a, sectioned (f a)) → sectioned (m ≫= f).
Proof.
  intros Hm Hf w. specialize (Hm w). unfold mbind, loop_bind. destruct (m w) as [[w1 a]|]; [|done].
  specialize (Hf a w1). destruct (f a w1) as [[w2 b]|]; [|done]. by etrans.
Qed.
Lemma sectioned_atomic {A} (f : nat → shared → res stop (shared * A)) :
  (∀ n sh sh' a, f n sh = Ok (sh', a) → loop_section (sender around n) fuel queue sh sh') → sectioned (atomic around f).
Proof.
  intros Hf w. unfold atomic. destruct (f _ _) as [[sh a]|] eqn:E; [|done].
  apply rtc_once. exists (w_step w). by eapply Hf.
Qed.
Lemma sectioned_looks {A} (f : nat → shared → A) : sectioned (looks around f).
Proof. apply sectioned_atomic. intros n sh sh' a [= <- _]. apply sec_look. Qed.
Lemma sectioned_log (f : world → world) : (∀ w, w_shared (f w) = w_shared w) → sectioned (λ w, Ok (f w, tt)).
Proof. intros Hf w. rewrite Hf. apply rtc_refl. Qed.

(** What the loop writes back to its queue comes from the virtual host. *)
Lemma own_section s (f : Queue → Queue) n sh :
  (∀ q, vh_Queues (sh_vh sh) !! q_Name queue = Some q → loop_section s fuel queue sh (set_vh (put_queue (f q) (sh_vh sh)) sh)) →
  loop_section s fuel queue sh (put_own queue (f (own_queue around queue n sh)) sh).
Proof.
  intros Hf. unfold put_own, own_queue. destruct (gone queue sh) eqn:Hg; [apply sec_look|].
  unfold gone in Hg. apply orb_false_iff in Hg as [_ Hg%bool_decide_eq_false].
  destruct (vh_Queues (sh_vh sh) !! q_Name queue) as [q|] eqn:Hq; [by apply Hf|done].
Qed.

Lemma sectioned_dispose msg f : sectioned (dispose msg f).
Proof. by apply sectioned_log. Qed.
Lemma sectioned_took msg : sectioned (took msg).
Proof. by apply sectioned_log. Qed.

Ltac sectioned :=
  intros;
  lazymatch goal with
  | |- sectioned (_ ≫= _) => apply sectioned_bind; [sectioned|intros ?; sectioned]
  | |- sectioned (_ <$> _) => apply sectioned_bind; [sectioned|intros ?; sectioned]
  | |- sectioned (mret _) => apply sectioned_ret
  | |- sectioned (looks _ _) => apply sectioned_looks
  | |- sectioned (match ?x with _ => _ end) => destruct x; sectioned
  | |- sectioned _ => try (solve [auto using sectioned_dispose, sectioned_took with sectioned])
  end.

Lemma push_back_sectioned msg : sectioned (push_back fuel around queue msg).
Proof.
  unfold push_back. sectioned. apply sectioned_atomic. intros n sh sh' a Hp.
  destruct (gone queue sh); [injection Hp as <- _; apply sec_look|].
  apply res_bind_ok in Hp as (vh & Hp & E). injection E as <- _. by eapply sec_push.
Qed.
Lemma expires_sectioned msg : sectioned (expires fuel around queue msg).
Proof.
  unfold expires. sectioned. apply sectioned_atomic. intros n sh sh' a Hp.
  apply res_bind_ok in Hp as ([vh e] & Hp & E). injection E as <- _. by eapply sec_expire.
Qed.
Lemma deliver_sectioned addr msg : sectioned (deliver around addr msg).
Proof.
  unfold deliver. sectioned. apply sectioned_atomic. intros n sh sh' a' Hp.
  destruct (consumer_at addr sh) as [c|]; [|injection Hp as <- _; apply sec_look].
  cbn zeta in Hp.
  destruct (@deliverToConsumer (sender around n) c msg false (sh_vh sh) (sh_out sh)) as [[vh out] r] eqn:E.
  injection Hp as <- _. by eapply sec_deliver.
Qed.
Lemma remove_failed_sectioned addr : sectioned (remove_failed around queue addr).
Proof.
  apply sectioned_atomic. intros n sh sh' a Hp.
  destruct (consumer_at addr sh) as [c|]; injection Hp as <- _; [apply sec_remove|apply sec_look].
Qed.
Lemma take_sectioned : sectioned (take around queue).
Proof.
  unfold take. sectioned. apply sectioned_atomic. intros n sh sh' a Hp.
  pose proof (own_section (sender around n) (λ q, (Pop q).2) n sh (λ q Hq, sec_take _ _ _ _ q Hq)) as Hs. cbn in Hs.
  destruct (Pop (own_queue around queue n sh)) as [m q]. by injection Hp as <- _.
Qed.
Lemma set_signal_sectioned signal : sectioned (set_signal around queue signal).
Proof.
  apply sectioned_atomic. intros n sh sh' a [= <- _].
  apply (own_section _ (λ q, set_levels (q_priorityMessages q) (q_count q) signal q)).
  intros q Hq. by apply sec_signal.
Qed.
#[local] Hint Resolve push_back_sectioned expires_sectioned deliver_sectioned remove_failed_sectioned
  take_sectioned set_signal_sectioned : sectioned.

Lemma try_consumers_sectioned consumers msg : sectioned (try_consumers around consumers msg).
Proof. induction consumers; cbn [try_consumers]; unfold throttled; sectioned. Qed.
Lemma any_state_sectioned consumers : sectioned (any_state around consumers).
Proof. induction consumers; cbn [any_state]; sectioned. Qed.
#[local] Hint Resolve try_consumers_sectioned any_state_sectioned : sectioned.
Lemma deliver_rounds_sectioned rounds msg : ∀ consumers,
  sectioned (deliver_rounds fuel around queue rounds consumers msg).
Proof.
  induction rounds; intros consumers; cbn [deliver_rounds];
    unfold after_failure, wait_for_slot, stopping, active_consumers; sectioned.
Qed.
#[local] Hint Resolve deliver_rounds_sectioned : sectioned.
Lemma handle_sectioned msg : sectioned (handle fuel around queue msg).
Proof. unfold handle, deliverMessage, requeueOnShutdown, stopping, active_consumers. sectioned. Qed.
#[local] Hint Resolve handle_sectioned : sectioned.
Lemma turn_sectioned at_ : sectioned (turn fuel around queue at_).
Proof. destruct at_; cbn [turn]; unfold drain, deliverFromPriorityQueue, deliverFromFIFOQueue, stopping; sectioned. Qed.
#[local] Hint Resolve turn_sectioned : sectioned.

(** A run of the loop is a sequence of its sections, with whatever the other
    goroutines do before each. *)
Lemma loop_sectioned turns : ∀ at_, sectioned (startDeliveryLoop fuel around queue turns at_).
Proof. induction turns; intros at_; cbn [startDeliveryLoop]; sectioned. Qed.
End sections.


(** ** Undisturbed, the loop delivers *)

Section undisturbed.
Context `{Runtime}.
Variable fuel : nat.
Variable around : surroundings.
Variable queue : Queue.
Context `{writer : FrameSender}.
Hypothesis quiet : ∀ n sh, others around n sh = sh.
Hypothesis same_sender : ∀ n, sender around n = writer.

Definition stepped (w : world) : world := MkWorld (w_shared w) (S (w_step w)) (w_taken w) (w_fates w).

Lemma quiet_interfere n sh : interfere around n sh = sh.
Proof. unfold interfere. rewrite quiet. destruct sh as [vh out []]; reflexivity. Qed.

Lemma loop_bind_eq {A B} (m : loop A) (f : A → loop B) w :
  (m ≫= f) w = match m w with Ok (w', a) => f a w' | Err s => Err s end.
Proof. done. Qed.
Lemma quiet_looks {A} (f : nat → shared → A) w :
  looks around f w = Ok (stepped w, f (w_step w) (w_shared w)).
Proof. unfold looks, atomic. by rewrite quiet_interfere. Qed.

(** Whether a consumer's window is full, as the loop sees it. *)
Definition full (vh : VHost) (addr : nat) : bool :=
  from_option (λ c, shouldThrottle (c_Tag c) (c_PrefetchCount c)
    (vh_ChannelDeliveries vh !! channel_key c)) true (ix_heap (vh_index vh) !! addr).

Lemma quiet_throttled addr w : throttled around addr w = Ok (stepped w, full (sh_vh (w_shared w)) addr).
Proof. apply quiet_looks. Qed.

Fixpoint steps (n : nat) (w : world) : world := match n with O => w | S n => steps n (stepped w) end.
Lemma steps_shared n w :
  w_shared (steps n w) = w_shared w ∧ w_taken (steps n w) = w_taken w ∧ w_fates (steps n w) = w_fates w.
Proof. revert w. induction n as [|n IH]; intros w; [done|]. apply (IH (stepped w)). Qed.

Lemma try_skips skipped consumers msg w :
  Forall (λ a, full (sh_vh (w_shared w)) a = true) skipped →
  try_consumers around (skipped ++ consumers) msg w = try_consumers around consumers msg (steps (length skipped) w).
Proof.
  revert w. induction skipped as [|a skipped IH]; intros w Hf; [done|].
  apply Forall_cons in Hf as [Ha Hf]. cbn [app try_consumers]. rewrite loop_bind_eq, quiet_throttled, Ha.
  by apply IH.
Qed.

(** [msg] has not expired in the loop's queue at [now]. *)
Definition fresh_at (now : Z) (msg : Message) (vh : VHost) : Prop :=
  vh_EnableTTL vh = true →
  CheckExpiration out_of_range_int msg (qp_Arguments (q_Props queue)) now ≠ Expired true.

Lemma fresh_not_expired n msg w :
  fresh_at (time around n) msg (sh_vh (w_shared w)) → w_step w = n →
  expires fuel around queue msg w = Ok (stepped w, false).
Proof.
  intros Hfresh <-. unfold expires. rewrite loop_bind_eq. unfold atomic. rewrite quiet_interfere.
  assert (Hno : handleTTLExpiration (time around (w_step w)) fuel msg queue (sh_vh (w_shared w)) =
    Ok (sh_vh (w_shared w), false)).
  { unfold handleTTLExpiration, handleTTLExpiration_with. destruct (vh_EnableTTL _) eqn:Httl; [|done]. cbn [negb].
    specialize (Hfresh Httl). by destruct (CheckExpiration _ _ _ _) as [[]|]. }
  rewrite Hno. cbn. by destruct w as [[] ? ? ?].
Qed.

(** With room in its window, a consumer whose frames are written gets the message. *)
Lemma quiet_deliver addr c msg frames w :
  let vh := sh_vh (w_shared w) in
  let ch := channel_of vh (channel_key c) in
  ix_heap (vh_index vh) !! addr = Some c → c_Active c = true → wf_channel ch → LastDeliveryTag ch < 2 ^ 64 - 1 →
  delivery_frames c msg (LastDeliveryTag ch + 1) (ShouldRedeliver (m_ID msg) vh) = Ok frames →
  SendFrame (sh_out (w_shared w)) (c_ConnectionID c) frames = true →
  ∃ vh' w', deliver around addr msg w = Ok (w', true) ∧
    deliverToConsumer c msg false vh (sh_out (w_shared w)) =
      (vh', sh_out (w_shared w) ++ [(c_ConnectionID c, frames)], Ok tt) ∧
    w_shared w' = MkShared vh' (sh_out (w_shared w) ++ [(c_ConnectionID c, frames)]) (sh_stopping (w_shared w)) ∧
    w_taken w' = w_taken w ∧ w_fates w' = w_fates w ++ [(msg, Sent c)].
Proof.
  intros vh ch Haddr Hact Hwf Hlast Hframes Hsend.
  destruct (deliver_sent c msg false vh (sh_out (w_shared w)) frames Hwf Hlast Hact Hframes Hsend) as [Hd _].
  eexists _, _. unfold deliver. rewrite loop_bind_eq. unfold atomic. rewrite quiet_interfere.
  unfold consumer_at. fold vh. rewrite Haddr. cbn zeta. rewrite same_sender, Hd. cbn. done.
Qed.

(** What it takes for [addr] to get [msg]: it is the first of the queue's active
    consumers, in the order they registered, whose window has room, and its
    frames [frames] can be written. *)
Record willing (addr : nat) (c : Consumer) (msg : Message) (frames : list Byte.byte) (vh : VHost)
    (out : list sent_frames) : Prop := {
  wl_first : ∃ skipped rest,
    GetActiveConsumersForQueue (vh_index vh) (q_Name queue) = skipped ++ addr :: rest ∧
    Forall (λ a, full vh a = true) skipped;
  wl_room : full vh addr = false;
  wl_consumer : ix_heap (vh_index vh) !! addr = Some c;
  wl_active : c_Active c = true;
  wl_tags : LastDeliveryTag (channel_of vh (channel_key c)) < 2 ^ 64 - 1;
  wl_frames : delivery_frames c msg (LastDeliveryTag (channel_of vh (channel_key c)) + 1)
    (ShouldRedeliver (m_ID msg) vh) = Ok frames;
  wl_sent : SendFrame out (c_ConnectionID c) frames = true;
}.

Lemma quiet_deliverMessage addr c msg frames w :
  let vh := sh_vh (w_shared w) in
  let out := sh_out (w_shared w) in
  sh_stopping (w_shared w) = false → wf_channel (channel_of vh (channel_key c)) →
  fresh_at (time around (w_step w)) msg vh → willing addr c msg frames vh out →
  ∃ vh' w', deliverMessage fuel around queue msg w = Ok (w', true) ∧
    deliverToConsumer c msg false vh out = (vh', out ++ [(c_ConnectionID c, frames)], Ok tt) ∧
    w_shared w' = MkShared vh' (out ++ [(c_ConnectionID c, frames)]) false ∧
    w_taken w' = w_taken w ∧ w_fates w' = w_fates w ++ [(msg, Sent c)].
Proof.
  intros vh out Hstop Hwf Hfresh [(skipped & rest & Hactive & Hfull) Hroom Hc Hact Hlast Hframes Hsend].
  unfold deliverMessage. rewrite loop_bind_eq, (fresh_not_expired (w_step w)) by done.
  unfold active_consumers. rewrite loop_bind_eq, quiet_looks. cbn [stepped w_shared w_step]. fold vh.
  rewrite Hactive. destruct (skipped ++ addr :: rest) as [|a l] eqn:El; [by destruct skipped|]. rewrite <- El.
  unfold maxRounds. cbn [deliver_rounds]. unfold stopping. rewrite loop_bind_eq, quiet_looks.
  cbn [stepped w_shared w_step w_taken w_fates]. rewrite Hstop, loop_bind_eq, try_skips by exact Hfull.
  match goal with |- context [steps ?n ?w0] => destruct (steps_shared n w0) as (Hs & Ht & Hf);
    set (w1 := steps n w0) in * end.
  cbn in Hs, Ht, Hf. cbn [try_consumers]. rewrite loop_bind_eq, quiet_throttled, Hs. fold vh.
  rewrite Hroom, loop_bind_eq.
  destruct (quiet_deliver addr c msg frames (stepped w1)) as (vh' & w2 & Hd & Heq & Hs2 & Ht2 & Hf2);
    cbn [stepped w_shared]; rewrite ?Hs; try done.
  cbn [stepped w_shared w_taken w_fates] in *. rewrite Hs in *. rewrite Hd. exists vh', w2. cbn.
  split; [done|]. split; [done|]. rewrite Hs2, Hstop, Ht2, Hf2, Ht, Hf. done.
Qed.

Lemma quiet_handle addr c msg frames w :
  let vh := sh_vh (w_shared w) in
  let out := sh_out (w_shared w) in
  sh_stopping (w_shared w) = false → wf_channel (channel_of vh (channel_key c)) →
  fresh_at (time around (w_step w)) msg vh → willing addr c msg frames vh out →
  ∃ vh' w', handle fuel around queue msg w = Ok (w', false) ∧
    deliverToConsumer c msg false vh out = (vh', out ++ [(c_ConnectionID c, frames)], Ok tt) ∧
    w_shared w' = MkShared vh' (out ++ [(c_ConnectionID c, frames)]) false ∧
    w_taken w' = w_taken w ∧ w_fates w' = w_fates w ++ [(msg, Sent c)].
Proof.
  intros vh out Hstop Hwf Hfresh Hw.
  destruct (quiet_deliverMessage addr c msg frames w Hstop Hwf Hfresh Hw) as (vh' & w1 & Hd & Heq & Hs & Ht & Hf).
  exists vh', (stepped w1). unfold handle, requeueOnShutdown, stopping.
  rewrite loop_bind_eq, Hd, loop_bind_eq, quiet_looks, Hs. done.
Qed.

(** Taking the first message of the queue. *)
Lemma quiet_take q msg ms w :
  let vh := sh_vh (w_shared w) in
  sh_stopping (w_shared w) = false → wf_names vh → vh_Queues vh !! q_Name queue = Some q → contents q = msg :: ms →
  ∃ q', take around queue w = Ok (MkWorld (set_vh (put_queue q' vh) (w_shared w)) (S (w_step w))
      (w_taken w ++ [msg]) (w_fates w), Some msg) ∧
    q_Name q' = q_Name queue ∧ contents q' = ms.
Proof.
  intros vh Hstop Hwf Hq Hms. exists (Pop q).2. pose proof (Pop_contents q) as Hpop.
  pose proof (pop_settings q) as (Hname & _). unfold take. rewrite loop_bind_eq. unfold atomic.
  rewrite quiet_interfere. unfold own_queue, put_own, gone. rewrite Hstop. fold vh. rewrite Hq. cbn [orb default].
  rewrite bool_decide_false by done.
  destruct (Pop q) as [[msg'|] q'] eqn:Hp; destruct Hpop as [Hc _]; rewrite Hms in Hc; [|done].
  injection Hc as <- ->. cbn. rewrite Hp. split; [done|]. cbn in Hname. rewrite Hname. split; [|done].
  apply (wn_queue _ _ Hwf _ _ Hq).
Qed.

Lemma willing_put_queue q addr c msg frames vh out :
  willing addr c msg frames vh out → willing addr c msg frames (put_queue q vh) out.
Proof. by intros []. Qed.

Lemma willing_consumers addr c msg frames q vh out :
  wf_names vh → vh_Queues vh !! q_Name queue = Some q → willing addr c msg frames vh out → q_consumers q ≠ 0.
Proof.
  intros Hwf Hq [(skipped & rest & Hactive & _)]. rewrite (wn_count _ _ Hwf _ _ Hq).
  unfold GetActiveConsumersForQueue in Hactive. destruct (by_queue _ _); [by destruct skipped|]. cbn. lia.
Qed.

(** Taking the first message and dealing with it, whatever follows. *)
Lemma quiet_round {A} (k : bool → loop A) (none : loop A) q msg ms addr c frames w :
  let vh := sh_vh (w_shared w) in
  let out := sh_out (w_shared w) in
  let ch := channel_of vh (channel_key c) in
  sh_stopping (w_shared w) = false → wf_names vh → vh_Queues vh !! q_Name queue = Some q → contents q = msg :: ms →
  (∀ i, fresh_at (time around i) msg vh) → willing addr c msg frames vh out →
  ∃ vh' q' w', (popped ← take around queue;
      match popped with Some m => done_ ← handle fuel around queue m; k done_ | None => none end) w = k false w' ∧
    w_shared w' = MkShared vh' (out ++ [(c_ConnectionID c, frames)]) false ∧
    w_taken w' = w_taken w ++ [msg] ∧ w_fates w' = w_fates w ++ [(msg, Sent c)] ∧
    vh_Queues vh' = <[q_Name queue := q']> (vh_Queues vh) ∧ contents q' = ms ∧
    ShouldRedeliver (m_ID msg) vh' = false ∧
    UnackedByTag (channel_of vh' (channel_key c)) =
      (if c_NoAck c then UnackedByTag ch
       else <[LastDeliveryTag ch + 1 := MkRecord (LastDeliveryTag ch + 1) (c_Tag c) false
              (c_QueueName c) msg (is_persistent msg) false false]> (UnackedByTag ch)).
Proof.
  intros vh out ch Hstop Hwf Hq Hms Hfresh Hwill.
  assert (Hch : wf_channel ch).
  { unfold ch, channel_of. destruct (vh_ChannelDeliveries vh !! channel_key c) as [ch0|] eqn:E;
      [by apply (wn_channel _ _ Hwf _ _ E)|apply new_channel_wf]. }
  destruct (quiet_take q msg ms w Hstop Hwf Hq Hms) as (q' & Ht & Hn' & Hc').
  rewrite loop_bind_eq, Ht. set (w1 := MkWorld _ _ _ _). fold vh in w1.
  destruct (quiet_handle addr c msg frames w1) as (vh' & w2 & Hh & Heq & Hs & Hta & Hf); try done.
  { apply Hfresh. }
  { by apply willing_put_queue. }
  rewrite loop_bind_eq, Hh. exists vh', q', w2. split; [done|]. split; [exact Hs|].
  split; [exact Hta|]. split; [exact Hf|].
  destruct (deliver_sent c msg false (put_queue q' vh) out frames Hch) as [Hd Htags]; try apply Hwill.
  change (deliverToConsumer c msg false (put_queue q' vh) out = (vh', out ++ [(c_ConnectionID c, frames)], Ok tt)) in Heq.
  rewrite Hd in Heq. injection Heq as <-.
  match goal with |- context [after_send c msg ?flag ?v0] =>
    destruct (after_send_spec c msg false v0 (channel_key c) _ (put_queue q' vh) eq_refl) as (Ha & Hb & Hr) end.
  split; [etrans; [exact Hb|by rewrite <- Hn']|]. split; [done|]. split; [exact Hr|].
  etrans; [exact (f_equal UnackedByTag Ha)|exact Htags].
Qed.

(** C14. Left alone, the loop delivers what is ready.  When the queue holds a
    message that has not expired and one of its active consumers has room, one
    turn takes the first message of the queue, and only it, and writes it to the
    first such consumer in the order they registered; the message is outstanding
    there unless the consumer does not acknowledge, and its redelivery mark is
    gone.  Both for a priority queue being drained and for a FIFO queue. *)
Theorem ready_message_is_delivered (at_ : position) (q : Queue) (msg : Message) (ms : list Message)
    (addr : nat) (c : Consumer) (frames : list Byte.byte) (w : world) :
  let vh := sh_vh (w_shared w) in
  let out := sh_out (w_shared w) in
  let ch := channel_of vh (channel_key c) in
  sh_stopping (w_shared w) = false → wf_names vh →
  vh_Queues vh !! q_Name queue = Some q → wf_queue q → contents q = msg :: ms →
  at_ = Draining ∨ at_ = Top ∧ q_maxPriority queue = 0 ∧ wakes around (S (S (w_step w))) = WakeReady →
  (∀ i, fresh_at (time around i) msg vh) → willing addr c msg frames vh out →
  ∃ vh' q' w', startDeliveryLoop fuel around queue 1 at_ w = Ok (w', Some at_) ∧
    w_shared w' = MkShared vh' (out ++ [(c_ConnectionID c, frames)]) false ∧
    w_taken w' = w_taken w ++ [msg] ∧ w_fates w' = w_fates w ++ [(msg, Sent c)] ∧
    vh_Queues vh' = <[q_Name queue := q']> (vh_Queues vh) ∧ contents q' = ms ∧
    ShouldRedeliver (m_ID msg) vh' = false ∧
    UnackedByTag (channel_of vh' (channel_key c)) =
      (if c_NoAck c then UnackedByTag ch
       else <[LastDeliveryTag ch + 1 := MkRecord (LastDeliveryTag ch + 1) (c_Tag c) false
              (c_QueueName c) msg (is_persistent msg) false false]> (UnackedByTag ch)).
Proof.
  intros vh out ch Hstop Hwf Hq Hwq Hms Hat Hfresh Hwill.
  pose proof (willing_consumers _ _ _ _ _ _ _ Hwf Hq Hwill) as Hcons.
  assert (Hown : ∀ n, own_queue around queue n (w_shared w) = q).
  { intros n. unfold own_queue, gone. rewrite Hstop. fold vh. rewrite Hq. done. }
  cbn [startDeliveryLoop]. rewrite loop_bind_eq. destruct Hat as [->|(-> & Hprio & Hwake)]; cbn [turn].
  - destruct (quiet_round (λ d : bool, mret (if d then Top else Draining)) (mret Top) q msg ms addr c frames
      (stepped (stepped w)) Hstop Hwf Hq Hms Hfresh Hwill) as (vh' & q' & w' & Hr & Hrest).
    exists vh', q', w'. split; [|exact Hrest].
    unfold fmap, loop_fmap, drain. rewrite !loop_bind_eq, !quiet_looks. cbn [stepped w_shared w_step].
    rewrite Hown. rewrite decide_False by (unfold Len; destruct Hwq as (_ & [-> _] & _); rewrite Hms; cbn [length]; lia).
    rewrite loop_bind_eq, quiet_looks. cbn [stepped w_shared w_step]. rewrite Hown, decide_False by done.
    cbn [stepped w_shared w_step w_taken w_fates] in Hr. by rewrite Hr.
  - destruct (quiet_round (λ _ : bool, mret Top) (mret Top) q msg ms addr c frames
      (stepped (stepped (stepped w))) Hstop Hwf Hq Hms Hfresh Hwill) as (vh' & q' & w' & Hr & Hrest).
    exists vh', q', w'. split; [|exact Hrest].
    unfold stopping. rewrite loop_bind_eq, quiet_looks. cbn [stepped w_shared w_step]. rewrite Hstop.
    rewrite loop_bind_eq, quiet_looks. cbn [stepped w_shared w_step]. rewrite Hown, decide_False by done.
    rewrite decide_False by lia. unfold fmap, loop_fmap, deliverFromFIFOQueue.
    rewrite !loop_bind_eq, quiet_looks. cbn [stepped w_shared w_step]. rewrite Hwake.
    cbn [stepped w_shared w_step w_taken w_fates] in Hr. by rewrite Hr.
Qed.
End undisturbed.

Section loop_sample.
#[local] Existing Instance sample_runtime.
#[local] Existing Instance sample_sender.

(** "orders" with two messages ready and one consumer. *)
Definition sample_ready : VHost :=
  match (vh ← Push 0 1 "orders" sample_delivered sample_vhost; Push 0 1 "orders" sample_delivered vh) with
  | Ok vh => vh
  | Err _ => sample_vhost
  end.
Definition ready_orders : Queue := default (NewQueue "" 0) (vh_Queues sample_ready !! "orders").

Definition sample_world : world := MkWorld (MkShared sample_ready [] false) 0 [] [].

(** Messages are always found ready; with [deleting], the queue is deleted when
    the second message has just been taken. *)
Definition sample_around (deleting : bool) : surroundings := MkSurroundings
  (λ n sh, if deleting && bool_decide (n = 13%nat)
           then MkShared (deleteQueuebyNameUnlocked "orders" (sh_vh sh)).1 (sh_out sh) true else sh)
  (λ _, sample_sender) (λ _, WakeReady) (λ _, 0) (λ _, ready_orders).

Lemma one_fate_each_witness :
  ∃ w', startDeliveryLoop 1 (sample_around true) ready_orders 2 Top sample_world = Ok (w', Some Top) ∧
    (w_fates w').*1 = [sample_delivered; sample_delivered] ∧
    (w_fates w').*2 !! 1%nat = Some Discarded.
Proof.
  pose proof (one_fate_each 1 (sample_around true) ready_orders 2 Top sample_world eq_refl) as Hone.
  assert (Hok : match startDeliveryLoop 1 (sample_around true) ready_orders 2 Top sample_world with
    | Ok (w', Some Top) => w_taken w' = [sample_delivered; sample_delivered] ∧
        (w_fates w').*2 !! 1%nat = Some Discarded
    | _ => False end) by (vm_compute; by split).
  destruct (startDeliveryLoop _ _ _ _ _ _) as [[w' [[]|]]|s]; try done.
  exists w'. split; [done|]. destruct Hok as [Ht Hd]. rewrite Hone, Ht. by split.
Defined.

Lemma sample_ready_wf : wf_names sample_ready.
Proof.
  unfold sample_ready. destruct (Push 0 1 "orders" sample_delivered sample_vhost) as [vh|] eqn:E1;
    cbn [mbind res_mbind res_bind]; [|apply sample_vhost_wf].
  pose proof sample_vhost_wf as Hwf. apply Push_frame in E1; [|by eapply wf_named].
  assert (Hwf1 : wf_names vh) by by eapply wf_names_frame.
  destruct (Push 0 1 "orders" sample_delivered vh) as [vh2|] eqn:E2; [|exact Hwf].
  apply Push_frame in E2; [|by eapply wf_named]. by eapply wf_names_frame.
Qed.

Lemma ready_message_is_delivered_witness :
  ∃ vh' frames w', startDeliveryLoop 1 (sample_around false) ready_orders 1 Top sample_world = Ok (w', Some Top) ∧
    w_shared w' = MkShared vh' [("conn-1", frames)] false ∧
    (length <$> (contents <$> vh_Queues vh' !! "orders")) = Some 1%nat.
Proof.
  assert (Hc : ∃ addr c frames, c_ConnectionID c = "conn-1" ∧
    willing ready_orders addr c sample_delivered frames sample_ready []).
  { destruct (ix_heap (vh_index sample_ready) !! 0%nat) as [c|] eqn:Ec; [|by vm_compute in Ec].
    assert (Hcv : Some c = Some c) by done. rewrite <- Ec in Hcv at 1. vm_compute in Hcv. injection Hcv as <-.
    eexists _, _, _. split; [|split; [eexists [], _; split; [by vm_compute|done]|by vm_compute|exact Ec|..]]; by vm_compute. }
  destruct Hc as (addr & c & frames & Hconn & Hw).
  destruct (ready_message_is_delivered 1 (sample_around false) ready_orders (λ _ _, eq_refl) (λ _, eq_refl) Top ready_orders
    sample_delivered [sample_delivered] addr c frames sample_world) as (vh' & q' & w' & Hrun & Hs & _ & _ & Hq & Hms & _).
  - done.
  - apply sample_ready_wf.
  - by vm_compute.
  - unfold wf_queue. apply (bool_decide_unpack _). by vm_compute.
  - by vm_compute.
  - right. by vm_compute.
  - intros i _. by vm_compute.
  - exact Hw.
  - exists vh', frames, w'. split; [exact Hrun|]. split; [by rewrite Hs, Hconn|].
    rewrite Hq. change (q_Name ready_orders) with "orders". rewrite lookup_insert_eq. cbn. by rewrite Hms.
Defined.

(** The window is checked and the delivery tracked in separate critical sections.
    Two queues with consumers on one channel of global window 1: the loop of
    "audit" delivers between the two, and the channel has two deliveries. *)
Definition audit_consumer : Consumer := NewConsumer "conn-1" 1 "audit" "" false false None.
Definition shared_window : VHost :=
  HandleBasicQos ("conn-1", 1) 1 true (RegisterConsumer ["ctag-2"] audit_consumer sample_ready).1.
Definition audit_delivers (sh : shared) : shared :=
  match consumer_at 1 sh with
  | None => sh
  | Some c =>
      let ch := vh_ChannelDeliveries (sh_vh sh) !! channel_key c in
      if shouldThrottle (c_Tag c) (c_PrefetchCount c) ch then sh else
      let '(vh, out, _) := deliverToConsumer c sample_delivered false (sh_vh sh) (sh_out sh) in
      MkShared vh out (sh_stopping sh)
  end.

Lemma window_overrun :
  match startDeliveryLoop 1
      (MkSurroundings (λ n sh, if decide (n = 8%nat) then audit_delivers sh else sh)
        (λ _, sample_sender) (λ _, WakeReady) (λ _, 0) (λ _, ready_orders))
      ready_orders 1 Top (MkWorld (MkShared shared_window [] false) 0 [] []) with
  | Ok (w, _) =>
      let ch := channel_of (sh_vh (w_shared w)) ("conn-1", 1) in
      GlobalPrefetchCount ch = 1 ∧ size (UnackedByTag ch) = 2%nat
  | Err _ => False
  end.
Proof. by vm_compute. Qed.
End loop_sample.
