(* ===== verification/Cleanup.v ===== *)
(** * Closing channels and connections: the cleanup of vhost/consumer.go

    A closed channel loses its consumers, its delivery state and its
    transaction; what was unacknowledged on it goes back to the queues, marked as
    redelivered, in the order it was delivered.  A closed connection closes its
    channels and takes its exclusive queues with it. *)

From stdpp Require Import base list gmap strings sorting.
From Stdlib Require Import ZArith Lia.
From S2P Require Import Prelude Bytes Values Properties Methods Frames Topic Args Queue Deliveries.
From S2P Require Import Consumers Json VHost Lifecycle Routing Expiry Publish Settle.

Local Open Scope Z_scope.
Local Open Scope string_scope.
Local Open Scope list_scope.

(** ** Work to requeue *)

Record requeueWork : Type := MkWork {
  w_queue : string;
  w_records : list DeliveryRecord;
  w_redelivered : bool;
}.

(** Records join the work already there for their queue, or open a new one. *)
Fixpoint add_work (queue : string) (records : list DeliveryRecord) (redelivered : bool)
    (work : list requeueWork) : list requeueWork :=
  match work with
  | [] => [MkWork queue records redelivered]
  | w :: work =>
      if decide (w_queue w = queue)
      then MkWork queue (w_records w ++ records) (w_redelivered w || redelivered) :: work
      else w :: add_work queue records redelivered work
  end.

Definition by_tag (a b : DeliveryRecord) : Prop := dr_DeliveryTag a <= dr_DeliveryTag b.
#[export] Instance by_tag_dec : RelDecision by_tag.
Proof. unfold by_tag. intros a b. apply _. Defined.
#[export] Instance by_tag_total : Total by_tag.
Proof. unfold by_tag. intros a b. lia. Qed.
#[export] Instance by_tag_trans : Transitive by_tag.
Proof. unfold by_tag. intros a b c. lia. Qed.

(** [sort.Slice] by tag; the tags of a channel are distinct, so every sort gives
    the same list. *)
Definition inDeliveryOrder (work : list requeueWork) : list requeueWork :=
  let merged := foldl (λ ws w, add_work (w_queue w) (w_records w) (w_redelivered w) ws) [] work in
  (λ w, MkWork (w_queue w) (merge_sort by_tag (w_records w)) (w_redelivered w)) <$> merged.

Section cleanup.
Context `{Runtime}.

(** The channel's delivery state is taken away; the work is what it still owed
    to queues that exist. *)
Definition takeChannelDeliveriesLocked (key : ConnectionChannelKey) (vh : VHost)
    : list requeueWork * VHost :=
  match vh_ChannelDeliveries vh !! key with
  | None => ([], vh)
  | Some state =>
      let vh := set_ChannelDeliveries (delete key (vh_ChannelDeliveries vh)) vh in
      let records := fetchUnackedMessages range_records state in
      (foldl (λ work record, match vh_Queues vh !! dr_QueueName record with
                             | None => work
                             | Some _ => add_work (dr_QueueName record) [record] true work
                             end) [] records, vh)
  end.

Definition requeue (now : Z) (fuel : nat) (work : list requeueWork) (vh : VHost) : res stop VHost :=
  for_each (λ w, for_each (λ record vh,
      let vh := if w_redelivered w then markAsRedelivered (m_ID (dr_Message record)) vh else vh in
      Push now fuel (w_queue w) (dr_Message record) vh) (w_records w)) work vh.

(** The consumers cancelled, with the state they leave. *)
Definition cancelChannelConsumersLocked (key : ConnectionChannelKey) (vh : VHost) : list nat * VHost :=
  let '(cancelled, vh) := foldl (λ st addr,
      let '(cancelled, vh) := st in
      match ix_heap (vh_index vh) !! addr with
      | None => st
      | Some c =>
          if decide (c_ConnectionID c ≠ key.1 ∨ ix_Consumers (vh_index vh) !! consumer_key c ≠ Some addr)
          then st
          else (cancelled ++ [addr], cancelConsumerLocked (consumer_key c) addr c vh)
      end) ([], vh) (by_channel (vh_index vh) key) in
  let ix := vh_index vh in
  (cancelled, set_index (MkIndex (ix_heap ix) (ix_next ix) (ix_Consumers ix) (ix_ByQueue ix)
    (delete key (ix_ByChannel ix))) vh).

Definition ReleaseChannelDeliveries (now : Z) (fuel : nat) (key : ConnectionChannelKey) (vh : VHost)
    : res stop VHost :=
  let '(_, vh) := cancelChannelConsumersLocked key vh in
  let '(work, vh) := takeChannelDeliveriesLocked key vh in
  requeue now fuel (inDeliveryOrder work) vh.

Definition CleanupChannel (now : Z) (fuel : nat) (key : ConnectionChannelKey) (vh : VHost)
    : res stop VHost :=
  vh ← ReleaseChannelDeliveries now fuel key vh;
  Ok (set_ChannelTransactions (delete key (vh_ChannelTransactions vh)) vh).

(** ** Connections *)

(** Every channel of the connection with consumers, deliveries or a transaction. *)
Definition connectionChannelsLocked (connID : string) (vh : VHost) : list ConnectionChannelKey :=
  let ix := vh_index vh in
  elements (filter (λ key : ConnectionChannelKey, key.1 = connID)
    (dom (ix_ByChannel ix)
     ∪ list_to_set (omap (λ addr, channel_key <$> ix_heap ix !! addr) (map_to_list (ix_Consumers ix)).*2)
     ∪ dom (vh_ChannelDeliveries vh) ∪ dom (vh_ChannelTransactions vh))).

Definition cleanup_channels (keys : list ConnectionChannelKey) (vh : VHost) : list requeueWork * VHost :=
  foldl (λ st key,
    let '(work, vh) := st in
    let '(_, vh) := cancelChannelConsumersLocked key vh in
    let '(more, vh) := takeChannelDeliveriesLocked key vh in
    (work ++ inDeliveryOrder more,
     set_ChannelTransactions (delete key (vh_ChannelTransactions vh)) vh)) ([], vh) keys.

(** The consumers of the connection that were left, whatever their channel. *)
Definition cancel_leftover (connID : string) (vh : VHost) : VHost :=
  foldl (λ vh ka,
    match ix_heap (vh_index vh) !! ka.2 with
    | Some c => if decide (c_ConnectionID c = connID ∧ ix_Consumers (vh_index vh) !! ka.1 = Some ka.2)
                then cancelConsumerLocked ka.1 ka.2 c vh else vh
    | None => vh
    end) vh (map_to_list (ix_Consumers (vh_index vh))).

(** Its queues: the exclusive ones are deleted, the others lose their owner. *)
Definition owned_exclusive (connID : string) (vh : VHost) : list string :=
  (filter (λ nq, q_OwnerConn nq.2 = connID ∧ qp_Exclusive (q_Props nq.2) = true)
    (map_to_list (vh_Queues vh))).*1.
Definition disown (connID : string) (vh : VHost) : VHost :=
  set_Queues ((λ q, if decide (q_OwnerConn q = connID ∧ qp_Exclusive (q_Props q) = false)
                    then set_owner "" q else q) <$> vh_Queues vh) vh.

Definition delete_owned (connID : string) (vh : VHost) : list nat * VHost :=
  foldl (λ st name,
    let '(removed, vh) := st in
    match deleteQueuebyNameUnlocked name vh with
    | (vh, Ok consumers) => (removed ++ consumers, vh)
    | (vh, Err _) => (removed, vh)
    end) ([], disown connID vh) (owned_exclusive connID vh).

(** The consumers of other connections, told of the end of their queue. *)
Definition consumerCancelsLocked (removed : list nat) (skipConn : string) (vh : VHost) : list Consumer :=
  filter (λ c, skipConn = "" ∨ c_ConnectionID c ≠ skipConn)
    (omap (λ addr, ix_heap (vh_index vh) !! addr) removed).
End cleanup.

(** [consumerCancels.send]: one goroutine per connection writes until a frame
    fails to be written; [connections] is the order in which they run. *)
Section cancels.
Context `{FrameSender}.

Fixpoint send_cancels (cancels : list Consumer) (out : list sent_frames) : list sent_frames :=
  match cancels with
  | [] => out
  | c :: cancels =>
      match createBasicCancelFrame (c_Channel c) (c_Tag c) with
      | Err _ => out
      | Ok frame =>
          if SendFrame out (c_ConnectionID c) frame
          then send_cancels cancels (out ++ [(c_ConnectionID c, frame)]) else out
      end
  end.

Definition send (connections : list string) (cancels : list Consumer) (out : list sent_frames)
    : list sent_frames :=
  foldl (λ out connID,
    if ConsumerCancelNotify connID
    then send_cancels (filter (λ c, c_ConnectionID c = connID) cancels) out else out)
    out connections.
End cancels.

Section connection.
Context `{Runtime, FrameSender}.

(** The connections of a batch of notifications, in the order of their first. *)
Definition notified (cancels : list Consumer) : list string :=
  remove_dups (c_ConnectionID <$> cancels).

(** [channels] are those of [connectionChannelsLocked], in the order the maps
    are visited.  [live]: nothing is requeued into a queue deleted meanwhile. *)
Definition CleanupConnection (now : Z) (fuel : nat) (connID : string)
    (channels : list ConnectionChannelKey) (vh : VHost) (out : list sent_frames)
    : res stop (VHost * list sent_frames) :=
  let '(work, vh) := cleanup_channels channels vh in
  let vh := cancel_leftover connID vh in
  let '(removed, vh) := delete_owned connID vh in
  let live := filter (λ w, is_Some (vh_Queues vh !! w_queue w)) work in
  let cancels := consumerCancelsLocked removed connID vh in
  let out := send (notified cancels) cancels out in
  vh ← requeue now fuel live vh;
  Ok (vh, out).

(** [DeleteQueuebyName]: the deletion, then the notifications. *)
Definition DeleteQueuebyName (name : string) (vh : VHost) (out : list sent_frames)
    : handled unit * list sent_frames :=
  match deleteQueuebyNameUnlocked name vh with
  | (vh, Err e) => ((vh, Err e), out)
  | (vh, Ok removed) =>
      let cancels := consumerCancelsLocked removed "" vh in
      ((vh, Ok tt), send (notified cancels) cancels out)
  end.
End connection.

(** ** The work of a channel *)

(** Batches under distinct names, each of live deliveries of its queue, marked. *)
Definition wf_work (work : list requeueWork) : Prop :=
  NoDup (w_queue <$> work) ∧
  Forall (λ w, w_redelivered w = true ∧
    Forall (λ r, dr_QueueName r = w_queue w ∧ dr_QueueDeleted r = false) (w_records w)) work.

(** The records filed under queue [n]. *)
Definition of_queue (n : string) (work : list requeueWork) : list DeliveryRecord :=
  w ← work; if decide (w_queue w = n) then w_records w else [].

Lemma of_queue_cons n w work :
  of_queue n (w :: work) = (if decide (w_queue w = n) then w_records w else []) ++ of_queue n work.
Proof. done. Qed.
#[local] Arguments of_queue : simpl never.

Lemma of_queue_elem n r work : r ∈ of_queue n work → r ∈ work ≫= w_records.
Proof.
  unfold of_queue. intros (w & Hr & Hw)%list_elem_of_bind. apply list_elem_of_bind. exists w.
  case_decide; [done|by apply elem_of_nil in Hr].
Qed.

Lemma of_queue_absent n work : n ∉ w_queue <$> work → of_queue n work = [].
Proof.
  induction work as [|w work IH]; [done|]. cbn. intros [Hn Hw]%not_elem_of_cons.
  rewrite of_queue_cons, decide_False by congruence. by apply IH.
Qed.

Lemma add_work_names q rs b work x :
  x ∈ w_queue <$> add_work q rs b work ↔ x = q ∨ x ∈ w_queue <$> work.
Proof.
  induction work as [|w work IH]; cbn; [set_solver|]. case_decide as Hq; cbn.
  - subst. set_solver.
  - rewrite !elem_of_cons, IH. tauto.
Qed.

Lemma add_work_wf q rs work :
  wf_work work → Forall (λ r, dr_QueueName r = q ∧ dr_QueueDeleted r = false) rs →
  wf_work (add_work q rs true work) ∧
  ∀ n, of_queue n (add_work q rs true work) = of_queue n work ++ if decide (q = n) then rs else [].
Proof.
  intros [Hnd Hf] Hrs. induction work as [|w work IH]; cbn.
  - split; [split; [apply NoDup_singleton|by constructor]|]. intros n. rewrite of_queue_cons. by rewrite app_nil_r.
  - cbn in Hnd. apply NoDup_cons in Hnd as [Hw Hnd]. apply Forall_cons in Hf as [[Hm Hr] Hf].
    case_decide as Hq.
    + subst q. split.
      * split; [by constructor|]. constructor; [|done]. cbn. rewrite Hm. split; [done|]. by apply Forall_app.
      * intros n. rewrite !of_queue_cons. cbn [w_queue w_records].
        case_decide as Hn; [|by rewrite app_nil_r]. subst n.
        rewrite (of_queue_absent (w_queue w) work) by done. by rewrite !app_nil_r.
    + destruct (IH Hnd Hf) as [[Hnd' Hf'] Ho]. split.
      * split; [|by constructor]. cbn. constructor; [|done]. rewrite add_work_names.
        intros [?|?]; congruence.
      * intros n. by rewrite !of_queue_cons, Ho, app_assoc.
Qed.

Definition record_works (vh : VHost) (records : list DeliveryRecord) : list requeueWork :=
  foldl (λ work record, match vh_Queues vh !! dr_QueueName record with
                        | None => work
                        | Some _ => add_work (dr_QueueName record) [record] true work
                        end) [] records.

Lemma record_works_spec vh records :
  Forall (λ r, dr_QueueDeleted r = false) records →
  wf_work (record_works vh records) ∧
  ∀ n, of_queue n (record_works vh records) =
    if vh_Queues vh !! n then filter (λ r, dr_QueueName r = n) records else [].
Proof.
  intros Hlive. unfold record_works.
  assert (Hgen : ∀ l work, Forall (λ r, dr_QueueDeleted r = false) l → wf_work work →
    let work' := foldl (λ work record, match vh_Queues vh !! dr_QueueName record with
                        | None => work
                        | Some _ => add_work (dr_QueueName record) [record] true work end) work l in
    wf_work work' ∧ ∀ n, of_queue n work' =
      of_queue n work ++ if vh_Queues vh !! n then filter (λ r, dr_QueueName r = n) l else []).
  { clear. induction l as [|r l IH]; intros work Hl Hwf; cbn [foldl].
    { split; [done|]. intros n. by case_match; rewrite app_nil_r. }
    apply Forall_cons in Hl as [Hr Hl]. destruct (vh_Queues vh !! dr_QueueName r) as [q|] eqn:Hq.
    - destruct (add_work_wf (dr_QueueName r) [r] work Hwf) as [Hwf' Ho]; [by repeat constructor|].
      destruct (IH _ Hl Hwf') as [Hwf2 Ho2]. split; [done|]. intros n. rewrite Ho2, Ho, filter_cons, <-app_assoc.
      case_decide as Hn; [|done]. subst n. by rewrite Hq.
    - destruct (IH _ Hl Hwf) as [Hwf2 Ho2]. split; [done|]. intros n. rewrite Ho2, filter_cons.
      case_decide as Hn; [|done]. subst n. by rewrite Hq. }
  exact (Hgen records [] Hlive ltac:(by split; constructor)).
Qed.

Lemma merged_spec work : ∀ acc, wf_work acc → wf_work work →
  let merged := foldl (λ ws w, add_work (w_queue w) (w_records w) (w_redelivered w) ws) acc work in
  wf_work merged ∧ ∀ n, of_queue n merged = of_queue n acc ++ of_queue n work.
Proof.
  induction work as [|w work IH]; intros acc Hacc [Hnd Hf]; cbn.
  { split; [done|]. intros n. by rewrite app_nil_r. }
  cbn in Hnd. apply NoDup_cons in Hnd as [_ Hnd]. apply Forall_cons in Hf as [[Hm Hr] Hf]. rewrite Hm.
  destruct (add_work_wf (w_queue w) (w_records w) acc Hacc Hr) as [Hwf' Ho].
  destruct (IH _ Hwf' (conj Hnd Hf)) as [Hwf2 Ho2]. split; [done|]. intros n.
  by rewrite Ho2, Ho, of_queue_cons, <-app_assoc.
Qed.

(** Each queue's records in the order they were delivered. *)
Lemma inDeliveryOrder_spec work :
  wf_work work → wf_work (inDeliveryOrder work) ∧
  ∀ n, of_queue n (inDeliveryOrder work) = merge_sort by_tag (of_queue n work).
Proof.
  intros Hwf. unfold inDeliveryOrder.
  destruct (merged_spec work [] ltac:(by split; constructor) Hwf) as [Hm Ho]. cbn [app] in Ho.
  set (merged := foldl _ _ _) in *. clearbody merged.
  assert (Hgen : ∀ ws, wf_work ws → let sorted := (λ w, MkWork (w_queue w)
      (merge_sort by_tag (w_records w)) (w_redelivered w)) <$> ws in
      wf_work sorted ∧ ∀ n, of_queue n sorted = merge_sort by_tag (of_queue n ws)).
  { clear. intros ws [Hnd Hf] sorted. unfold sorted. split.
    - split; [by rewrite <-list_fmap_compose|]. apply Forall_fmap. eapply Forall_impl; [exact Hf|].
      intros w [Hm Hr]. split; [done|]. cbn. by rewrite merge_sort_Permutation.
    - induction ws as [|w ws IH]; intros n; [done|].
      cbn in Hnd. apply NoDup_cons in Hnd as [Hw Hnd]. apply Forall_cons in Hf as [_ Hf].
      rewrite fmap_cons, !of_queue_cons, (IH Hnd Hf). cbn [w_queue w_records]. case_decide as Hn; [|done].
      subst n. rewrite (of_queue_absent _ ws) by done. cbn. by rewrite !app_nil_r. }
  destruct (Hgen merged Hm) as [Hw Hs]. split; [done|]. intros n. by rewrite Hs, Ho.
Qed.

Lemma for_each_ext {E S A} (f g : A → S → res E S) l s :
  (∀ x s, x ∈ l → f x s = g x s) → for_each f l s = for_each g l s.
Proof.
  revert s. induction l as [|x l IH]; intros s Hfg; [done|]. cbn. rewrite Hfg by by left.
  destruct (g x s); cbn; [|done]. apply IH. intros y s' Hy. apply Hfg. by right.
Qed.

Section requeue_works.
Context `{Runtime}.
Variables (now : Z) (fuel : nat).

Lemma requeue_works work vh :
  wf_work work → requeue now fuel work vh = for_each (requeue_record now fuel) (work ≫= w_records) vh.
Proof.
  intros [_ Hf]. unfold requeue. revert vh.
  induction work as [|w work IH]; intros vh; [done|]. apply Forall_cons in Hf as [[Hm Hr] Hf].
  change ((w :: work) ≫= w_records) with (w_records w ++ (work ≫= w_records)).
  rewrite for_each_app. cbn [for_each]. rewrite Hm.
  rewrite (for_each_ext _ (requeue_record now fuel) (w_records w)).
  - destruct (for_each _ (w_records w) vh); cbn; [by apply IH|done].
  - intros r s Hin. destruct (proj1 (Forall_forall _ _) Hr r Hin) as [<- _]. done.
Qed.
End requeue_works.

Lemma returned_work n work : wf_work work → returned n (work ≫= w_records) = dr_Message <$> of_queue n work.
Proof.
  intros [_ Hf]. induction work as [|w work IH]; [done|]. apply Forall_cons in Hf as [[_ Hr] Hf].
  change ((w :: work) ≫= w_records) with (w_records w ++ (work ≫= w_records)).
  rewrite returned_app, of_queue_cons, fmap_app, (IH Hf). f_equal. unfold returned. clear -Hr.
  case_decide as Hn; (induction (w_records w) as [|r l IH]; [done|]);
    apply Forall_cons in Hr as [[Hq Hd] Hr]; rewrite filter_cons, Hq.
  - rewrite decide_True by done. cbn. f_equal. by apply IH.
  - rewrite decide_False by tauto. by apply IH.
Qed.

Lemma work_live work : wf_work work → Forall (λ r, dr_QueueDeleted r = false) (work ≫= w_records).
Proof.
  intros [_ Hf]. apply Forall_forall. intros r (w & Hr & Hw)%list_elem_of_bind.
  destruct (proj1 (Forall_forall _ _) Hf w Hw) as [_ Hl]. by destruct (proj1 (Forall_forall _ _) Hl r Hr).
Qed.

(** ** What cancelling consumers keeps *)

(** The same delivery, perhaps of a consumer now cancelled or a queue now gone. *)
Definition same_delivery (vh vh' : VHost) (r r' : DeliveryRecord) : Prop :=
  dr_DeliveryTag r' = dr_DeliveryTag r ∧ dr_QueueName r' = dr_QueueName r ∧
  dr_Message r' = dr_Message r ∧
  (dr_QueueDeleted r' = dr_QueueDeleted r ∨
   is_Some (vh_Queues vh !! dr_QueueName r) ∧ vh_Queues vh' !! dr_QueueName r = None).

(** The queues left are the same but for their count of consumers, only
    auto-delete queues are gone, the channels have the same deliveries. *)
Record kept (vh vh' : VHost) : Prop := {
  k_queue n q' : vh_Queues vh' !! n = Some q' →
    ∃ q k, vh_Queues vh !! n = Some q ∧ q' = set_consumers k q;
  k_stays n q : vh_Queues vh !! n = Some q → qp_AutoDelete (q_Props q) = false →
    is_Some (vh_Queues vh' !! n);
  k_channel key : option_Forall2 (λ ch ch', ∀ t,
    option_Forall2 (same_delivery vh vh') (UnackedByTag ch !! t) (UnackedByTag ch' !! t))
    (vh_ChannelDeliveries vh !! key) (vh_ChannelDeliveries vh' !! key);
  k_marks : vh_redeliveredMessages vh' = vh_redeliveredMessages vh;
}.

Lemma set_consumers_same q : q = set_consumers (q_consumers q) q.
Proof. by destruct q. Qed.

Lemma same_delivery_refl vh vh' r : same_delivery vh vh' r r.
Proof. repeat split. by left. Qed.

Lemma option_Forall2_refl {A} (R : A → A → Prop) (x : option A) : (∀ a, R a a) → option_Forall2 R x x.
Proof. intros HR. destruct x; by constructor. Qed.

Lemma option_Forall2_compose {A} (R1 R2 R3 : A → A → Prop) (x y z : option A) :
  (∀ a b c, R1 a b → R2 b c → R3 a c) →
  option_Forall2 R1 x y → option_Forall2 R2 y z → option_Forall2 R3 x z.
Proof. intros HR H1 H2. destruct H1; inversion H2; subst; constructor; eauto. Qed.

Lemma kept_refl vh : kept vh vh.
Proof.
  split; [| |intros key; apply option_Forall2_refl; intros ch t; apply option_Forall2_refl, same_delivery_refl|done].
  - intros n q Hq. exists q, (q_consumers q). split; [done|]. apply set_consumers_same.
  - intros n q Hq _. by exists q.
Qed.

Lemma kept_trans vh1 vh2 vh3 : kept vh1 vh2 → kept vh2 vh3 → kept vh1 vh3.
Proof.
  intros H1 H2. split; [| |intros key|by rewrite (k_marks _ _ H2), (k_marks _ _ H1)].
  - intros n q3 Hq3. destruct (k_queue _ _ H2 _ _ Hq3) as (q2 & k2 & Hq2 & ->).
    destruct (k_queue _ _ H1 _ _ Hq2) as (q1 & k1 & Hq1 & ->). by exists q1, k2.
  - intros n q Hq Ha. destruct (k_stays _ _ H1 _ _ Hq Ha) as [q2 Hq2].
    apply (k_stays _ _ H2 n q2 Hq2). destruct (k_queue _ _ H1 _ _ Hq2) as (q1 & k1 & Hq1 & ->).
    simplify_eq. done.
  - refine (option_Forall2_compose _ _ _ _ _ _ _ (k_channel _ _ H1 key) (k_channel _ _ H2 key)).
    intros ch1 ch2 ch3 H12 H23 t.
    refine (option_Forall2_compose _ _ _ _ _ _ _ (H12 t) (H23 t)).
    intros r1 r2 r3 (E1 & E2 & E3 & E4) (F1 & F2 & F3 & F4).
    split; [congruence|]. split; [congruence|]. split; [congruence|]. rewrite E2 in F4.
    assert (Hgone : ∀ n, vh_Queues vh2 !! n = None → vh_Queues vh3 !! n = None).
    { intros n Hn. destruct (vh_Queues vh3 !! n) as [q3|] eqn:Hq3; [|done].
      destruct (k_queue _ _ H2 _ _ Hq3) as (q2 & k2 & Hq2 & _). congruence. }
    destruct E4 as [E4|[E4 E5]]; [|right; by auto].
    destruct F4 as [F4|[[q2 F4] F5]]; [left; congruence|]. right. split; [|done].
    destruct (k_queue _ _ H1 _ _ F4) as (q1 & k1 & Hq1 & _). by exists q1.
Qed.

(** Steps of a cancellation: other indexes, flags on deliveries, the count of
    consumers, the deletion of a queue. *)
Lemma kept_index ix vh : kept vh (set_index ix vh).
Proof. by destruct (kept_refl vh). Qed.

Lemma kept_channels vh vh0 vh1 : ∀ key, option_Forall2 (λ ch ch', ∀ t,
    option_Forall2 (same_delivery vh0 vh1) (UnackedByTag ch !! t) (UnackedByTag ch' !! t))
    (vh_ChannelDeliveries vh !! key) (vh_ChannelDeliveries vh !! key).
Proof.
  intros key. apply option_Forall2_refl. intros ch t. apply option_Forall2_refl, same_delivery_refl.
Qed.

Lemma kept_detach_consumer tag key vh :
  kept vh (set_ChannelDeliveries (alter (detachConsumerDeliveries tag) key (vh_ChannelDeliveries vh)) vh).
Proof.
  split; [apply (k_queue _ _ (kept_refl vh))|apply (k_stays _ _ (kept_refl vh))|intros k|done]. cbn. destruct (decide (key = k)) as [->|Hk].
  - rewrite lookup_alter_eq. destruct (vh_ChannelDeliveries vh !! k) as [ch|]; constructor. intros t.
    rewrite detachConsumerDeliveries_lookup. destruct (UnackedByTag ch !! t); constructor.
    case_decide; [repeat split; by left|apply same_delivery_refl].
  - rewrite lookup_alter_ne by done. apply kept_channels.
Qed.

Lemma kept_store_consumers name vh : kept vh (store_consumers name vh).
Proof.
  split; [| |apply (kept_channels vh)|done]; unfold store_consumers; cbn.
  - intros n q'. destruct (decide (name = n)) as [->|Hn].
    + rewrite lookup_alter_eq. intros (q & Hq & ->)%fmap_Some. eauto.
    + rewrite lookup_alter_ne by done. intros Hq. exists q', (q_consumers q'). split; [done|].
      apply set_consumers_same.
  - intros n q Hq _. destruct (decide (name = n)) as [->|Hn].
    + rewrite lookup_alter_eq, Hq. by eexists.
    + rewrite lookup_alter_ne by done. by exists q.
Qed.

Section cancelling.
Context `{Runtime}.

Lemma kept_delete_queue C name vh :
  wf_names_but C vh → (∀ q, vh_Queues vh !! name = Some q → qp_AutoDelete (q_Props q) = true) →
  kept vh (deleteQueuebyNameUnlocked name vh).1.
Proof.
  intros Hwf Hauto. destruct (vh_Queues vh !! name) as [q|] eqn:Hq;
    [|unfold deleteQueuebyNameUnlocked; rewrite Hq; apply kept_refl].
  destruct (wn_queue _ _ Hwf _ _ Hq) as [Hname _].
  destruct (deleteQueue_spec name q vh Hq Hname (wn_exchange _ _ Hwf)) as (Eq & _ & Ec & _ & _ & Er & _).
  split; [| |intros key|done]; rewrite ?Eq, ?Ec.
  - intros n q' [_ Hq']%lookup_delete_Some. exists q', (q_consumers q'). split; [done|].
    apply set_consumers_same.
  - intros n q' Hq' Ha. exists q'. apply lookup_delete_Some. split; [|done]. intros <-.
    rewrite Hq in Hq'. specialize (Hauto _ Hq'). congruence.
  - rewrite lookup_fmap. destruct (vh_ChannelDeliveries vh !! key) as [ch|] eqn:Hch; constructor. intros t.
    destruct (detachQueueDeliveries_spec range_records range_records_visits name ch) as [_ ->];
      [by apply (wn_channel _ _ Hwf key)|].
    rewrite lookup_fmap. destruct (UnackedByTag ch !! t) as [r|]; constructor.
    case_decide as Hn; [|apply same_delivery_refl]. split; [done|]. split; [done|]. split; [done|].
    right. rewrite Eq, Hn. split; [by exists q|apply lookup_delete_eq].
Qed.

Lemma kept_check_auto_delete C name vh :
  wf_names_but C vh → kept vh (checkAutoDeleteQueueUnlocked name vh).1.
Proof.
  intros Hwf. unfold checkAutoDeleteQueueUnlocked.
  destruct (vh_Queues vh !! name) as [q|] eqn:Hq; [|apply kept_refl].
  destruct (qp_AutoDelete (q_Props q)) eqn:Ha; [|apply kept_refl]. cbn [negb].
  case_decide; [apply kept_refl|].
  pose proof (kept_delete_queue C name vh Hwf ltac:(congruence)) as Hk.
  by destruct (deleteQueuebyNameUnlocked name vh) as [vh' [|]].
Qed.

Lemma cancelConsumerLocked_spec key addr c vh :
  wf_names vh → registered (vh_index vh) addr c → consumer_key c = key →
  let vh' := cancelConsumerLocked key addr c vh in
  wf_names vh' ∧ kept vh vh' ∧
  ∀ k, by_channel (vh_index vh') k =
    if decide (channel_key c = k) then remove_consumer addr (by_channel (vh_index vh) k)
    else by_channel (vh_index vh) k.
Proof.
  intros Hwf Hreg Hkey vh'. split; [by apply cancelConsumerLocked_wf|]. unfold vh'.
  destruct (cancelConsumerLocked_inner key addr c vh Hwf Hreg Hkey) as (Hwf2 & _ & ->).
  set (ix := remove_from_queue _ _ _) in *. set (vh2 := store_consumers _ _) in *.
  set (vh3 := if decide _ then _ else vh2).
  assert (H3 : kept vh2 vh3 ∧ ix_ByChannel (vh_index vh3) = ix_ByChannel (vh_index vh)).
  { assert (Hix : ix_ByChannel ix = ix_ByChannel (vh_index vh))
      by (unfold ix, remove_from_queue; by case_decide).
    unfold vh3. case_decide as Hempty; [|split; [apply kept_refl|done]].
    split; [by eapply kept_check_auto_delete|].
    by destruct (checkAutoDeleteQueue_index _ _ _ Hwf2 Hempty) as (_ & -> & _). }
  destruct H3 as [Hk3 Hbc3]. split.
  - eapply kept_trans; [|apply kept_index]. eapply kept_trans; [|exact Hk3].
    eapply kept_trans; [|apply kept_store_consumers]. eapply kept_trans; [|apply kept_index].
    apply kept_detach_consumer.
  - intros k. assert (Hbc : ∀ k, by_channel (vh_index vh3) k = by_channel (vh_index vh) k)
      by (intros ?; unfold by_channel; by rewrite Hbc3).
    cbn [vh_index set_index]. rewrite remove_from_channel_by_channel, !Hbc. case_decide as Hck; [by rewrite Hck|done].
Qed.

Definition cancel_step (key : ConnectionChannelKey) (st : list nat * VHost) (addr : nat) : list nat * VHost :=
  let '(cancelled, vh) := st in
  match ix_heap (vh_index vh) !! addr with
  | None => st
  | Some c =>
      if decide (c_ConnectionID c ≠ key.1 ∨ ix_Consumers (vh_index vh) !! consumer_key c ≠ Some addr)
      then st
      else (cancelled ++ [addr], cancelConsumerLocked (consumer_key c) addr c vh)
  end.

Lemma cancel_fold key l : ∀ acc vh,
  wf_names vh → by_channel (vh_index vh) key = l →
  let '(cancelled, vh') := foldl (cancel_step key) (acc, vh) l in
  wf_names vh' ∧ kept vh vh' ∧ by_channel (vh_index vh') key = [] ∧ cancelled = acc ++ l ∧
  ∀ k, k ≠ key → by_channel (vh_index vh') k = by_channel (vh_index vh) k.
Proof.
  induction l as [|addr l IH]; intros acc vh Hwf Hl; cbn [foldl].
  { rewrite app_nil_r. split_and!; try done. apply kept_refl. }
  assert (Hin : addr ∈ by_channel (vh_index vh) key) by (rewrite Hl; by left).
  apply (wi_channel _ _ _ (wn_index _ _ Hwf)) in Hin as (c & Hheap & Hkey & [Hreg|?]); [|set_solver].
  assert (Hstay : ¬ (c_ConnectionID c ≠ key.1 ∨ ix_Consumers (vh_index vh) !! consumer_key c ≠ Some addr)).
  { intros [Hc|Hc]; apply Hc; [by rewrite <-Hkey|apply Hreg]. }
  cbn [cancel_step]. rewrite Hheap, decide_False by exact Hstay.
  destruct (cancelConsumerLocked_spec (consumer_key c) addr c vh Hwf Hreg eq_refl) as (Hwf1 & Hk1 & Hbc).
  set (vh1 := cancelConsumerLocked _ _ _ _) in *.
  assert (Hl1 : by_channel (vh_index vh1) key = l).
  { rewrite Hbc, decide_True, Hl by done. cbn. by rewrite decide_True. }
  specialize (IH (acc ++ [addr]) vh1 Hwf1 Hl1).
  destruct (foldl (cancel_step key) (acc ++ [addr], vh1) l) as [cancelled vh2].
  destruct IH as (Hwf2 & Hk2 & Hnone & -> & Hother). split_and!; try done.
  - by eapply kept_trans.
  - by rewrite <-app_assoc.
  - intros k Hk. rewrite Hother, Hbc by done. by rewrite decide_False by congruence.
Qed.

Lemma wf_partial_ext Q C ix ix' :
  ix_heap ix' = ix_heap ix → ix_next ix' = ix_next ix → ix_Consumers ix' = ix_Consumers ix →
  (∀ q, by_queue ix' q = by_queue ix q) → (∀ k, by_channel ix' k = by_channel ix k) →
  wf_partial Q C ix → wf_partial Q C ix'.
Proof.
  intros E1 E2 E3 E4 E5 Hwf. split; unfold registered; rewrite ?E1, ?E2, ?E3; try apply Hwf;
    intros *; rewrite ?E4, ?E5; apply Hwf.
Qed.

(** A channel's consumers are gone, its queues and deliveries as they were. *)
Lemma cancelChannelConsumers_spec key vh :
  wf_names vh →
  let '(cancelled, vh') := cancelChannelConsumersLocked key vh in
  wf_names vh' ∧ kept vh vh' ∧ cancelled = by_channel (vh_index vh) key ∧
  ∀ addr c, registered (vh_index vh') addr c → channel_key c ≠ key.
Proof.
  intros Hwf. unfold cancelChannelConsumersLocked. fold (cancel_step key).
  pose proof (cancel_fold key _ [] vh Hwf eq_refl) as Hf.
  destruct (foldl (cancel_step key) ([], vh) _) as [cancelled vh1]. destruct Hf as (Hwf1 & Hk1 & Hnone & -> & _).
  set (ix := MkIndex _ _ _ _ _). assert (Hbc : ∀ k, by_channel ix k = by_channel (vh_index vh1) k).
  { intros k. unfold by_channel, ix. cbn. destruct (decide (key = k)) as [<-|Hk].
    - rewrite lookup_delete_eq. symmetry. exact Hnone.
    - by rewrite lookup_delete_ne. }
  assert (Hix : wf_partial ∅ ∅ ix) by by (eapply wf_partial_ext; [..|apply (wn_index _ _ Hwf1)]).
  split; [by eapply wf_names_index|]. split; [eapply kept_trans; [done|apply kept_index]|]. split; [done|].
  intros addr c Hreg Hc. assert (Hin : addr ∈ by_channel ix key).
  { apply (wi_channel _ _ _ Hix). exists c. split; [apply Hreg|]. split; [done|]. by left. }
  rewrite Hbc, Hnone in Hin. by apply elem_of_nil in Hin.
Qed.
End cancelling.

(** ** What a closed channel gives back *)

(** What the channel owes queue [n]: the messages outstanding, by their tag. *)
Definition owed (n : string) (ch : ChannelDeliveryState) : list (Z * Message) :=
  map_to_list (omap (λ r, if decide (dr_QueueName r = n ∧ dr_QueueDeleted r = false)
                          then Some (dr_Message r) else None) (UnackedByTag ch)).

Lemma owed_same vh vh' n ch ch' :
  (∀ t, option_Forall2 (same_delivery vh vh') (UnackedByTag ch !! t) (UnackedByTag ch' !! t)) →
  is_Some (vh_Queues vh' !! n) → owed n ch' = owed n ch.
Proof.
  intros Hsame Hn. unfold owed. f_equal. apply map_eq. intros t. rewrite !lookup_omap.
  destruct (Hsame t) as [r r' (_ & Eq & Em & Ed)|]; [|done]. cbn.
  destruct (decide (dr_QueueName r = n)) as [Hr|Hr].
  - destruct Ed as [Ed|[_ Ed]]; [|rewrite Hr in Ed; rewrite Ed in Hn; by destruct Hn].
    rewrite Em, Eq, Ed. by repeat case_decide.
  - by rewrite !decide_False by (rewrite ?Eq; tauto).
Qed.

Lemma map_to_list_omap {A B} (f : A → option B) (m : gmap Z A) :
  map_to_list (omap f m) ≡ₚ omap (λ kx, (kx.1,.) <$> f kx.2) (map_to_list m).
Proof.
  induction m as [|k x m Hk IH] using map_ind; [by rewrite omap_empty, !map_to_list_empty|].
  rewrite (map_to_list_insert m) by done. cbn.
  destruct (f x) as [y|] eqn:Hf; cbn.
  - rewrite (omap_insert_Some f m k x y) by done. rewrite map_to_list_insert, IH; [done|].
    by rewrite lookup_omap, Hk.
  - rewrite (omap_insert_None f m k x), delete_id by (try done; by rewrite lookup_omap, Hk). done.
Qed.

Definition tagged (r : DeliveryRecord) : Z * Message := (dr_DeliveryTag r, dr_Message r).

Lemma owed_records `{Runtime} n ch :
  wf_channel ch →
  owed n ch ≡ₚ tagged <$> filter (λ r, dr_QueueName r = n) (fetchUnackedMessages range_records ch).
Proof.
  intros Hwf. unfold owed, fetchUnackedMessages. rewrite map_to_list_omap, range_records_visits.
  assert (Htags : Forall (λ kr, kr.1 = dr_DeliveryTag kr.2) (map_to_list (UnackedByTag ch))).
  { apply Forall_forall. intros [t r] Hr%elem_of_map_to_list. cbn. by apply (proj1 (proj2 Hwf)) in Hr as [-> _]. }
  induction (map_to_list (UnackedByTag ch)) as [|[t r] l IH]; [done|].
  apply Forall_cons in Htags as [Ht Htags]. cbn in Ht. specialize (IH Htags).
  cbn [omap list_omap fmap list_fmap fst snd option_fmap option_map] in *.
  rewrite filter_cons. destruct (decide (dr_QueueDeleted r = false)) as [Hd|Hd].
  - rewrite filter_cons. destruct (decide (dr_QueueName r = n)) as [Hn|Hn].
    + rewrite decide_True by done. cbn. rewrite Ht. by constructor.
    + by rewrite decide_False by tauto.
  - by rewrite decide_False by tauto.
Qed.

Lemma owed_returned `{Runtime} n ch : wf_channel ch → (owed n ch).*2 ≡ₚ returned n (records_of ch).
Proof.
  intros Hwf. rewrite owed_records by done. unfold fetchUnackedMessages, returned, records_of.
  rewrite range_records_visits, <-list_fmap_compose, list_filter_filter. done.
Qed.

Section closing.
Context `{Runtime}.

(** The work taken from a channel, in delivery order. *)
Lemma takeChannelDeliveries_spec key vh ch :
  vh_ChannelDeliveries vh !! key = Some ch →
  ∃ work, takeChannelDeliveriesLocked key vh =
      (work, set_ChannelDeliveries (delete key (vh_ChannelDeliveries vh)) vh) ∧
    wf_work (inDeliveryOrder work) ∧
    ∀ n, of_queue n (inDeliveryOrder work) =
      if vh_Queues vh !! n
      then merge_sort by_tag (filter (λ r, dr_QueueName r = n) (fetchUnackedMessages range_records ch))
      else [].
Proof.
  intros Hch. unfold takeChannelDeliveriesLocked. rewrite Hch. eexists. split; [done|].
  set (vh' := set_ChannelDeliveries _ vh). fold (record_works vh' (fetchUnackedMessages range_records ch)).
  destruct (record_works_spec vh' (fetchUnackedMessages range_records ch)) as [Hw Ho].
  { apply Forall_forall. intros r [Hr _]%list_elem_of_filter. done. }
  destruct (inDeliveryOrder_spec _ Hw) as [Hw' Hs]. split; [done|]. intros n. rewrite Hs, Ho.
  change (vh_Queues vh') with (vh_Queues vh). by destruct (vh_Queues vh !! n).
Qed.

Lemma hosts_kept vh vh' n q :
  kept vh vh' → hosts vh n q → is_Some (vh_Queues vh' !! n) →
  ∃ k, hosts vh' n (set_consumers k q).
Proof.
  intros Hk (Hq & Hrest) [q' Hq']. destruct (k_queue _ _ Hk _ _ Hq') as (q0 & k & Hq0 & ->).
  simplify_eq. exists k. by split.
Qed.

Lemma ready_kept vh vh' n : kept vh vh' → is_Some (vh_Queues vh' !! n) → ready vh' n = ready vh n.
Proof.
  intros Hk [q' Hq']. destruct (k_queue _ _ Hk _ _ Hq') as (q0 & k & Hq0 & ->).
  unfold ready. by rewrite Hq', Hq0.
Qed.

(** The messages of a batch, as those of the channel's list for the queue. *)
Definition sorted_by_tag : list (Z * Message) → Prop := StronglySorted (λ a b, a.1 <= b.1).

Lemma tagged_sorted l : StronglySorted by_tag l → sorted_by_tag (tagged <$> l).
Proof.
  induction 1 as [|r l _ IH Hr]; [constructor|]. cbn. constructor; [exact IH|]. by apply Forall_fmap.
Qed.

(** The records of the work, for the queues [vh1] has left. *)
Lemma work_owed vh vh1 ch ch1 ws :
  kept vh vh1 → wf_channel ch1 →
  (∀ t, option_Forall2 (same_delivery vh vh1) (UnackedByTag ch !! t) (UnackedByTag ch1 !! t)) →
  wf_work ws → (∀ n, of_queue n ws = if vh_Queues vh1 !! n
    then merge_sort by_tag (filter (λ r, dr_QueueName r = n) (fetchUnackedMessages range_records ch1))
    else []) →
  ∀ n, is_Some (vh_Queues vh1 !! n) →
    (tagged <$> of_queue n ws) ≡ₚ owed n ch ∧ sorted_by_tag (tagged <$> of_queue n ws).
Proof.
  intros Hk Hwf1 Hsame Hws Hof n Hn. rewrite Hof. destruct Hn as [q Hq]. rewrite Hq. split.
  - rewrite merge_sort_Permutation, <-owed_records by done. by rewrite (owed_same vh vh1 n ch ch1).
  - apply tagged_sorted. apply (StronglySorted_merge_sort _).
Qed.

Lemma takes_back_work vh vh1 ch ws :
  wf_channel ch → kept vh vh1 → wf_work ws → takes_back (live (records_of ch)) vh →
  (∀ n, is_Some (vh_Queues vh1 !! n) → (tagged <$> of_queue n ws) ≡ₚ owed n ch) →
  (∀ n, vh_Queues vh1 !! n = None → of_queue n ws = []) →
  takes_back (ws ≫= w_records) vh1.
Proof.
  intros Hch Hk Hws [Hprio Hhost] Howed Hnone.
  assert (Hret : ∀ n, is_Some (vh_Queues vh1 !! n) → returned n (ws ≫= w_records) ≡ₚ returned n (live (records_of ch))).
  { intros n Hn. rewrite returned_work, returned_live, <-owed_returned by done.
    rewrite <-(Howed n Hn), <-list_fmap_compose. done. }
  assert (Hex : ∀ n, returned n (ws ≫= w_records) ≠ [] → is_Some (vh_Queues vh1 !! n)).
  { intros n. rewrite returned_work by done. destruct (vh_Queues vh1 !! n) eqn:Hq; [by eauto|].
    intros E. destruct E. by rewrite Hnone. }
  split.
  - apply Forall_forall. intros r Hr.
    pose proof (proj1 (Forall_forall _ _) (work_live _ Hws) r Hr) as Hlive.
    assert (Hm : dr_Message r ∈ returned (dr_QueueName r) (ws ≫= w_records)).
    { unfold returned. apply list_elem_of_fmap. exists r. split; [done|]. by apply list_elem_of_filter. }
    rewrite Hret in Hm by (apply Hex; intros E; rewrite E in Hm; by apply elem_of_nil in Hm).
    apply list_elem_of_fmap in Hm as (r0 & -> & [_ Hr0]%list_elem_of_filter).
    exact (proj1 (Forall_forall _ _) Hprio r0 Hr0).
  - intros n Hn. pose proof (Hex n Hn) as Hq. pose proof (Hret n Hq) as Hp.
    destruct (Hhost n) as (q & Hh & Hcap).
    { intros E. rewrite E in Hp. by apply Hn, Permutation_nil_r. }
    destruct (hosts_kept _ _ _ _ Hk Hh Hq) as [k Hh1]. exists (set_consumers k q). split; [done|].
    by rewrite Hp.
Qed.

Lemma release_spec now fuel key vh ch :
  (0 < fuel)%nat → wf_names vh → vh_ChannelDeliveries vh !! key = Some ch →
  takes_back (live (records_of ch)) vh →
  ∃ vh', ReleaseChannelDeliveries now fuel key vh = Ok vh' ∧
    vh_ChannelDeliveries vh' !! key = None ∧
    (∀ addr c, registered (vh_index vh') addr c → channel_key c ≠ key) ∧
    (∀ n, is_Some (vh_Queues vh' !! n) → ∃ back, back ≡ₚ owed n ch ∧ sorted_by_tag back ∧
      ready vh' n ≡ₚ ready vh n ++ back.*2 ∧
      (∀ q, vh_Queues vh !! n = Some q → q_maxPriority q = 0 ∨ back = [] →
         ready vh' n = ready vh n ++ back.*2) ∧
      ∀ msg, msg ∈ back.*2 → ShouldRedeliver (m_ID msg) vh' = true).
Proof.
  intros Hfuel Hwf Hch Htake. unfold ReleaseChannelDeliveries.
  pose proof (cancelChannelConsumers_spec key vh Hwf) as Hc.
  destruct (cancelChannelConsumersLocked key vh) as [cancelled vh1]. destruct Hc as (Hwf1 & Hk & _ & Hgone).
  assert (Hch1 : ∃ ch1, vh_ChannelDeliveries vh1 !! key = Some ch1 ∧ ∀ t,
    option_Forall2 (same_delivery vh vh1) (UnackedByTag ch !! t) (UnackedByTag ch1 !! t)).
  { pose proof (k_channel _ _ Hk key) as Hs. rewrite Hch in Hs. inversion Hs; subst. eauto. }
  destruct Hch1 as (ch1 & Hch1 & Hsame).
  destruct (takeChannelDeliveries_spec key vh1 ch1 Hch1) as (work & -> & Hws & Hof).
  set (ws := inDeliveryOrder work) in *. set (vh2 := set_ChannelDeliveries _ vh1).
  pose proof (work_owed vh vh1 ch ch1 ws Hk (wn_channel _ _ Hwf1 _ _ Hch1) Hsame Hws Hof) as Howed.
  rewrite requeue_works by done.
  destruct (requeue_all now fuel (ws ≫= w_records) vh2) as (vh' & -> & Hsq & Hmarks & Hready & Hfifo & Hdom).
  { done. } { by apply work_live. }
  { change (takes_back (ws ≫= w_records) vh1).
    apply (takes_back_work vh vh1 ch); [by apply (wn_channel _ _ Hwf key)|done|done|done| |].
    - intros n Hn. by apply Howed.
    - intros n Hn. by rewrite Hof, Hn. }
  exists vh'. split; [done|]. destruct Hsq as (_ & Hix & Hcd & _). split; [rewrite Hcd; apply lookup_delete_eq|].
  split; [intros addr c; rewrite Hix; apply Hgone|].
  intros n Hn. apply Hdom in Hn. change (vh_Queues vh2) with (vh_Queues vh1) in Hn.
  exists (tagged <$> of_queue n ws). destruct (Howed n Hn) as [Hp Hs]. split; [done|]. split; [done|].
  rewrite <-list_fmap_compose. change (snd ∘ tagged) with dr_Message. rewrite <-returned_work by done.
  rewrite <-(ready_kept vh vh1) by done. split; [apply Hready|]. split.
  - intros q Hq Hor. destruct Hn as [q1 Hq1]. destruct (k_queue _ _ Hk _ _ Hq1) as (q0 & k & Hq0 & ->).
    simplify_eq. apply (Hfifo n _ Hq1). destruct Hor as [Hor|Hnil]; [by left|right].
    rewrite returned_work by done. by apply fmap_nil_inv in Hnil as ->.
  - intros msg Hmsg. unfold ShouldRedeliver. apply bool_decide_eq_true. rewrite Hmarks.
    rewrite returned_work in Hmsg by done. apply list_elem_of_fmap in Hmsg as (r & -> & Hr).
    apply elem_of_union_l, elem_of_list_to_set, list_elem_of_fmap. exists r. split; [done|].
    by eapply of_queue_elem.
Qed.
End closing.

Section cleanup_theorem.
Context `{Runtime}.

End cleanup_theorem.

Section cleanup_sample.
#[local] Existing Instance sample_runtime.

End cleanup_sample.
