(* ===== verification/Broker.v ===== *)
(** * The broker's state: broker.go, conn_state.go, connection.go, channel.go

    What the broker keeps of its virtual hosts and connections, and the helpers
    every handler uses: writing frames, closing channels and connections,
    opening and closing channels.  A handler is a function on this state; the
    request it serves is one step. *)

From stdpp Require Import base list gmap strings pretty.
From Stdlib Require Import ZArith Lia.
From S2P Require Import Prelude Bytes Values FieldTable Properties Methods Frames Handshake Args Queue.
From S2P Require Import Deliveries Consumers Json VHost Lifecycle Routing Expiry Publish Settle Cleanup.

Local Open Scope Z_scope.
Local Open Scope string_scope.
Local Open Scope list_scope.

(** ** State *)

(** A request with its identity: Go compares the pointers. *)
Definition request : Type := nat * RequestMethodMessage.

Record ChannelState : Type := MkChannelState {
  cs_MethodFrame : option request;
  cs_HeaderFrame : option HeaderFrame;
  cs_Body : option (list Byte.byte);
  cs_BodySize : Z;
  cs_ClosingChannel : bool;
}.
Definition empty_channel : ChannelState := MkChannelState None None None 0 false.
Definition set_MethodFrame (m : option request) (st : ChannelState) : ChannelState :=
  MkChannelState m (cs_HeaderFrame st) (cs_Body st) (cs_BodySize st) (cs_ClosingChannel st).
Definition set_HeaderFrame (h : HeaderFrame) (st : ChannelState) : ChannelState :=
  MkChannelState (cs_MethodFrame st) (Some h) (cs_Body st) (hf_BodySize h) (cs_ClosingChannel st).
Definition set_Body (body : list Byte.byte) (st : ChannelState) : ChannelState :=
  MkChannelState (cs_MethodFrame st) (cs_HeaderFrame st) (Some body) (cs_BodySize st) (cs_ClosingChannel st).
Definition set_ClosingChannel (st : ChannelState) : ChannelState :=
  MkChannelState (cs_MethodFrame st) (cs_HeaderFrame st) (cs_Body st) (cs_BodySize st) true.

(** A registered connection ([amqp.ConnectionInfo]): what the handshake agreed
    on, its channels, and whether connection.close was exchanged. *)
Record Connection : Type := MkConnection {
  cn_Info : ConnectionInfo;
  cn_Channels : gmap Z ChannelState;
  cn_ClosingConnection : bool;
}.
Definition set_Channels (chs : gmap Z ChannelState) (c : Connection) : Connection :=
  MkConnection (cn_Info c) chs (cn_ClosingConnection c).
Definition set_ClosingConnection (c : Connection) : Connection :=
  MkConnection (cn_Info c) (cn_Channels c) true.

(** A socket is named by its connection id, the remote address, which two live
    sockets never share; [br_connections] is then both [connections] and
    [connToID].  [br_next] numbers what is allocated or drawn at random,
    [br_out] lists the frames written, in order. *)
Record Broker : Type := MkBroker {
  br_vhosts : gmap string VHost;
  br_connInfos : gmap string Connection;
  br_connections : gset string;
  br_cancelNotify : gset string;
  br_ShuttingDown : bool;
  br_next : nat;
  br_out : list sent_frames;
}.
Definition set_vhosts (v : gmap string VHost) (b : Broker) : Broker :=
  MkBroker v (br_connInfos b) (br_connections b) (br_cancelNotify b) (br_ShuttingDown b) (br_next b) (br_out b).
Definition set_connInfos (c : gmap string Connection) (b : Broker) : Broker :=
  MkBroker (br_vhosts b) c (br_connections b) (br_cancelNotify b) (br_ShuttingDown b) (br_next b) (br_out b).
Definition set_connections (c n : gset string) (b : Broker) : Broker :=
  MkBroker (br_vhosts b) (br_connInfos b) c n (br_ShuttingDown b) (br_next b) (br_out b).
Definition set_shutting_down (b : Broker) : Broker :=
  MkBroker (br_vhosts b) (br_connInfos b) (br_connections b) (br_cancelNotify b) true (br_next b) (br_out b).
Definition set_next (n : nat) (b : Broker) : Broker :=
  MkBroker (br_vhosts b) (br_connInfos b) (br_connections b) (br_cancelNotify b) (br_ShuttingDown b) n (br_out b).
Definition set_out (out : list sent_frames) (b : Broker) : Broker :=
  MkBroker (br_vhosts b) (br_connInfos b) (br_connections b) (br_cancelNotify b) (br_ShuttingDown b) (br_next b) out.

(** ** Errors and the handlers' monad *)

Definition RESOURCE_ERROR : Z := 506.
Definition NO_ROUTE : Z := 312.
Definition COMMAND_INVALID : Z := 503.
Definition CHANNEL_ERROR : Z := 504.
Definition CONNECTION_FORCED : Z := 320.

Inductive broker_err : Type :=
| VHostError (e : vh_err)
| ConnectionError (code classID methodID : Z)
| EncodeError (e : enc_err)
| WriteError
| Fails (text : string).

(** What the broker takes from outside: whether a write to a socket succeeds,
    given those that did; the texts of errors; what is drawn at random and the
    clock, by the number of the draw; and the order in which the maps of a
    connection's channels are visited. *)
Class Environment : Type := {
  write_ok : list sent_frames → string → list Byte.byte → bool;
  error_text : broker_err → string;
  reply_text : broker_err → string;
  queue_names : nat → list string;
  consumer_tags : nat → list string;
  GenerateMessageId : nat → string;
  clock : nat → Z;
  channel_order : nat → list ConnectionChannelKey → list ConnectionChannelKey;
  channel_order_visits : ∀ n l, channel_order n l ≡ₚ l;
}.

(** One such environment, for concrete examples: every write succeeds. *)
Definition sample_environment : Environment := {|
  write_ok := λ _ _ _, true;
  error_text := λ _, "error";
  reply_text := λ _, "error";
  queue_names := λ n, [String.append "amq.gen-" (pretty n)];
  consumer_tags := λ n, [String.append "ctag-" (pretty n)];
  GenerateMessageId := λ n, String.append "m-" (pretty n);
  clock := λ n, Z.of_nat n * Millisecond;
  channel_order := λ _ l, l;
  channel_order_visits := λ _ _, reflexivity _;
|}.

(** The state a handler leaves, with its result; a handler that panics or never
    returns has neither. *)
Definition brk (A : Type) : Type := Broker → res stop (Broker * res broker_err A).
#[export] Instance brk_ret : MRet brk := λ A a b, Ok (b, Ok a).
#[export] Instance brk_bind : MBind brk := λ A B f m b,
  match m b with
  | Err s => Err s
  | Ok (b, Err e) => Ok (b, Err e)
  | Ok (b, Ok a) => f a b
  end.
Definition fails {A} (e : broker_err) : brk A := λ b, Ok (b, Err e).
Definition stops {A} (s : stop) : brk A := λ _, Err s.
(** [x, err := m]: the handler looks at the error itself. *)
Definition attempt {A} (m : brk A) : brk (res broker_err A) := λ b,
  match m b with Err s => Err s | Ok (b, r) => Ok (b, Ok r) end.
Definition get {A} (f : Broker → A) : brk A := λ b, Ok (b, Ok (f b)).
Definition modify (f : Broker → Broker) : brk unit := λ b, Ok (f b, Ok tt).
(** The number of the next allocation or draw. *)
Definition fresh : brk nat := λ b, Ok (set_next (S (br_next b)) b, Ok (br_next b)).
Definition frame_of (r : res enc_err (list Byte.byte)) : brk (list Byte.byte) := λ b,
  Ok (b, map_err EncodeError r).

(** The equations that run a handler. *)
Lemma bind_eq {A B} (m : brk A) (f : A → brk B) b :
  (m ≫= f) b = match m b with
               | Err s => Err s
               | Ok (b, Err e) => Ok (b, Err e)
               | Ok (b, Ok a) => f a b
               end.
Proof. done. Qed.
Lemma bind_get {A B} (g : Broker → A) (f : A → brk B) b : (get g ≫= f) b = f (g b) b.
Proof. done. Qed.
Lemma bind_ret {A B} (a : A) (f : A → brk B) b : (mret a ≫= f) b = f a b.
Proof. done. Qed.
Lemma bind_modify {B} g (f : unit → brk B) b : (modify g ≫= f) b = f tt (g b).
Proof. done. Qed.
Lemma bind_fresh {B} (f : nat → brk B) b : (fresh ≫= f) b = f (br_next b) (set_next (S (br_next b)) b).
Proof. done. Qed.
Lemma bind_attempt {A B} (m : brk A) (f : res broker_err A → brk B) b :
  (attempt m ≫= f) b = match m b with Err s => Err s | Ok (b, r) => f r b end.
Proof. rewrite bind_eq. unfold attempt. by destruct (m b) as [[b' r]|s]. Qed.
Lemma bind_frame {B} r (f : list Byte.byte → brk B) b :
  (frame_of r ≫= f) b = match r with Ok fr => f fr b | Err e => Ok (b, Err (EncodeError e)) end.
Proof. by destruct r. Qed.
Lemma ret_eq {A} (a : A) b : mret (M := brk) a b = Ok (b, Ok a).
Proof. done. Qed.
#[export] Hint Rewrite @bind_get @bind_ret @bind_modify @bind_fresh @bind_attempt @bind_frame @ret_eq : brk.

(** One more step of the handler a hypothesis or the goal is about. *)
Ltac run_brk := autorewrite with brk.
Ltac run_brk_in H := autorewrite with brk in H.

(** ** conn_state.go: accessors *)

Definition getConnInfo (conn : string) (b : Broker) : option Connection := br_connInfos b !! conn.
Definition channelState (conn : string) (channel : Z) (b : Broker) : option ChannelState :=
  c ← br_connInfos b !! conn; cn_Channels c !! channel.
Definition updateChannelState (conn : string) (channel : Z) (update : ChannelState → ChannelState)
    (b : Broker) : Broker :=
  set_connInfos (alter (λ c, set_Channels (alter update channel (cn_Channels c)) c) conn (br_connInfos b)) b.
Definition put_channel_state (conn : string) (channel : Z) (st : ChannelState) (b : Broker) : Broker :=
  set_connInfos (alter (λ c, set_Channels (<[channel := st]> (cn_Channels c)) c) conn (br_connInfos b)) b.
Definition resetChannelState (conn : string) (channel : Z) : Broker → Broker :=
  put_channel_state conn channel empty_channel.
Definition connByID (conn : string) (b : Broker) : bool := bool_decide (conn ∈ br_connections b).

(** [GetConnectionID], as a handler uses it. *)
Definition GetConnectionID (conn : string) : brk unit := λ b,
  if connByID conn b then Ok (b, Ok tt) else Ok (b, Err (Fails "connection not found")).

Definition negotiatedFrameMax (conn : string) (b : Broker) : Z :=
  from_option (λ c, FrameMax (ci_Negotiated (cn_Info c))) 0 (getConnInfo conn b).
Definition negotiatedChannelMax (conn : string) (b : Broker) : Z :=
  from_option (λ c, ChannelMax (ci_Negotiated (cn_Info c))) 0 (getConnInfo conn b).
Definition GetVHost (name : string) (b : Broker) : option VHost := br_vhosts b !! name.
Definition setConnectionClosingState (conn : string) (b : Broker) : Broker :=
  set_connInfos (alter set_ClosingConnection conn (br_connInfos b)) b.
Definition isConnectionClosing (conn : string) : brk bool := λ b,
  match getConnInfo conn b with
  | None => Ok (b, Err (Fails "connection not found"))
  | Some c => Ok (b, Ok (cn_ClosingConnection c))
  end.

Section broker.
Context `{Runtime, Environment}.
Variable fuel : nat.

(** ** Writing *)

(** The framer's [SendFrame]: straight to the socket. *)
Definition write (conn : string) (frame : list Byte.byte) : brk unit := λ b,
  if write_ok (br_out b) conn frame
  then Ok (set_out (br_out b ++ [(conn, frame)]) b, Ok tt) else Ok (b, Err WriteError).
(** A failed write that is only logged. *)
Definition write_logged (conn : string) (frame : list Byte.byte) : brk unit :=
  _ ← attempt (write conn frame); mret tt.

(** The broker as its virtual hosts see it: [SendFrame] and [ConsumerCancelNotify]. *)
Definition broker_sender (b : Broker) : FrameSender := {|
  SendFrame := λ out conn frame, connByID conn b && write_ok out conn frame;
  ConsumerCancelNotify := λ conn, bool_decide (conn ∈ br_cancelNotify b);
|}.

(** A call on the virtual host of a handler; [processRequest] found it in the map. *)
Definition on_vhost {A} (vh : string) (f : VHost → res stop (handled A)) : brk A := λ b,
  match br_vhosts b !! vh with
  | None => Ok (b, Err (Fails "vhost not found"))
  | Some v =>
      match f v with
      | Err s => Err s
      | Ok (v, r) => Ok (set_vhosts (<[vh := v]> (br_vhosts b)) b, map_err VHostError r)
      end
  end.
(** One that writes frames through the broker. *)
Definition on_vhost_out {A} (vh : string)
    (f : FrameSender → VHost → list sent_frames → res stop (handled A * list sent_frames)) : brk A := λ b,
  match br_vhosts b !! vh with
  | None => Ok (b, Err (Fails "vhost not found"))
  | Some v =>
      match f (broker_sender b) v (br_out b) with
      | Err s => Err s
      | Ok ((v, r), out) =>
          Ok (set_out out (set_vhosts (<[vh := v]> (br_vhosts b)) b), map_err VHostError r)
      end
  end.
Definition read_vhost {A} (vh : string) (f : VHost → A) : brk A := on_vhost vh (λ v, Ok (v, Ok (f v))).
Definition change_vhost (vh : string) (f : VHost → VHost) : brk unit := on_vhost vh (λ v, Ok (f v, Ok tt)).

(** ** Closing channels and connections *)

(** The vhost of a connection that is still registered, if any. *)
Definition channelVHost (conn : string) (b : Broker) : option string :=
  c ← getConnInfo conn b;
  if connByID conn b
  then (λ _, ci_VHostName (cn_Info c)) <$> GetVHost (ci_VHostName (cn_Info c)) b else None.

Definition on_channel_vhost (conn : string) (f : Z → VHost → res stop VHost) : brk unit :=
  vh ← get (channelVHost conn);
  match vh with
  | None => mret tt
  | Some vh => n ← fresh; on_vhost vh (λ v, v ← f (clock n) v; Ok (v, Ok tt))
  end.
Definition cleanupChannel (conn : string) (channel : Z) : brk unit :=
  on_channel_vhost conn (λ now, CleanupChannel now fuel (conn, channel)).
Definition releaseChannelDeliveries (conn : string) (channel : Z) : brk unit :=
  on_channel_vhost conn (λ now, ReleaseChannelDeliveries now fuel (conn, channel)).

(** [channel.close]: the channel is marked first, then its deliveries go back. *)
Definition sendChannelClosing (conn : string) (channel replyCode classId methodId : Z) (replyText : string)
    : brk unit :=
  c ← get (getConnInfo conn);
  match c with
  | None => fails (Fails "connection not found")
  | Some c =>
      match cn_Channels c !! channel with
      | None => fails (Fails (String.append "channel " (String.append (pretty channel) " not found")))
      | Some _ =>
          modify (updateChannelState conn channel set_ClosingChannel);;
          releaseChannelDeliveries conn channel;;
          frame ← frame_of (createChannelCloseFrame channel replyCode classId methodId replyText);
          write conn frame
      end
  end.

(** The parameters are named [methodId, classId] but passed on as class, method. *)
Definition sendConnectionClosing (conn : string) (channel replyCode classId methodId : Z) (replyText : string)
    : brk unit :=
  frame ← frame_of (createConnectionCloseFrame channel replyCode classId methodId replyText);
  write conn frame.

(** An AMQP error closes the channel; anything else is returned. *)
Definition sendChannelErrorResponse (err : broker_err) (conn : string) (rq : RequestMethodMessage) : brk unit :=
  match err with
  | VHostError (ChannelError code classID methodID) | ConnectionError code classID methodID =>
      sendChannelClosing conn (rm_Channel rq) code classID methodID (reply_text err)
  | _ => fails err
  end.

(** ** channel.go *)

Definition handleOpenChannel (rq : request) (conn : string) : brk unit :=
  let channel := rm_Channel rq.2 in
  channelMax ← get (negotiatedChannelMax conn);
  if decide (channel = 0 ∨ channelMax < channel) then
    let amqpErr := ConnectionError NOT_ALLOWED CHANNEL CHANNEL_OPEN in
    attempt (sendConnectionClosing conn 0 NOT_ALLOWED CHANNEL CHANNEL_OPEN (error_text amqpErr));;
    modify (setConnectionClosingState conn)
  else
    open ← get (channelState conn channel);
    match open with
    | Some _ => fails (Fails "channel already open")
    | None =>
        modify (put_channel_state conn channel (MkChannelState (Some rq) None None 0 false));;
        frame ← frame_of (createChannelOpenOkFrame channel);
        write_logged conn frame
    end.

(** The error that closes the channel is returned as well. *)
Definition close_and_fail (conn : string) (channel : Z) (amqpErr : broker_err) (code classID methodID : Z)
    : brk unit :=
  sendChannelClosing conn channel code classID methodID (error_text amqpErr);; fails amqpErr.

Definition handleChannelFlow (rq : RequestMethodMessage) (vh conn : string) : brk unit :=
  let channel := rm_Channel rq in
  match rm_Content rq with
  | ChannelFlow flowActive =>
      exists_ ← get (channelState conn channel);
      match exists_ with
      | None =>
          close_and_fail conn channel (ConnectionError CHANNEL_ERROR CHANNEL CHANNEL_FLOW)
            CHANNEL_ERROR CHANNEL CHANNEL_FLOW
      | Some _ =>
          GetConnectionID conn;;
          change_vhost vh (HandleChannelFlow (conn, channel) flowActive false);;
          frame ← frame_of (createChannelFlowOkFrame channel flowActive);
          write conn frame
      end
  | _ =>
      let amqpErr := ConnectionError FRAME_ERROR CHANNEL CHANNEL_FLOW in
      sendConnectionClosing conn channel FRAME_ERROR CHANNEL CHANNEL_FLOW (error_text amqpErr);;
      fails amqpErr
  end.

Definition handleChannelFlowOk (rq : RequestMethodMessage) (conn : string) : brk unit :=
  exists_ ← get (channelState conn (rm_Channel rq));
  match exists_ with
  | Some _ => mret tt
  | None =>
      close_and_fail conn (rm_Channel rq) (ConnectionError CHANNEL_ERROR CHANNEL CHANNEL_FLOW_OK)
        CHANNEL_ERROR CHANNEL CHANNEL_FLOW_OK
  end.

Definition removeChannel (conn : string) (channel : Z) (b : Broker) : Broker :=
  set_connInfos (alter (λ c, set_Channels (delete channel (cn_Channels c)) c) conn (br_connInfos b)) b.

Definition handleChannelClose (rq : RequestMethodMessage) (conn : string) : brk unit :=
  exists_ ← get (channelState conn (rm_Channel rq));
  match exists_ with
  | None => mret tt
  | Some _ =>
      cleanupChannel conn (rm_Channel rq);;
      frame ← frame_of (createChannelCloseOkFrame (rm_Channel rq));
      write conn frame;;
      modify (removeChannel conn (rm_Channel rq))
  end.

Definition handleChannelCloseOk (rq : RequestMethodMessage) (conn : string) : brk unit :=
  cleanupChannel conn (rm_Channel rq);;
  modify (removeChannel conn (rm_Channel rq)).

Definition channelHandler (rq : request) (vh conn : string) : brk unit :=
  let method := rm_MethodID rq.2 in
  if decide (method = CHANNEL_OPEN) then handleOpenChannel rq conn else
  if decide (method = CHANNEL_FLOW) then handleChannelFlow rq.2 vh conn else
  if decide (method = CHANNEL_FLOW_OK) then handleChannelFlowOk rq.2 conn else
  if decide (method = CHANNEL_CLOSE) then handleChannelClose rq.2 conn else
  if decide (method = CHANNEL_CLOSE_OK) then handleChannelCloseOk rq.2 conn else
  fails (Fails (String.append "unknown channel method: " (pretty method))).

(** ** connection.go *)

(** [registerConnection]: refused once the broker is shutting down. *)
Definition registerConnection (conn : string) (info : ConnectionInfo) : brk bool := λ b,
  if br_ShuttingDown b then Ok (b, Ok false) else
  let b := set_connInfos (<[conn := MkConnection info ∅ false]> (br_connInfos b)) b in
  Ok (set_connections ({[conn]} ∪ br_connections b)
        (if ci_ConsumerCancelNotify info then {[conn]} ∪ br_cancelNotify b else br_cancelNotify b) b,
      Ok true).

Definition BeginShutdown : Broker → Broker := set_shutting_down.

Definition cleanupConnection (conn : string) : brk unit :=
  info ← get (getConnInfo conn);
  match info with
  | None => mret tt
  | Some c =>
      hasConnID ← get (connByID conn);
      modify (λ b, set_connInfos (delete conn (br_connInfos b)) b);;
      modify (λ b, set_connections (br_connections b ∖ {[conn]}) (br_cancelNotify b ∖ {[conn]}) b);;
      vh ← get (GetVHost (ci_VHostName (cn_Info c)));
      match vh, hasConnID with
      | Some _, true =>
          n ← fresh;
          on_vhost_out (ci_VHostName (cn_Info c)) (λ sender v out,
            cleaned ← CleanupConnection (clock n) fuel conn
              (channel_order n (connectionChannelsLocked conn v)) v out;
            Ok ((cleaned.1, Ok tt), cleaned.2))
      | _, _ => mret tt
      end
  end.

Definition closeConnectionRequested (rq : RequestMethodMessage) (conn : string) : brk unit :=
  frame ← frame_of (createConnectionCloseOkFrame (rm_Channel rq));
  sent ← attempt (write conn frame);
  c ← get (getConnInfo conn);
  match c with
  | None => mret tt
  | Some _ => modify (setConnectionClosingState conn);;
      match sent with Ok _ => mret tt | Err e => fails e end
  end.

Definition connectionHandler (rq : RequestMethodMessage) (conn : string) : brk unit :=
  if decide (rm_MethodID rq = CONNECTION_CLOSE) then closeConnectionRequested rq conn else
  if decide (rm_MethodID rq = CONNECTION_CLOSE_OK) then cleanupConnection conn else
  fails (Fails (String.append "unknown connection method: " (pretty (rm_MethodID rq)))).

(** [CloseConnection], the management's request; one already closing is left. *)
Definition CloseConnection (name reason : string) : brk unit :=
  c ← get (λ b, if connByID name b then getConnInfo name b else None);
  match c with
  | None => mret tt
  | Some c =>
      if cn_ClosingConnection c then mret tt else
      sendConnectionClosing name 0 CONNECTION_FORCED 0 0 reason;;
      modify (setConnectionClosingState name)
  end.

(** ** broker.go: virtual hosts *)

Definition DEFAULT_VHOST : string := "/".

(** [options] is the vhost the configuration makes; [saved] is whether its
    metadata could be saved. *)
Definition CreateVHost (options : VHost) (saved : bool) (name : string) : brk unit := λ b,
  match br_vhosts b !! name with
  | Some _ => Ok (b, Err (Fails "vhost already exists"))
  | None =>
      if saved then Ok (set_vhosts (<[name := options]> (br_vhosts b)) b, Ok tt)
      else Ok (b, Err (Fails "failed to persist vhost"))
  end.

Definition DeleteVHost (name : string) : brk unit := λ b,
  if decide (name = DEFAULT_VHOST) then Ok (b, Err (Fails "cannot delete the default vhost '/'")) else
  match br_vhosts b !! name with
  | None => Ok (b, Err (Fails "vhost not found"))
  | Some _ =>
      if existsb (λ c : string * Connection, bool_decide (ci_VHostName (cn_Info c.2) = name))
           (map_to_list (br_connInfos b))
      then Ok (b, Err (Fails "vhost has active connections"))
      else Ok (set_vhosts (delete name (br_vhosts b)) b, Ok tt)
  end.
End broker.
