(* ===== verification/Transaction.v ===== *)
(** * Transactions: vhost/transaction.go and tx.go

    tx.select opens a channel's transaction; its publishes and acknowledgements
    are buffered (basic.go) until tx.commit makes them all, or tx.rollback
    forgets them. *)

From stdpp Require Import base list gmap strings pretty.
From Stdlib Require Import ZArith Lia.
From S2P Require Import Prelude Bytes Values FieldTable Properties Methods Frames Handshake Args Queue.
From S2P Require Import Deliveries Consumers Json VHost Lifecycle Routing Expiry Publish Settle Cleanup Broker.

Local Open Scope Z_scope.
Local Open Scope string_scope.
Local Open Scope list_scope.

(** ** transaction.go *)

Definition new_transaction : ChannelTransactionState := MkTransaction false [] [].

Definition GetTransactionState (key : ConnectionChannelKey) (vh : VHost) : option ChannelTransactionState :=
  vh_ChannelTransactions vh !! key.
Definition put_transaction (key : ConnectionChannelKey) (tx : ChannelTransactionState) (vh : VHost) : VHost :=
  set_ChannelTransactions (<[key := tx]> (vh_ChannelTransactions vh)) vh.
Definition GetOrCreateTransactionState (key : ConnectionChannelKey) (vh : VHost)
    : ChannelTransactionState * VHost :=
  match vh_ChannelTransactions vh !! key with
  | Some tx => (tx, vh)
  | None => (new_transaction, put_transaction key new_transaction vh)
  end.

Definition MaxTransactionBufferSize : nat := 10000.
Definition clearBufferedTransactionDataUnlocked (tx : ChannelTransactionState) : ChannelTransactionState :=
  MkTransaction (InTransaction tx) [] [].

Section transaction.
Context `{Runtime, Environment}.
Variable fuel : nat.

(** The transaction of a channel, made if there is none. *)
Definition transaction_of (vh conn : string) (channel : Z) : brk ChannelTransactionState :=
  on_vhost vh (λ v, let '(tx, v) := GetOrCreateTransactionState (conn, channel) v in Ok (v, Ok tx)).
Definition store_transaction (vh conn : string) (channel : Z) (tx : ChannelTransactionState) : brk unit :=
  change_vhost vh (put_transaction (conn, channel) tx).

(** ** Buffering (basic.go) *)

(** [None] when the channel is not in a transaction, or the connection is gone. *)
Definition bufferInTransaction (vh conn : string) (channel : Z)
    (full : ChannelTransactionState → bool) (add : ChannelTransactionState → ChannelTransactionState)
    : brk (option (res broker_err unit)) :=
  known ← get (connByID conn);
  if negb known then mret None else
  tx ← read_vhost vh (GetTransactionState (conn, channel));
  match tx with
  | Some tx =>
      if negb (InTransaction tx) then mret None
      else if full tx
      then mret (Some (Err (VHostError (ChannelError RESOURCE_ERROR TX TX_COMMIT))))
      else store_transaction vh conn channel (add tx);; mret (Some (Ok tt))
  | None => mret None
  end.

Definition add_publish (pub : BufferedPublish) (tx : ChannelTransactionState) : ChannelTransactionState :=
  MkTransaction (InTransaction tx) (BufferedPublishes tx ++ [pub]) (BufferedAcks tx).
Definition add_ack (ack : BufferedAck) (tx : ChannelTransactionState) : ChannelTransactionState :=
  MkTransaction (InTransaction tx) (BufferedPublishes tx) (BufferedAcks tx ++ [ack]).

Definition bufferPublishInTransaction (vh conn : string) (channel : Z) (exchange routingKey : string)
    (msg : AmqpMessage) (mandatory : bool) : brk (option (res broker_err unit)) :=
  bufferInTransaction vh conn channel
    (λ tx, bool_decide (MaxTransactionBufferSize <= length (BufferedPublishes tx))%nat)
    (add_publish (MkBufferedPublish exchange routingKey msg mandatory)).
Definition bufferAcknowledgeTransaction (vh conn : string) (channel : Z) (deliveryTag : Z)
    (multiple requeue : bool) (operation : AckOperation) : brk (option (res broker_err unit)) :=
  bufferInTransaction vh conn channel
    (λ tx, bool_decide (MaxTransactionBufferSize <= length (BufferedAcks tx))%nat)
    (add_ack (MkBufferedAck operation deliveryTag multiple requeue)).

(** ** tx.go *)

Definition BasicReturn (conn : string) (channel : Z) (exchange routingKey : string) (msg : AmqpMessage)
    : brk unit :=
  method ← frame_of (createBasicReturnFrame channel NO_ROUTE "No route" exchange routingKey);
  header ← frame_of (createHeaderFrame channel BASIC (am_Body msg) (am_Properties msg));
  frameMax ← get (negotiatedFrameMax conn);
  write conn (method ++ header ++ createBodyFrame channel frameMax (am_Body msg)).

(** [NewMessage] under a fresh identifier, then [vh.Publish]. *)
Definition publish_message (vh exchange routingKey : string) (msg : AmqpMessage) : brk unit :=
  n ← fresh;
  let m := NewMessage (am_Body msg) (am_Properties msg) (am_Exchange msg) (am_RoutingKey msg)
             (GenerateMessageId n) (clock n) (clock n) in
  _ ← on_vhost vh (Publish (clock n) fuel exchange routingKey m);
  mret tt.

(** [ensureInTransaction] names tx.rollback, whichever method asked. *)
Definition ensureInTransaction (tx : ChannelTransactionState) : brk unit :=
  if InTransaction tx then mret tt
  else fails (VHostError (ChannelError PRECONDITION_FAILED TX TX_ROLLBACK)).

Definition createTxResponse (conn : string) (channel methodID : Z) : brk unit :=
  frame ← frame_of (createTxAckFrame channel methodID);
  write conn frame.

Definition txSelectHandler (rq : RequestMethodMessage) (vh conn : string) : brk unit :=
  let channel := rm_Channel rq in
  GetConnectionID conn;;
  tx ← transaction_of vh conn channel;
  if InTransaction tx then createTxResponse conn channel TX_SELECT_OK else
  store_transaction vh conn channel (MkTransaction true [] []);;
  createTxResponse conn channel TX_SELECT_OK.

(** The errors of the dry run: the publishes whose exchange is missing. *)
Fixpoint dry_run (vh : string) (pubs : list BufferedPublish) : brk (list broker_err) :=
  match pubs with
  | [] => mret []
  | pub :: pubs =>
      routing ← read_vhost vh (HasRoutingForMessage (bp_ExchangeName pub) (bp_RoutingKey pub));
      errors ← dry_run vh pubs;
      mret (match routing with Err e => VHostError e :: errors | Ok _ => errors end)
  end.

(** One buffered publish: the error it adds, if any. *)
Definition commit_publish (vh conn : string) (channel : Z) (pub : BufferedPublish) : brk (option broker_err) :=
  routing ← read_vhost vh (HasRoutingForMessage (bp_ExchangeName pub) (bp_RoutingKey pub));
  let hasRouting := match routing with Ok b => b | Err _ => false end in
  if negb hasRouting then
    if bp_Mandatory pub then
      returned ← attempt (BasicReturn conn channel (bp_ExchangeName pub) (bp_RoutingKey pub) (bp_Message pub));
      mret (Some (match returned with Err e => e | Ok _ => Fails "no route for message" end))
    else modify (resetChannelState conn channel);; mret None
  else
    published ← attempt (publish_message vh (bp_ExchangeName pub) (bp_RoutingKey pub) (bp_Message pub));
    mret (match published with Err e => Some e | Ok _ => None end).

Definition commit_ack (vh conn : string) (channel : Z) (ack : BufferedAck) : brk (option broker_err) :=
  n ← fresh;
  settled ← attempt (on_vhost vh (match ba_Operation ack with
    | AckOperationAck => λ v, Ok (HandleBasicAck (conn, channel) (ba_DeliveryTag ack) (ba_Multiple ack) v)
    | AckOperationNack =>
        HandleBasicNack (clock n) fuel (conn, channel) (ba_DeliveryTag ack) (ba_Multiple ack) (ba_Requeue ack)
    | AckOperationReject =>
        HandleBasicReject (clock n) fuel (conn, channel) (ba_DeliveryTag ack) (ba_Requeue ack)
    end));
  mret (match settled with Err e => Some e | Ok _ => None end).

(** All the operations of a list, with the errors they add. *)
Fixpoint collect {A} (f : A → brk (option broker_err)) (l : list A) : brk (list broker_err) :=
  match l with
  | [] => mret []
  | x :: l =>
      error ← f x;
      errors ← collect f l;
      mret (match error with Some e => e :: errors | None => errors end)
  end.

Definition is_channel_error (e : broker_err) : bool :=
  match e with VHostError (ChannelError _ _ _) => true | _ => false end.

(** The first ack error that is a channel error closes the channel with its own
    code, any other failure with 541. *)
Definition commit_failed (rq : RequestMethodMessage) (conn : string) (ackErrors : list broker_err) : brk unit :=
  match head (filter (λ e, is_channel_error e = true) ackErrors) with
  | Some ackErr => sendChannelErrorResponse fuel ackErr conn rq
  | None => sendChannelErrorResponse fuel (VHostError (ChannelError INTERNAL_ERROR TX TX_COMMIT)) conn rq
  end.

Definition txCommitHandler (rq : RequestMethodMessage) (vh conn : string) : brk unit :=
  let channel := rm_Channel rq in
  GetConnectionID conn;;
  tx ← transaction_of vh conn channel;
  ensureInTransaction tx;;
  wrong ← dry_run vh (BufferedPublishes tx);
  if negb (bool_decide (wrong = [])) then
    store_transaction vh conn channel (clearBufferedTransactionDataUnlocked tx);;
    fails (Fails "transaction commit failed")
  else
    publishErrors ← collect (commit_publish vh conn channel) (BufferedPublishes tx);
    ackErrors ← collect (commit_ack vh conn channel) (BufferedAcks tx);
    if negb (bool_decide (publishErrors = [] ∧ ackErrors = [])) then commit_failed rq conn ackErrors else
    store_transaction vh conn channel (clearBufferedTransactionDataUnlocked tx);;
    createTxResponse conn channel TX_COMMIT_OK.

Definition txRollbackHandler (rq : RequestMethodMessage) (vh conn : string) : brk unit :=
  let channel := rm_Channel rq in
  GetConnectionID conn;;
  tx ← transaction_of vh conn channel;
  ensureInTransaction tx;;
  store_transaction vh conn channel (clearBufferedTransactionDataUnlocked tx);;
  createTxResponse conn channel TX_ROLLBACK_OK.

Definition txHandler (rq : RequestMethodMessage) (vh conn : string) : brk unit :=
  if decide (rm_MethodID rq = TX_SELECT) then txSelectHandler rq vh conn else
  if decide (rm_MethodID rq = TX_COMMIT) then txCommitHandler rq vh conn else
  if decide (rm_MethodID rq = TX_ROLLBACK) then txRollbackHandler rq vh conn else
  fails (Fails "unsupported command").
End transaction.
