(* ===== verification/Handlers.v ===== *)
(** * The method handlers: basic.go, queue.go, exchange.go of the broker

    Each handler takes the content of its method apart, calls the virtual host
    and answers.  An error of a handler closes the connection (Server.v), unless
    the handler has turned it into a channel.close itself. *)

From stdpp Require Import base list gmap strings pretty.
From Stdlib Require Import ZArith Lia.
From S2P Require Import Prelude Bytes Values FieldTable Properties Methods Frames Handshake Args Queue.
From S2P Require Import Deliveries Consumers Json VHost Lifecycle Routing Declare Expiry Publish Settle.
From S2P Require Import Purge Cleanup Broker Transaction.

Local Open Scope Z_scope.
Local Open Scope string_scope.
Local Open Scope list_scope.

Section handlers.
Context `{Runtime, Environment}.
Variable fuel : nat.

(** ** queue.go *)

Definition BindToDefaultExchange (queueName : string) : VHost → handled unit :=
  BindQueue DEFAULT_EXCHANGE queueName queueName None INTERNAL_CONN_ID.

(** [uint32(...)] of a count. *)
Definition uint32 (n : Z) : Z := n mod 2 ^ 32.
Definition consumer_count (queueName : string) (v : VHost) : Z :=
  uint32 (Z.of_nat (length (GetActiveConsumersForQueue (vh_index v) queueName))).

Definition queueDeclareHandler (rq : RequestMethodMessage) (vh conn : string) : brk unit :=
  match rm_Content rq with
  | QueueDeclare queueName passive durable exclusive autoDelete noWait args =>
      GetConnectionID conn;;
      n ← fresh;
      created ← attempt (on_vhost vh (λ v, Ok (CreateQueue (queue_names n) queueName
        (Some (MkQueueProps passive durable autoDelete exclusive args)) conn v)));
      match created with
      | Err e => sendChannelErrorResponse fuel e conn rq
      | Ok queue =>
          on_vhost vh (λ v, Ok (BindToDefaultExchange (q_Name queue) v));;
          consumers ← read_vhost vh (consumer_count (q_Name queue));
          if noWait then mret tt else
          frame ← frame_of (createQueueDeclareOkFrame (rm_Channel rq) (q_Name queue)
            (uint32 (Len queue)) consumers);
          write_logged conn frame
      end
  | _ => fails (Fails "invalid content type for QueueDeclareMessage")
  end.

Definition queueBindHandler (rq : RequestMethodMessage) (vh conn : string) : brk unit :=
  match rm_Content rq with
  | QueueBind queue exchange routingKey _ args =>
      GetConnectionID conn;;
      bound ← attempt (on_vhost vh (λ v, Ok (BindQueue exchange queue routingKey args conn v)));
      match bound with
      | Err e => sendChannelErrorResponse fuel e conn rq
      | Ok _ =>
          frame ← frame_of (createQueueAckFrame (rm_Channel rq) QUEUE_BIND_OK);
          write_logged conn frame
      end
  | _ => fails (Fails "invalid content type for QueueBindMessage")
  end.

Definition queueUnbindHandler (rq : RequestMethodMessage) (vh conn : string) : brk unit :=
  match rm_Content rq with
  | QueueUnbind queue exchange routingKey args =>
      GetConnectionID conn;;
      unbound ← attempt (on_vhost vh (λ v, Ok (UnbindQueue exchange queue routingKey args conn v)));
      match unbound with
      | Err e => sendChannelErrorResponse fuel e conn rq
      | Ok _ =>
          frame ← frame_of (createQueueAckFrame (rm_Channel rq) QUEUE_UNBIND_OK);
          write_logged conn frame
      end
  | _ => fails (Fails "invalid content type for QueueUnbindMessage")
  end.

Definition queuePurgeHandler (rq : RequestMethodMessage) (vh conn : string) : brk unit :=
  match rm_Content rq with
  | QueuePurge queueName noWait =>
      GetConnectionID conn;;
      n ← fresh;
      purged ← attempt (on_vhost vh (PurgeQueue (clock n) fuel queueName conn));
      match purged with
      | Err e => sendChannelErrorResponse fuel e conn rq
      | Ok messageCount =>
          if noWait then mret tt else
          frame ← frame_of (createQueueCountAckFrame (rm_Channel rq) QUEUE_PURGE_OK messageCount);
          write conn frame
      end
  | _ => fails (Fails "invalid content type for QueuePurgeMessage")
  end.

(** The checks of queue.delete, in their order: the number of messages. *)
Definition delete_checks (queueName conn : string) (ifUnused ifEmpty : bool) (v : VHost) : res vh_err Z :=
  match vh_Queues v !! queueName with
  | None => Err (ChannelError NOT_FOUND QUEUE QUEUE_DELETE)
  | Some queue =>
      _ ← CheckQueueOwnership queueName conn QUEUE QUEUE_DELETE v;
      if decide (ifUnused = true ∧ 0 < consumer_count queueName v)
      then Err (ChannelError PRECONDITION_FAILED QUEUE QUEUE_DELETE)
      else if decide (ifEmpty = true ∧ 0 < uint32 (Len queue))
      then Err (ChannelError PRECONDITION_FAILED QUEUE QUEUE_DELETE)
      else Ok (uint32 (Len queue))
  end.

(** The connection is checked between the first of those and the others; a
    connection that is gone is answered with 541. *)
Definition queueDeleteHandler (rq : RequestMethodMessage) (vh conn : string) : brk unit :=
  match rm_Content rq with
  | QueueDelete queueName ifUnused ifEmpty noWait =>
      known ← get (connByID conn);
      checked ← attempt (on_vhost vh (λ v, Ok (v,
        if decide (is_Some (vh_Queues v !! queueName) ∧ known = false)
        then Err (ChannelError INTERNAL_ERROR QUEUE QUEUE_DELETE)
        else delete_checks queueName conn ifUnused ifEmpty v)));
      match checked with
      | Err e => sendChannelErrorResponse fuel e conn rq
      | Ok messageCount =>
          deleted ← attempt (on_vhost_out vh (λ sender v out, Ok (DeleteQueuebyName queueName v out)));
          match deleted with
          | Err e => sendChannelErrorResponse fuel e conn rq
          | Ok _ =>
              if noWait then mret tt else
              frame ← frame_of (createQueueCountAckFrame (rm_Channel rq) QUEUE_DELETE_OK messageCount);
              write_logged conn frame
          end
      end
  | _ => fails (Fails "invalid content type for QueueDeleteMessage")
  end.

Definition queueHandler (rq : RequestMethodMessage) (vh conn : string) : brk unit :=
  let method := rm_MethodID rq in
  if decide (method = QUEUE_DECLARE) then queueDeclareHandler rq vh conn else
  if decide (method = QUEUE_BIND) then queueBindHandler rq vh conn else
  if decide (method = QUEUE_PURGE) then queuePurgeHandler rq vh conn else
  if decide (method = QUEUE_DELETE) then queueDeleteHandler rq vh conn else
  if decide (method = QUEUE_UNBIND) then queueUnbindHandler rq vh conn else
  fails (Fails "unsupported command").

(** ** exchange.go: every error closes the connection *)

Definition BindingCount (e : Exchange) : nat :=
  map_fold (λ _ bs n, (length bs + n)%nat) 0%nat (ex_Bindings e).

Definition handleExchangeDelete (rq : RequestMethodMessage) (vh conn : string) : brk unit :=
  match rm_Content rq with
  | ExchangeDelete exchangeName ifUnused _ =>
      unused ← on_vhost vh (λ v, Ok (v,
        if ifUnused : bool then
          match vh_Exchanges v !! exchangeName with
          | None => Err (PlainError "exchange does not exist")
          | Some e => if decide (0 < BindingCount e)%nat
                      then Err (PlainError "exchange has active bindings") else Ok tt
          end
        else Ok tt));
      on_vhost vh (λ v, Ok (deleteExchangeUnlocked exchangeName v));;
      frame ← frame_of (createExchangeDeleteFrame (rm_Channel rq));
      write_logged conn frame
  | _ => fails (Fails "invalid content type for ExchangeDeleteMessage")
  end.

Definition handleExchangeDeclare (rq : RequestMethodMessage) (vh conn : string) : brk unit :=
  match rm_Content rq with
  | ExchangeDeclare name typ passive durable autoDelete internal noWait args =>
      on_vhost vh (λ v, Ok (CreateExchange name typ
        (Some (MkExchangeProps passive durable autoDelete internal noWait args)) v));;
      frame ← frame_of (createExchangeDeclareFrameOk (rm_Channel rq));
      write_logged conn frame
  | _ => fails (Fails "invalid content type for ExchangeDeclareMessage")
  end.

Definition exchangeHandler (rq : RequestMethodMessage) (vh conn : string) : brk unit :=
  if decide (rm_MethodID rq = EXCHANGE_DECLARE) then handleExchangeDeclare rq vh conn else
  if decide (rm_MethodID rq = EXCHANGE_DELETE) then handleExchangeDelete rq vh conn else
  fails (Fails "unsupported command").

(** ** basic.go: consuming *)

(** The size of a prefetch window is refused only in the log. *)
Definition basicQoSHandler (rq : RequestMethodMessage) (vh conn : string) : brk unit :=
  match rm_Content rq with
  | BasicQos _ prefetchCount global =>
      GetConnectionID conn;;
      change_vhost vh (HandleBasicQos (conn, rm_Channel rq) prefetchCount global);;
      frame ← frame_of (createBasicQosOkFrame (rm_Channel rq));
      write_logged conn frame
  | _ => fails (Fails "invalid basic.qos content")
  end.

Definition set_FrameMax (n : Z) (c : Consumer) : Consumer :=
  MkConsumer (c_Tag c) (c_Channel c) (c_QueueName c) (c_ConnectionID c) (c_Active c)
    (c_PrefetchCount c) n (c_NoAck c) (c_Exclusive c) (c_Arguments c).

Definition basicConsumeHandler (rq : RequestMethodMessage) (vh conn : string) : brk unit :=
  match rm_Content rq with
  | BasicConsume queueName consumerTag _ noAck exclusive noWait args =>
      GetConnectionID conn;;
      frameMax ← get (negotiatedFrameMax conn);
      n ← fresh;
      let consumer := set_FrameMax frameMax
        (NewConsumer conn (rm_Channel rq) queueName consumerTag noAck exclusive args) in
      registered ← attempt (on_vhost vh (λ v, Ok (RegisterConsumer (consumer_tags n) consumer v)));
      match registered with
      | Err (VHostError (ChannelError code classID methodID) as e) =>
          sendChannelClosing fuel conn (rm_Channel rq) code classID methodID (reply_text e)
      | Err e => fails e
      | Ok consumerTag =>
          if noWait then mret tt else
          frame ← frame_of (createBasicConsumeOkFrame (rm_Channel rq) consumerTag);
          write conn frame
      end
  | _ => fails (Fails "invalid basic consume content")
  end.

(** An unknown tag is answered like a known one. *)
Definition basicCancelHandler (rq : RequestMethodMessage) (vh conn : string) : brk unit :=
  match rm_Content rq with
  | BasicCancel consumerTag noWait =>
      cancelled ← attempt (on_vhost vh (λ v, Ok (CancelConsumer (rm_Channel rq) consumerTag v)));
      let answer :=
        if noWait then mret tt else
        frame ← frame_of (createBasicCancelOkFrame (rm_Channel rq) consumerTag);
        write conn frame in
      match cancelled with
      | Ok _ => answer
      | Err (VHostError (ChannelError code classID methodID) as e) =>
          if decide (code = NOT_FOUND) then answer else
          sendChannelClosing fuel conn (rm_Channel rq) code classID methodID (reply_text e)
      | Err e => fails e
      end
  | _ => fails (Fails "invalid basic cancel content")
  end.

(** The frames of a get-ok: method and header are formatted before the first
    write; a failure to write the body is only logged. *)
Definition send_get_ok (rq : RequestMethodMessage) (conn : string) (msg : Message)
    (msgCount tag : Z) (redelivered : bool) : brk unit :=
  frame ← frame_of (createBasicGetOkFrame (rm_Channel rq) (m_Exchange msg) (m_RoutingKey msg)
    (uint32 msgCount) tag redelivered);
  header ← frame_of (createHeaderFrame (rm_Channel rq) (rm_ClassID rq) (m_Body msg) (m_Properties msg));
  write conn frame;;
  write conn header;;
  frameMax ← get (negotiatedFrameMax conn);
  write_logged conn (createBodyFrame (rm_Channel rq) frameMax (m_Body msg)).

Definition send_get_empty (rq : RequestMethodMessage) (conn : string) : brk unit :=
  frame ← frame_of (createBasicGetEmptyFrame (rm_Channel rq));
  write_logged conn frame.

Definition basicGetHandler (rq : RequestMethodMessage) (vh conn : string) : brk unit :=
  match rm_Content rq with
  | BasicGet _ queue noAck =>
      GetConnectionID conn;;
      owned ← attempt (on_vhost vh (λ v, Ok (v, CheckQueueOwnership queue conn BASIC BASIC_GET v)));
      match owned with
      | Err e => sendChannelErrorResponse fuel e conn rq
      | Ok _ =>
          count ← read_vhost vh (GetMessageCount queue);
          match count with
          | None => fails (Fails "queue not found")
          | Some msgCount =>
              n ← fresh;
              msg ← (if decide (0 < msgCount)
                     then on_vhost vh (λ v, r ← GetMessage (clock n) fuel queue v; Ok (r.1, Ok r.2))
                     else mret None);
              match msg with
              | None => send_get_empty rq conn
              | Some msg =>
                  tag ← on_vhost vh (λ v,
                    let '(ch, v) := GetOrCreateChannelDelivery (conn, rm_Channel rq) v in
                    let '(tag, ch) := TrackDelivery noAck msg queue ch in
                    Ok (put_channel (conn, rm_Channel rq) ch v, Ok tag));
                  redelivered ← read_vhost vh (ShouldRedeliver (m_ID msg));
                  send_get_ok rq conn msg msgCount tag redelivered
              end
          end
      end
  | _ => stops (GoPanic InterfaceConversion)
  end.

(** ** basic.go: acknowledging *)

(** Buffered in a transaction; otherwise settled now, and a channel error closes
    the channel. *)
Definition settle_handler (rq : RequestMethodMessage) (vh conn : string) (deliveryTag : Z)
    (multiple requeue : bool) (operation : AckOperation) (settle : Z → VHost → res stop (handled unit))
    : brk unit :=
  buffered ← bufferAcknowledgeTransaction vh conn (rm_Channel rq) deliveryTag multiple requeue operation;
  match buffered with
  | Some (Ok _) => mret tt
  | Some (Err e) => fails e
  | None =>
      GetConnectionID conn;;
      n ← fresh;
      settled ← attempt (on_vhost vh (settle (clock n)));
      match settled with
      | Ok _ => mret tt
      | Err e => if is_channel_error e then sendChannelErrorResponse fuel e conn rq else fails e
      end
  end.

Definition basicAckHandler (rq : RequestMethodMessage) (vh conn : string) : brk unit :=
  match rm_Content rq with
  | BasicAck deliveryTag multiple =>
      settle_handler rq vh conn deliveryTag multiple false AckOperationAck
        (λ _ v, Ok (HandleBasicAck (conn, rm_Channel rq) deliveryTag multiple v))
  | _ => fails (Fails "invalid basic ack content")
  end.
Definition basicRejectHandler (rq : RequestMethodMessage) (vh conn : string) : brk unit :=
  match rm_Content rq with
  | BasicReject deliveryTag requeue =>
      settle_handler rq vh conn deliveryTag false requeue AckOperationReject
        (λ now, HandleBasicReject now fuel (conn, rm_Channel rq) deliveryTag requeue)
  | _ => fails (Fails "invalid basic reject content")
  end.
Definition basicNackHandler (rq : RequestMethodMessage) (vh conn : string) : brk unit :=
  match rm_Content rq with
  | BasicNack deliveryTag multiple requeue =>
      settle_handler rq vh conn deliveryTag multiple requeue AckOperationNack
        (λ now, HandleBasicNack now fuel (conn, rm_Channel rq) deliveryTag multiple requeue)
  | _ => fails (Fails "invalid basic nack content")
  end.

Definition basicRecoverHandler (rq : RequestMethodMessage) (vh conn : string) (async : bool) : brk unit :=
  match rm_Content rq with
  | BasicRecover requeue _ =>
      GetConnectionID conn;;
      n ← fresh;
      on_vhost_out vh (λ sender, HandleBasicRecover (clock n) fuel (conn, rm_Channel rq) requeue);;
      if async then mret tt else
      frame ← frame_of (createBasicRecoverOkFrame (rm_Channel rq));
      write conn frame
  | _ => fails (Fails "invalid basic recover content")
  end.
End handlers.
