(* ===== verification/Management.v ===== *)
(** * The management service: broker/management

    The operations of [management.Service] that change the broker, on the same
    state as the handlers of the protocol.  They act for a connection of their
    own, which no client has, on its channel 0.  An operation is one step, like a
    request; [Invariant] has them among the broker's steps. *)

From stdpp Require Import base list gmap strings pretty.
From Stdlib Require Import ZArith Lia.
From S2P Require Import Prelude Bytes Values FieldTable Properties Methods Frames Handshake Args Queue.
From S2P Require Import Deliveries Consumers Json VHost Lifecycle Routing Declare Expiry Publish Settle.
From S2P Require Import Purge Preserve Cleanup Broker Transaction Handlers.

Local Open Scope Z_scope.
Local Open Scope string_scope.
Local Open Scope list_scope.

Definition MANAGEMENT_CONNECTION_ID : string := "__management__".

(** ** Requests (models/requests.go) *)

Record CreateQueueRequest : Type := MkCreateQueueRequest {
  cq_Passive : bool;
  cq_Durable : bool;
  cq_AutoDelete : bool;
  cq_Arguments : option table;
  cq_MaxLength : option Z;
  cq_MessageTTL : option Z;
  cq_DeadLetterExchange : option string;
  cq_DeadLetterRoutingKey : option string;
}.

Record CreateExchangeRequest : Type := MkCreateExchangeRequest {
  cx_ExchangeType : string;
  cx_Passive : bool;
  cx_Durable : bool;
  cx_AutoDelete : bool;
  cx_NoWait : bool;
  cx_Arguments : option table;
}.

(** [CreateBindingRequest] and [DeleteBindingRequest] have the same fields. *)
Record BindingRequest : Type := MkBindingRequest {
  br_VHost : string;
  br_Source : string;
  br_Destination : string;
  br_RoutingKey : string;
  br_Arguments : option table;
}.

Record PublishMessageRequest : Type := MkPublishRequest {
  pr_RoutingKey : string;
  pr_Payload : list Byte.byte;
  pr_ContentType : string;
  pr_ContentEncoding : string;
  pr_DeliveryMode : Z;
  pr_Priority : Z;
  pr_CorrelationId : string;
  pr_ReplyTo : string;
  pr_Expiration : string;
  pr_MessageID : string;
  pr_Timestamp : option (Z * Z);
  pr_Type : string;
  pr_UserId : string;
  pr_AppId : string;
  pr_Headers : option table;
}.

(** [AckType] is a string; any other one leaves the message unacknowledged. *)
Inductive AckType : Type := AckMode | NoAckMode | RejectMode | RejectRequeueMode | UnknownMode (mode : string).
#[export] Instance AckType_eq_dec : EqDecision AckType.
Proof. solve_decision. Defined.

(** What [GetMessages] answers of a message; [propertiesToMap] renders the
    properties. *)
Record MessageDTO : Type := MkMessageDTO {
  md_ID : string;
  md_Payload : list Byte.byte;
  md_Properties : BasicProperties;
  md_DeliveryTag : Z;
  md_Redelivered : bool;
}.

(** ** Translating requests *)

Definition set_option {A} (k : string) (v : A → value) (o : option A) (args : table) : table :=
  match o with Some a => tbl_set k (v a) args | None => args end.

Definition createQueueProperties (req : CreateQueueRequest) : QueueProperties :=
  let args := default [] (cq_Arguments req) in
  let args := set_option "x-max-length" VI32 (cq_MaxLength req) args in
  let args := set_option "x-message-ttl" VI64 (cq_MessageTTL req) args in
  let args := set_option "x-dead-letter-exchange" VStr (cq_DeadLetterExchange req) args in
  let args := set_option "x-dead-letter-routing-key" VStr (cq_DeadLetterRoutingKey req) args in
  MkQueueProps (cq_Passive req) (cq_Durable req) (cq_AutoDelete req) false (Some args).

(** The zero [time.Time], 1 January of year 1, when the request has none. *)
Definition zero_time : Z * Z := (-62135596800, 0).

Definition getPropsFromRequest (req : PublishMessageRequest) : BasicProperties :=
  let mode := if decide (pr_DeliveryMode req < 1 ∨ 2 < pr_DeliveryMode req) then 1 else pr_DeliveryMode req in
  MkProps (pr_ContentType req) (pr_ContentEncoding req) (pr_Headers req) mode (pr_Priority req)
    (pr_CorrelationId req) (pr_ReplyTo req) (pr_Expiration req) (pr_MessageID req)
    (default zero_time (pr_Timestamp req)) (pr_Type req) (pr_UserId req) (pr_AppId req) "".

(** ** Looking up (vhost.go) *)

Definition GetExchange (name : string) (vh : VHost) : option Exchange :=
  vh_Exchanges vh !! resolveExchangeAlias name.
Definition GetQueue (name : string) (vh : VHost) : option Queue := vh_Queues vh !! name.

Section management.
Context `{Runtime, Environment}.
Variable fuel : nat.

(** A vhost that is missing is the error of every operation. *)
Definition with_vhost (vh : string) : brk VHost := read_vhost vh (λ v, v).

(** ** queue.go *)

(** The name of the queue; its statistics are read in [Listing]. *)
Definition CreateQueue (vh queueName : string) (req : CreateQueueRequest) : brk Queue :=
  n ← fresh;
  queue ← on_vhost vh (λ v, Ok (Lifecycle.CreateQueue (queue_names n) queueName
    (Some (createQueueProperties req)) MANAGEMENT_CONNECTION_ID v));
  on_vhost vh (λ v, Ok (BindToDefaultExchange (q_Name queue) v));;
  mret queue.

Definition DeleteQueue (vh queueName : string) (ifUnused ifEmpty : bool) : brk unit :=
  v ← with_vhost vh;
  match GetQueue queueName v with
  | None => mret tt
  | Some queue =>
      if decide (ifUnused = true ∧ 0 < length (by_queue (vh_index v) queueName))%nat
      then fails (Fails "queue has consumers, cannot delete (if-unused)") else
      if decide (ifEmpty = true ∧ 0 < Len queue)
      then fails (Fails "queue has messages, cannot delete (if-empty)") else
      on_vhost_out vh (λ sender v out, Ok (DeleteQueuebyName queueName v out))
  end.

Definition PurgeQueue (vh queueName : string) : brk Z :=
  n ← fresh;
  on_vhost vh (Purge.PurgeQueue (clock n) fuel queueName MANAGEMENT_CONNECTION_ID).

(** ** exchange.go *)

(** The exchange described in the answer is looked up by the resolved name. *)
Definition CreateExchange (vh exchangeName : string) (req : CreateExchangeRequest) : brk Exchange :=
  on_vhost vh (λ v, Ok (VHost.CreateExchange exchangeName (cx_ExchangeType req)
    (Some (MkExchangeProps (cx_Passive req) (cx_Durable req) (cx_AutoDelete req) false false (cx_Arguments req))) v));;
  v ← with_vhost vh;
  match GetExchange exchangeName v with
  | Some e => mret e
  | None => stops (GoPanic NilDereference)
  end.

Definition DeleteExchange (vh exchangeName : string) (ifUnused : bool) : brk unit :=
  v ← with_vhost vh;
  match GetExchange exchangeName v with
  | None => mret tt
  | Some e =>
      if decide (ifUnused = true ∧ 0 < BindingCount e)%nat
      then fails (Fails "exchange has active bindings") else
      on_vhost vh (λ v, Ok (deleteExchangeUnlocked exchangeName v))
  end.

(** ** binding.go *)

Definition CreateBinding (req : BindingRequest) : brk unit :=
  let vh := br_VHost req in
  on_vhost vh (λ v, Ok (BindQueue (br_Source req) (br_Destination req) (br_RoutingKey req) (br_Arguments req)
    MANAGEMENT_CONNECTION_ID v));;
  v ← with_vhost vh;
  match GetExchange (br_Source req) v with
  | Some _ => mret tt
  | None => fails (Fails "exchange not found in vhost")
  end.

Definition DeleteBinding (req : BindingRequest) : brk unit :=
  on_vhost (br_VHost req) (λ v, Ok (UnbindQueue (br_Source req) (br_Destination req) (br_RoutingKey req)
    (br_Arguments req) MANAGEMENT_CONNECTION_ID v)).

(** ** message.go *)

Definition PublishMessage (vh exchangeName : string) (req : PublishMessageRequest) : brk unit :=
  v ← with_vhost vh;
  match GetExchange exchangeName v with
  | None => fails (Fails "exchange not found in vhost")
  | Some exchange =>
      hasRouting ← on_vhost vh (λ v, Ok (v, HasRoutingForMessage (ex_Name exchange) (pr_RoutingKey req) v));
      if negb hasRouting then mret tt else
      n ← fresh;
      let msg := MkMessage (GenerateMessageId n) (clock n) (pr_Payload req) (getPropsFromRequest req)
        (ex_Name exchange) (pr_RoutingKey req) in
      on_vhost vh (Publish (clock n) fuel (ex_Name exchange) (pr_RoutingKey req) msg);;
      mret tt
  end.

(** The service's channel 0: nothing is acknowledged later on it. *)
Definition management_channel : ConnectionChannelKey := (MANAGEMENT_CONNECTION_ID, 0).

(** One delivery and its settlement; [None] when there is no message, or it
    expired.  An error of the settlement is only logged. *)
Definition get_one (vh queue : string) (ackMode : AckType) : brk (option MessageDTO) :=
  let noAck := bool_decide (ackMode = NoAckMode) in
  n ← fresh;
  msg ← on_vhost vh (λ v, r ← GetMessage (clock n) fuel queue v; Ok (r.1, Ok r.2));
  match msg with
  | None => mret None
  | Some msg =>
      tag ← on_vhost vh (λ v,
        let '(ch, v) := GetOrCreateChannelDelivery management_channel v in
        let '(tag, ch) := TrackDelivery noAck msg queue ch in
        Ok (put_channel management_channel ch v, Ok tag));
      n ← fresh;
      match ackMode with
      | AckMode => _ ← attempt (on_vhost vh (λ v, Ok (HandleBasicAck management_channel tag false v))); mret tt
      | RejectMode =>
          _ ← attempt (on_vhost vh (HandleBasicNack (clock n) fuel management_channel tag false false)); mret tt
      | RejectRequeueMode =>
          _ ← attempt (on_vhost vh (HandleBasicNack (clock n) fuel management_channel tag false true)); mret tt
      | NoAckMode | UnknownMode _ => mret tt
      end;;
      redelivered ← read_vhost vh (ShouldRedeliver (m_ID msg));
      mret (Some (MkMessageDTO (m_ID msg) (m_Body msg) (m_Properties msg) tag redelivered))
  end.

(** A message that cannot be had ends the loop with an empty answer. *)
Fixpoint get_messages (count : nat) (vh queue : string) (ackMode : AckType) (msgs : list MessageDTO)
    : brk (list MessageDTO) :=
  match count with
  | O => mret msgs
  | S count =>
      got ← get_one vh queue ackMode;
      match got with
      | None => mret []
      | Some dto => get_messages count vh queue ackMode (msgs ++ [dto])
      end
  end.

Definition GetMessages (vh queue : string) (count : Z) (ackMode : AckType) : brk (list MessageDTO) :=
  v ← with_vhost vh;
  if decide (queue = "") then fails (Fails "queue name cannot be empty") else
  if decide (count <= 0) then fails (Fails "message count must be greater than zero") else
  match GetMessageCount queue v with
  | None => fails (Fails "queue not found")
  | Some msgCount =>
      let count := if decide (msgCount < count) then msgCount else count in
      on_vhost vh (λ v, Ok ((GetOrCreateChannelDelivery management_channel v).2, Ok tt));;
      get_messages (Z.to_nat count) vh queue ackMode []
  end.
End management.
