(* ===== verification/Listing.v ===== *)
(** * What the management service lists: vhost.go and the List operations

    The operations of broker/management that only read the broker.  Go visits a
    map in any order: [MapOrder] is that order, and the lists that are sorted do
    not depend on it ([queue_list_canonical]). *)

From stdpp Require Import base list gmap strings sorting pretty.
From Stdlib Require Import ZArith Lia.
From S2P Require Import Prelude Bytes Comparators RateTracker Collector Values Methods Handshake Args Queue.
From S2P Require Import Deliveries Consumers Json VHost Lifecycle Broker Handlers Management.

Local Open Scope Z_scope.
Local Open Scope string_scope.
Local Open Scope list_scope.

(** ** What a virtual host shows (vhost.go) *)

Class MapOrder : Type := {
  range_map {A} : gmap string A → list (string * A);
  range_map_visits {A} (m : gmap string A) : range_map m ≡ₚ map_to_list m;
}.
Definition sample_order : MapOrder := {| range_map A := map_to_list; range_map_visits A m := reflexivity _ |}.

Definition count_queue (counts : gmap string Z) (queue : string) : gmap string Z :=
  <[queue := default 0 (counts !! queue) + 1]> counts.
Definition channel_records (ch : ChannelDeliveryState) : list DeliveryRecord := (map_to_list (UnackedByTag ch)).*2.
Definition GetUnackedMessageCountsAllQueues (vh : VHost) : gmap string Z :=
  foldl (λ counts ch, foldl count_queue counts (dr_QueueName <$> channel_records ch)) ∅
    (map_to_list (vh_ChannelDeliveries vh)).*2.
Definition GetUnackedMessageCountByChannel (connID : string) (channel : Z) (vh : VHost) : Z :=
  match vh_ChannelDeliveries vh !! (connID, channel) with
  | Some ch => Z.of_nat (size (UnackedByTag ch))
  | None => 0
  end.
Definition GetConsumerCountsAllQueues (vh : VHost) : gmap string Z :=
  (λ addrs, Z.of_nat (length addrs)) <$> ix_ByQueue (vh_index vh).

Definition NameOrAlias (e : Exchange) : string :=
  if decide (ex_Name e = DEFAULT_EXCHANGE ∨ ex_Name e = EMPTY_EXCHANGE) then DEFAULT_EXCHANGE_ALIAS
  else if decide (ex_Name e = DEFAULT_EXCHANGE_ALIAS) then DEFAULT_EXCHANGE else ex_Name e.

Definition GetExchangeUniqueNames (vh : VHost) : gset string :=
  list_to_set (filter (λ name, name ≠ EMPTY_EXCHANGE) (ex_Name <$> (map_to_list (vh_Exchanges vh)).*2)).

Section listing.
Context `{MapOrder}.

(** The consumers of a queue, as the addresses in the index point to them. *)
Definition GetConsumersByQueue (queue : string) (vh : VHost) : list Consumer :=
  omap (λ addr, ix_heap (vh_index vh) !! addr) (by_queue (vh_index vh) queue).
Definition GetAllExchanges (vh : VHost) : list Exchange :=
  omap (λ name, vh_Exchanges vh !! name) (range_map (gset_to_gmap () (GetExchangeUniqueNames vh))).*1.
Definition GetAllQueues (vh : VHost) : list Queue := (range_map (vh_Queues vh)).*2.
Definition ListVHosts (b : Broker) : list (string * VHost) := range_map (br_vhosts b).
Definition ListConnections (b : Broker) : list (string * Connection) := range_map (br_connInfos b).

(** ** Queues (queue.go) *)

Record QueueStats : Type := MkQueueStats { st_Messages : Z; st_UnackedCount : Z; st_ConsumerCount : Z }.

(** The pointers that are only shown; [MessagesReady] is [Messages] again,
    [MessagesPersistent] and [OwnerConnection] are never set. *)
Record QueueDTO : Type := MkQueueDTO {
  qd_VHost : string;
  qd_Name : string;
  qd_Messages : Z;
  qd_MessagesUnacked : Z;
  qd_MessagesTotal : Z;
  qd_Consumers : Z;
  qd_Durable : bool;
  qd_AutoDelete : bool;
  qd_Exclusive : bool;
  qd_Arguments : option table;
  qd_DeadLetterExchange : option string;
  qd_DeadLetterRoutingKey : option string;
  qd_MessageTTL : option Z;
  qd_MaxLength : option Z;
  qd_MaxPriority : option Z;
}.

(** Conversions of Go's integers; [float_to] is what a float64 converts to, which
    Go leaves open when it does not fit. *)
Definition int32 (z : Z) : Z := (z + 2 ^ 31) mod 2 ^ 32 - 2 ^ 31.
Definition uint8 (z : Z) : Z := z mod 2 ^ 8.

Section queues.
(** The metrics collector, if there is one, and the clock; the conversion of floats. *)
Variables (collector : option Collector) (now : Z) (float_to : Z → Z → Z).

Definition toInt32Pointer (val : value) : option Z :=
  match val with
  | VI32 v => Some v
  | VInt v | VI64 v => Some (int32 v)
  | VF64 bits => Some (float_to 32 bits)
  | _ => None
  end.
Definition toInt64Pointer (val : value) : option Z :=
  match val with
  | VI64 v | VI32 v | VInt v => Some v
  | VF64 bits => Some (float_to 64 bits)
  | _ => None
  end.
Definition toUint8Pointer (val : value) : option Z :=
  match val with
  | VU8 v => Some v
  | VInt v | VI32 v | VI64 v => Some (uint8 v)
  | VF64 bits => Some (float_to 8 bits)
  | _ => None
  end.

(** [val != nil && val != 0]: only the [int] 0 equals the constant. *)
Definition shown_number (to : value → option Z) (name : string) (args : option table) : option Z :=
  match args_get name args with
  | None | Some VNil | Some (VInt 0) => None
  | Some v => to v
  end.
Definition shown_string (name : string) (args : option table) : option string :=
  match args_get name args with
  | Some (VStr s) => if decide (s = "") then None else Some s
  | _ => None
  end.

(** The collector counts by the name of the queue alone. *)
Definition fetchQueueStatistics (vh : VHost) (queue : Queue) : QueueStats :=
  match (c ← collector; GetQueueSnapshot (q_Name queue) now c) with
  | Some snapshot => MkQueueStats (qs_MessageCount snapshot) (qs_UnackedCount snapshot) (qs_ConsumerCount snapshot)
  | None =>
      MkQueueStats (Len queue) (default 0 (GetUnackedMessageCountsAllQueues vh !! q_Name queue))
        (default 0 (GetConsumerCountsAllQueues vh !! q_Name queue))
  end.

Definition queueToDTO (vhName : string) (queue : Queue) (stats : QueueStats) : QueueDTO :=
  let props := q_Props queue in
  let args := qp_Arguments props in
  MkQueueDTO vhName (q_Name queue) (st_Messages stats) (st_UnackedCount stats)
    (st_Messages stats + st_UnackedCount stats) (st_ConsumerCount stats)
    (qp_Durable props) (qp_AutoDelete props) (qp_Exclusive props) args
    (shown_string "x-dead-letter-exchange" args) (shown_string "x-dead-letter-routing-key" args)
    (shown_number toInt64Pointer "x-message-ttl" args) (shown_number toInt32Pointer "x-max-length" args)
    (shown_number toUint8Pointer "x-max-priority" args).

Definition sortQueues : comparator QueueDTO :=
  compareBy [key String.compare qd_VHost; key String.compare qd_Name].

Definition queues_of (nv : string * VHost) : list QueueDTO :=
  (λ queue, queueToDTO nv.1 queue (fetchQueueStatistics nv.2 queue)) <$> GetAllQueues nv.2.
Definition ListQueues (b : Broker) : list QueueDTO := SortStableFunc sortQueues (ListVHosts b ≫= queues_of).

Definition ShowQueue (vhName queueName : string) : brk QueueDTO := λ b,
  match br_vhosts b !! vhName with
  | None => Ok (b, Err (Fails "vhost not found"))
  | Some v =>
      match GetQueue queueName v with
      | None => Ok (b, Err (Fails "queue not found in vhost"))
      | Some queue => Ok (b, Ok (queueToDTO vhName queue (fetchQueueStatistics v queue)))
      end
  end.
End queues.

(** ** Exchanges and bindings (exchange.go, binding.go) *)

(** The arguments and the statistics are left out of a list. *)
Record ExchangeDTO : Type := MkExchangeDTO {
  xd_VHost : string;
  xd_Name : string;
  xd_Type : string;
  xd_Durable : bool;
  xd_AutoDelete : bool;
  xd_Internal : bool;
  xd_Arguments : option table;
}.
Definition sortExchanges : comparator ExchangeDTO :=
  compareBy [key String.compare xd_VHost; key String.compare xd_Name].
Definition exchange_row (vhName : string) (e : Exchange) : ExchangeDTO :=
  let props := ex_Props e in
  MkExchangeDTO vhName (NameOrAlias e) (ex_Typ e) (ep_Durable props) (ep_AutoDelete props) (ep_Internal props) None.
Definition exchanges_of (nv : string * VHost) : list ExchangeDTO := exchange_row nv.1 <$> GetAllExchanges nv.2.
Definition ListExchanges (b : Broker) : list ExchangeDTO := SortStableFunc sortExchanges (ListVHosts b ≫= exchanges_of).

(** [DestinationType] and [PropertiesKey] are never set. *)
Record BindingDTO : Type := MkBindingDTO {
  bd_VHost : string;
  bd_Source : string;
  bd_Destination : string;
  bd_RoutingKey : string;
  bd_Arguments : option table;
}.
Definition binding_row (vhName source : string) (b : Binding) : BindingDTO :=
  MkBindingDTO vhName source (b_Queue b) (b_RoutingKey b) (b_Args b).
Definition listExchangeBindings (vhName : string) (e : Exchange) : list BindingDTO :=
  kbs ← range_map (ex_Bindings e); binding_row vhName (NameOrAlias e) <$> kbs.2.
Definition collectExchangeBindings (nv : string * VHost) : list BindingDTO :=
  GetAllExchanges nv.2 ≫= listExchangeBindings nv.1.
Definition ListBindings (b : Broker) : list BindingDTO := ListVHosts b ≫= collectExchangeBindings.
Definition ListQueueBindings (vhName queueName : string) (v : VHost) : list BindingDTO :=
  filter (λ dto, bd_Destination dto = queueName) (collectExchangeBindings (vhName, v)).

(** ** Consumers (consumer.go) *)

Record ConsumerDTO : Type := MkConsumerDTO {
  cd_ConsumerTag : string;
  cd_QueueName : string;
  cd_Number : Z;
  cd_ConnectionName : string;
  cd_User : string;
  cd_AckRequired : bool;
  cd_Exclusive : bool;
  cd_PrefetchCount : Z;
  cd_Arguments : option table;
}.

(** The channel's details come from the first connection to the virtual host,
    and are empty when there is none. *)
Definition consumerToDTO (b : Broker) (vhName queueName : string) (c : Consumer) : ConsumerDTO :=
  let conn := head (filter (λ nc : string * Connection, ci_VHostName (cn_Info nc.2) = vhName) (ListConnections b)) in
  let '(number, name, user) :=
    match conn with
    | Some (name, conn) => (c_Channel c, name, ci_Username (cn_Info conn))
    | None => (0, "", "")
    end in
  MkConsumerDTO (c_Tag c) queueName number name user (negb (c_NoAck c)) (c_Exclusive c) (c_PrefetchCount c)
    (c_Arguments c).
Definition ListVhostConsumers (b : Broker) (nv : string * VHost) : list ConsumerDTO :=
  queue ← (range_map (ix_ByQueue (vh_index nv.2))).*1; consumerToDTO b nv.1 queue <$> GetConsumersByQueue queue nv.2.
Definition ListConsumers (b : Broker) : list ConsumerDTO := ListVHosts b ≫= ListVhostConsumers b.
Definition ListQueueConsumers (b : Broker) (nv : string * VHost) (queueName : string) : list ConsumerDTO :=
  consumerToDTO b nv.1 queueName <$> GetConsumersByQueue queueName nv.2.
End listing.

(** ** The list of queues *)

Lemma bind_perm {A B} (f g : A → list B) l l' : l ≡ₚ l' → (∀ x, f x ≡ₚ g x) → l ≫= f ≡ₚ l' ≫= g.
Proof.
  intros Hl Hf. induction Hl as [|x l l' _ IH|x y l|l1 l2 l3 _ IH1 _ IH2]; cbn.
  - done.
  - by rewrite Hf, IH.
  - rewrite !app_assoc, (Permutation_app_comm (f y) (f x)). rewrite !Hf.
    f_equiv. clear -Hf. induction l as [|z l IH]; [done|]. cbn. by rewrite Hf, IH.
  - rewrite IH1. rewrite <- IH2. clear -Hf. induction l2 as [|z l IH]; [done|]. cbn. by rewrite Hf, IH.
Qed.

Section unacked.
(** Every delivery that is not acknowledged, on any channel of the vhost. *)
Definition all_unacked (vh : VHost) : list DeliveryRecord :=
  (map_to_list (vh_ChannelDeliveries vh)).*2 ≫= channel_records.
Definition unacked_of (queue : string) (vh : VHost) : list DeliveryRecord :=
  filter (λ r, dr_QueueName r = queue) (all_unacked vh).

Lemma count_queues_spec names counts queue :
  default 0 (foldl count_queue counts names !! queue) =
  default 0 (counts !! queue) + Z.of_nat (length (filter (λ n, n = queue) names)).
Proof.
  revert counts. induction names as [|n names IH]; intros counts; [cbn; lia|]. cbn [foldl]. rewrite IH, filter_cons.
  unfold count_queue. destruct (decide (n = queue)) as [->|Hn].
  - rewrite lookup_insert_eq. cbn [from_option id length]. lia.
  - rewrite lookup_insert_ne by done. lia.
Qed.

Lemma unacked_counts_spec vh queue :
  default 0 (GetUnackedMessageCountsAllQueues vh !! queue) = Z.of_nat (length (unacked_of queue vh)).
Proof.
  unfold GetUnackedMessageCountsAllQueues, unacked_of, all_unacked.
  assert (Hg : ∀ chs counts, default 0 (foldl (λ counts ch, foldl count_queue counts (dr_QueueName <$> channel_records ch))
      counts chs !! queue) =
    default 0 (counts !! queue) + Z.of_nat (length (filter (λ r, dr_QueueName r = queue) (chs ≫= channel_records)))).
  { induction chs as [|ch chs IH]; intros counts; [cbn; lia|].
    cbn [foldl mbind list_bind]. rewrite IH, count_queues_spec, filter_app, length_app.
    assert (length (filter (λ n, n = queue) (dr_QueueName <$> channel_records ch)) =
            length (filter (λ r, dr_QueueName r = queue) (channel_records ch))) as ->; [|lia].
    generalize (channel_records ch). intros l. clear. induction l as [|r l IH]; [done|].
    rewrite fmap_cons, !filter_cons. case_decide; [|done]. cbn [length]. by f_equal. }
  rewrite Hg, lookup_empty. cbn. lia.
Qed.
End unacked.

Section canonical.
Variables (collector : option Collector) (now : Z) (float_to : Z → Z → Z) (b : Broker).
Hypothesis Hwf : ∀ n v, br_vhosts b !! n = Some v → wf_names v.

Definition row_key (dto : QueueDTO) : string * string := (qd_VHost dto, qd_Name dto).
(** The queues of the broker, by vhost and name. *)
Definition queue_at (vhName name : string) (v : VHost) (q : Queue) : Prop :=
  br_vhosts b !! vhName = Some v ∧ vh_Queues v !! name = Some q.

Lemma elem_of_rows `{MapOrder} dto : dto ∈ ListVHosts b ≫= queues_of collector now float_to ↔
  ∃ n v name q, queue_at n name v q ∧ dto = queueToDTO float_to n q (fetchQueueStatistics collector now v q).
Proof.
  unfold ListVHosts, queues_of, GetAllQueues, queue_at. rewrite list_elem_of_bind. split.
  - intros ([n v] & Hd & Hn). rewrite range_map_visits, elem_of_map_to_list in Hn.
    apply list_elem_of_fmap in Hd as (q & -> & ([name q'] & -> & Hq)%list_elem_of_fmap).
    rewrite range_map_visits, elem_of_map_to_list in Hq. by exists n, v, name, q'.
  - intros (n & v & name & q & (Hv & Hq) & ->). exists (n, v).
    split; [|by rewrite range_map_visits, elem_of_map_to_list].
    apply list_elem_of_fmap. exists q. split; [done|]. apply list_elem_of_fmap. exists (name, q).
    by rewrite range_map_visits, elem_of_map_to_list.
Qed.

Lemma row_key_inj `{MapOrder} d1 d2 :
  d1 ∈ ListVHosts b ≫= queues_of collector now float_to → d2 ∈ ListVHosts b ≫= queues_of collector now float_to →
  row_key d1 = row_key d2 → d1 = d2.
Proof.
  rewrite !elem_of_rows. intros (n1 & v1 & m1 & q1 & (Hv1 & Hq1) & ->) (n2 & v2 & m2 & q2 & (Hv2 & Hq2) & ->) [= -> Hm].
  assert (v1 = v2) as -> by congruence.
  destruct (wn_queue _ _ (Hwf _ _ Hv2) _ _ Hq1) as [<- _]. destruct (wn_queue _ _ (Hwf _ _ Hv2) _ _ Hq2) as [<- _].
  rewrite Hm in Hq1. by assert (q1 = q2) as -> by congruence.
Qed.

Lemma sortQueues_eq d1 d2 : sortQueues d1 d2 = Eq → row_key d1 = row_key d2.
Proof.
  unfold sortQueues, row_key, key. cbn.
  destruct (String.compare (qd_VHost d1) _) eqn:E1; [|done..].
  destruct (String.compare (qd_Name d1) _) eqn:E2; [|done..]. intros _.
  by apply String.compare_eq_iff in E1 as ->; apply String.compare_eq_iff in E2 as ->.
Qed.

(** C?. The list of queues.  [ListQueues] of a well-formed broker does not depend
    on the order in which Go visits its maps; it is sorted by virtual host and
    name; it has a row for every queue of every virtual host, and no other; and
    without metrics a row counts the messages ready and the deliveries that are
    not acknowledged on any channel of the queue's own virtual host. *)
Theorem queue_list_canonical (o1 o2 : MapOrder) :
  @ListQueues o1 collector now float_to b = @ListQueues o2 collector now float_to b ∧
  StronglySorted (λ d1 d2, sortQueues d1 d2 ≠ Gt) (@ListQueues o1 collector now float_to b) ∧
  (∀ dto, dto ∈ @ListQueues o1 collector now float_to b ↔
     ∃ n v name q, queue_at n name v q ∧ dto = queueToDTO float_to n q (fetchQueueStatistics collector now v q)) ∧
  (∀ v q, collector = None →
     fetchQueueStatistics collector now v q = MkQueueStats (Len q) (Z.of_nat (length (unacked_of (q_Name q) v)))
       (Z.of_nat (length (by_queue (vh_index v) (q_Name q))))).
Proof.
  unfold ListQueues. split_and!.
  - apply sort_canonical; [by apply _| |].
    + intros d1 d2 H1 H2 He. apply (row_key_inj (H := o1)); [done..|]. by apply sortQueues_eq.
    + apply bind_perm; [unfold ListVHosts; by rewrite !range_map_visits|]. intros [n v].
      unfold queues_of, GetAllQueues. by rewrite !range_map_visits.
  - apply sort_sorted. apply _.
  - intros dto. rewrite sort_perm by apply _. apply elem_of_rows.
  - intros v q ->. unfold fetchQueueStatistics. cbn. rewrite unacked_counts_spec. f_equal.
    unfold GetConsumerCountsAllQueues, by_queue. rewrite lookup_fmap.
    by destruct (ix_ByQueue (vh_index v) !! q_Name q).
Qed.
End canonical.

Section listing_sample.
#[local] Existing Instance sample_runtime.
#[local] Existing Instance sample_environment.

Definition sample_queues (names : list string) : VHost :=
  foldl (λ v name, (Lifecycle.CreateQueue [] name (Some (MkQueueProps false true false false None)) "conn-1" v).1)
    (new_vhost 100 10 true true true) names.
Definition two_vhosts : Broker :=
  MkBroker {["/" := sample_queues ["orders"; "bills"]; "shop" := sample_queues ["orders"]]} ∅ ∅ ∅ false 0 [].

Lemma sample_queues_wf names : wf_names (sample_queues names).
Proof.
  unfold sample_queues. apply (foldl_keeps wf_names); [|apply new_vhost_wf]. intros v name. apply CreateQueue_wf.
Qed.

Definition backwards : MapOrder.
Proof. refine {| range_map A m := reverse (map_to_list m) |}. intros A m. apply reverse_Permutation. Defined.

Lemma queue_list_canonical_witness :
  row_key <$> @ListQueues sample_order None 0 (λ _ z, z) two_vhosts = [("/", "bills"); ("/", "orders"); ("shop", "orders")] ∧
  @ListQueues sample_order None 0 (λ _ z, z) two_vhosts = @ListQueues backwards None 0 (λ _ z, z) two_vhosts.
Proof.
  split; [by vm_compute|]. apply (queue_list_canonical None 0 (λ _ z, z) two_vhosts).
  intros n v. unfold two_vhosts. cbn [br_vhosts]. rewrite lookup_insert_Some.
  intros [[_ <-]|[_ [_ <-]%lookup_singleton_Some]]; apply sample_queues_wf.
Defined.
End listing_sample.
