(* ===== verification/Definitions.v ===== *)
(** * Exporting and importing definitions: web/handlers/api/definitions.go

    [buildDefinitions] collects the virtual hosts, users, permissions, exchanges,
    queues and bindings of a broker and its user database, [applyDefinitions]
    makes them again through the management service.  The document is a value
    here: reading and writing its JSON is left out, so arguments come back as they
    were sent; so are the version it carries and failures of the database file.
    [Roundtrip] proves what an import of an export restores. *)

From stdpp Require Import base list gmap strings pretty.
From Stdlib Require Import ZArith Lia.
From Stdlib Require Import Strings.Byte.
From S2P Require Import Prelude Bytes Comparators RateTracker Collector Values Methods Handshake Users Args Queue.
From S2P Require Import Deliveries Consumers Json VHost Lifecycle Routing Declare Publish Broker Handlers Management Listing.

Local Open Scope Z_scope.
Local Open Scope string_scope.
Local Open Scope list_scope.

(** ** The document (models/definitions.go) *)

Record UserDefinition : Type := MkUserDefinition { ud_Name : string; ud_PasswordHash : string; ud_Tags : string }.
Record PermissionDefinition : Type := MkPermissionDefinition { pd_User : string; pd_VHost : string }.
Record ExchangeDefinition : Type := MkExchangeDefinition {
  xf_Name : string;
  xf_VHost : string;
  xf_Type : string;
  xf_Durable : bool;
  xf_AutoDelete : bool;
  xf_Internal : bool;
  xf_Arguments : option table;
}.
Record QueueDefinition : Type := MkQueueDefinition {
  qf_Name : string;
  qf_VHost : string;
  qf_Durable : bool;
  qf_AutoDelete : bool;
  qf_Arguments : option table;
}.
(** [DestinationType] is always empty. *)
Record BindingDefinition : Type := MkBindingDefinition {
  bf_Source : string;
  bf_VHost : string;
  bf_Destination : string;
  bf_RoutingKey : string;
  bf_Arguments : option table;
}.
Record DefinitionsDTO : Type := MkDefinitions {
  df_VHosts : list string;
  df_Users : list UserDefinition;
  df_Permissions : list PermissionDefinition;
  df_Exchanges : list ExchangeDefinition;
  df_Queues : list QueueDefinition;
  df_Bindings : list BindingDefinition;
}.
Record DefinitionsImportResponse : Type := MkImportResponse {
  ir_VHosts : Z;
  ir_Users : Z;
  ir_Permissions : Z;
  ir_Exchanges : Z;
  ir_Queues : Z;
  ir_Bindings : Z;
}.

(** The map of the handler, not [vhost.mandatoryExchanges]. *)
Definition mandatoryExchanges : list string := ["amq.default"; "amq.topic"; "amq.direct"; "amq.fanout"; ""].

(** ** Export *)

Section export.
Context `{MapOrder}.
Variables (collector : option Collector) (now : Z) (float_to : Z → Z → Z).

(** The rows of one virtual host, or of all when the scope is empty. *)
Definition in_scope (scope vhost : string) : bool := bool_decide (scope = "" ∨ vhost = scope).

Definition user_definition (d : db) (u : User) : res db_err UserDefinition :=
  role ← GetRoleByID (u_RoleID u) d;
  Ok (MkUserDefinition (u_Username u) (u_Password u) (r_Name role)).

Definition add_user_definition (d : db) (u : User) (defs : list UserDefinition) : res db_err (list UserDefinition) :=
  def ← user_definition d u; Ok (defs ++ [def]).

Definition exchange_definition (dto : ExchangeDTO) : ExchangeDefinition :=
  MkExchangeDefinition (xd_Name dto) (xd_VHost dto) (xd_Type dto) (xd_Durable dto) (xd_AutoDelete dto)
    (xd_Internal dto) (xd_Arguments dto).
Definition queue_definition (dto : QueueDTO) : QueueDefinition :=
  MkQueueDefinition (qd_Name dto) (qd_VHost dto) (qd_Durable dto) (qd_AutoDelete dto) (qd_Arguments dto).
Definition binding_definition (dto : BindingDTO) : BindingDefinition :=
  MkBindingDefinition (bd_Source dto) (bd_VHost dto) (bd_Destination dto) (bd_RoutingKey dto) (bd_Arguments dto).

Definition exported_exchange (scope : string) (dto : ExchangeDTO) : bool :=
  negb (bool_decide (xd_Name dto ∈ mandatoryExchanges)) && in_scope scope (xd_VHost dto).
Definition exported_binding (scope : string) (dto : BindingDTO) : bool :=
  negb (bool_decide (bd_Source dto ∈ mandatoryExchanges)) && in_scope scope (bd_VHost dto).

Definition buildDefinitions (b : Broker) (d : db) (scopeVHost : string) : res db_err DefinitionsDTO :=
  let vhosts := filter (λ n, in_scope scopeVHost n) (ListVHosts b).*1 in
  users ← (if decide (scopeVHost = "") then for_each (add_user_definition d) (GetUsersWithHashes d) [] else Ok []);
  let permissions := if decide (scopeVHost = "")
    then (λ p, MkPermissionDefinition (vp_Username p) (vp_VHost p)) <$> ListAllPermissions d else [] in
  Ok (MkDefinitions vhosts users permissions
    (exchange_definition <$> filter (exported_exchange scopeVHost) (ListExchanges b))
    (queue_definition <$> filter (λ q, in_scope scopeVHost (qd_VHost q)) (ListQueues collector now float_to b))
    (binding_definition <$> filter (exported_binding scopeVHost) (ListBindings b))).
End export.

(** ** Import *)

(** [strings.Contains], and [strings.ToLower] as far as an ASCII word can tell:
    the two letters outside ASCII with a lower case in it are U+0130 and U+212A. *)
Fixpoint Contains (s sub : string) : bool :=
  String.prefix sub s || match s with EmptyString => false | String _ s => Contains s sub end.
Fixpoint to_lower (s : list byte) : list byte :=
  match s with
  | [] => []
  | xc4 :: xb0 :: s => x69 :: to_lower s
  | xe2 :: x84 :: xaa :: s => x6b :: to_lower s
  | x :: s =>
      let n := Byte.to_N x in
      (if (65 <=? n)%N && (n <=? 90)%N then default x (Byte.of_N (n + 32)) else x) :: to_lower s
  end.
Definition ToLower (s : string) : string := string_of (to_lower (bytes_of s)).

Inductive import_err : Type := BrokerFails (e : broker_err) | DatabaseFails (e : db_err).

(** An import changes the broker and the database; what it has done stays done
    when it fails. *)
Definition imp (A : Type) : Type := db → Broker → res stop (db * Broker * res import_err A).
#[export] Instance imp_ret : MRet imp := λ A a d b, Ok (d, b, Ok a).
#[export] Instance imp_bind : MBind imp := λ A B f m d b,
  match m d b with
  | Err s => Err s
  | Ok (d, b, Err e) => Ok (d, b, Err e)
  | Ok (d, b, Ok a) => f a d b
  end.

Section import.
Context `{Runtime, Environment}.
(** A new virtual host, and whether the metadata of one can be saved; whether
    SQLite enforces foreign keys. *)
Variables (options : VHost) (saved : string → bool) (foreign_keys : bool).

Definition isAlreadyExists (e : broker_err) : bool :=
  Contains (error_text e) "already exists" || Contains (error_text e) "UNIQUE constraint".

(** The loop over one kind of entry, with the number of those created. *)
Fixpoint each {A} (f : A → imp bool) (l : list A) : imp Z :=
  match l with
  | [] => mret 0
  | x :: l => created ← f x; n ← each f l; mret ((if created : bool then 1 else 0) + n)
  end.

Definition unless_exists {A} (m : brk A) : imp bool := λ d b,
  match m b with
  | Err s => Err s
  | Ok (b, Ok _) => Ok (d, b, Ok true)
  | Ok (b, Err e) => Ok (d, b, if isAlreadyExists e then Ok false else Err (BrokerFails e))
  end.
Definition in_database (f : db → db * res db_err unit) : imp bool := λ d b,
  match f d with
  | (d, Ok _) => Ok (d, b, Ok true)
  | (d, Err e) => Ok (d, b, Err (DatabaseFails e))
  end.

Definition import_vhost (name : string) : imp bool := unless_exists (CreateVHost options (saved name) name).
Definition role_of_tags (tags : string) : Z :=
  let tag := ToLower tags in
  if decide (tag = "admin" ∨ tag = "administrator") then 1 else if decide (tag = "guest") then 3 else 2.
Definition import_user (u : UserDefinition) : imp bool :=
  in_database (AddUserWithHash foreign_keys (ud_Name u) (ud_PasswordHash u) (role_of_tags (ud_Tags u))).
Definition import_permission (p : PermissionDefinition) : imp bool :=
  in_database (GrantVHostAccess foreign_keys (pd_User p) (pd_VHost p)).

Definition target (scope vhost : string) : string := if decide (scope = "") then vhost else scope.
Definition exchange_request (ex : ExchangeDefinition) : CreateExchangeRequest :=
  MkCreateExchangeRequest (xf_Type ex) false (xf_Durable ex) (xf_AutoDelete ex) false (xf_Arguments ex).
Definition queue_request (q : QueueDefinition) : CreateQueueRequest :=
  MkCreateQueueRequest false (qf_Durable q) (qf_AutoDelete q) (qf_Arguments q) None None None None.
Definition binding_request (scope : string) (bd : BindingDefinition) : BindingRequest :=
  MkBindingRequest (target scope (bf_VHost bd)) (bf_Source bd) (bf_Destination bd) (bf_RoutingKey bd) (bf_Arguments bd).
Definition import_exchange (scope : string) (ex : ExchangeDefinition) : imp bool :=
  unless_exists (CreateExchange (target scope (xf_VHost ex)) (xf_Name ex) (exchange_request ex)).
Definition import_queue (scope : string) (q : QueueDefinition) : imp bool :=
  unless_exists (CreateQueue (target scope (qf_VHost q)) (qf_Name q) (queue_request q)).
Definition import_binding (scope : string) (bd : BindingDefinition) : imp bool :=
  unless_exists (CreateBinding (binding_request scope bd)).

Definition import_accounts (defs : DefinitionsDTO) : imp (Z * Z * Z) :=
  vhosts ← each import_vhost (df_VHosts defs);
  users ← each import_user (df_Users defs);
  permissions ← each import_permission (df_Permissions defs);
  mret (vhosts, users, permissions).

Definition applyDefinitions (defs : DefinitionsDTO) (scopeVHost : string) : imp DefinitionsImportResponse :=
  accounts ← (if decide (scopeVHost = "") then import_accounts defs else mret (0, 0, 0));
  let '(vhosts, users, permissions) := accounts in
  exchanges ← each (import_exchange scopeVHost) (df_Exchanges defs);
  queues ← each (import_queue scopeVHost) (df_Queues defs);
  bindings ← each (import_binding scopeVHost) (df_Bindings defs);
  mret (MkImportResponse vhosts users permissions exchanges queues bindings).
End import.
