(* ===== verification/Roundtrip.v ===== *)
(** * Importing an export: what [Definitions] restores

    An import is three loops whose bodies each change one virtual host
    ([each_vhosts]); what the entries of one virtual host do together is a fold
    ([put_exchanges], [put_queues], [put_bindings]), and filing the bindings of an
    exchange again gives the same lists ([bind_keys]).  [definitions_roundtrip] is
    the whole import; the sample at the end shows what it does not restore. *)

From stdpp Require Import base list gmap strings pretty.
From Stdlib Require Import ZArith Lia.
From Stdlib Require Import Strings.Byte.
From S2P Require Import Prelude Bytes Comparators RateTracker Collector Values Methods Handshake Users Args Queue.
From S2P Require Import Deliveries Consumers Json VHost Lifecycle Routing Declare Publish Broker Handlers Management Listing Definitions.

Local Open Scope Z_scope.
Local Open Scope string_scope.
Local Open Scope list_scope.

(** ** Loops over several virtual hosts *)

Lemma filter_none {A} (P : A → Prop) `{∀ x, Decision (P x)} (l : list A) : (∀ x, x ∈ l → ¬ P x) → filter P l = [].
Proof.
  induction l as [|x l IH]; intros Hl; [done|]. rewrite filter_cons, decide_False by (apply Hl; by left).
  apply IH. intros y Hy. apply Hl. by right.
Qed.
Lemma filter_whole {A} (P : A → Prop) `{∀ x, Decision (P x)} (l : list A) : (∀ x, x ∈ l → P x) → filter P l = l.
Proof.
  induction l as [|x l IH]; intros Hl; [done|]. rewrite filter_cons, decide_True by (apply Hl; by left).
  f_equal. apply IH. intros y Hy. apply Hl. by right.
Qed.

(** The elements of a nested loop that come from one element of the outer one. *)
Lemma filter_bind_key {A B K} `{EqDecision K} (f : A → list B) (ka : A → K) (kb : B → K) l x :
  NoDup (ka <$> l) → x ∈ l → (∀ y z, z ∈ f y → kb z = ka y) →
  filter (λ z, kb z = ka x) (l ≫= f) = f x.
Proof.
  intros Hnd Hx Hk. induction l as [|y l IH]; [by apply not_elem_of_nil in Hx|].
  apply NoDup_cons in Hnd as [Hy Hnd]. cbn [mbind list_bind]. rewrite filter_app.
  assert (Hall : ∀ y, ka y ≠ ka x → filter (λ z, kb z = ka x) (f y) = []).
  { intros y' Hne. apply filter_none. intros z Hz. by rewrite (Hk y' z Hz). }
  apply elem_of_cons in Hx as [->|Hx].
  - assert (filter (λ z, kb z = ka y) (l ≫= f) = []) as ->.
    { apply filter_none. intros z (y' & Hz & Hy')%list_elem_of_bind.
      rewrite (Hk y' z Hz). intros E. apply Hy. rewrite <- E. by apply list_elem_of_fmap_2. }
    rewrite app_nil_r. apply filter_whole. intros z Hz. by apply Hk.
  - rewrite (Hall y), IH; [done..|]. intros E. apply Hy. rewrite E. by apply list_elem_of_fmap_2.
Qed.

(** A loop whose bodies each change one virtual host changes every virtual host
    by its own entries, in their order. *)
Section each.
Context {A : Type} (f : A → imp bool) (vh : A → string) (put : VHost → A → VHost) (safe : VHost → A → Prop).
Definition entries_of (n : string) (l : list A) : list A := filter (λ x, vh x = n) l.
Definition put_all (n : string) (l : list A) (v : VHost) : VHost := foldl put v (entries_of n l).

Hypothesis body : ∀ x d b v, br_vhosts b !! vh x = Some v → safe v x →
  ∃ b' created, f x d b = Ok (d, b', Ok created) ∧ br_vhosts b' = <[vh x := put v x]> (br_vhosts b).

Lemma each_vhosts l d b :
  (∀ x, x ∈ l → is_Some (br_vhosts b !! vh x)) →
  (∀ n v l1 x l2, br_vhosts b !! n = Some v → entries_of n l = l1 ++ x :: l2 → safe (foldl put v l1) x) →
  ∃ b' n, each f l d b = Ok (d, b', Ok n) ∧ ∀ n, br_vhosts b' !! n = put_all n l <$> br_vhosts b !! n.
Proof.
  revert b. induction l as [|x l IH]; intros b Hin Hsafe.
  { exists b, 0. split; [done|]. intros n. unfold put_all. cbn. by destruct (br_vhosts b !! n). }
  destruct (Hin x) as [v Hv]; [by left|].
  destruct (body x d b v Hv) as (b1 & created & Hx & Hb1).
  { apply (Hsafe (vh x) v [] x (entries_of (vh x) l)); [done|]. unfold entries_of. by rewrite filter_cons, decide_True. }
  destruct (IH b1) as (b2 & n & Hl & Hb2).
  - intros y Hy. rewrite Hb1. destruct (decide (vh x = vh y)) as [->|]; [by rewrite lookup_insert_eq|].
    rewrite lookup_insert_ne by done. apply Hin. by right.
  - intros n u l1 y l2. rewrite Hb1, lookup_insert_Some. intros [[<- <-]|[Hne Hu]] He.
    + apply (Hsafe (vh x) v (x :: l1) y l2 Hv). unfold entries_of in *. by rewrite filter_cons, decide_True, He.
    + apply (Hsafe n u l1 y l2 Hu). unfold entries_of in *. by rewrite filter_cons, decide_False.
  - cbn [each]. unfold mbind, imp_bind. rewrite Hx. unfold imp_bind in Hl. rewrite Hl.
    eexists b2, _. split; [done|]. intros m. rewrite Hb2, Hb1. unfold put_all, entries_of.
    rewrite filter_cons. destruct (decide (vh x = m)) as [<-|Hne].
    + by rewrite lookup_insert_eq, Hv.
    + by rewrite lookup_insert_ne.
Qed.
End each.

(** ** What one entry does *)

Section entries.
Context `{Runtime, Environment}.

(** *** Exchanges *)

Definition exchange_props (ex : ExchangeDefinition) : ExchangeProperties :=
  MkExchangeProps false (xf_Durable ex) (xf_AutoDelete ex) false false (xf_Arguments ex).
Definition new_exchange (ex : ExchangeDefinition) : Exchange :=
  NewExchange (xf_Name ex) (xf_Type ex) (Some (exchange_props ex)).
Definition put_exchange (v : VHost) (ex : ExchangeDefinition) : VHost :=
  (VHost.CreateExchange (xf_Name ex) (xf_Type ex) (Some (exchange_props ex)) v).1.
Definition can_put_exchange (v : VHost) (ex : ExchangeDefinition) : Prop :=
  vh_Exchanges v !! xf_Name ex = None ∧ xf_Name ex ≠ "" ∧ is_Some (vh_Exchanges v !! DEFAULT_EXCHANGE).

Lemma put_exchange_new v ex : vh_Exchanges v !! xf_Name ex = None →
  VHost.CreateExchange (xf_Name ex) (xf_Type ex) (Some (exchange_props ex)) v = (put_exchange v ex, Ok tt).
Proof. intros Hn. unfold put_exchange, VHost.CreateExchange. by rewrite Hn. Qed.

Lemma put_exchange_lookup v ex n :
  vh_Queues (put_exchange v ex) = vh_Queues v ∧
  vh_Exchanges (put_exchange v ex) !! n =
    if decide (n = xf_Name ex) then Some (default (new_exchange ex) (vh_Exchanges v !! n)) else vh_Exchanges v !! n.
Proof.
  unfold put_exchange, VHost.CreateExchange. cbn zeta. cbn [ep_Passive exchange_props].
  destruct (vh_Exchanges v !! xf_Name ex) as [e|] eqn:He.
  - assert (∀ u : handled unit, u.1 = v → vh_Queues u.1 = vh_Queues v ∧ vh_Exchanges u.1 !! n =
      if decide (n = xf_Name ex) then Some (default (new_exchange ex) (vh_Exchanges v !! n)) else vh_Exchanges v !! n)
      as Hsame.
    { intros u ->. split; [done|]. case_decide as Hn; [by rewrite Hn, He|done]. }
    apply Hsame. by repeat case_decide.
  - cbn [fst]. assert (∀ c, vh_Queues (persist_if (ep_Durable (exchange_props ex)) c
        (set_Exchanges (<[xf_Name ex := new_exchange ex]> (vh_Exchanges v)) v)) = vh_Queues v ∧
      vh_Exchanges (persist_if (ep_Durable (exchange_props ex)) c
        (set_Exchanges (<[xf_Name ex := new_exchange ex]> (vh_Exchanges v)) v)) = <[xf_Name ex := new_exchange ex]> (vh_Exchanges v))
      as Hp by (intros c; unfold persist_if; by destruct (ep_Durable _)).
    split; [apply Hp|]. unfold new_exchange in Hp. rewrite (proj2 (Hp _)). case_decide as Hn.
    + by rewrite Hn, lookup_insert_eq, He.
    + by rewrite lookup_insert_ne.
Qed.

Lemma import_exchange_run ex d b v : br_vhosts b !! xf_VHost ex = Some v → can_put_exchange v ex →
  ∃ b' created, import_exchange "" ex d b = Ok (d, b', Ok created) ∧
    br_vhosts b' = <[xf_VHost ex := put_exchange v ex]> (br_vhosts b).
Proof.
  intros Hv (Hn & Hne & Hd). unfold import_exchange, unless_exists, CreateExchange, target, with_vhost, read_vhost.
  rewrite decide_True by done. cbn [exchange_request cx_ExchangeType cx_Passive cx_Durable cx_AutoDelete cx_Arguments].
  change (MkExchangeProps false (xf_Durable ex) (xf_AutoDelete ex) false false (xf_Arguments ex)) with (exchange_props ex).
  rewrite bind_eq. unfold on_vhost at 1. rewrite Hv, (put_exchange_new v ex Hn). cbn [map_err].
  rewrite bind_eq. unfold on_vhost at 1. cbn [br_vhosts set_vhosts Broker.set_vhosts]. rewrite lookup_insert_eq. cbn [map_err].
  assert (is_Some (GetExchange (xf_Name ex) (put_exchange v ex))) as [e ->].
  { unfold GetExchange, resolveExchangeAlias. destruct Hd as [e He]. case_decide as Ha.
    - rewrite (proj2 (put_exchange_lookup v ex _)). case_decide; [by eexists|]. by exists e.
    - rewrite (proj2 (put_exchange_lookup v ex _)), decide_True by done. by eexists. }
  rewrite ret_eq. eexists _, true. split; [done|]. cbn. by rewrite insert_insert_eq.
Qed.

(** *** Queues *)

Definition queue_props (q : QueueDefinition) : QueueProperties := createQueueProperties (queue_request q).
Definition put_queue (v : VHost) (q : QueueDefinition) : VHost :=
  (BindToDefaultExchange (qf_Name q) (create_queue (qf_Name q) (Some (queue_props q)) MANAGEMENT_CONNECTION_ID v).1).1.
Definition has_default (v : VHost) : Prop := ∃ e, vh_Exchanges v !! DEFAULT_EXCHANGE = Some e ∧ ex_Typ e = DIRECT.
Definition can_put_queue (v : VHost) (q : QueueDefinition) : Prop :=
  qf_Name q ≠ "" ∧ vh_Queues v !! qf_Name q = None ∧ has_default v.

(** The exchange after a binding: the same one when an equal binding is there. *)
Definition bound (key queue : string) (args : option table) (e : Exchange) : Exchange :=
  default e (add_binding (filed_key e key) (MkBinding queue key args) queue (filed_key e key) args e).
Lemma bound_same key queue args e :
  ex_Name (bound key queue args e) = ex_Name e ∧ ex_Typ (bound key queue args e) = ex_Typ e ∧
  ex_Props (bound key queue args e) = ex_Props e.
Proof. unfold bound, add_binding. by case_match. Qed.

Lemma bind_run s q k a conn v e queue :
  vh_Exchanges v !! resolveExchangeAlias s = Some e → vh_Queues v !! q = Some queue → supported (ex_Typ e) →
  (conn = INTERNAL_CONN_ID ∨ qp_Exclusive (q_Props queue) = false) →
  ∃ v', BindQueue s q k a conn v = (v', Ok tt) ∧ vh_Queues v' = vh_Queues v ∧
    vh_Exchanges v' = <[resolveExchangeAlias s := bound k q a e]> (vh_Exchanges v).
Proof.
  intros He Hq Hs Hx. pose proof supported_neq as (Hfd & Htd & Htf). unfold BindQueue, bound. cbn zeta. rewrite He, Hq.
  assert ((if decide (conn ≠ INTERNAL_CONN_ID) then validateQueueOwnership queue conn QUEUE QUEUE_BIND else Ok tt) = Ok tt) as ->.
  { case_decide; [|done]. destruct Hx as [->|Hx]; [done|]. unfold validateQueueOwnership.
    rewrite decide_False; [done|]. rewrite Hx. by intros [? _]. }
  assert (∀ kk, ∃ v', (match add_binding kk (MkBinding q k a) q kk a e with
      | None => (v, Ok tt)
      | Some e' => (persist_if (ep_Durable (ex_Props e) && qp_Durable (q_Props queue))
          (SaveBindingState (resolveExchangeAlias s) q kk a)
          (set_Exchanges (<[resolveExchangeAlias s := e']> (vh_Exchanges v)) v), Ok tt)
      end : handled unit) = (v', Ok tt) ∧ vh_Queues v' = vh_Queues v ∧
      vh_Exchanges v' = <[resolveExchangeAlias s := default e (add_binding kk (MkBinding q k a) q kk a e)]> (vh_Exchanges v))
    as Hb.
  { intros kk. destruct (add_binding _ _ _ _ _ _) as [e'|]; eexists; (split; [done|]).
    - unfold persist_if. by destruct (_ && _).
    - split; [done|]. cbn. by rewrite insert_id. }
  unfold filed_key. destruct Hs as [Hs|[Hs|Hs]]; rewrite Hs in *.
  - rewrite decide_True, decide_False by done. apply Hb.
  - rewrite decide_False, !decide_True by done. apply Hb.
  - rewrite !decide_False, decide_True by done. apply Hb.
Qed.

Lemma put_queue_run v q : can_put_queue v q →
  Lifecycle.CreateQueue [] (qf_Name q) (Some (queue_props q)) MANAGEMENT_CONNECTION_ID v =
    create_queue (qf_Name q) (Some (queue_props q)) MANAGEMENT_CONNECTION_ID v ∧
  BindToDefaultExchange (qf_Name q) (create_queue (qf_Name q) (Some (queue_props q)) MANAGEMENT_CONNECTION_ID v).1 =
    (put_queue v q, Ok tt) ∧
  vh_Queues (put_queue v q) =
    <[qf_Name q := declared_queue (qf_Name q) (queue_props q) MANAGEMENT_CONNECTION_ID v]> (vh_Queues v) ∧
  has_default (put_queue v q) ∧
  ∀ n, n ≠ DEFAULT_EXCHANGE → vh_Exchanges (put_queue v q) !! n = vh_Exchanges v !! n.
Proof.
  intros (Hne & Hq & (e & He & Ht)). split.
  { unfold Lifecycle.CreateQueue, retrievePassiveQueue. rewrite decide_False by done.
    cbn [queue_props createQueueProperties qp_Passive queue_request cq_Passive]. by rewrite Hq. }
  set (v1 := (create_queue (qf_Name q) (Some (queue_props q)) MANAGEMENT_CONNECTION_ID v).1).
  assert (vh_Exchanges v1 = vh_Exchanges v ∧ vh_Queues v1 =
    <[qf_Name q := declared_queue (qf_Name q) (queue_props q) MANAGEMENT_CONNECTION_ID v]> (vh_Queues v)) as [Hx1 Hq1].
  { unfold v1, create_queue. cbn [fst default]. unfold persist_if. by destruct (qp_Durable _). }
  destruct (bind_run DEFAULT_EXCHANGE (qf_Name q) (qf_Name q) None INTERNAL_CONN_ID v1 e
    (declared_queue (qf_Name q) (queue_props q) MANAGEMENT_CONNECTION_ID v)) as (v2 & Hb & Hq2 & Hx2).
  - by rewrite Hx1.
  - by rewrite Hq1, lookup_insert_eq.
  - by left.
  - by left.
  - assert (put_queue v q = v2) as -> by (unfold put_queue; fold v1; unfold BindToDefaultExchange; by rewrite Hb).
    split; [exact Hb|]. split; [by rewrite Hq2, Hq1|]. change (resolveExchangeAlias DEFAULT_EXCHANGE) with DEFAULT_EXCHANGE in Hx2.
    rewrite Hx1 in Hx2. split.
    + eexists. rewrite Hx2, lookup_insert_eq. split; [done|]. rewrite <- Ht. apply bound_same.
    + intros n Hn. by rewrite Hx2, lookup_insert_ne.
Qed.

Lemma import_queue_run q d b v : br_vhosts b !! qf_VHost q = Some v → can_put_queue v q →
  ∃ b' created, import_queue "" q d b = Ok (d, b', Ok created) ∧
    br_vhosts b' = <[qf_VHost q := put_queue v q]> (br_vhosts b).
Proof.
  intros Hv Hp. destruct (put_queue_run v q Hp) as (Hc & Hb & _). unfold import_queue, unless_exists, CreateQueue, target.
  rewrite decide_True by done. fold (queue_props q). rewrite bind_fresh, bind_eq. unfold on_vhost at 1.
  cbn [br_vhosts set_next]. rewrite Hv.
  assert (∀ l, Lifecycle.CreateQueue l (qf_Name q) (Some (queue_props q)) MANAGEMENT_CONNECTION_ID v =
    create_queue (qf_Name q) (Some (queue_props q)) MANAGEMENT_CONNECTION_ID v) as Hl.
  { intros l. rewrite <- Hc. unfold Lifecycle.CreateQueue. by rewrite !decide_False by apply Hp. }
  rewrite Hl. destruct (create_queue _ _ _ v) as [v1 r] eqn:E.
  assert (r = Ok (declared_queue (qf_Name q) (queue_props q) MANAGEMENT_CONNECTION_ID v)) as ->
    by (unfold create_queue in E; by injection E as _ <-).
  cbn [map_err fst] in *. rewrite bind_eq. unfold on_vhost at 1. cbn [br_vhosts Broker.set_vhosts].
  rewrite lookup_insert_eq. change (q_Name (declared_queue _ _ _ _)) with (qf_Name q). rewrite Hb. cbn [map_err].
  rewrite ret_eq. eexists _, true. split; [done|]. cbn. by rewrite insert_insert_eq.
Qed.

(** *** Bindings *)

Definition put_binding (v : VHost) (bd : BindingDefinition) : VHost :=
  (BindQueue (bf_Source bd) (bf_Destination bd) (bf_RoutingKey bd) (bf_Arguments bd) MANAGEMENT_CONNECTION_ID v).1.
Definition can_put_binding (v : VHost) (bd : BindingDefinition) : Prop :=
  ∃ e q, vh_Exchanges v !! resolveExchangeAlias (bf_Source bd) = Some e ∧ vh_Queues v !! bf_Destination bd = Some q ∧
    supported (ex_Typ e) ∧ qp_Exclusive (q_Props q) = false.

Lemma put_binding_run v bd : can_put_binding v bd →
  ∃ e, vh_Exchanges v !! resolveExchangeAlias (bf_Source bd) = Some e ∧
    BindQueue (bf_Source bd) (bf_Destination bd) (bf_RoutingKey bd) (bf_Arguments bd) MANAGEMENT_CONNECTION_ID v =
      (put_binding v bd, Ok tt) ∧
    vh_Queues (put_binding v bd) = vh_Queues v ∧
    vh_Exchanges (put_binding v bd) = <[resolveExchangeAlias (bf_Source bd) :=
      bound (bf_RoutingKey bd) (bf_Destination bd) (bf_Arguments bd) e]> (vh_Exchanges v).
Proof.
  intros (e & q & He & Hq & Hs & Hx). exists e. split; [done|].
  destruct (bind_run (bf_Source bd) (bf_Destination bd) (bf_RoutingKey bd) (bf_Arguments bd) MANAGEMENT_CONNECTION_ID
    v e q He Hq Hs (or_intror Hx)) as (v' & Hb & Hq' & Hx'). unfold put_binding. by rewrite Hb.
Qed.

Lemma import_binding_run bd d b v : br_vhosts b !! bf_VHost bd = Some v → can_put_binding v bd →
  ∃ b' created, import_binding "" bd d b = Ok (d, b', Ok created) ∧
    br_vhosts b' = <[bf_VHost bd := put_binding v bd]> (br_vhosts b).
Proof.
  intros Hv Hp. destruct (put_binding_run v bd Hp) as (e & He & Hb & _ & Hx).
  unfold import_binding, unless_exists, CreateBinding, with_vhost, read_vhost, binding_request, target.
  rewrite decide_True by done. cbn [br_VHost br_Source br_Destination br_RoutingKey br_Arguments].
  rewrite bind_eq. unfold on_vhost at 1. rewrite Hv, Hb. cbn [map_err].
  rewrite bind_eq. unfold on_vhost at 1. cbn [br_vhosts Broker.set_vhosts]. rewrite lookup_insert_eq. cbn [map_err].
  unfold GetExchange. rewrite Hx, lookup_insert_eq, ret_eq. eexists _, true. split; [done|]. cbn. by rewrite insert_insert_eq.
Qed.
End entries.

(** ** What the entries of one virtual host do together *)

Section together.
Context `{Runtime, Environment}.

Lemma put_exchanges xs v :
  NoDup (xf_Name <$> xs) →
  vh_Queues (foldl put_exchange v xs) = vh_Queues v ∧
  (∀ n, n ∉ xf_Name <$> xs → vh_Exchanges (foldl put_exchange v xs) !! n = vh_Exchanges v !! n) ∧
  (∀ x, x ∈ xs → vh_Exchanges v !! xf_Name x = None →
     vh_Exchanges (foldl put_exchange v xs) !! xf_Name x = Some (new_exchange x)).
Proof.
  revert v. induction xs as [|x xs IH]; intros v Hnd.
  { split; [done|]. split; [done|]. by intros x Hx%not_elem_of_nil. }
  apply NoDup_cons in Hnd as [Hx Hnd]. destruct (IH (put_exchange v x) Hnd) as (Hq & Hout & Hin). cbn [foldl].
  split; [rewrite Hq; by apply (put_exchange_lookup v x "")|]. split.
  - intros n. rewrite fmap_cons, not_elem_of_cons. intros [Hn Hns].
    by rewrite (Hout n Hns), (proj2 (put_exchange_lookup v x n)), decide_False.
  - intros y [->|Hy]%elem_of_cons Hnone.
    + by rewrite (Hout _ Hx), (proj2 (put_exchange_lookup v x _)), decide_True, Hnone by done.
    + apply (Hin y Hy). rewrite (proj2 (put_exchange_lookup v x _)), decide_False; [done|].
      intros E. apply Hx. rewrite <- E. by apply list_elem_of_fmap_2.
Qed.

Definition queue_like (q : QueueDefinition) (queue : Queue) : Prop :=
  ∃ v, queue = declared_queue (qf_Name q) (queue_props q) MANAGEMENT_CONNECTION_ID v.

Lemma put_queues qs v :
  NoDup (qf_Name <$> qs) → (∀ q, q ∈ qs → qf_Name q ≠ "" ∧ vh_Queues v !! qf_Name q = None) → has_default v →
  has_default (foldl put_queue v qs) ∧
  (∀ n, n ≠ DEFAULT_EXCHANGE → vh_Exchanges (foldl put_queue v qs) !! n = vh_Exchanges v !! n) ∧
  (∀ n, n ∉ qf_Name <$> qs → vh_Queues (foldl put_queue v qs) !! n = vh_Queues v !! n) ∧
  (∀ q, q ∈ qs → ∃ queue, vh_Queues (foldl put_queue v qs) !! qf_Name q = Some queue ∧ queue_like q queue).
Proof.
  revert v. induction qs as [|q qs IH]; intros v Hnd Hnew Hdef.
  { split_and!; [done..|]. by intros x Hx%not_elem_of_nil. }
  apply NoDup_cons in Hnd as [Hq Hnd]. cbn [foldl].
  destruct (put_queue_run v q) as (_ & _ & Hqs & Hdef' & Hxs).
  { destruct (Hnew q) as [? ?]; [by left|]. by split_and!. }
  destruct (IH (put_queue v q) Hnd) as (Hd & Hx & Hout & Hin).
  - intros q' Hq'. destruct (Hnew q') as [? ?]; [by right|]. split; [done|]. rewrite Hqs, lookup_insert_ne; [done|].
    intros E. apply Hq. rewrite E. by apply list_elem_of_fmap_2.
  - done.
  - split; [done|]. split; [intros n Hn; rewrite (Hx n Hn); by apply Hxs|]. split.
    + intros n. rewrite fmap_cons, not_elem_of_cons. intros [Hn Hns]. by rewrite (Hout n Hns), Hqs, lookup_insert_ne.
    + intros q' [->|Hq']%elem_of_cons; [|by apply Hin]. eexists. rewrite (Hout _ Hq), Hqs, lookup_insert_eq.
      split; [done|]. by exists v.
Qed.

Definition bind_entry (e : Exchange) (bd : BindingDefinition) : Exchange :=
  bound (bf_RoutingKey bd) (bf_Destination bd) (bf_Arguments bd) e.
Definition to_exchange (n : string) (bd : BindingDefinition) : Prop := resolveExchangeAlias (bf_Source bd) = n.
#[export] Instance to_exchange_dec n bd : Decision (to_exchange n bd).
Proof. unfold to_exchange. apply _. Defined.

Lemma put_bindings bds v :
  (∀ bd, bd ∈ bds → can_put_binding v bd) →
  (∀ bd, bd ∈ bds → can_put_binding (foldl put_binding v bds) bd) ∧
  vh_Queues (foldl put_binding v bds) = vh_Queues v ∧
  ∀ n, vh_Exchanges (foldl put_binding v bds) !! n =
    (λ e, foldl bind_entry e (filter (to_exchange n) bds)) <$> vh_Exchanges v !! n.
Proof.
  assert (Hkeep : ∀ v bd bd', can_put_binding v bd → can_put_binding v bd' → can_put_binding (put_binding v bd) bd').
  { clear v. intros v bd bd' Hb (e' & q' & He' & Hq' & Hs' & Hx'). destruct (put_binding_run v bd Hb) as (e & He & _ & Hq & Hx).
    unfold can_put_binding. rewrite Hq, Hx. destruct (decide (resolveExchangeAlias (bf_Source bd) = resolveExchangeAlias (bf_Source bd'))) as [E|E].
    - rewrite <- E, lookup_insert_eq. eexists _, q'. split; [done|]. rewrite <- E, He in He'. injection He' as <-.
      rewrite (proj1 (proj2 (bound_same _ _ _ _))). done.
    - rewrite lookup_insert_ne by done. by exists e', q'. }
  revert v. induction bds as [|bd bds IH]; intros v Hall.
  { split; [done|]. split; [done|]. intros n. cbn. by destruct (vh_Exchanges v !! n). }
  assert (Hbd : can_put_binding v bd) by (apply Hall; by left).
  destruct (put_binding_run v bd Hbd) as (e & He & _ & Hq & Hx). cbn [foldl].
  destruct (IH (put_binding v bd)) as (Hcan & Hqs & Hxs).
  { intros bd' Hbd'. apply Hkeep; [done|]. apply Hall. by right. }
  split; [|split; [by rewrite Hqs|]].
  - intros bd' [->|Hbd']%elem_of_cons; [|by apply Hcan].
    destruct Hbd as (e0 & q & He0 & Hq0 & Hs0 & Hx0). assert (e0 = e) as -> by congruence.
    unfold can_put_binding. rewrite Hqs, Hq, Hxs, Hx, lookup_insert_eq. eexists _, q. split; [done|]. split; [done|].
    split; [|done]. assert (∀ l e', ex_Typ (foldl bind_entry e' l) = ex_Typ e') as ->.
    { induction l as [|y l IHl]; intros e'; [done|]. cbn. rewrite IHl. apply bound_same. }
    by rewrite (proj1 (proj2 (bound_same _ _ _ _))).
  - intros n. rewrite Hxs, Hx, filter_cons. unfold to_exchange at 3. case_decide as E.
    + by rewrite E in *; rewrite lookup_insert_eq, He.
    + by rewrite lookup_insert_ne.
Qed.

(** *** The bindings of an exchange, filed again *)

(** No binding of a list is one [BindQueue] would have found there. *)
Definition replayable (key : string) (bs : list Binding) : Prop :=
  ForallOrdPairs (λ b b', bindingExist b (b_Queue b') key (b_Args b') = false) bs.
Definition bind_again (e : Exchange) (b : Binding) : Exchange := bound (b_RoutingKey b) (b_Queue b) (b_Args b) e.

Lemma ForallOrdPairs_app_cons {A} (R : A → A → Prop) l x l' :
  ForallOrdPairs R (l ++ x :: l') → Forall (λ y, R y x) l.
Proof.
  induction l as [|y l IH]; cbn; intros Hl; [constructor|]. inversion Hl as [|? ? Hy Hrest]; subst.
  constructor; [|by apply IH]. rewrite Forall_app, Forall_cons in Hy. apply Hy.
Qed.

Lemma set_Bindings_id e : set_Bindings (ex_Bindings e) e = e.
Proof. by destruct e. Qed.

Lemma bind_key e key pre bs :
  Forall (λ b, filed_key e (b_RoutingKey b) = key) bs → replayable key (pre ++ bs) →
  default [] (ex_Bindings e !! key) = pre → (pre = [] → bs ≠ [] ∧ ex_Bindings e !! key = None) →
  foldl bind_again e bs = set_Bindings (<[key := pre ++ bs]> (ex_Bindings e)) e.
Proof.
  revert e pre. induction bs as [|b bs IH]; intros e pre Hk Hr Hpre Hne.
  { rewrite app_nil_r. destruct (ex_Bindings e !! key) as [l|] eqn:E; cbn in Hpre; subst pre.
    - cbn. by rewrite insert_id, set_Bindings_id.
    - by destruct Hne. }
  apply Forall_cons in Hk as [Hb Hk]. cbn [foldl].
  assert (bind_again e b = set_Bindings (<[key := pre ++ [b]]> (ex_Bindings e)) e) as ->.
  { unfold bind_again, bound, add_binding. rewrite Hb, Hpre.
    assert (existsb (λ b', bindingExist b' (b_Queue b) key (b_Args b)) pre = false) as ->.
    { apply ForallOrdPairs_app_cons in Hr. clear -Hr. induction Hr as [|y l Hy _ IHl]; [done|]. cbn. by rewrite Hy, IHl. }
    cbn. by destruct b. }
  rewrite (IH _ (pre ++ [b])).
  - cbn. by rewrite insert_insert_eq, <- app_assoc.
  - done.
  - by rewrite <- app_assoc.
  - cbn. by rewrite lookup_insert_eq.
  - by intros [_ ?]%app_eq_nil.
Qed.

Lemma bind_keys kbs e :
  NoDup kbs.*1 → (∀ k bs, (k, bs) ∈ kbs → bs ≠ [] ∧ replayable k bs ∧ Forall (λ b, filed_key e (b_RoutingKey b) = k) bs ∧
    ex_Bindings e !! k = None) →
  foldl (λ e kb, foldl bind_again e kb.2) e kbs = set_Bindings (list_to_map kbs ∪ ex_Bindings e) e.
Proof.
  revert e. induction kbs as [|[k bs] kbs IH]; intros e Hnd Hall.
  { cbn. by rewrite map_empty_union, set_Bindings_id. }
  rewrite fmap_cons in Hnd. apply NoDup_cons in Hnd as [Hk Hnd]. cbn [fst] in Hk.
  destruct (Hall k bs) as (Hne & Hr & Hf & Hnone); [by left|]. cbn [foldl snd list_to_map].
  rewrite (bind_key e k [] bs Hf Hr); [|by rewrite Hnone|done]. rewrite IH; [|done|].
  - cbn. rewrite <- insert_union_r by by apply not_elem_of_list_to_map_1. by rewrite insert_union_l.
  - intros k' bs' Hin. destruct (Hall k' bs') as (Hne' & Hr' & Hf' & Hnone'); [by right|].
    split_and!; [done..|]. cbn. rewrite lookup_insert_ne; [done|]. intros ->. apply Hk.
    apply list_elem_of_fmap. by exists (k', bs').
Qed.
End together.

(** ** What an export says of a virtual host *)

(** A virtual host as the operations leave it: no queue has an empty name, only
    the types that take bindings have them, and none has the same binding twice. *)
Record exportable `{Runtime} (v : VHost) : Prop := {
  ep_wf : wf_names v;
  ep_named : vh_Queues v !! "" = None;
  ep_supported n e key bs : vh_Exchanges v !! n = Some e → ex_Bindings e !! key = Some bs → supported (ex_Typ e);
  ep_replayable n e key bs : vh_Exchanges v !! n = Some e → ex_Bindings e !! key = Some bs → replayable key bs;
}.

(** The name shown is another one for each exchange, and leads back to it. *)
Lemma NameOrAlias_inj e1 e2 : ex_Name e1 ≠ "" → ex_Name e2 ≠ "" → NameOrAlias e1 = NameOrAlias e2 → ex_Name e1 = ex_Name e2.
Proof.
  unfold NameOrAlias, EMPTY_EXCHANGE. intros H1 H2. pose proof (eq_refl : DEFAULT_EXCHANGE = "amq.default") as Hd.
  assert (DEFAULT_EXCHANGE_ALIAS ≠ DEFAULT_EXCHANGE) as Hda by done.
  repeat case_decide; intuition congruence.
Qed.

(** The exchanges an import does not restore. *)
Definition held_back (m : string) : Prop := m ∈ mandatoryExchanges ∨ m = DEFAULT_EXCHANGE_ALIAS.

Lemma empty_is_mandatory : "" ∈ mandatoryExchanges.
Proof. apply (bool_decide_unpack _). by vm_compute. Qed.

Lemma held_back_resolve m : ¬ held_back m → m ≠ "" ∧ m ≠ DEFAULT_EXCHANGE ∧ m ≠ DEFAULT_EXCHANGE_ALIAS ∧
  ∀ s, resolveExchangeAlias s = m ↔ s = m.
Proof.
  unfold held_back. intros Hm. assert (m ≠ "" ∧ m ≠ DEFAULT_EXCHANGE ∧ m ≠ DEFAULT_EXCHANGE_ALIAS) as (H1 & H2 & H3).
  { split_and!; intros ->; apply Hm; [left; apply empty_is_mandatory|left; by left|by right]. }
  split_and!; [done..|]. intros s. unfold resolveExchangeAlias, EMPTY_EXCHANGE. case_decide as Hs; intuition congruence.
Qed.

Lemma NameOrAlias_restored e : ¬ held_back (ex_Name e) → NameOrAlias e = ex_Name e.
Proof.
  intros (H1 & H2 & H3 & _)%held_back_resolve. unfold NameOrAlias, EMPTY_EXCHANGE.
  by rewrite !decide_False by tauto.
Qed.

Section source.
Context `{Runtime, MapOrder}.
Variables (collector : option Collector) (now : Z) (float_to : Z → Z → Z) (src : Broker) (d : db).

Lemma filter_map {A B} (P : B → Prop) `{∀ x, Decision (P x)} (f : A → B) (l : list A) :
  filter P (f <$> l) = f <$> filter (λ x, P (f x)) l.
Proof. induction l as [|x l IH]; [done|]. rewrite fmap_cons, !filter_cons. case_decide; [|done]. by rewrite fmap_cons, IH. Qed.
Lemma filter_swap {A} (P Q : A → Prop) `{∀ x, Decision (P x), ∀ x, Decision (Q x)} (l : list A) :
  filter P (filter Q l) = filter Q (filter P l).
Proof.
  induction l as [|x l IH]; [done|]. rewrite !(filter_cons _ x l).
  destruct (decide (P x)) as [Hp|Hp], (decide (Q x)) as [Hq|Hq]; rewrite ?filter_cons, ?decide_True, ?decide_False by done;
    by rewrite ?IH.
Qed.

Lemma rows_at {B} (f : string * VHost → list B) (vhost : B → string) n v :
  br_vhosts src !! n = Some v → (∀ nv z, z ∈ f nv → vhost z = nv.1) →
  filter (λ z, vhost z = n) (ListVHosts src ≫= f) = f (n, v).
Proof.
  intros Hv Hf. apply (filter_bind_key f fst vhost (ListVHosts src) (n, v)); [| |done]; unfold ListVHosts.
  - rewrite range_map_visits. apply NoDup_fst_map_to_list.
  - by rewrite range_map_visits, elem_of_map_to_list.
Qed.

(** *** Exchanges *)

Lemma NoDup_omap_key {A B K} (f : A → option B) (ka : A → K) (kb : B → K) (l : list A) :
  NoDup (ka <$> l) → (∀ x y, f x = Some y → kb y = ka x) → NoDup (kb <$> omap f l).
Proof.
  intros Hnd Hk. induction l as [|x l IH]; [done|]. apply NoDup_cons in Hnd as [Hx Hnd]. cbn [omap list_omap].
  destruct (f x) as [y|] eqn:E; [|by apply IH]. rewrite fmap_cons. constructor; [|by apply IH].
  rewrite (Hk x y E). intros (z & Hz & (x' & Hx' & Hf)%list_elem_of_omap)%list_elem_of_fmap.
  apply Hx. rewrite Hz, (Hk x' z Hf). by apply list_elem_of_fmap_2.
Qed.

Section vhost.
Variables (n : string) (v : VHost).
Hypothesis Hv : br_vhosts src !! n = Some v.
Hypothesis Hep : exportable v.

Lemma all_exchanges :
  NoDup (ex_Name <$> GetAllExchanges v) ∧
  ∀ e, e ∈ GetAllExchanges v ↔ ex_Name e ≠ "" ∧ vh_Exchanges v !! ex_Name e = Some e.
Proof.
  pose proof (wn_exchange _ _ (ep_wf _ Hep)) as Hname. unfold GetAllExchanges. split.
  - apply (NoDup_omap_key _ id); [|intros x y; apply Hname]. rewrite list_fmap_id, range_map_visits.
    apply NoDup_fst_map_to_list.
  - intros e. rewrite list_elem_of_omap. split.
    + intros (m & Hm & He). pose proof (Hname m e He) as <-. split; [|done].
      apply list_elem_of_fmap in Hm as ([? []] & -> & Hm). rewrite range_map_visits, elem_of_map_to_list in Hm.
      apply lookup_gset_to_gmap_Some in Hm as [Hm _]. unfold GetExchangeUniqueNames in Hm.
      rewrite elem_of_list_to_set, list_elem_of_filter in Hm. apply Hm.
    + intros [Hne He]. exists (ex_Name e). split; [|done]. apply list_elem_of_fmap. exists (ex_Name e, ()). split; [done|].
      rewrite range_map_visits, elem_of_map_to_list. apply lookup_gset_to_gmap_Some. split; [|done].
      unfold GetExchangeUniqueNames. rewrite elem_of_list_to_set, list_elem_of_filter. split; [done|].
      apply list_elem_of_fmap. exists e. split; [done|]. apply list_elem_of_fmap. exists (ex_Name e, e).
      split; [done|]. by apply elem_of_map_to_list.
Qed.


Lemma exchange_entries :
  let xs := entries_of xf_VHost n (exchange_definition <$> filter (exported_exchange "") (ListExchanges src)) in
  NoDup (xf_Name <$> xs) ∧
  ∀ x, x ∈ xs ↔ ∃ e, e ∈ GetAllExchanges v ∧ NameOrAlias e ∉ mandatoryExchanges ∧
    x = exchange_definition (exchange_row n e).
Proof.
  cbv zeta. unfold entries_of. rewrite filter_map. cbn [xf_VHost exchange_definition]. rewrite filter_swap.
  destruct all_exchanges as [Hnd Hall].
  assert (Hp : filter (λ x, xd_VHost x = n) (ListExchanges src) ≡ₚ exchange_row n <$> GetAllExchanges v).
  { unfold ListExchanges. rewrite sort_perm by apply _. rewrite (rows_at exchanges_of xd_VHost n v Hv); [done|].
    intros nv z (e & -> & _)%list_elem_of_fmap. done. }
  assert (Hx : ∀ e, exported_exchange "" (exchange_row n e) ↔ NameOrAlias e ∉ mandatoryExchanges).
  { intros e. unfold exported_exchange, in_scope. rewrite (bool_decide_true ("" = "" ∨ _)) by by left.
    rewrite andb_true_r, negb_True, bool_decide_spec. done. }
  split.
  - rewrite Hp. rewrite filter_map, <- !list_fmap_compose. apply NoDup_fmap_2_strong.
    + intros e1 e2 [_ H1]%list_elem_of_filter [_ H2]%list_elem_of_filter Heq. apply Hall in H1 as [N1 L1].
      apply Hall in H2 as [N2 L2]. cbn in Heq. apply NameOrAlias_inj in Heq; [|done..]. rewrite Heq in L1. congruence.
    + apply NoDup_filter. by apply NoDup_fmap_1 in Hnd.
  - intros x. rewrite Hp, filter_map, <- list_fmap_compose, list_elem_of_fmap. split.
    + intros (e & -> & [He Hin]%list_elem_of_filter). exists e. split; [done|]. split; [by apply Hx|done].
    + intros (e & Hin & He & ->). exists e. split; [done|]. apply list_elem_of_filter. split; [by apply Hx|done].
Qed.

(** *** Queues *)

Lemma all_queues q : q ∈ GetAllQueues v ↔ vh_Queues v !! q_Name q = Some q.
Proof.
  unfold GetAllQueues. rewrite list_elem_of_fmap. split.
  - intros ([m q'] & -> & Hq). rewrite range_map_visits, elem_of_map_to_list in Hq. cbn.
    by destruct (wn_queue _ _ (ep_wf _ Hep) m q' Hq) as [-> _].
  - intros Hq. exists (q_Name q, q). split; [done|]. by rewrite range_map_visits, elem_of_map_to_list.
Qed.

Definition queue_row (q : Queue) : QueueDefinition :=
  MkQueueDefinition (q_Name q) n (qp_Durable (q_Props q)) (qp_AutoDelete (q_Props q)) (qp_Arguments (q_Props q)).

Lemma queue_entries :
  let qs := entries_of qf_VHost n (queue_definition <$>
    filter (λ q, in_scope "" (qd_VHost q)) (ListQueues collector now float_to src)) in
  NoDup (qf_Name <$> qs) ∧ ∀ x, x ∈ qs ↔ ∃ q, vh_Queues v !! q_Name q = Some q ∧ x = queue_row q.
Proof.
  cbv zeta. rewrite (filter_whole (λ q, in_scope "" (qd_VHost q))) by (intros x _; apply bool_decide_spec; by left).
  unfold entries_of. rewrite filter_map. cbn [qf_VHost queue_definition].
  assert (Hp : queue_definition <$> filter (λ x, qd_VHost x = n) (ListQueues collector now float_to src) ≡ₚ
    queue_row <$> GetAllQueues v).
  { unfold ListQueues. rewrite sort_perm by apply _. rewrite (rows_at (queues_of collector now float_to) qd_VHost n v Hv).
    - unfold queues_of. by rewrite <- list_fmap_compose.
    - intros nv z (q & -> & _)%list_elem_of_fmap. done. }
  split.
  - rewrite Hp, <- list_fmap_compose. unfold GetAllQueues. apply NoDup_fmap_2_strong.
    + intros q1 q2 H1%all_queues H2%all_queues Heq. cbn in Heq. rewrite Heq in H1. congruence.
    + rewrite range_map_visits. apply NoDup_fmap_2_strong; [|apply NoDup_map_to_list].
      intros [m1 q1] [m2 q2] H1%elem_of_map_to_list H2%elem_of_map_to_list. cbn. intros ->.
      destruct (wn_queue _ _ (ep_wf _ Hep) m1 q2 H1) as [<- _]. by destruct (wn_queue _ _ (ep_wf _ Hep) m2 q2 H2) as [<- _].
  - intros x. rewrite Hp, list_elem_of_fmap. split.
    + intros (q & -> & Hq%all_queues). by exists q.
    + intros (q & Hq & ->). exists q. split; [done|]. by apply all_queues.
Qed.

(** *** Bindings *)

Definition binding_entries : list BindingDefinition :=
  entries_of bf_VHost n (binding_definition <$> filter (exported_binding "") (ListBindings src)).

Lemma binding_entries_eq :
  binding_entries = binding_definition <$> filter (exported_binding "") (collectExchangeBindings (n, v)).
Proof.
  unfold binding_entries, entries_of. rewrite filter_map. cbn [bf_VHost binding_definition]. rewrite filter_swap.
  unfold ListBindings. rewrite (rows_at collectExchangeBindings bd_VHost n v Hv); [done|].
  intros nv z (e & Hz & _)%list_elem_of_bind. unfold listExchangeBindings in Hz.
  by apply list_elem_of_bind in Hz as (kbs & (b & -> & _)%list_elem_of_fmap & _).
Qed.

Lemma source_of m e z : z ∈ listExchangeBindings m e → bd_Source z = NameOrAlias e.
Proof. unfold listExchangeBindings. by intros (kbs & (b & -> & _)%list_elem_of_fmap & _)%list_elem_of_bind. Qed.

Lemma exported_source z : exported_binding "" z ↔ bd_Source z ∉ mandatoryExchanges.
Proof.
  unfold exported_binding, in_scope. rewrite (bool_decide_true ("" = "" ∨ _)) by by left.
  by rewrite andb_true_r, negb_True, bool_decide_spec.
Qed.

(** The entries of one exchange, in the order of their keys. *)
Lemma binding_entries_of e : ¬ held_back (ex_Name e) → e ∈ GetAllExchanges v →
  filter (to_exchange (ex_Name e)) binding_entries = binding_definition <$> listExchangeBindings n e.
Proof.
  intros Hh He. destruct (held_back_resolve _ Hh) as (H1 & H2 & H3 & Hr). destruct all_exchanges as [Hnd Hall].
  rewrite binding_entries_eq, filter_map, filter_swap. f_equal.
  assert (filter (λ x, to_exchange (ex_Name e) (binding_definition x)) (collectExchangeBindings (n, v)) =
    listExchangeBindings n e) as ->.
  { rewrite (list_filter_iff _ (λ x, bd_Source x = NameOrAlias e)).
    - unfold collectExchangeBindings. apply (filter_bind_key _ NameOrAlias); [|done|intros y z; apply source_of].
      apply NoDup_fmap_2_strong; [|by apply NoDup_fmap_1 in Hnd]. intros e1 e2 [N1 L1]%Hall [N2 L2]%Hall Heq.
      apply NameOrAlias_inj in Heq; [|done..]. rewrite Heq in L1. congruence.
    - intros x. rewrite NameOrAlias_restored by done. apply Hr. }
  apply filter_whole. intros z Hz. apply exported_source. rewrite (source_of _ _ _ Hz), NameOrAlias_restored by done.
  intros Hm. apply Hh. by left.
Qed.
End vhost.
End source.

(** ** What an import restores *)

Definition queue_shape (q : Queue) : bool * bool * table :=
  (qp_Durable (q_Props q), qp_AutoDelete (q_Props q), default [] (qp_Arguments (q_Props q))).
Definition exchange_shape (e : Exchange) : string * bool * bool * gmap string (list Binding) :=
  (ex_Typ e, ep_Durable (ex_Props e), ep_AutoDelete (ex_Props e), ex_Bindings e).

(** Every queue, none of them exclusive any more, and every exchange but the
    mandatory ones, with all their bindings. *)
Record restored (v v' : VHost) : Prop := {
  rs_queues name : queue_shape <$> vh_Queues v' !! name = queue_shape <$> vh_Queues v !! name;
  rs_shared name q : vh_Queues v' !! name = Some q → qp_Exclusive (q_Props q) = false;
  rs_exchanges m : ¬ held_back m → exchange_shape <$> vh_Exchanges v' !! m = exchange_shape <$> vh_Exchanges v !! m;
}.

(** A virtual host with the mandatory exchanges only. *)
Record blank (o : VHost) : Prop := {
  bl_queues : vh_Queues o = ∅;
  bl_exchanges m : is_Some (vh_Exchanges o !! m) → m ∈ mandatoryExchanges;
  bl_default : has_default o;
}.

Section restore.
Context `{Runtime, MapOrder, Environment}.
Variables (collector : option Collector) (now : Z) (float_to : Z → Z → Z) (src : Broker).
Variables (n : string) (v options : VHost).
Hypothesis Hv : br_vhosts src !! n = Some v.
Hypothesis Hep : exportable v.
Hypothesis Hblank : blank options.

Let xs := entries_of xf_VHost n (exchange_definition <$> filter (exported_exchange "") (ListExchanges src)).
Let qs := entries_of qf_VHost n (queue_definition <$>
  filter (λ q, in_scope "" (qd_VHost q)) (ListQueues collector now float_to src)).
Let bds := binding_entries src n.
Let v1 := foldl put_exchange options xs.
Let v2 := foldl put_queue v1 qs.
Let v3 := foldl put_binding v2 bds.

Lemma prefix_names {A} (f : A → string) l l1 x l2 : NoDup (f <$> l) → l = l1 ++ x :: l2 → NoDup (f <$> l1) ∧ f x ∉ f <$> l1.
Proof.
  intros Hnd ->. rewrite fmap_app, fmap_cons in Hnd. apply NoDup_app in Hnd as (P1 & P2 & _).
  split; [done|]. intros Hin. apply (P2 _ Hin). by left.
Qed.

Lemma exchange_name x : x ∈ xs → xf_Name x ∉ mandatoryExchanges.
Proof. intros Hx. apply (exchange_entries src n v Hv Hep) in Hx as (e & _ & Hm & ->). done. Qed.

Lemma exchanges_safe l1 x l2 : xs = l1 ++ x :: l2 → can_put_exchange (foldl put_exchange options l1) x.
Proof.
  intros Hs. destruct (exchange_entries src n v Hv Hep) as [Hnd Hall]. fold xs in Hnd, Hall.
  destruct (prefix_names xf_Name xs l1 x l2 Hnd Hs) as [Hnd1 Hx]. destruct (put_exchanges l1 options Hnd1) as (_ & Hout & _).
  assert (Hm : xf_Name x ∉ mandatoryExchanges) by (apply exchange_name; rewrite Hs; apply elem_of_app; right; by left).
  split; [|split].
  - rewrite (Hout _ Hx). destruct (vh_Exchanges options !! xf_Name x) eqn:E; [|done].
    destruct Hm. apply (bl_exchanges _ Hblank). by rewrite E.
  - intros E. rewrite E in Hm. apply Hm, empty_is_mandatory.
  - rewrite Hout; [destruct (bl_default _ Hblank) as (e & -> & _); by exists e|].
    intros (y & Hy & Hin)%list_elem_of_fmap. apply (exchange_name y); [rewrite Hs; apply elem_of_app; by left|].
    rewrite <- Hy. by left.
Qed.

Lemma after_exchanges :
  vh_Queues v1 = ∅ ∧ has_default v1 ∧
  (∀ e, e ∈ GetAllExchanges v → NameOrAlias e ∉ mandatoryExchanges →
     vh_Exchanges v1 !! NameOrAlias e = Some (new_exchange (exchange_definition (exchange_row n e)))) ∧
  (∀ m, ¬ held_back m → vh_Exchanges v !! m = None → vh_Exchanges v1 !! m = None).
Proof.
  destruct (exchange_entries src n v Hv Hep) as [Hnd Hall]. fold xs in Hnd, Hall.
  destruct (put_exchanges xs options Hnd) as (Hq & Hout & Hin). fold v1 in Hq, Hout, Hin.
  assert (Hnone : ∀ m, m ∉ mandatoryExchanges → vh_Exchanges options !! m = None).
  { intros m Hm. destruct (vh_Exchanges options !! m) eqn:E; [|done]. destruct Hm. apply (bl_exchanges _ Hblank). by rewrite E. }
  split_and!.
  - rewrite Hq. apply (bl_queues _ Hblank).
  - destruct (bl_default _ Hblank) as (e & He & Ht). exists e. split; [|done]. rewrite Hout; [done|].
    intros (y & Hy & Hyin)%list_elem_of_fmap. apply (exchange_name y Hyin). rewrite <- Hy. by left.
  - intros e He Hm. change (NameOrAlias e) with (xf_Name (exchange_definition (exchange_row n e))).
    apply Hin; [apply Hall; by exists e|]. by apply Hnone.
  - intros m Hm Hno. rewrite Hout; [apply Hnone; intros ?; apply Hm; by left|].
    intros (y & Hy & (e & He & _ & ->)%Hall)%list_elem_of_fmap. cbn in Hy.
    apply (all_exchanges v Hep) in He as [Hne He]. destruct (held_back_resolve m Hm) as (M1 & M2 & M3 & _).
    unfold NameOrAlias in Hy. repeat case_decide; [congruence..|]. rewrite <- Hy in He. congruence.
Qed.

Lemma queues_safe l1 x l2 : qs = l1 ++ x :: l2 → can_put_queue (foldl put_queue v1 l1) x.
Proof.
  intros Hs. destruct (queue_entries collector now float_to src n v Hv Hep) as [Hnd Hall]. fold qs in Hnd, Hall.
  destruct (prefix_names qf_Name qs l1 x l2 Hnd Hs) as [Hnd1 Hx]. destruct after_exchanges as (Hq1 & Hd1 & _).
  assert (Hnamed : ∀ y, y ∈ qs → qf_Name y ≠ "").
  { intros y (q & Hq & ->)%Hall. cbn. intros E. rewrite E in Hq. by rewrite (ep_named _ Hep) in Hq. }
  destruct (put_queues l1 v1 Hnd1) as (Hd & _ & Hout & _); [|done|].
  - intros q Hq. split; [apply Hnamed; rewrite Hs; apply elem_of_app; by left|by rewrite Hq1].
  - split; [apply Hnamed; rewrite Hs; apply elem_of_app; right; by left|]. split; [|done]. by rewrite (Hout _ Hx), Hq1.
Qed.

Lemma after_queues :
  has_default v2 ∧ (∀ m, m ≠ DEFAULT_EXCHANGE → vh_Exchanges v2 !! m = vh_Exchanges v1 !! m) ∧
  (∀ name, queue_shape <$> vh_Queues v2 !! name = queue_shape <$> vh_Queues v !! name) ∧
  (∀ name q, vh_Queues v2 !! name = Some q → qp_Exclusive (q_Props q) = false).
Proof.
  destruct (queue_entries collector now float_to src n v Hv Hep) as [Hnd Hall]. fold qs in Hnd, Hall.
  destruct after_exchanges as (Hq1 & Hd1 & _).
  destruct (put_queues qs v1 Hnd) as (Hd & Hx & Hout & Hin); [|done|].
  { intros y Hy. rewrite Hq1. split; [|done]. apply Hall in Hy as (q & Hq & ->). cbn. intros E. rewrite E in Hq.
    by rewrite (ep_named _ Hep) in Hq. }
  fold v2 in Hd, Hx, Hout, Hin. split; [done|]. split; [done|].
  assert (Hcase : ∀ name, (name ∉ qf_Name <$> qs ∧ vh_Queues v2 !! name = None ∧ vh_Queues v !! name = None) ∨
    ∃ q, vh_Queues v !! name = Some q ∧ ∃ queue, vh_Queues v2 !! name = Some queue ∧ queue_like (queue_row n q) queue).
  { intros name. destruct (vh_Queues v !! name) as [q|] eqn:Hq; [right|left].
    - exists q. split; [done|]. destruct (wn_queue _ _ (ep_wf _ Hep) name q Hq) as [<- _].
      apply (Hin (queue_row n q)), Hall. by exists q.
    - assert (Hn : name ∉ qf_Name <$> qs).
      { intros (y & -> & (q & Hq' & ->)%Hall)%list_elem_of_fmap. cbn in Hq. congruence. }
      split; [done|]. by rewrite (Hout _ Hn), Hq1. }
  split; intros name.
  - destruct (Hcase name) as [(_ & -> & ->)|(q & -> & queue & -> & w & ->)]; [done|]. done.
  - intros queue Hqueue. destruct (Hcase name) as [(_ & E & _)|(q & _ & queue' & E & w & ->)]; [congruence|].
    assert (queue = declared_queue (qf_Name (queue_row n q)) (queue_props (queue_row n q)) MANAGEMENT_CONNECTION_ID w) as -> by congruence.
    done.
Qed.

Lemma bindings_can bd : bd ∈ bds → can_put_binding v2 bd.
Proof.
  unfold bds. rewrite (binding_entries_eq src n v Hv). intros (z & -> & [Hm Hz]%list_elem_of_filter)%list_elem_of_fmap.
  apply exported_source in Hm. unfold collectExchangeBindings in Hz. apply list_elem_of_bind in Hz as (e & Hz & He).
  pose proof (source_of _ _ _ Hz) as Hsrc. unfold listExchangeBindings in Hz. cbn [fst snd] in Hz, He.
  apply list_elem_of_bind in Hz as ([k bs] & (b & -> & Hb)%list_elem_of_fmap & Hk). cbn [snd fst] in *.
  rewrite range_map_visits, elem_of_map_to_list in Hk. cbn [bd_Source binding_row] in Hm, Hsrc.
  destruct after_exchanges as (_ & _ & Hnew & _). destruct after_queues as ((ed & Hed & Htd) & Hx & Hqs & Hsh).
  destruct (all_exchanges v Hep) as [_ Hget]. pose proof (proj1 (Hget e) He) as [Hne Hat].
  destruct (wn_binding _ _ (ep_wf _ Hep) _ e k bs Hat Hk) as [_ Hw]. rewrite Forall_forall in Hw.
  destruct (Hw b Hb) as [[q Hq] _]. pose proof (Hqs (b_Queue b)) as Hshape. rewrite Hq in Hshape.
  destruct (vh_Queues v2 !! b_Queue b) as [q'|] eqn:Hq'; [|done].
  assert (∃ e', vh_Exchanges v2 !! resolveExchangeAlias (NameOrAlias e) = Some e' ∧ supported (ex_Typ e')) as (e' & He' & Hs').
  { destruct (decide (resolveExchangeAlias (NameOrAlias e) = DEFAULT_EXCHANGE)) as [Er|Er].
    - rewrite Er. exists ed. split; [done|]. by left.
    - rewrite (Hx _ Er). assert (resolveExchangeAlias (NameOrAlias e) = NameOrAlias e) as ->.
      { unfold resolveExchangeAlias in *. by case_decide. }
      rewrite (Hnew e He Hm). eexists. split; [done|]. cbn. by apply (ep_supported _ Hep (ex_Name e) e k bs). }
  exists e', q'. split; [done|]. split; [done|]. split; [done|]. by apply (Hsh (b_Queue b)).
Qed.

Lemma bindings_safe l1 x l2 : bds = l1 ++ x :: l2 → can_put_binding (foldl put_binding v2 l1) x.
Proof.
  intros Hs. assert (Hin : ∀ y, y ∈ l1 ++ [x] → can_put_binding v2 y).
  { intros y Hy. apply bindings_can. rewrite Hs. apply elem_of_app in Hy as [Hy|Hy]; apply elem_of_app; [by left|right].
    apply list_elem_of_singleton in Hy as ->. by left. }
  assert (Hl : ∀ l w, can_put_binding w x → (∀ y, y ∈ l → can_put_binding w y) → can_put_binding (foldl put_binding w l) x).
  { intros l. induction l as [|y l IH]; intros w Hx Hall; [done|]. cbn [foldl].
    destruct (put_bindings [y] w) as (_ & Hqs & Hxs); [intros z ->%list_elem_of_singleton; apply Hall; by left|].
    cbn [foldl] in Hqs, Hxs.
    assert (Hkeep : ∀ z, can_put_binding w z → can_put_binding (put_binding w y) z).
    { intros z (e & q & He & Hq & Hsup & Hx'). unfold can_put_binding. rewrite Hqs, Hxs, He. eexists _, q. split; [done|].
      split; [done|]. split; [|done]. rewrite filter_cons. case_decide; [|done]. cbn [foldl filter list_filter].
      unfold bind_entry. by rewrite (proj1 (proj2 (bound_same _ _ _ _))). }
    apply IH; [by apply Hkeep|]. intros z Hz. apply Hkeep, Hall. by right. }
  apply Hl; [apply Hin, elem_of_app; right; by left|]. intros y Hy. apply Hin, elem_of_app. by left.
Qed.

Lemma rebind e m kbs : foldl bind_entry e (binding_definition <$> (kbs ≫= λ kb, binding_row n m <$> kb.2)) =
  foldl (λ e (kb : string * list Binding), foldl bind_again e kb.2) e kbs.
Proof.
  revert e. induction kbs as [|[k bs] kbs IH]; intros e; [done|]. cbn [mbind list_bind foldl snd].
  rewrite fmap_app, foldl_app, IH. f_equal. clear. revert e. induction bs as [|b bs IH]; intros e; [done|]. cbn. by rewrite IH.
Qed.

Lemma restored_vhost : restored v v3.
Proof.
  destruct (put_bindings bds v2 bindings_can) as (_ & Hq3 & Hx3). fold v3 in Hq3, Hx3.
  destruct after_queues as (_ & Hx2 & Hqs & Hsh). destruct after_exchanges as (_ & _ & Hnew & Hnone).
  destruct (all_exchanges v Hep) as [_ Hget]. split; [by rewrite Hq3|by rewrite Hq3|].
  intros m Hm. destruct (held_back_resolve m Hm) as (M1 & M2 & M3 & _). rewrite Hx3, (Hx2 m M2).
  destruct (vh_Exchanges v !! m) as [e|] eqn:He; [|by rewrite Hnone].
  pose proof (wn_exchange _ _ (ep_wf _ Hep) m e He) as <-. assert (Hin : e ∈ GetAllExchanges v) by by apply Hget.
  pose proof (NameOrAlias_restored e Hm) as Hname.
  pose proof (Hnew e Hin) as He1. rewrite Hname in He1. rewrite He1 by (intros ?; apply Hm; by left).
  cbn [fmap option_fmap option_map]. f_equal. unfold bds.
  rewrite (binding_entries_of src n v Hv Hep e Hm Hin). unfold listExchangeBindings. rewrite rebind.
  set (e0 := new_exchange _). rewrite (bind_keys (range_map (ex_Bindings e)) e0).
  - unfold e0, exchange_shape. cbn. rewrite map_union_empty. f_equal.
    symmetry. apply list_to_map_flip. by rewrite range_map_visits.
  - rewrite range_map_visits. apply NoDup_fst_map_to_list.
  - intros k bs Hk. rewrite range_map_visits, elem_of_map_to_list in Hk.
    destruct (wn_binding _ _ (ep_wf _ Hep) _ e k bs He Hk) as [Hne Hw]. split_and!; [done| | |].
    + by apply (ep_replayable _ Hep (ex_Name e) e).
    + eapply Forall_impl; [exact Hw|]. intros b [_ Hb]. unfold filed_key. change (ex_Typ e0) with (ex_Typ e).
      case_decide; done.
    + done.
Qed.
End restore.

(** ** The whole import *)

Lemma for_each_users d us defs defs' : wf_db d →
  for_each (add_user_definition d) us defs = Ok defs' →
  ∃ l, defs' = defs ++ l ∧
    (λ ud, (ud_Name ud, (ud_PasswordHash ud, role_of_tags (ud_Tags ud)))) <$> l = account <$> us.
Proof.
  intros Hd. revert defs. induction us as [|u us IH]; intros defs Hf; cbn in Hf.
  { apply (inj Ok) in Hf as <-. exists []. by rewrite app_nil_r. }
  apply res_bind_ok in Hf as (defs1 & H1 & Hf). unfold add_user_definition, user_definition in H1.
  apply res_bind_ok in H1 as (ud & Hu & H1). apply (inj Ok) in H1 as <-.
  apply res_bind_ok in Hu as (role & Hr & Hu). apply (inj Ok) in Hu as <-.
  destruct (IH _ Hf) as (l & -> & Hl). eexists (_ :: l). rewrite <- app_assoc. split; [done|].
  rewrite !fmap_cons, Hl. f_equal. unfold account. cbn [ud_Name ud_PasswordHash ud_Tags]. do 2 f_equal.
  assert (GetRoleByID (u_RoleID u) d = GetRoleByID (u_RoleID u) (AddDefaultRoles InitDB)) as Heq.
  { unfold GetRoleByID. by rewrite (wf_roles _ Hd). }
  rewrite Heq, default_role in Hr. repeat case_decide; try done; apply (inj Ok) in Hr as <-; subst; cbn [r_Name];
    match goal with Hi : _ = ?z |- _ = _ => rewrite Hi; by vm_compute end.
Qed.

Notation no_bcrypt := (λ (_ : nat) (_ : string), None : option string).
Notation op_in := (apply_op no_bcrypt false).

Lemma each_database {A} (op : A → user_op) l d b :
  wf_db d → (∀ x dir, x ∈ l → is_Some (spec_op no_bcrypt false (op x) dir)) →
  ∃ d' n, each (λ x, in_database (op_in (op x))) l d b = Ok (d', b, Ok n) ∧ wf_db d' ∧
    view d' = foldl (λ dir x, default dir (spec_op no_bcrypt false (op x) dir)) (view d) l.
Proof.
  revert d. induction l as [|x l IH]; intros d Hd Hall; [by exists d, 0|].
  destruct (apply_op_spec no_bcrypt false (op x) d Hd) as [Hd1 Hs].
  destruct (Hall x (view d)) as [dir Hdir]; [by left|]. rewrite Hdir in Hs. destruct Hs as [Hok Hview].
  destruct (IH (op_in (op x) d).1 Hd1) as (d' & n & He & Hd' & Hv'); [intros y dir' Hy; apply Hall; by right|].
  exists d', (1 + n). cbn [each]. unfold mbind, imp_bind, in_database at 1.
  destruct (op_in (op x) d) as [d1 r1] eqn:E. cbn [fst snd] in *. subst r1. unfold imp_bind in He. rewrite He.
  split; [done|]. split; [done|]. by rewrite Hv', Hview; cbn; rewrite Hdir.
Qed.

Lemma import_users us d b :
  wf_db d →
  ∃ d' n, each (import_user false) us d b = Ok (d', b, Ok n) ∧ wf_db d' ∧ grants (view d') = grants (view d) ∧
    accounts (view d') = accounts (view d) ∪
      list_to_map ((λ ud, (ud_Name ud, (ud_PasswordHash ud, role_of_tags (ud_Tags ud)))) <$> us).
Proof.
  intros Hd. destruct (each_database (λ ud, OpAddUserWithHash (ud_Name ud) (ud_PasswordHash ud) (role_of_tags (ud_Tags ud)))
    us d b Hd) as (d' & n & He & Hd' & Hview).
  { intros x dir _. cbn. case_decide; [by eexists|]. rewrite decide_True; [by eexists|done]. }
  exists d', n. split; [done|]. split; [done|]. rewrite Hview. clear. generalize (view d). intros dir.
  revert dir. induction us as [|u us IH]; intros dir; [split; [done|]; cbn; by rewrite map_union_empty|]. cbn [foldl].
  destruct (IH (default dir (spec_op no_bcrypt false (OpAddUserWithHash (ud_Name u) (ud_PasswordHash u) (role_of_tags (ud_Tags u))) dir)))
    as [-> ->]. rewrite fmap_cons. cbn [list_to_map spec_op]. case_decide as Hs; cbn [default from_option id].
  - split; [done|]. apply map_eq. intros i. destruct Hs as [a Ha]. destruct (decide (i = ud_Name u)) as [->|Hi].
    + by rewrite !(lookup_union_Some_l _ _ _ a).
    + rewrite !lookup_union. cbn. by rewrite lookup_insert_ne.
  - rewrite decide_True by done. split; [done|]. cbn. rewrite <- insert_union_l. apply insert_union_r.
    by apply eq_None_not_Some.
Qed.

Lemma import_permissions ps d b :
  wf_db d →
  ∃ d' n, each (import_permission false) ps d b = Ok (d', b, Ok n) ∧ accounts (view d') = accounts (view d) ∧
    grants (view d') = grants (view d) ∪ list_to_set ((λ p, (pd_User p, pd_VHost p)) <$> ps).
Proof.
  intros Hd. destruct (each_database (λ p, OpGrant (pd_User p) (pd_VHost p)) ps d b Hd) as (d' & n & He & _ & Hview).
  { intros x dir _. cbn. case_decide; [by eexists|]. rewrite decide_False; [by eexists|by intros [? _]]. }
  exists d', n. split; [done|]. rewrite Hview. clear. generalize (view d). intros dir.
  revert dir. induction ps as [|p ps IH]; intros dir; [cbn; split; [done|set_solver]|]. cbn [foldl].
  destruct (IH (default dir (spec_op no_bcrypt false (OpGrant (pd_User p) (pd_VHost p)) dir))) as [-> ->].
  rewrite fmap_cons. cbn [list_to_set spec_op]. case_decide as Hs; cbn [default from_option id].
  - split; [done|]. set_solver.
  - rewrite decide_False by by intros [? _]. cbn. split; [done|]. set_solver.
Qed.

Section whole.
Context `{Runtime, MapOrder, Environment}.
Variables (collector : option Collector) (now : Z) (float_to : Z → Z → Z).
Variables (options : VHost) (saved : string → bool).

Lemma import_vhosts names d b :
  isAlreadyExists (Fails "vhost already exists") = true → (∀ n, n ∈ names → saved n = true) →
  (∀ n v, br_vhosts b !! n = Some v → v = options) →
  ∃ b' c, each (import_vhost options saved) names d b = Ok (d, b', Ok c) ∧
    (∀ n v, br_vhosts b' !! n = Some v → v = options) ∧
    (∀ n, n ∈ names ∨ is_Some (br_vhosts b !! n) → is_Some (br_vhosts b' !! n)).
Proof.
  intros Halready. revert b. induction names as [|n names IH]; intros b Hsaved Hb.
  { exists b, 0. split_and!; [done..|]. intros n [Hn%not_elem_of_nil|Hn]; done. }
  assert (∃ b1 ok, import_vhost options saved n d b = Ok (d, b1, Ok ok) ∧
    (∀ m v, br_vhosts b1 !! m = Some v → v = options) ∧
    ∀ m, m = n ∨ is_Some (br_vhosts b !! m) → is_Some (br_vhosts b1 !! m)) as (b1 & ok & Hrun & Hb1 & Hin).
  { unfold import_vhost, unless_exists, CreateVHost. destruct (br_vhosts b !! n) as [v|] eqn:E.
    - rewrite Halready. exists b, false. split_and!; [done..|]. intros m [->|?]; [by rewrite E|done].
    - rewrite (Hsaved n) by by left. eexists _, true. split; [done|]. cbn. split.
      + intros m v. rewrite lookup_insert_Some. intros [[_ <-]|[_ ?]]; [done|by apply (Hb m)].
      + intros m Hm. destruct (decide (n = m)) as [->|]; [rewrite lookup_insert_eq; by eexists|].
        rewrite lookup_insert_ne by done. destruct Hm as [->|?]; done. }
  destruct (IH b1) as (b2 & c & Hl & Hb2 & Hin2); [intros m Hm; apply Hsaved; by right|done|].
  exists b2. eexists. cbn [each]. unfold mbind, imp_bind. rewrite Hrun. unfold imp_bind in Hl. rewrite Hl.
  split; [done|]. split; [done|]. intros m Hm. apply Hin2. rewrite elem_of_cons in Hm.
  destruct Hm as [[->|?]|?]; [right; apply Hin; by left|by left|right; apply Hin; by right].
Qed.

Lemma vhosts_of {B} (f : string * VHost → list B) (vhost : B → string) (src : Broker) z :
  (∀ nv z, z ∈ f nv → vhost z = nv.1) → z ∈ ListVHosts src ≫= f → is_Some (br_vhosts src !! vhost z).
Proof.
  intros Hf ([n v] & Hz & Hn)%list_elem_of_bind. unfold ListVHosts in Hn.
  rewrite range_map_visits, elem_of_map_to_list in Hn. rewrite (Hf _ _ Hz). by exists v.
Qed.

Lemma export_parts src d0 defs : wf_db d0 →
  buildDefinitions collector now float_to src d0 "" = Ok defs →
  (∀ n, n ∈ df_VHosts defs ↔ is_Some (br_vhosts src !! n)) ∧
  list_to_map ((λ ud, (ud_Name ud, (ud_PasswordHash ud, role_of_tags (ud_Tags ud)))) <$> df_Users defs) =
    accounts (view d0) ∧
  list_to_set ((λ p, (pd_User p, pd_VHost p)) <$> df_Permissions defs) = grants (view d0) ∧
  df_Exchanges defs = (exchange_definition <$> filter (exported_exchange "") (ListExchanges src)) ∧
  df_Queues defs = (queue_definition <$>
    filter (λ q, in_scope "" (qd_VHost q)) (ListQueues collector now float_to src)) ∧
  df_Bindings defs = (binding_definition <$> filter (exported_binding "") (ListBindings src)).
Proof.
  intros Hd0 Hb. unfold buildDefinitions in Hb. rewrite !decide_True in Hb by done.
  apply res_bind_ok in Hb as (users & Hu & Hb). apply (inj Ok) in Hb as <-. cbn [df_VHosts df_Users df_Permissions df_Exchanges df_Queues df_Bindings].
  apply for_each_users in Hu as (l & -> & Hl); [|done]. split_and!; [|by rewrite app_nil_l, Hl| |done..].
  - intros n. rewrite list_elem_of_filter. split.
    + intros [_ ([m v] & -> & Hm)%list_elem_of_fmap]. unfold ListVHosts in Hm.
      rewrite range_map_visits, elem_of_map_to_list in Hm. by exists v.
    + intros [v Hv]. split; [apply bool_decide_spec; by left|]. apply list_elem_of_fmap. exists (n, v). split; [done|].
      unfold ListVHosts. by rewrite range_map_visits, elem_of_map_to_list.
  - rewrite <- list_fmap_compose. unfold ListAllPermissions, view, grants. apply set_eq. intros g.
    rewrite !elem_of_list_to_set, !list_elem_of_fmap. setoid_rewrite (sort_perm _ (user_vhosts d0)). done.
Qed.

(** Exchanges, queues and bindings, for every virtual host at once. *)
Lemma import_resources src defs d b :
  (∀ n v, br_vhosts src !! n = Some v → exportable v) → blank options →
  df_Exchanges defs = (exchange_definition <$> filter (exported_exchange "") (ListExchanges src)) →
  df_Queues defs = (queue_definition <$>
    filter (λ q, in_scope "" (qd_VHost q)) (ListQueues collector now float_to src)) →
  df_Bindings defs = (binding_definition <$> filter (exported_binding "") (ListBindings src)) →
  (∀ n, is_Some (br_vhosts src !! n) → br_vhosts b !! n = Some options) →
  ∃ b4 c4 c5 c6 b5 b6, each (import_exchange "") (df_Exchanges defs) d b = Ok (d, b4, Ok c4) ∧
    each (import_queue "") (df_Queues defs) d b4 = Ok (d, b5, Ok c5) ∧
    each (import_binding "") (df_Bindings defs) d b5 = Ok (d, b6, Ok c6) ∧
    ∀ n v, br_vhosts src !! n = Some v → ∃ v', br_vhosts b6 !! n = Some v' ∧ restored v v'.
Proof.
  intros Hsrc Hblank -> -> -> Hb.
  set (dx := exchange_definition <$> _). set (dq := queue_definition <$> _). set (db := binding_definition <$> _).
  assert (Hxv : ∀ x, x ∈ dx → is_Some (br_vhosts src !! xf_VHost x)).
  { intros x (y & -> & [_ Hy]%list_elem_of_filter)%list_elem_of_fmap. unfold ListExchanges in Hy.
    rewrite sort_perm in Hy by apply _. apply (vhosts_of exchanges_of xd_VHost); [|done].
    by intros nv z (e & -> & _)%list_elem_of_fmap. }
  assert (Hqv : ∀ x, x ∈ dq → is_Some (br_vhosts src !! qf_VHost x)).
  { intros x (y & -> & [_ Hy]%list_elem_of_filter)%list_elem_of_fmap. unfold ListQueues in Hy.
    rewrite sort_perm in Hy by apply _. apply (vhosts_of (queues_of collector now float_to) qd_VHost); [|done].
    by intros nv z (e & -> & _)%list_elem_of_fmap. }
  assert (Hbv : ∀ x, x ∈ db → is_Some (br_vhosts src !! bf_VHost x)).
  { intros x (y & -> & [_ Hy]%list_elem_of_filter)%list_elem_of_fmap.
    apply (vhosts_of collectExchangeBindings bd_VHost); [|done]. intros nv z (e & Hz & _)%list_elem_of_bind.
    unfold listExchangeBindings in Hz. by apply list_elem_of_bind in Hz as (kbs & (b' & -> & _)%list_elem_of_fmap & _). }
  (* the entries of a virtual host of the source start from a new one *)
  assert (Hfrom : ∀ {A} (vh : A → string) (l : list A) n v l1 x l2, (∀ x, x ∈ l → is_Some (br_vhosts src !! vh x)) →
    br_vhosts b !! n = Some v → entries_of vh n l = l1 ++ x :: l2 →
    v = options ∧ ∃ u, br_vhosts src !! n = Some u ∧ exportable u).
  { intros A vh l n v l1 x l2 Hl Hv He. assert (x ∈ entries_of vh n l) as Hx by (rewrite He; apply elem_of_app; right; by left).
    apply list_elem_of_filter in Hx as [<- Hx]. destruct (Hl x Hx) as [u Hu].
    split; [|exists u; split; [done|by apply (Hsrc _ u Hu)]]. rewrite Hb in Hv; [by injection Hv|by exists u]. }
  destruct (each_vhosts (import_exchange "") xf_VHost put_exchange can_put_exchange) with (l := dx) (d := d) (b := b)
    as (b4 & c4 & E4 & H4).
  { intros x d' b' v. apply import_exchange_run. }
  { intros x Hx. rewrite Hb by by apply Hxv. by eexists. }
  { intros n v l1 x l2 Hv He. destruct (Hfrom _ xf_VHost dx n v l1 x l2 Hxv Hv He) as (-> & u & Hu & Hep).
    by apply (exchanges_safe src n u options Hu Hep Hblank l1 x l2). }
  destruct (each_vhosts (import_queue "") qf_VHost put_queue can_put_queue) with (l := dq) (d := d) (b := b4)
    as (b5 & c5 & E5 & H5).
  { intros x d' b' v. apply import_queue_run. }
  { intros x Hx. rewrite H4, Hb by by apply Hqv. by eexists. }
  { intros n v l1 x l2 Hv He. rewrite H4 in Hv. apply fmap_Some in Hv as (v0 & Hv0 & ->).
    destruct (Hfrom _ qf_VHost dq n v0 l1 x l2 Hqv Hv0 He) as (-> & u & Hu & Hep).
    by apply (queues_safe collector now float_to src n u options Hu Hep Hblank l1 x l2). }
  destruct (each_vhosts (import_binding "") bf_VHost put_binding can_put_binding) with (l := db) (d := d) (b := b5)
    as (b6 & c6 & E6 & H6).
  { intros x d' b' v. apply import_binding_run. }
  { intros x Hx. rewrite H5, H4, Hb by by apply Hbv. by eexists. }
  { intros n v l1 x l2 Hv He. rewrite H5 in Hv. apply fmap_Some in Hv as (v1 & Hv1 & ->).
    rewrite H4 in Hv1. apply fmap_Some in Hv1 as (v0 & Hv0 & ->).
    destruct (Hfrom _ bf_VHost db n v0 l1 x l2 Hbv Hv0 He) as (-> & u & Hu & Hep).
    by apply (bindings_safe collector now float_to src n u options Hu Hep Hblank l1 x l2). }
  exists b4, c4, c5, c6, b5, b6. split_and!; [done..|]. intros n v Hv. rewrite H6, H5, H4, Hb by by exists v.
  eexists. split; [done|]. apply (restored_vhost collector now float_to src n v options Hv); [by apply (Hsrc n)|done].
Qed.

(** C?. An import of an export restores the broker.  Posting what a global export
    of a broker and its user database answers, to a broker whose virtual hosts are
    new, succeeds, and afterwards every virtual host of the first broker is there
    with every queue (with its durability and arguments, but none exclusive) and
    every exchange that is not mandatory, with its type and all its bindings in
    their order; and every account, with its hash and role, and every grant has
    been added to those the database had.  It needs what the code relies on: the
    metadata of the new virtual hosts can be saved, and the message of the error
    for a virtual host that exists says so. *)
Theorem definitions_roundtrip src d0 defs tgt dt :
  (∀ n v, br_vhosts src !! n = Some v → exportable v) → wf_db d0 → wf_db dt →
  buildDefinitions collector now float_to src d0 "" = Ok defs →
  blank options → (∀ n v, br_vhosts tgt !! n = Some v → v = options) →
  (∀ n, is_Some (br_vhosts src !! n) → saved n = true) →
  isAlreadyExists (Fails "vhost already exists") = true →
  ∃ dt' tgt' counts, applyDefinitions options saved false defs "" dt tgt = Ok (dt', tgt', Ok counts) ∧
    (∀ n v, br_vhosts src !! n = Some v → ∃ v', br_vhosts tgt' !! n = Some v' ∧ restored v v') ∧
    accounts (view dt') = accounts (view dt) ∪ accounts (view d0) ∧
    grants (view dt') = grants (view dt) ∪ grants (view d0).
Proof.
  intros Hsrc Hd0 Hdt Hbuild Hblank Htgt Hsaved Halready.
  destruct (export_parts src d0 defs Hd0 Hbuild) as (Hvh & Hus & Hps & Hxs & Hqs & Hbs).
  destruct (import_vhosts (df_VHosts defs) dt tgt Halready) as (b1 & c1 & E1 & Hb1 & Hin1); [|done|].
  { intros n Hn. apply Hsaved. by apply Hvh. }
  destruct (import_users (df_Users defs) dt b1 Hdt) as (d2 & c2 & E2 & Hd2 & Hg2 & Ha2).
  destruct (import_permissions (df_Permissions defs) d2 b1 Hd2) as (d3 & c3 & E3 & Ha3 & Hg3).
  destruct (import_resources src defs d3 b1 Hsrc Hblank) as (b4 & c4 & c5 & c6 & b5 & b6 & E4 & E5 & E6 & Hr); [done..| |].
  { intros n Hn. destruct (Hin1 n) as [v Hv]; [left; by apply Hvh|]. by rewrite Hv, (Hb1 n v Hv). }
  exists d3, b6. eexists. split; [|split; [exact Hr|]].
  - unfold applyDefinitions, import_accounts. rewrite decide_True by done. unfold mbind, imp_bind, mret, imp_ret.
    by rewrite E1, E2, E3, E4, E5, E6.
  - by rewrite Ha3, Hg3, Ha2, Hg2, Hus, Hps.
Qed.
End whole.

(** ** Virtual hosts that can be exported *)

Section keeps_exportable.
Context `{Runtime}.

(** What [exportable] asks of one exchange. *)
Definition tidy (e : Exchange) : Prop :=
  ∀ key bs, ex_Bindings e !! key = Some bs → supported (ex_Typ e) ∧ replayable key bs.

Lemma exportable_tidy v : wf_names v → vh_Queues v !! "" = None → (∀ n e, vh_Exchanges v !! n = Some e → tidy e) →
  exportable v.
Proof. intros Hw Hn Ht. split; [done|done| |]; intros n e key bs He Hb; by apply (Ht n e He key bs Hb). Qed.
Lemma exportable_is_tidy v n e : exportable v → vh_Exchanges v !! n = Some e → tidy e.
Proof. intros Hep He key bs Hb. split; [by eapply (ep_supported _ Hep)|by eapply (ep_replayable _ Hep)]. Qed.

Lemma new_exchange_tidy name typ props : tidy (NewExchange name typ props).
Proof. intros key bs. cbn. by rewrite lookup_empty. Qed.

Lemma existsb_none {A} (f : A → bool) l : existsb f l = false → Forall (λ y, f y = false) l.
Proof. induction l as [|y l IH]; cbn; intros Hl; [constructor|]. apply orb_false_iff in Hl as [? ?]. constructor; [done|by apply IH]. Qed.
Lemma ForallOrdPairs_snoc {A} (R : A → A → Prop) l x : ForallOrdPairs R l → Forall (λ y, R y x) l → ForallOrdPairs R (l ++ [x]).
Proof.
  induction 1 as [|y l Hy Hl IH]; intros Hx; cbn; [by repeat constructor|]. apply Forall_cons in Hx as [Hyx Hx].
  constructor; [|by apply IH]. apply Forall_app. split; [done|by constructor].
Qed.

Lemma add_binding_tidy key queue rk args e e' : supported (ex_Typ e) → tidy e →
  add_binding key (MkBinding queue rk args) queue key args e = Some e' → tidy e'.
Proof.
  unfold add_binding. intros Hs Ht. destruct (existsb _ _) eqn:Hx; [done|]. intros [= <-] k bs. cbn [ex_Bindings ex_Typ set_Bindings].
  rewrite lookup_insert_Some. intros [[<- <-]|[_ Hb]]; [|by apply Ht]. split; [done|].
  apply ForallOrdPairs_snoc; [|by apply existsb_none in Hx]. destruct (ex_Bindings e !! key) as [l|] eqn:E; [by apply Ht|constructor].
Qed.

Lemma BindQueue_exportable exchange queue key args conn v :
  exportable v → exportable (BindQueue exchange queue key args conn v).1.
Proof.
  intros Hep. pose proof (BindQueue_wf exchange queue key args conn v (ep_wf _ Hep)) as Hw.
  destruct (BindQueue exchange queue key args conn v) as [v' [[]|err]] eqn:Hb; cbn [fst] in *.
  2: { apply BindQueue_err in Hb as ->. done. }
  apply BindQueue_ok in Hb as (e & q & He & Hq & _ & Hs & Hb). cbn zeta in Hb.
  destruct (add_binding _ _ _ _ _ e) as [e'|] eqn:Ha; [|by subst v'].
  assert (vh_Exchanges v' = <[resolveExchangeAlias exchange := e']> (vh_Exchanges v) ∧ vh_Queues v' = vh_Queues v) as [Hx Hqs].
  { rewrite Hb. unfold persist_if. by destruct (_ && _). }
  apply exportable_tidy; [done|by rewrite Hqs, (ep_named _ Hep)|]. intros n e0. rewrite Hx, lookup_insert_Some.
  intros [[_ <-]|[_ Hn]]; [|by apply (exportable_is_tidy v n)].
  eapply add_binding_tidy; [|by eapply exportable_is_tidy|exact Ha]. destruct Hs as [|[|]]; [by left|by right; left|by right; right].
Qed.

Lemma CreateExchange_exportable name typ props v : exportable v → exportable (VHost.CreateExchange name typ props v).1.
Proof.
  intros Hep. pose proof (CreateExchange_wf name typ props v (ep_wf _ Hep)) as Hw.
  assert (vh_Queues (VHost.CreateExchange name typ props v).1 = vh_Queues v ∧
    ∀ n e, vh_Exchanges (VHost.CreateExchange name typ props v).1 !! n = Some e →
      vh_Exchanges v !! n = Some e ∨ e = NewExchange name typ props) as [Hq Hx].
  { unfold VHost.CreateExchange. repeat (case_match || case_decide); cbn [fst]; try (split; [done|by left]).
    all: unfold persist_if; repeat case_match; cbn; (split; [done|]); intros n e'; rewrite lookup_insert_Some;
      (intros [[_ <-]|[_ ?]]; [by right|by left]). }
  apply exportable_tidy; [done|by rewrite Hq, (ep_named _ Hep)|]. intros n e [He| ->]%Hx; [by apply (exportable_is_tidy v n)|].
  apply new_exchange_tidy.
Qed.

Lemma CreateQueue_exportable candidates name props conn v :
  name ≠ "" → exportable v → exportable (Lifecycle.CreateQueue candidates name (Some props) conn v).1.
Proof.
  intros Hne Hep. pose proof (CreateQueue_wf candidates name props conn v (ep_wf _ Hep)) as Hw.
  assert (vh_Exchanges (Lifecycle.CreateQueue candidates name (Some props) conn v).1 = vh_Exchanges v ∧
    vh_Queues (Lifecycle.CreateQueue candidates name (Some props) conn v).1 !! "" = vh_Queues v !! "") as [Hx Hq].
  { unfold Lifecycle.CreateQueue. rewrite decide_False by done. unfold create_queue.
    repeat case_match; cbn [fst]; try done; unfold persist_if; case_match; cbn; by rewrite ?lookup_insert_ne. }
  apply exportable_tidy; [done|by rewrite Hq, (ep_named _ Hep)|]. intros n e. rewrite Hx. by apply exportable_is_tidy.
Qed.

Lemma new_vhost_exportable bufferSize maxPriority dlx ttl qll : exportable (new_vhost bufferSize maxPriority dlx ttl qll).
Proof.
  unfold new_vhost, createMandatoryExchanges. apply (foldl_keeps exportable).
  - intros v nt. apply CreateExchange_exportable.
  - apply exportable_tidy; [|done|by intros n e; cbn; rewrite lookup_empty].
    split; cbn; try (intros *; rewrite lookup_empty; done). apply empty_index_wf.
Qed.

Lemma new_vhost_blank bufferSize maxPriority dlx ttl qll : blank (new_vhost bufferSize maxPriority dlx ttl qll).
Proof.
  unfold new_vhost, createMandatoryExchanges. set (o := bare_vhost bufferSize maxPriority dlx ttl qll).
  pose (ex (nt : string * string) := MkExchangeDefinition nt.1 "" nt.2 false false false None).
  assert (∀ l v, foldl (λ vh nt, (VHost.CreateExchange nt.1 nt.2 (Some (MkExchangeProps false false false false false None)) vh).1) v l =
    foldl put_exchange v (ex <$> l)) as ->.
  { induction l as [|nt l IH]; intros v; [done|]. cbn. by rewrite IH. }
  destruct (put_exchanges (ex <$> VHost.mandatoryExchanges) o) as (Hq & Hout & Hin).
  { apply (bool_decide_unpack _). by vm_compute. }
  split; [by rewrite Hq| |].
  - intros m [e He]. destruct (decide (m ∈ xf_Name <$> (ex <$> VHost.mandatoryExchanges))) as [Hm|Hm].
    + assert (Forall (λ m, m ∈ mandatoryExchanges) (xf_Name <$> (ex <$> VHost.mandatoryExchanges))) as Hf
        by (apply (bool_decide_unpack _); by vm_compute).
      rewrite Forall_forall in Hf. by apply Hf.
    + by rewrite (Hout m Hm) in He.
  - exists (new_exchange (ex (DEFAULT_EXCHANGE, DIRECT))). split; [|done]. apply (Hin (ex (DEFAULT_EXCHANGE, DIRECT))); [|done].
    by left.
Qed.
End keeps_exportable.

(** ** A sample *)

Section definitions_sample.
#[local] Existing Instance sample_runtime.
#[local] Existing Instance sample_order.
(** The text of an error that is a constant text. *)
Definition sample_errors : Environment := {|
  write_ok := λ _ _ _, true;
  error_text := λ e, match e with Fails s => s | _ => "error" end;
  reply_text := λ _, "error";
  queue_names := λ n, [String.append "amq.gen-" (pretty n)];
  consumer_tags := λ n, [String.append "ctag-" (pretty n)];
  GenerateMessageId := λ n, String.append "m-" (pretty n);
  clock := λ n, Z.of_nat n;
  channel_order := λ _ l, l;
  channel_order_visits := λ _ _, reflexivity _;
|}.
#[local] Existing Instance sample_errors.

Definition sample_options : VHost := new_vhost 100 10 true true true.
(** A queue, shared or exclusive, and an exchange with two bindings to it. *)
Definition sample_source (exclusive : bool) : VHost :=
  let v := (Lifecycle.CreateQueue [] "orders" (Some (MkQueueProps false true false exclusive
    (Some [("x-max-length", VI32 10)]))) "conn-1" sample_options).1 in
  let v := (VHost.CreateExchange "events" TOPIC (Some (MkExchangeProps false true false false false None)) v).1 in
  let v := (BindQueue "events" "orders" "order.*" None "conn-1" v).1 in
  (BindQueue "events" "orders" "bill.#" (Some [("tenant", VStr "a")]) "conn-1" v).1.
Definition broker_with (v : VHost) : Broker := MkBroker {["/" := v]} ∅ ∅ ∅ false 0 [].
Definition fresh_db : db := AddDefaultRoles InitDB.

Definition exported (v : VHost) : res db_err DefinitionsDTO :=
  buildDefinitions None 0 (λ _ z, z) (broker_with v) sample_db "".
Definition import_into (v : VHost) (defs : DefinitionsDTO) : res stop (db * Broker * res import_err DefinitionsImportResponse) :=
  applyDefinitions sample_options (λ _, true) false defs "" fresh_db (broker_with v).

Lemma sample_source_exportable exclusive : exportable (sample_source exclusive).
Proof.
  apply BindQueue_exportable, BindQueue_exportable, CreateExchange_exportable, CreateQueue_exportable; [done|].
  apply new_vhost_exportable.
Qed.

Lemma fresh_wf : wf_db fresh_db.
Proof. by split; [constructor|]. Qed.
Lemma sample_db_wf : wf_db sample_db.
Proof. apply (reachable_wf sample_hash false), reachable_ops, db_start. Qed.

Lemma definitions_roundtrip_witness :
  ∃ defs dt tgt counts, exported (sample_source false) = Ok defs ∧ import_into sample_options defs = Ok (dt, tgt, Ok counts) ∧
    is_Some (accounts (view dt) !! "alice") ∧
    ∃ v, br_vhosts tgt !! "/" = Some v ∧ restored (sample_source false) v.
Proof.
  destruct (exported (sample_source false)) as [defs|e] eqn:E; [|exfalso; revert E; by vm_compute].
  destruct (definitions_roundtrip None 0 (λ _ z, z) sample_options (λ _, true) (broker_with (sample_source false)) sample_db
    defs (broker_with sample_options) fresh_db) as (dt & tgt & counts & Hrun & Hrestored & Hacc & _).
  - intros n v. unfold broker_with. cbn [br_vhosts]. intros [<- <-]%lookup_singleton_Some. apply sample_source_exportable.
  - apply sample_db_wf.
  - apply fresh_wf.
  - exact E.
  - apply new_vhost_blank.
  - intros n v. unfold broker_with. cbn [br_vhosts]. by intros [_ <-]%lookup_singleton_Some.
  - done.
  - by vm_compute.
  - exists defs, dt, tgt, counts. split; [done|]. split; [exact Hrun|]. split.
    + rewrite Hacc. eexists; by vm_compute.
    + apply Hrestored. by vm_compute.
Defined.

(** The default exchange is exported under the name it is shown by, and an import
    makes an exchange of that name. *)
Lemma default_exchange_copied :
  ∃ defs, exported sample_options = Ok defs ∧ xf_Name <$> df_Exchanges defs = [DEFAULT_EXCHANGE_ALIAS] ∧
    ∃ dt tgt counts, import_into sample_options defs = Ok (dt, tgt, Ok counts) ∧ ir_Exchanges counts = 1 ∧
      (v ← br_vhosts tgt !! "/"; ex_Name <$> vh_Exchanges v !! DEFAULT_EXCHANGE_ALIAS) = Some DEFAULT_EXCHANGE_ALIAS.
Proof.
  eexists. split; [by vm_compute|]. split; [by vm_compute|]. eexists _, _, _. split; [by vm_compute|]. by split; vm_compute.
Qed.

(** Bindings to the other exchanges every virtual host has are left out. *)
Lemma mandatory_bindings_lost :
  let v := (BindQueue "amq.topic" "orders" "a.b" None "conn-1" (sample_source false)).1 in
  df_Bindings <$> (match exported v with Ok d => Some d | Err _ => None end) =
  df_Bindings <$> (match exported (sample_source false) with Ok d => Some d | Err _ => None end).
Proof. by vm_compute. Qed.

(** Importing its own export stops at the first exclusive queue. *)
Lemma exclusive_queue_stops_import :
  ∃ defs, exported (sample_source true) = Ok defs ∧ ∃ dt tgt, import_into (sample_source true) defs =
    Ok (dt, tgt, Err (BrokerFails (VHostError (ChannelError RESOURCE_LOCKED QUEUE QUEUE_DECLARE)))).
Proof. eexists. split; [by vm_compute|]. eexists _, _. by vm_compute. Qed.
End definitions_sample.
