(* ===== verification/Web.v ===== *)
(** * The web API: web/server.go, web/middleware, web/handlers

    A request reaches the handler of its route through the middleware of the
    route: [serve] is that chain, on the user database and the broker.  Which route
    a path matches, reading a body's JSON into the request type of the handler
    ([None] when it cannot be read), and signing and checking tokens are the
    libraries'.  Left out are the routes whose handlers only read what is not
    modelled (overview, nodes, channels, connections and health checks), all
    behind [JwtMiddleware], and the pages of the user interface.  A panic in a
    handler ends the model's request. *)

From stdpp Require Import base list gmap strings pretty.
From Stdlib Require Import ZArith Lia.
From Stdlib Require Import Strings.Byte.
From S2P Require Import Prelude Bytes Comparators RateTracker Collector Values Properties Methods Handshake Users Args Queue.
From S2P Require Import Deliveries Consumers Json VHost Lifecycle Publish Broker Handlers Management Listing Definitions.

Local Open Scope Z_scope.
Local Open Scope string_scope.
Local Open Scope list_scope.

(** ** Parameters of a path *)

(** [url.PathUnescape]: every [%xx] is a byte; [None] when one is malformed. *)
Definition hex_value (x : byte) : option N :=
  let n := Byte.to_N x in
  if (48 <=? n)%N && (n <=? 57)%N then Some (n - 48)%N
  else if (97 <=? n)%N && (n <=? 102)%N then Some (n - 87)%N
  else if (65 <=? n)%N && (n <=? 70)%N then Some (n - 55)%N else None.
Fixpoint unescape (s : list byte) : option (list byte) :=
  match s with
  | [] => Some []
  | x25 :: rest =>
      match rest with
      | h :: l :: rest =>
          a ← hex_value h; b ← hex_value l; x ← Byte.of_N (16 * a + b); s ← unescape rest; Some (x :: s)
      | _ => None
      end
  | x :: rest => s ← unescape rest; Some (x :: s)
  end.
Definition PathUnescape (s : string) : option string := string_of <$> unescape (bytes_of s).
Definition decodedParam (val : string) : string := default val (PathUnescape val).
(** The virtual host of a path; an empty one is the default. *)
Definition vhost_param (val : string) : string := if decide (val = "") then "/" else decodedParam val.

(** ** Requests and responses *)

Record AuthRequest : Type := MkAuthRequest { ar_Username : string; ar_Password : string }.
Record UserCreateRequest : Type := MkUserCreateRequest {
  uc_Username : string;
  uc_Password : string;
  uc_ConfirmPassword : string;
  uc_Role : Z;
}.
Record UserPasswordUpdateRequest : Type := MkPasswordUpdate { pu_Password : string; pu_ConfirmPassword : string }.
Record GetMessageRequest : Type := MkGetMessageRequest { gm_AckMode : string; gm_MessageCount : Z }.

Inductive Body : Type :=
| NoBody
| ErrorBody (text : string)
| SuccessBody (text : string)
| AuthBody (token : string)
| UserListBody (users : list UserListDTO)
| UserBody (user : UserListDTO)
| PermissionListBody (permissions : list VHostPermission)
| PermissionBody (permission : VHostPermission)
| VHostListBody (names : list string)
| VHostBody (name : string)
| QueueListBody (queues : list QueueDTO)
| QueueBody (queue : QueueDTO)
| ExchangeListBody (exchanges : list ExchangeDTO)
| ExchangeBody (exchange : ExchangeDTO)
| BindingListBody (bindings : list BindingDTO)
| ConsumerListBody (consumers : list ConsumerDTO)
| MessageListBody (messages : list MessageDTO)
| DefinitionsBody (definitions : DefinitionsDTO)
| ImportBody (counts : DefinitionsImportResponse).

Record Response : Type := MkResponse { rs_Status : Z; rs_Body : Body }.
Definition reply (status : Z) (body : Body) : Response := MkResponse status body.
Definition fault (status : Z) (text : string) : Response := MkResponse status (ErrorBody text).

Definition StatusOK : Z := 200.
Definition StatusCreated : Z := 201.
Definition StatusNoContent : Z := 204.
Definition StatusBadRequest : Z := 400.
Definition StatusUnauthorized : Z := 401.
Definition StatusForbidden : Z := 403.
Definition StatusNotFound : Z := 404.
Definition StatusConflict : Z := 409.
Definition StatusInternalServerError : Z := 500.

(** The claims of a token that the program reads. *)
Record Claims : Type := MkClaims { cl_Username : string; cl_Role : option string; cl_NotBefore : Z; cl_Expires : Z }.

(** What is outside of a request: the bearer token of its header, whether its peer
    is on the loopback, the time, and the salt of the next hash. *)
Record RequestContext : Type := MkContext { cx_Token : option string; cx_Loopback : bool; cx_Now : Z; cx_Salt : nat }.

(** The configuration of the server and the libraries it uses. *)
Class WebServer : Type := {
  JwtKey : string;
  LoopbackUsers : list string;
  SignedString : string → Claims → string;
  ParseToken : string → Z → string → option Claims;
  GenerateFromPassword : nat → string → option string;
  CompareHashAndPassword : string → string → bool;
  vhost_options : VHost;
  vhost_saved : string → bool;
  db_text : db_err → string;
  metrics : option Collector;
  float_to : Z → Z → Z;
}.

Definition Day : Z := 24 * 60 * 60.

(** A handler answers, and leaves the database and the broker changed. *)
Definition handler : Type := db → Broker → res stop (db * Broker * Response).

Section web.
Context `{Runtime, Environment, MapOrder, WebServer}.
Variable fuel : nat.
Variable ctx : RequestContext.

Definition answer (r : Response) : handler := λ d b, Ok (d, b, r).
Definition malformed : handler := answer (fault StatusBadRequest "invalid request body").
(** [c.BodyParser(&request)]. *)
Definition with_body {A} (body : option A) (h : A → handler) : handler :=
  match body with Some a => h a | None => malformed end.
(** A parameter that must not be empty. *)
Definition required (param : string) (h : handler) : handler :=
  if decide (param = "") then answer (fault StatusBadRequest "a name is required") else h.
(** A read of the database, an operation on it, and one on the broker. *)
Definition on_read {A} (f : db → res db_err A) (failed : db_err → Response) (h : A → Response) : handler := λ d b,
  Ok (d, b, match f d with Ok a => h a | Err e => failed e end).
Definition on_db (f : db → db * res db_err unit) (failed : db_err → Response) (done : Response) : handler := λ d b,
  match f d with
  | (d, Ok _) => Ok (d, b, done)
  | (d, Err e) => Ok (d, b, failed e)
  end.
Definition on_broker {A} (m : brk A) (failed : broker_err → Response) (h : A → Response) : handler := λ d b,
  match m b with
  | Err s => Err s
  | Ok (b, Ok a) => Ok (d, b, h a)
  | Ok (b, Err e) => Ok (d, b, failed e)
  end.
Definition db_fault (status : Z) (e : db_err) : Response := fault status (db_text e).
Definition broker_fault (status : Z) (e : broker_err) : Response := fault status (error_text e).
(** The errors the handlers recognise by their text. *)
Definition not_found_or (status : Z) (e : db_err) : Response :=
  db_fault (match e with NotFound _ => StatusNotFound | _ => status end) e.
Definition vhost_not_found_or (status : Z) (e : broker_err) : Response :=
  broker_fault (match e with Fails t => if decide (t = "vhost not found") then StatusNotFound else status | _ => status end) e.

(** ** handlers/api_admin *)

Definition GenerateJWTToken (user : UserListDTO) : string :=
  SignedString JwtKey (MkClaims (ul_Username user) (Some (ul_Role user)) (cx_Now ctx) (cx_Now ctx + Day)).

Definition Login (body : option AuthRequest) : handler :=
  with_body body (λ req d b,
    let result :=
      match AuthenticateUser CompareHashAndPassword (ar_Username req) (ar_Password req) d with
      | Err e => db_fault StatusInternalServerError e
      | Ok false => fault StatusUnauthorized "Invalid username or password"
      | Ok true =>
          if decide (ar_Username req ∈ LoopbackUsers ∧ cx_Loopback ctx = false)
          then fault StatusUnauthorized "User can only log in from localhost" else
          match (u ← GetUserByUsername (ar_Username req) d; ToUserListDTO u d) with
          | Err e => db_fault StatusInternalServerError e
          | Ok userdto => reply StatusOK (AuthBody (GenerateJWTToken userdto))
          end
      end in
    Ok (d, b, result)).

Definition AddUser (body : option UserCreateRequest) : handler :=
  with_body body (λ user,
    if decide (uc_Password user ≠ uc_ConfirmPassword user) then answer (fault StatusBadRequest "Passwords do not match") else
    on_db (Users.AddUser GenerateFromPassword false (cx_Salt ctx) (uc_Username user) (uc_Password user) (uc_Role user))
      (db_fault StatusInternalServerError) (reply StatusOK (SuccessBody "User added successfully"))).
Definition add_summary (d : db) (u : User) (out : list UserListDTO) : res db_err (list UserListDTO) :=
  dto ← ToUserListDTO u d; Ok (out ++ [dto]).
Definition GetUsers : handler :=
  on_read (λ d, for_each (add_summary d) (Users.GetUsers d) []) (db_fault StatusInternalServerError)
    (λ l, reply StatusOK (UserListBody l)).
Definition GetUser (username : string) : handler := λ d b,
  match GetUserByUsername (decodedParam username) d with
  | Err _ => Ok (d, b, fault StatusNotFound "User not found")
  | Ok u => on_read (ToUserListDTO u) (db_fault StatusInternalServerError) (λ dto, reply StatusOK (UserBody dto)) d b
  end.
Definition DeleteUser (username : string) : handler :=
  on_db (Users.DeleteUser false (decodedParam username)) (not_found_or StatusInternalServerError)
    (reply StatusNoContent NoBody).
Definition ChangePassword (username : string) (body : option UserPasswordUpdateRequest) : handler :=
  with_body body (λ req,
    if decide (pu_Password req ≠ pu_ConfirmPassword req) then answer (fault StatusBadRequest "Passwords do not match") else
    on_db (Users.ChangePassword GenerateFromPassword (cx_Salt ctx) (decodedParam username) (pu_Password req))
      (not_found_or StatusInternalServerError) (reply StatusOK (SuccessBody "Password updated successfully"))).

Definition ListPermissions : handler :=
  on_read (λ d, Ok (ListAllPermissions d)) (db_fault StatusInternalServerError)
    (λ l, reply StatusOK (PermissionListBody l)).
Definition GetPermission (vhost username : string) : handler :=
  let p := MkPermission (decodedParam username) (decodedParam vhost) in
  on_read (HasVHostAccess (vp_Username p) (vp_VHost p)) (db_fault StatusInternalServerError)
    (λ ok : bool, if ok then reply StatusOK (PermissionBody p) else fault StatusNotFound "no permission found").
Definition GrantPermission (vhost username : string) : handler :=
  let p := MkPermission (decodedParam username) (decodedParam vhost) in
  on_db (GrantVHostAccess false (vp_Username p) (vp_VHost p)) (db_fault StatusInternalServerError)
    (reply StatusCreated (PermissionBody p)).
Definition RevokePermission (vhost username : string) : handler :=
  let p := MkPermission (decodedParam username) (decodedParam vhost) in
  on_db (RevokeVHostAccess (vp_Username p) (vp_VHost p)) (not_found_or StatusInternalServerError)
    (reply StatusNoContent NoBody).

(** ** handlers/api *)

Definition failed_500 : broker_err → Response := broker_fault StatusInternalServerError.

Definition GetVHost (name : string) : handler :=
  let name := decodedParam name in
  on_broker (get (λ b, Broker.GetVHost name b)) failed_500
    (λ v, match v with Some _ => reply StatusOK (VHostBody name) | None => fault StatusNotFound "VHost not found" end).
Definition ListVHosts : handler :=
  on_broker (get (λ b, (Listing.ListVHosts b).*1)) failed_500 (λ l, reply StatusOK (VHostListBody l)).
Definition CreateVHost (name : string) : handler :=
  let name := decodedParam name in
  if decide (name = "") then answer (fault StatusBadRequest "VHost name cannot be empty") else
  on_broker (Broker.CreateVHost vhost_options (vhost_saved name) name) (broker_fault StatusConflict)
    (λ _, reply StatusCreated (VHostBody name)).
Definition DeleteVHost (name : string) : handler :=
  on_broker (Broker.DeleteVHost (decodedParam name)) (vhost_not_found_or StatusBadRequest)
    (λ _, reply StatusNoContent NoBody).

Definition ListQueues : handler :=
  on_broker (get (Listing.ListQueues metrics (cx_Now ctx) float_to)) failed_500 (λ l, reply StatusOK (QueueListBody l)).
(** The name of the queue is not decoded. *)
Definition GetQueue (vhost queue : string) : handler :=
  required queue (on_broker (ShowQueue metrics (cx_Now ctx) float_to (vhost_param vhost) queue) failed_500 (λ q, reply StatusOK (QueueBody q))).
Definition createQueue (vhost queue : string) (body : option CreateQueueRequest) : handler :=
  with_body body (λ request,
    on_broker (Management.CreateQueue (vhost_param vhost) queue request)
      (λ e, broker_fault (match e with VHostError (ChannelError 404 _ _) => StatusNotFound | _ => StatusInternalServerError end) e)
      (λ _, reply StatusOK (SuccessBody "Queue created successfully"))).
Definition CreateQueue (vhost queue : string) (body : option CreateQueueRequest) : handler :=
  createQueue vhost (if decide (queue = "") then "" else decodedParam queue) body.
Definition CreateQueueEmptyName (vhost : string) (body : option CreateQueueRequest) : handler := createQueue vhost "" body.
Definition DeleteQueue (vhost queue ifUnused ifEmpty : string) : handler :=
  required queue (on_broker (Management.DeleteQueue (vhost_param vhost) queue (bool_decide (ifUnused = "true")) (bool_decide (ifEmpty = "true")))
    failed_500 (λ _, reply StatusNoContent NoBody)).
Definition PurgeQueue (vhost queue : string) : handler :=
  required queue (on_broker (Management.PurgeQueue fuel (vhost_param vhost) queue) failed_500 (λ _, reply StatusNoContent NoBody)).
Definition ListQueueBindings (vhost queue : string) : handler :=
  match PathUnescape queue with
  | None => answer (fault StatusBadRequest "Invalid queue name")
  | Some queue =>
      required queue (on_broker (v ← with_vhost (vhost_param vhost);
                 if decide (is_Some (Management.GetQueue queue v)) then mret (Listing.ListQueueBindings (vhost_param vhost) queue v)
                 else fails (Fails "queue not found in vhost"))
        failed_500 (λ l, reply StatusOK (BindingListBody l)))
  end.

Definition ack_type (mode : string) : AckType :=
  if decide (mode = "" ∨ mode = "ack") then AckMode else if decide (mode = "no_ack") then NoAckMode
  else if decide (mode = "reject") then RejectMode else if decide (mode = "reject_requeue") then RejectRequeueMode
  else UnknownMode mode.
Definition GetMessage (vhost queue : string) (body : option GetMessageRequest) : handler :=
  required queue (with_body body (λ request,
    let count := if decide (gm_MessageCount request <= 0) then 1 else gm_MessageCount request in
    on_broker (GetMessages fuel (vhost_param vhost) queue count (ack_type (gm_AckMode request))) failed_500
      (λ msgs, if decide (length msgs = 0%nat) then fault StatusNotFound "No messages in queue"
               else reply StatusOK (MessageListBody msgs)))).
(** [POST /messages] has no parameters: the default virtual host and exchange. *)
Definition PublishMessage (vhost exchange : string) (body : option PublishMessageRequest) : handler :=
  with_body body (λ request,
    on_broker (Management.PublishMessage fuel (vhost_param vhost) (if decide (exchange = "") then "" else decodedParam exchange)
      request) failed_500 (λ _, reply StatusOK (SuccessBody "Message published"))).

Definition ListExchanges : handler :=
  on_broker (get Listing.ListExchanges) failed_500 (λ l, reply StatusOK (ExchangeListBody l)).
(** [exchangeToDTO] of one exchange, without its rates. *)
Definition exchangeToDTO (vhName : string) (e : Exchange) : ExchangeDTO :=
  let props := ex_Props e in
  MkExchangeDTO vhName (NameOrAlias e) (ex_Typ e) (ep_Durable props) (ep_AutoDelete props) (ep_Internal props)
    (ep_Arguments props).
Definition found_exchange (vhost exchange : string) : brk Exchange :=
  v ← with_vhost vhost;
  match Management.GetExchange exchange v with
  | Some e => mret e
  | None => fails (Fails "exchange not found in vhost")
  end.
Definition GetExchange (vhost exchange : string) : handler :=
  on_broker (found_exchange (vhost_param vhost) (decodedParam exchange)) failed_500
    (λ e, reply StatusOK (ExchangeBody (exchangeToDTO (vhost_param vhost) e))).
Definition CreateExchange (vhost exchange : string) (body : option CreateExchangeRequest) : handler :=
  required exchange (with_body body (λ request,
    on_broker (Management.CreateExchange (vhost_param vhost) (decodedParam exchange) request) failed_500
      (λ _, reply StatusOK (SuccessBody "Exchange created successfully")))).
(** The name of the exchange is not decoded. *)
Definition DeleteExchange (vhost exchange : string) : handler :=
  required exchange (on_broker (Management.DeleteExchange (vhost_param vhost) exchange false) failed_500 (λ _, reply StatusNoContent NoBody)).
Definition GetBindingsExchangeSource (vhost exchange : string) : handler :=
  required exchange (on_broker (found_exchange (vhost_param vhost) (decodedParam exchange)) failed_500
    (λ e, reply StatusOK (BindingListBody (listExchangeBindings (vhost_param vhost) e)))).

Definition default_vhost (req : BindingRequest) : BindingRequest :=
  MkBindingRequest (if decide (br_VHost req = "") then "/" else br_VHost req) (br_Source req) (br_Destination req)
    (br_RoutingKey req) (br_Arguments req).
Definition BindQueue (body : option BindingRequest) : handler :=
  with_body body (λ request,
    on_broker (CreateBinding (default_vhost request)) failed_500
      (λ _, reply StatusOK (SuccessBody "Queue bound to exchange"))).
Definition ListBindings : handler :=
  on_broker (get Listing.ListBindings) failed_500 (λ l, reply StatusOK (BindingListBody l)).
Definition ListVhostBindings (vhost : string) : handler :=
  let vhost := vhost_param vhost in
  on_broker (v ← with_vhost vhost; mret (collectExchangeBindings (vhost, v)))
    (vhost_not_found_or StatusInternalServerError) (λ l, reply StatusOK (BindingListBody l)).
Definition DeleteBinding (body : option BindingRequest) : handler :=
  with_body body (λ request,
    on_broker (Management.DeleteBinding (default_vhost request)) failed_500 (λ _, reply StatusNoContent NoBody)).

Definition ListConsumers : handler :=
  on_broker (get Listing.ListConsumers) failed_500 (λ l, reply StatusOK (ConsumerListBody l)).
Definition ListVhostConsumers (vhost : string) : handler :=
  let vhost := vhost_param vhost in
  on_broker (v ← with_vhost vhost; get (λ b, Listing.ListVhostConsumers b (vhost, v))) failed_500
    (λ l, reply StatusOK (ConsumerListBody l)).
Definition ListQueueConsumers (vhost queueName : string) : handler :=
  required queueName (let vhost := vhost_param vhost in
  on_broker (v ← with_vhost vhost; get (λ b, Listing.ListQueueConsumers b (vhost, v) (decodedParam queueName))) failed_500
    (λ l, reply StatusOK (ConsumerListBody l))).

Definition CloseConnection (name reason : string) : handler :=
  required name (on_broker (Broker.CloseConnection (decodedParam name) (if decide (reason = "") then "Closed by admin via API" else reason))
    failed_500 (λ _, reply StatusOK (SuccessBody "Connection closed"))).

Definition export_definitions (scope : string) : handler := λ d b,
  on_read (λ d, buildDefinitions metrics (cx_Now ctx) float_to b d scope) (db_fault StatusInternalServerError)
    (λ defs, reply StatusOK (DefinitionsBody defs)) d b.
Definition import_definitions (scope : string) (body : option DefinitionsDTO) : handler :=
  with_body body (λ defs d b,
    match applyDefinitions vhost_options vhost_saved false defs scope d b with
    | Err s => Err s
    | Ok (d, b, Ok counts) => Ok (d, b, reply StatusOK (ImportBody counts))
    | Ok (d, b, Err (BrokerFails e)) => Ok (d, b, failed_500 e)
    | Ok (d, b, Err (DatabaseFails e)) => Ok (d, b, db_fault StatusInternalServerError e)
    end).
Definition ExportDefinitions : handler := export_definitions "".
Definition ExportVHostDefinitions (vhost : string) : handler := export_definitions (decodedParam vhost).
Definition ImportDefinitions (body : option DefinitionsDTO) : handler := import_definitions "" body.
Definition ImportVHostDefinitions (vhost : string) (body : option DefinitionsDTO) : handler :=
  import_definitions (decodedParam vhost) body.

(** ** middleware *)

(** The token's claims go into the request's locals. *)
Definition JwtMiddleware (next : Claims → handler) : handler :=
  match (t ← cx_Token ctx; ParseToken JwtKey (cx_Now ctx) t) with
  | Some claims => next claims
  | None => answer (fault StatusUnauthorized "Missing or invalid JWT token")
  end.
Definition AdminOnly (next : handler) (claims : Claims) : handler :=
  if decide (default "" (cl_Role claims) ≠ "admin") then answer (fault StatusForbidden "Admin access required") else next.

(** ** server.go *)

(** The routes of [AddAdminApi] and [AddApi], with what their handlers are given. *)
Inductive admin_route : Type :=
| AGetUsers
| AAddUser (body : option UserCreateRequest)
| AGetUser (username : string)
| ADeleteUser (username : string)
| AChangePassword (username : string) (body : option UserPasswordUpdateRequest)
| AListPermissions
| AGetPermission (vhost username : string)
| AGrantPermission (vhost username : string)
| ARevokePermission (vhost username : string).

Inductive api_route : Type :=
| RListVHosts
| RGetVHost (vhost : string)
| RCreateVHost (vhost : string)
| RDeleteVHost (vhost : string)
| RListQueues
| RGetQueue (vhost queue : string)
| RListQueueBindings (vhost queue : string)
| RCreateQueueEmptyName (vhost : string) (body : option CreateQueueRequest)
| RCreateQueue (vhost queue : string) (body : option CreateQueueRequest)
| RDeleteQueue (vhost queue ifUnused ifEmpty : string)
| RPurgeQueue (vhost queue : string)
| RGetMessage (vhost queue : string) (body : option GetMessageRequest)
| RMessages (body : option PublishMessageRequest)
| RListExchanges
| RGetExchange (vhost exchange : string)
| RCreateExchange (vhost exchange : string) (body : option CreateExchangeRequest)
| RDeleteExchange (vhost exchange : string)
| RExchangeBindings (vhost exchange : string)
| RPublish (vhost exchange : string) (body : option PublishMessageRequest)
| RListBindings
| RListVhostBindings (vhost : string)
| RBindQueue (body : option BindingRequest)
| RDeleteBinding (body : option BindingRequest)
| RListConsumers
| RListVhostConsumers (vhost : string)
| RListQueueConsumers (vhost queueName : string)
| RCloseConnection (name reason : string)
| RExportDefinitions
| RImportDefinitions (body : option DefinitionsDTO)
| RExportVHostDefinitions (vhost : string)
| RImportVHostDefinitions (vhost : string) (body : option DefinitionsDTO).

Inductive route : Type :=
| LoginRoute (body : option AuthRequest)
| ApiRoute (r : api_route)
| AdminRoute (r : admin_route).

Definition admin_handler (r : admin_route) : handler :=
  match r with
  | AGetUsers => GetUsers
  | AAddUser body => AddUser body
  | AGetUser username => GetUser username
  | ADeleteUser username => DeleteUser username
  | AChangePassword username body => ChangePassword username body
  | AListPermissions => ListPermissions
  | AGetPermission vhost username => GetPermission vhost username
  | AGrantPermission vhost username => GrantPermission vhost username
  | ARevokePermission vhost username => RevokePermission vhost username
  end.

Definition api_handler (r : api_route) : handler :=
  match r with
  | RListVHosts => ListVHosts
  | RGetVHost vhost => GetVHost vhost
  | RCreateVHost vhost => CreateVHost vhost
  | RDeleteVHost vhost => DeleteVHost vhost
  | RListQueues => ListQueues
  | RGetQueue vhost queue => GetQueue vhost queue
  | RListQueueBindings vhost queue => ListQueueBindings vhost queue
  | RCreateQueueEmptyName vhost body => CreateQueueEmptyName vhost body
  | RCreateQueue vhost queue body => CreateQueue vhost queue body
  | RDeleteQueue vhost queue ifUnused ifEmpty => DeleteQueue vhost queue ifUnused ifEmpty
  | RPurgeQueue vhost queue => PurgeQueue vhost queue
  | RGetMessage vhost queue body => GetMessage vhost queue body
  | RMessages body => PublishMessage "" "" body
  | RListExchanges => ListExchanges
  | RGetExchange vhost exchange => GetExchange vhost exchange
  | RCreateExchange vhost exchange body => CreateExchange vhost exchange body
  | RDeleteExchange vhost exchange => DeleteExchange vhost exchange
  | RExchangeBindings vhost exchange => GetBindingsExchangeSource vhost exchange
  | RPublish vhost exchange body => PublishMessage vhost exchange body
  | RListBindings => ListBindings
  | RListVhostBindings vhost => ListVhostBindings vhost
  | RBindQueue body => BindQueue body
  | RDeleteBinding body => DeleteBinding body
  | RListConsumers => ListConsumers
  | RListVhostConsumers vhost => ListVhostConsumers vhost
  | RListQueueConsumers vhost queueName => ListQueueConsumers vhost queueName
  | RCloseConnection name reason => CloseConnection name reason
  | RExportDefinitions => ExportDefinitions
  | RImportDefinitions body => ImportDefinitions body
  | RExportVHostDefinitions vhost => ExportVHostDefinitions vhost
  | RImportVHostDefinitions vhost body => ImportVHostDefinitions vhost body
  end.

Definition AddApi (r : api_route) : handler := JwtMiddleware (λ _, api_handler r).
Definition AddAdminApi (r : admin_route) : handler := JwtMiddleware (AdminOnly (admin_handler r)).
Definition serve (r : route) : handler :=
  match r with
  | LoginRoute body => Login body
  | ApiRoute r => AddApi r
  | AdminRoute r => AddAdminApi r
  end.
End web.

(** ** Who may do what *)

Section authorization.
Context `{Runtime, Environment, MapOrder, WebServer}.
Variable fuel : nat.
Variable ctx : RequestContext.

Definition token_claims : option Claims := t ← cx_Token ctx; ParseToken JwtKey (cx_Now ctx) t.
Definition is_admin (c : Claims) : Prop := cl_Role c = Some "admin".

(** A handler that leaves the accounts and the grants, and hands out no token. *)
Definition no_token (r : Response) : Prop := ∀ t, rs_Body r ≠ AuthBody t.
Definition quiet (h : handler) : Prop := ∀ d b d' b' r, h d b = Ok (d', b', r) → d' = d ∧ no_token r.
(** One that hands out no token. *)
Definition tokenless (h : handler) : Prop := ∀ d b d' b' r, h d b = Ok (d', b', r) → no_token r.

Lemma quiet_tokenless h : quiet h → tokenless h.
Proof. intros Hq d b d' b' r Hr. by apply (Hq _ _ _ _ _ Hr). Qed.
Lemma quiet_answer r : no_token r → quiet (answer r).
Proof. intros Hr d b d' b' r' [= <- <- <-]. done. Qed.
Lemma quiet_required p h : quiet h → quiet (required p h).
Proof. intros Hq. unfold required. case_decide; [by apply quiet_answer|done]. Qed.
Lemma quiet_with_body {A} (body : option A) h : (∀ a, quiet (h a)) → quiet (with_body body h).
Proof. intros Hq. destruct body as [a|]; [apply Hq|]. by apply quiet_answer. Qed.
Lemma quiet_broker {A} (m : brk A) failed h : (∀ e, no_token (failed e)) → (∀ a, no_token (h a)) → quiet (on_broker m failed h).
Proof.
  intros Hf Hh d b d' b' r. unfold on_broker. destruct (m b) as [[b1 [a|e]]|s]; [..|done]; by intros [= <- <- <-].
Qed.
Lemma quiet_read {A} (f : db → res db_err A) failed h :
  (∀ e, no_token (failed e)) → (∀ a, no_token (h a)) → quiet (on_read f failed h).
Proof. intros Hf Hh d b d' b' r. unfold on_read. intros [= <- <- <-]. split; [done|]. by destruct (f d). Qed.
Lemma tokenless_db f failed done : (∀ e, no_token (failed e)) → no_token done → tokenless (on_db f failed done).
Proof. intros Hf Hd d b d' b' r. unfold on_db. by destruct (f d) as [d1 [a|e]]; intros [= <- <- <-]. Qed.
Lemma no_token_fault status text : no_token (fault status text).
Proof. done. Qed.

(** Definitions of one virtual host change no account. *)
Lemma each_quiet {A} (f : A → imp bool) l : (∀ x d b d' b' r, x ∈ l → f x d b = Ok (d', b', r) → d' = d) →
  ∀ d b d' b' r, each f l d b = Ok (d', b', r) → d' = d.
Proof.
  induction l as [|x l IH]; intros Hf d b d' b' r; cbn; [by intros [= <- _ _]|]. unfold mbind, imp_bind.
  destruct (f x d b) as [[[d1 b1] [ok|e]]|s] eqn:E; [|intros [= <- _ _]; eapply Hf; [by left|exact E]|done].
  apply Hf in E as ->; [|by left].
  destruct (each f l d b1) as [[[d2 b2] [n|e]]|s] eqn:E2; [| |done];
    (intros [= <- _ _]; eapply IH; [|exact E2]; intros ?????? Hx; apply Hf; by right).
Qed.
Lemma unless_exists_quiet {A} (m : brk A) d b d' b' r : unless_exists m d b = Ok (d', b', r) → d' = d.
Proof. unfold unless_exists. destruct (m b) as [[b1 [a|e]]|s]; [..|done]; by intros [= <- _ _]. Qed.

Lemma scoped_import_quiet scope body : scope ≠ "" → quiet (import_definitions scope body).
Proof.
  intros Hs. apply quiet_with_body. intros defs d b d' b' r.
  destruct (applyDefinitions vhost_options vhost_saved false defs scope d b) as [[[d1 b1] r1]|s] eqn:E; [|done].
  assert (d1 = d) as ->.
  { unfold applyDefinitions in E. rewrite decide_False in E by done. unfold mbind, imp_bind, mret, imp_ret in E.
    repeat match type of E with
    | match ?m with _ => _ end = _ => destruct m as [[[? ?] [?|?]]|?] eqn:?; [| |discriminate E]
    end; injection E as <- _ _.
    all: repeat match goal with
      | H : each ?f ?l ?d ?b = Ok (?d', _, _) |- _ =>
          assert (d' = d) by (eapply (each_quiet f l); [|exact H]; intros ?????? _; apply unless_exists_quiet); clear H
      end; by subst. }
  destruct r1 as [counts|[e|e]]; by intros [= <- <- <-].
Qed.

Definition changes_users (r : api_route) : Prop :=
  match r with
  | RImportDefinitions _ => True
  | RImportVHostDefinitions vhost _ => decodedParam vhost = ""
  | _ => False
  end.

Ltac no_token_body :=
  intros; unfold failed_500, broker_fault, db_fault, vhost_not_found_or, not_found_or;
  repeat case_match; repeat case_decide; try apply no_token_fault; done.
Ltac quiet_handler :=
  repeat first [apply quiet_required | apply quiet_with_body; intros ? | apply quiet_broker | apply quiet_read
    | apply quiet_answer ]; try no_token_body.

Lemma api_quiet r : ¬ changes_users r → quiet (api_handler fuel ctx r).
Proof.
  intros Hr. destruct r; cbn [api_handler changes_users] in *; try done.
  all: unfold ListVHosts, GetVHost, CreateVHost, DeleteVHost, ListQueues, GetQueue, ListQueueBindings, CreateQueueEmptyName,
    CreateQueue, createQueue, DeleteQueue, PurgeQueue, GetMessage, PublishMessage, ListExchanges, GetExchange, CreateExchange,
    DeleteExchange, GetBindingsExchangeSource, ListBindings, ListVhostBindings, BindQueue, DeleteBinding, ListConsumers,
    ListVhostConsumers, ListQueueConsumers, CloseConnection; cbv zeta; try (quiet_handler; done).
  - case_decide; quiet_handler.
  - destruct (PathUnescape queue); quiet_handler.
  - intros d b. apply (quiet_read (λ d, buildDefinitions metrics (cx_Now ctx) float_to b d "")); no_token_body.
  - intros d b. apply (quiet_read (λ d, buildDefinitions metrics (cx_Now ctx) float_to b d (decodedParam vhost))); no_token_body.
  - by apply scoped_import_quiet.
Qed.

Lemma import_tokenless scope body : tokenless (import_definitions scope body).
Proof.
  unfold import_definitions, with_body. destruct body as [defs|]; [|by apply quiet_tokenless, quiet_answer].
  intros d b d' b' r. destruct (applyDefinitions _ _ _ _ _ _ _) as [[[d1 b1] [counts|[e|e]]]|s]; [..|done];
    by intros [= <- <- <-].
Qed.
Lemma api_tokenless r : tokenless (api_handler fuel ctx r).
Proof.
  destruct r; try (apply quiet_tokenless, api_quiet; tauto); apply import_tokenless.
Qed.

Lemma admin_tokenless r : tokenless (admin_handler ctx r).
Proof.
  destruct r; cbn [admin_handler].
  - apply quiet_tokenless. unfold GetUsers. quiet_handler.
  - unfold AddUser, with_body. destruct body as [u|]; [|by apply quiet_tokenless, quiet_answer].
    case_decide; [by apply quiet_tokenless, quiet_answer|]. apply tokenless_db; no_token_body.
  - intros d b d' b' r. unfold GetUser. destruct (GetUserByUsername _ d) as [u|e]; [|by intros [= <- <- <-]].
    intros Hr. apply (quiet_read (ToUserListDTO u) (db_fault StatusInternalServerError) (λ dto, reply StatusOK (UserBody dto)))
      in Hr as [_ Hr]; [done|no_token_body..].
  - apply tokenless_db; no_token_body.
  - unfold ChangePassword, with_body. destruct body as [u|]; [|by apply quiet_tokenless, quiet_answer].
    case_decide; [by apply quiet_tokenless, quiet_answer|]. apply tokenless_db; no_token_body.
  - apply quiet_tokenless. unfold ListPermissions. quiet_handler.
  - apply quiet_tokenless. unfold GetPermission. cbv zeta. quiet_handler.
  - apply tokenless_db; no_token_body.
  - apply tokenless_db; no_token_body.
Qed.

(** What a login must have shown for the token it is given. *)
Definition logged_in (d : db) (token : string) : Prop :=
  ∃ u password role, find_user (u_Username u) d = Some u ∧ CompareHashAndPassword (u_Password u) password = true ∧
    GetRoleByID (u_RoleID u) d = Ok role ∧ (u_Username u ∉ LoopbackUsers ∨ cx_Loopback ctx = true) ∧
    token = SignedString JwtKey (MkClaims (u_Username u) (Some (r_Name role)) (cx_Now ctx) (cx_Now ctx + Day)).

Lemma find_user_name name d u : find_user name d = Some u → u_Username u = name.
Proof.
  unfold find_user. destruct (list_find _ _) as [[i x]|] eqn:E; [|done]. cbn. intros [= ->].
  by apply list_find_Some in E as (_ & ? & _).
Qed.

Lemma login_spec body d b d' b' r : Login ctx body d b = Ok (d', b', r) →
  d' = d ∧ b' = b ∧ ∀ token, rs_Body r = AuthBody token → logged_in d token.
Proof.
  unfold Login, with_body. destruct body as [req|]; [|by intros [= <- <- <-]]. intros [= <- <- <-].
  split; [done|]. split; [done|]. intros token. unfold AuthenticateUser.
  destruct (find_user (ar_Username req) d) as [u|] eqn:Hu; [|done].
  destruct (CompareHashAndPassword (u_Password u) (ar_Password req)) eqn:Hp; [|done].
  case_decide as Hl; [done|]. unfold GetUserByUsername. rewrite Hu. cbn [mbind res_mbind res_bind].
  unfold ToUserListDTO. change (u_RoleID (without_hash u)) with (u_RoleID u).
  destruct (GetRoleByID (u_RoleID u) d) as [role|e] eqn:Hr; [|done]. cbn. intros [= <-].
  pose proof (find_user_name _ _ _ Hu) as Hn. rewrite <- Hn in *. exists u, (ar_Password req), role. split_and!; try done.
  destruct (decide (u_Username u ∈ LoopbackUsers)) as [Hin|]; [right|by left].
  destruct (cx_Loopback ctx) eqn:E; [done|]. by destruct Hl.
Qed.

(** C?. The web API obeys its tokens.  A request other than a login, without a token
    that the key checks, is refused and changes nothing.  A login changes nothing,
    and only a login hands out a token: for an account whose password was given
    (from the loopback, if it is confined to it), with the role the account has.
    The routes for administrators refuse every other role, and the accounts and the
    grants are changed only by a request with an administrator's token, or by an
    import of definitions that is not confined to a virtual host, which any
    token may ask for. *)
Theorem web_authorization r d b d' b' resp :
  serve fuel ctx r d b = Ok (d', b', resp) →
  ((∀ body, r ≠ LoginRoute body) → token_claims = None → rs_Status resp = StatusUnauthorized ∧ d' = d ∧ b' = b) ∧
  (∀ token, rs_Body resp = AuthBody token → d' = d ∧ b' = b ∧ logged_in d token) ∧
  (∀ a, r = AdminRoute a → (∀ c, token_claims = Some c → ¬ is_admin c) →
     (rs_Status resp = StatusUnauthorized ∨ rs_Status resp = StatusForbidden) ∧ d' = d ∧ b' = b) ∧
  (d' ≠ d → ∃ c, token_claims = Some c ∧
     ((∃ a, r = AdminRoute a ∧ is_admin c) ∨ ∃ a, r = ApiRoute a ∧ changes_users a)).
Proof.
  destruct r as [body|a|a]; cbn [serve].
  - intros Hl. pose proof (login_spec body d b d' b' resp Hl) as (-> & -> & Ht). split; [intros Hn; by destruct (Hn body)|].
    split; [intros token Htok; split_and!; [done..|by apply Ht]|]. by split.
  - unfold AddApi, JwtMiddleware. fold token_claims. destruct token_claims as [c|] eqn:Ec.
    + intros Hr. split; [done|]. split; [intros token Htok; by destruct (api_tokenless a _ _ _ _ _ Hr token)|].
      split; [done|]. intros Hd. exists c. split; [done|]. right. exists a. split; [done|].
      assert (changes_users a ∨ ¬ changes_users a) as [Hc|Hc]; [|done|].
      { destruct a; cbn; try tauto. destruct (decide (decodedParam vhost = "")); tauto. }
      destruct Hd. by apply (api_quiet a Hc _ _ _ _ _ Hr).
    + intros [= <- <- <-]. by split_and!.
  - unfold AddAdminApi, JwtMiddleware. fold token_claims. destruct token_claims as [c|] eqn:Ec.
    + unfold AdminOnly. case_decide as Ha.
      * intros [= <- <- <-]. split; [done|]. split; [done|]. split; [|done]. intros _ _ _. split; [by right|done].
      * intros Hr. assert (is_admin c) as Hc.
        { unfold is_admin. destruct (cl_Role c); cbn in Ha; congruence. }
        split; [done|]. split; [intros token Htok; by destruct (admin_tokenless a _ _ _ _ _ Hr token)|].
        split; [intros _ _ Hn; by destruct (Hn c)|]. intros _. exists c. split; [done|]. left. by exists a.
    + intros [= <- <- <-]. split; [done|]. split; [done|]. split; [|done]. intros _ _ _. split; [by left|done].
Qed.
End authorization.

(** ** A sample *)

Section web_sample.
#[local] Existing Instance sample_runtime.
#[local] Existing Instance sample_order.
#[local] Existing Instance sample_environment.
(** Tokens that hold their claims in the clear, and the passwords of [Users]. *)
Definition sample_token (c : Claims) : string :=
  cl_Username c +:+ "/" +:+ default "" (cl_Role c).
Definition sample_parse (t : string) : option Claims :=
  match Split t x2f with [name; role] => Some (MkClaims name (Some role) 0 Day) | _ => None end.
Definition sample_web : WebServer := {|
  JwtKey := "0123456789abcdef0123456789abcdef";
  LoopbackUsers := ["guest"];
  SignedString _ c := sample_token c;
  ParseToken _ _ t := sample_parse t;
  GenerateFromPassword := sample_hash;
  CompareHashAndPassword := sample_compare;
  vhost_options := new_vhost 100 10 true true true;
  vhost_saved _ := true;
  db_text _ := "error";
  metrics := None;
  float_to _ z := z;
|}.
#[local] Existing Instance sample_web.

Definition sample_broker : Broker := MkBroker {["/" := new_vhost 100 10 true true true]} ∅ ∅ ∅ false 0 [].
Definition guest_db : db := (Users.AddUser sample_hash false 0 "mallory" "secret" 3 (AddDefaultRoles InitDB)).1.
Definition as_token (token : option string) : RequestContext := MkContext token false 0 0.
(** Requests one after the other, with the token each is sent with. *)
Fixpoint requests (rs : list (option string * route)) (d : db) (b : Broker) : res stop (db * Broker * list Response) :=
  match rs with
  | [] => Ok (d, b, [])
  | (token, r) :: rs =>
      match serve 10 (as_token token) r d b with
      | Err s => Err s
      | Ok (d, b, resp) => match requests rs d b with Err s => Err s | Ok (d, b, l) => Ok (d, b, resp :: l) end
      end
  end.

(** A guest's token is refused where an administrator's is asked for, but imports
    an administrator of the guest's choosing, who then logs in as one. *)
Definition escalation : list (option string * route) :=
  [(None, LoginRoute (Some (MkAuthRequest "mallory" "secret")));
   (Some "mallory/guest", AdminRoute AGetUsers);
   (Some "mallory/guest", ApiRoute (RImportDefinitions
      (Some (MkDefinitions [] [MkUserDefinition "root" "hmine" "admin"] [] [] [] []))));
   (None, LoginRoute (Some (MkAuthRequest "root" "mine")))].
Lemma any_token_makes_administrators :
  (λ r, match r with Ok (_, _, l) => (λ x, (rs_Status x, rs_Body x)) <$> l | Err _ => [] end)
    (requests escalation guest_db sample_broker) =
  [(200, AuthBody "mallory/guest"); (403, ErrorBody "Admin access required");
   (200, ImportBody (MkImportResponse 0 1 0 0 0 0)); (200, AuthBody "root/admin")].
Proof. by vm_compute. Qed.

(** An exchange whose name is escaped in the path is made but never deleted. *)
Lemma escaped_exchange_stays :
  (λ r, match r with
        | Ok (_, b, l) => (rs_Status <$> l, bool_decide (is_Some (v ← br_vhosts b !! "/"; vh_Exchanges v !! "a b")))
        | Err _ => ([], false) end)
    (requests [(Some "mallory/guest", ApiRoute (RCreateExchange "%2F" "a%20b"
                  (Some (MkCreateExchangeRequest "direct" false false false false None))));
               (Some "mallory/guest", ApiRoute (RDeleteExchange "%2F" "a%20b"))] guest_db sample_broker) =
  ([200; 204], true).
Proof. by vm_compute. Qed.

Lemma web_authorization_witness :
  ∃ d b resp, serve 10 (as_token (Some "mallory/guest")) (AdminRoute (AAddUser (Some (MkUserCreateRequest "eve" "p" "p" 1))))
    guest_db sample_broker = Ok (d, b, resp) ∧ d = guest_db ∧ (rs_Status resp = 401 ∨ rs_Status resp = 403).
Proof.
  destruct (serve 10 (as_token (Some "mallory/guest")) (AdminRoute (AAddUser (Some (MkUserCreateRequest "eve" "p" "p" 1))))
    guest_db sample_broker) as [[[d b] resp]|s] eqn:E; [|exfalso; revert E; by vm_compute].
  destruct (web_authorization 10 (as_token (Some "mallory/guest")) _ _ _ _ _ _ E) as (_ & _ & Ha & _).
  destruct (Ha _ eq_refl) as (Hs & Hd & _); [|by exists d, b, resp].
  intros c Hc Hadmin. assert (cl_Role <$> token_claims (as_token (Some "mallory/guest")) = Some (Some "guest")) as Hg by by vm_compute.
  rewrite Hc in Hg. injection Hg as Hg. unfold is_admin in Hadmin. by rewrite Hadmin in Hg.
Defined.
End web_sample.
