(* ===== verification/Config.v ===== *)
(** * Configuration and the signing key: config/config.go, config/security.go

    [LoadConfig] reads the environment, which is a map of texts here, with the
    standard library's parsers written out.  [ResolveJwtSecret] gives the key that
    signs the web API's tokens; the key file is the one place where several brokers
    that start at once meet, so its creation is a transition system of their system
    calls, each of which may fail ([starts_agree]). *)

From stdpp Require Import base list gmap strings.
From Stdlib Require Import ZArith Lia SpecFloat.
From Stdlib Require Import Strings.Byte.
From S2P Require Import Prelude Bytes RateTracker Values Methods Handshake.

Local Open Scope Z_scope.
Local Open Scope string_scope.
Local Open Scope list_scope.

(** ** strconv, strings and time *)

(** [strconv.ParseUint(s, 10, bits)]. *)
Definition ParseUint (bits : Z) (s : string) : option Z :=
  match bytes_of s with
  | [] => None
  | ds => z ← digits_value 0 ds; if decide (z < 2 ^ bits) then Some z else None
  end.

Definition ParseBool (s : string) : option bool :=
  if decide (s ∈ ["1"; "t"; "T"; "true"; "TRUE"; "True"]) then Some true
  else if decide (s ∈ ["0"; "f"; "F"; "false"; "FALSE"; "False"]) then Some false else None.

(** [strings.TrimSpace]: the encodings of Unicode's white space. *)
Definition white_space : list (list byte) :=
  [[x09]; [x0a]; [x0b]; [x0c]; [x0d]; [x20]; [xc2; x85]; [xc2; xa0]; [xe1; x9a; x80];
   [xe2; x80; x80]; [xe2; x80; x81]; [xe2; x80; x82]; [xe2; x80; x83]; [xe2; x80; x84]; [xe2; x80; x85]; [xe2; x80; x86];
   [xe2; x80; x87]; [xe2; x80; x88]; [xe2; x80; x89]; [xe2; x80; x8a]; [xe2; x80; xa8]; [xe2; x80; xa9]; [xe2; x80; xaf];
   [xe2; x81; x9f]; [xe3; x80; x80]].
Fixpoint strip_prefix (p s : list byte) : option (list byte) :=
  match p, s with
  | [], s => Some s
  | x :: p, y :: s => if decide (x = y) then strip_prefix p s else None
  | _, [] => None
  end.
Fixpoint trim_left (spaces : list (list byte)) (fuel : nat) (s : list byte) : list byte :=
  match fuel with
  | O => s
  | S fuel => match head (omap (λ p, strip_prefix p s) spaces) with Some s => trim_left spaces fuel s | None => s end
  end.
Definition TrimSpace (s : string) : string :=
  let s := trim_left white_space (length (bytes_of s)) (bytes_of s) in
  string_of (reverse (trim_left (reverse <$> white_space) (length s) (reverse s))).

(** [time.ParseDuration]: one or more numbers, each with a unit. *)
Definition Second : Z := 1000000000.
Definition unitMap (u : list byte) : option Z :=
  match u with
  | [x6e; x73] => Some 1
  | [x75; x73] | [xc2; xb5; x73] | [xce; xbc; x73] => Some 1000
  | [x6d; x73] => Some 1000000
  | [x73] => Some Second
  | [x6d] => Some (60 * Second)
  | [x68] => Some (3600 * Second)
  | _ => None
  end.
Fixpoint leadingInt (x : Z) (s : list byte) : option (Z * list byte) :=
  match s with
  | c :: rest =>
      match digit c with
      | None => Some (x, s)
      | Some d =>
          if decide (2 ^ 63 / 10 < x) then None else
          let x := x * 10 + d in
          if decide (2 ^ 63 < x) then None else leadingInt x rest
      end
  | [] => Some (x, [])
  end.
(** Digits beyond what fits are skipped; the scale is a float64. *)
Fixpoint leadingFraction (x : Z) (scale : float64) (overflow : bool) (s : list byte) : Z * float64 * list byte :=
  match s with
  | c :: rest =>
      match digit c with
      | None => (x, scale, s)
      | Some d =>
          if overflow then leadingFraction x scale true rest else
          if decide ((2 ^ 63 - 1) / 10 < x) then leadingFraction x scale true rest else
          let y := x * 10 + d in
          if decide (2 ^ 63 < y) then leadingFraction x scale true rest
          else leadingFraction y (SFmul 53 1024 scale (float_of 10)) false rest
      end
  | [] => (x, scale, [])
  end.
Fixpoint unit_span (s : list byte) : list byte * list byte :=
  match s with
  | c :: rest =>
      if decide (c = x2e ∨ is_Some (digit c)) then ([], s) else let '(u, s) := unit_span rest in (c :: u, s)
  | [] => ([], [])
  end.
(** [uint64] of a float64 that is not negative. *)
Definition truncate (f : float64) : Z :=
  match f with
  | S754_finite _ m e => if decide (0 <= e) then Zpos m * 2 ^ e else Zpos m / 2 ^ (- e)
  | _ => 0
  end.
Definition one_part (s : list byte) : option (Z * list byte) :=
  match s with
  | [] => None
  | c :: _ =>
      if decide (c = x2e ∨ is_Some (digit c)) then
        '(v, s1) ← leadingInt 0 s;
        let pre := bool_decide (length s1 ≠ length s) in
        let '(f, scale, s2, post) :=
          match s1 with
          | x2e :: rest =>
              let '(f, scale, s2) := leadingFraction 0 (float_of 1) false rest in
              (f, scale, s2, bool_decide (length s2 ≠ length rest))
          | _ => (0, float_of 1, s1, false)
          end in
        if negb (pre || post) then None else
        let '(u, s3) := unit_span s2 in
        if decide (u = []) then None else
        unit ← unitMap u;
        if decide (2 ^ 63 / unit < v) then None else
        let v := v * unit in
        let v := if decide (0 < f)
          then v + truncate (SFmul 53 1024 (float_of f) (SFdiv 53 1024 (float_of unit) scale)) else v in
        if decide (2 ^ 63 < v) then None else Some (v, s3)
      else None
  end.
Fixpoint parts (fuel : nat) (d : Z) (s : list byte) : option Z :=
  match s, fuel with
  | [], _ => Some d
  | _, O => None
  | _, S fuel =>
      '(v, s) ← one_part s; let d := d + v in if decide (2 ^ 63 < d) then None else parts fuel d s
  end.
Definition ParseDuration (s : string) : option Z :=
  let '(neg, s) :=
    match bytes_of s with
    | x2d :: s => (true, s)
    | x2b :: s => (false, s)
    | s => (false, s)
    end in
  if decide (s = [x30]) then Some 0 else
  if decide (s = []) then None else
  d ← parts (length s) 0 s;
  if neg : bool then Some (- d) else if decide (2 ^ 63 - 1 < d) then None else Some d.

(** ** config.go *)

Record Config : Type := MkConfig {
  cf_ShowLogo : bool;
  cf_BrokerPort : string;
  cf_BrokerHost : string;
  cf_DataDir : string;
  cf_HeartbeatIntervalMax : Z;
  cf_ChannelMax : Z;
  cf_FrameMax : Z;
  cf_Version : string;
  cf_Ssl : bool;
  cf_QueueBufferSize : Z;
  cf_MaxPriority : Z;
  cf_HandshakeTimeout : Z;
  cf_EnableDLX : bool;
  cf_EnableTTL : bool;
  cf_EnableQLL : bool;
  cf_EnableWebAPI : bool;
  cf_EnableUI : bool;
  cf_EnableSwagger : bool;
  cf_WebAPIPath : string;
  cf_UIPath : string;
  cf_SwaggerPath : string;
  cf_WebPort : string;
  cf_Username : string;
  cf_Password : string;
  cf_JwtSecret : string;
  cf_LoopbackUsers : list string;
  cf_InsecureDev : bool;
  cf_LogLevel : string;
  cf_EnableMetrics : bool;
  cf_WindowSize : Z;
  cf_MaxSamples : Z;
  cf_SamplesInterval : Z;
  cf_EnablePrometheus : bool;
  cf_PrometheusPort : string;
  cf_PrometheusPath : string;
  cf_PrometheusUpdateInterval : Z;
}.

Definition DefaultHandshakeTimeout : Z := 10 * Second.

Section config.
(** The environment, after the .env file has been added to it. *)
Variable environ : gmap string string.

Definition Getenv (key : string) : string := default "" (environ !! key).
Definition getEnv (key defaultValue : string) : string :=
  let value := Getenv key in if decide (value ≠ "") then value else defaultValue.
(** An empty or malformed value is the default. *)
Definition parsed {A} (parse : string → option A) (key : string) (defaultValue : A) : A :=
  let valueStr := Getenv key in
  if decide (valueStr = "") then defaultValue else default defaultValue (parse valueStr).
Definition getEnvAsInt : string → Z → Z := parsed (λ s, Atoi (bytes_of s)).
Definition getEnvAsUint16 : string → Z → Z := parsed (ParseUint 16).
Definition getEnvAsUint8 : string → Z → Z :=
  parsed (λ s, value ← ParseUint 16 s; if decide (255 < value) then Some 255 else Some value).
Definition getEnvAsUint32 : string → Z → Z := parsed (ParseUint 32).
Definition getEnvAsBool : string → bool → bool := parsed ParseBool.
Definition getEnvAsDuration : string → Z → Z := parsed ParseDuration.

(** Unset means "guest"; set and empty, nobody is confined. *)
Definition loopbackUsersFromEnv : list string :=
  match environ !! "OTTERMQ_LOOPBACK_USERS" with
  | None => ["guest"]
  | Some value => filter (λ user, user ≠ "") (TrimSpace <$> Split value x2c)
  end.

Definition LoadConfig (version : string) : Config :=
  MkConfig
    (getEnvAsBool "OTTERMQ_SHOW_LOGO" false)
    (getEnv "OTTERMQ_BROKER_PORT" "5672")
    (getEnv "OTTERMQ_BROKER_HOST" "")
    (getEnv "OTTERMQ_DATA_DIR" "data")
    (getEnvAsUint16 "OTTERMQ_HEARTBEAT_INTERVAL" 60)
    (getEnvAsUint16 "OTTERMQ_CHANNEL_MAX" 2048)
    (getEnvAsUint32 "OTTERMQ_FRAME_MAX" 131072)
    version
    (getEnvAsBool "OTTERMQ_SSL" false)
    (getEnvAsInt "OTTERMQ_QUEUE_BUFFER_SIZE" 100000)
    (getEnvAsUint8 "OTTERMQ_MAX_PRIORITY" 10)
    (getEnvAsDuration "OTTERMQ_HANDSHAKE_TIMEOUT" DefaultHandshakeTimeout)
    (getEnvAsBool "OTTERMQ_ENABLE_DLX" true)
    (getEnvAsBool "OTTERMQ_ENABLE_TTL" true)
    (getEnvAsBool "OTTERMQ_ENABLE_QLL" true)
    (getEnvAsBool "OTTERMQ_ENABLE_WEB_API" true)
    (getEnvAsBool "OTTERMQ_ENABLE_UI" true)
    (getEnvAsBool "OTTERMQ_ENABLE_SWAGGER" false)
    (getEnv "OTTERMQ_WEB_API_PATH" "/api")
    (getEnv "OTTERMQ_UI_PATH" "/usr/local/share/ottermq/ui")
    (getEnv "OTTERMQ_SWAGGER_PATH" "/docs")
    (getEnv "OTTERMQ_WEB_PORT" "3000")
    (getEnv "OTTERMQ_USERNAME" "guest")
    (getEnv "OTTERMQ_PASSWORD" "guest")
    (getEnv "OTTERMQ_JWT_SECRET" "")
    loopbackUsersFromEnv
    (getEnvAsBool "OTTERMQ_INSECURE_DEV" false)
    (getEnv "LOG_LEVEL" "info")
    (getEnvAsBool "OTTERMQ_ENABLE_METRICS" true)
    (getEnvAsDuration "OTTERMQ_METRICS_WINDOW_SIZE" (300 * Second))
    (getEnvAsInt "OTTERMQ_METRICS_MAX_SAMPLES" 60)
    (getEnvAsUint8 "OTTERMQ_METRICS_SAMPLES_INTERVAL" 5)
    (getEnvAsBool "OTTERMQ_ENABLE_PROMETHEUS" false)
    (getEnv "OTTERMQ_PROMETHEUS_PORT" "9090")
    (getEnv "OTTERMQ_PROMETHEUS_PATH" "/metrics")
    (getEnvAsDuration "OTTERMQ_PROMETHEUS_UPDATE_INTERVAL" (5 * Second)).
End config.

Example durations :
  ParseDuration <$> ["2500ms"; "1h15m30.918s"; "-1.5h"; "+5s"; ".5s"; "0"; "1"; ""; "3000000h"; "1.0000000000000000001us"; "1s2"] =
  [Some (25 * Second / 10); Some 4530918000000; Some (- 5400 * Second); Some (5 * Second); Some (Second / 2); Some 0; None; None;
   None; Some 1000; None].
Proof. by vm_compute. Qed.
Example priorities :
  (λ v, cf_MaxPriority (LoadConfig {["OTTERMQ_MAX_PRIORITY" := v]} "")) <$> [""; "3"; "255"; "300"; "abc"; "70000"] =
  [10; 3; 255; 255; 10; 10].
Proof. by vm_compute. Qed.
Example loopback_users :
  loopbackUsersFromEnv ∅ = ["guest"] ∧ loopbackUsersFromEnv {["OTTERMQ_LOOPBACK_USERS" := " alice, ,bob "]} = ["alice"; "bob"] ∧
  loopbackUsersFromEnv {["OTTERMQ_LOOPBACK_USERS" := ""]} = [].
Proof. split_and!; by vm_compute. Qed.
