(* ===== verification/Server.v ===== *)
(** * Serving a connection: publishing, dispatch and the frame loop

    basicPublishHandler of basic.go assembles a published message from its
    method, header and body frames in the state of the channel; processRequest
    of broker.go decides which requests are served; handleConnection of
    connection.go reads frames until the connection ends. *)

From stdpp Require Import base list gmap strings pretty.
From Stdlib Require Import ZArith Lia.
From S2P Require Import Prelude Bytes Values FieldTable Reader Properties Methods Frames Handshake Args Queue.
From S2P Require Import Deliveries Consumers Json VHost Lifecycle Routing Declare Expiry Publish Settle.
From S2P Require Import Purge Cleanup Broker Transaction Handlers.

Local Open Scope Z_scope.
Local Open Scope string_scope.
Local Open Scope list_scope.

(** What one frame brings: the request it belongs to and its own part. *)
Record incoming : Type := MkIncoming {
  in_MethodFrame : option request;
  in_HeaderFrame : option HeaderFrame;
  in_Body : option (list Byte.byte);
}.

Section server.
Context `{Runtime, Environment}.
Variable fuel : nat.

(** ** basic.publish *)

(** A publish outside transactions: returned, dropped or routed. *)
Definition publish_now (vh conn : string) (channel : Z) (exchange routingKey : string) (mandatory : bool)
    (hasRouting : bool) (msg : AmqpMessage) : brk unit :=
  if negb hasRouting then
    modify (resetChannelState conn channel);;
    if mandatory then BasicReturn conn channel exchange routingKey msg else mret tt
  else
    published ← attempt (publish_message fuel vh exchange routingKey msg);
    (match published with
     | Ok _ => modify (resetChannelState conn channel)
     | Err _ => mret tt
     end);;
    GetConnectionID conn;;
    flow ← read_vhost vh (GetChannelFlowState (conn, channel));
    let '(flowActive, byBroker) := flow in
    if negb flowActive && byBroker then
      sendChannelClosing fuel conn channel PRECONDITION_FAILED CHANNEL CHANNEL_FLOW
        "Precondition Failed: channel flow is paused"
    else match published with Ok _ => mret tt | Err e => fails e end.

(** All three parts are there. *)
Definition publish_complete (vh conn : string) (channel : Z) (st : ChannelState) (content : method_content)
    (header : HeaderFrame) (body : list Byte.byte) : brk unit :=
  if decide (Z.of_nat (length body) ≠ int64 (cs_BodySize st))
  then sendConnectionClosing conn channel FRAME_ERROR BASIC BASIC_PUBLISH
         "Frame error: body size is not correct"
  else
  match content with
  | BasicPublish exchange routingKey mandatory _ =>
      routing ← read_vhost vh (HasRoutingForMessage exchange routingKey);
      match routing with
      | Err (ChannelError code classID methodID as e) =>
          sendChannelClosing fuel conn channel code classID methodID (reply_text (VHostError e))
      | Err e => fails (VHostError e)
      | Ok hasRouting =>
          let msg := MkAmqpMessage body (hf_Properties header) exchange routingKey in
          buffered ← bufferPublishInTransaction vh conn channel exchange routingKey msg mandatory;
          match buffered with
          | Some r =>
              modify (resetChannelState conn channel);;
              match r with Ok _ => mret tt | Err e => fails e end
          | None => publish_now vh conn channel exchange routingKey mandatory hasRouting msg
          end
      end
  | _ => stops (GoPanic InterfaceConversion)
  end.

(** [Content != nil] *)
Definition has_content (content : method_content) : bool :=
  match content with CNil => false | _ => true end.

Definition same_request (a : option request) (b : request) : bool :=
  match a with Some a => bool_decide (a.1 = b.1) | None => false end.

Definition basicPublishHandler (newState : incoming) (rq : request) (vh conn : string) : brk unit :=
  let channel := rm_Channel rq.2 in
  current ← get (channelState conn channel);
  match current with
  | None => fails (Fails "channel not found")
  | Some current =>
      if negb (same_request (cs_MethodFrame current) rq)
      then modify (updateChannelState conn channel (set_MethodFrame (Some rq)))
      else match cs_HeaderFrame current, in_HeaderFrame newState with
      | None, Some header => modify (updateChannelState conn channel (set_HeaderFrame header))
      | _, _ =>
          let current := match cs_Body current, in_Body newState with
            | None, Some body => set_Body body current
            | _, _ => current end in
          modify (updateChannelState conn channel (λ _, current));;
          match cs_HeaderFrame current, cs_Body current with
          | Some header, Some body =>
              if has_content (rm_Content rq.2) && bool_decide (0 < cs_BodySize current)
              then publish_complete vh conn channel current (rm_Content rq.2) header body
              else mret tt
          | _, _ => mret tt
          end
      end
  end.

Definition basicHandler (newState : incoming) (rq : request) (vh conn : string) : brk unit :=
  let m := rm_MethodID rq.2 in
  if decide (m = BASIC_QOS) then basicQoSHandler rq.2 vh conn else
  if decide (m = BASIC_CONSUME) then basicConsumeHandler fuel rq.2 vh conn else
  if decide (m = BASIC_CANCEL) then basicCancelHandler fuel rq.2 vh conn else
  if decide (m = BASIC_PUBLISH) then basicPublishHandler newState rq vh conn else
  if decide (m = BASIC_GET) then basicGetHandler fuel rq.2 vh conn else
  if decide (m = BASIC_ACK) then basicAckHandler fuel rq.2 vh conn else
  if decide (m = BASIC_REJECT) then basicRejectHandler fuel rq.2 vh conn else
  if decide (m = BASIC_RECOVER_ASYNC) then basicRecoverHandler fuel rq.2 vh conn true else
  if decide (m = BASIC_RECOVER) then basicRecoverHandler fuel rq.2 vh conn false else
  if decide (m = BASIC_NACK) then basicNackHandler fuel rq.2 vh conn else
  fails (Fails "unsupported command").

(** ** processRequest *)

(** The methods still served while a connection, or a channel, is closing. *)
Definition closes_connection (rq : RequestMethodMessage) : bool :=
  bool_decide (rm_ClassID rq = CONNECTION ∧
    (rm_MethodID rq = CONNECTION_CLOSE ∨ rm_MethodID rq = CONNECTION_CLOSE_OK)).
Definition closes_channel (rq : RequestMethodMessage) : bool :=
  bool_decide (rm_ClassID rq = CHANNEL ∧
    (rm_MethodID rq = CHANNEL_CLOSE ∨ rm_MethodID rq = CHANNEL_CLOSE_OK)).

Definition channel_closing (conn : string) (channel : Z) (b : Broker) : bool :=
  bool_decide (0 < channel) && from_option cs_ClosingChannel false (channelState conn channel b).

Definition dispatch (newState : incoming) (rq : request) (vh conn : string) : brk unit :=
  let class := rm_ClassID rq.2 in
  if decide (class = CONNECTION) then connectionHandler fuel rq.2 conn else
  if decide (class = CHANNEL) then channelHandler fuel rq vh conn else
  if decide (class = EXCHANGE) then exchangeHandler rq.2 vh conn else
  if decide (class = QUEUE) then queueHandler fuel rq.2 vh conn else
  if decide (class = BASIC) then basicHandler newState rq vh conn else
  if decide (class = TX) then txHandler fuel rq.2 vh conn else
  sendConnectionClosing conn (rm_Channel rq.2) COMMAND_INVALID class (rm_MethodID rq.2)
    (String.append "unsupported class ID " (pretty class));;
  modify (setConnectionClosingState conn).

Definition processRequest (conn : string) (newState : incoming) : brk unit :=
  match in_MethodFrame newState with
  | None => mret tt
  | Some rq =>
      info ← get (getConnInfo conn);
      match info with
      | None => mret tt
      | Some info =>
          closing ← isConnectionClosing conn;
          shutting ← get br_ShuttingDown;
          if (closing || shutting) && negb (closes_connection rq.2) then mret tt else
          vhost ← get (GetVHost (ci_VHostName (cn_Info info)));
          match vhost with
          | None => mret tt
          | Some _ =>
              chClosing ← get (channel_closing conn (rm_Channel rq.2));
              if chClosing && negb (closes_channel rq.2) then mret tt
              else dispatch newState rq (ci_VHostName (cn_Info info)) conn
          end
      end
  end.

(** ** handleConnection *)

(** [sendConnectionClosing] with the error of a request; [false] when even that
    could not be written, and the connection is dropped. *)
Definition answer_error (conn : string) (rq : RequestMethodMessage) (err : broker_err) : brk bool :=
  sent ← attempt (sendConnectionClosing conn (rm_Channel rq) INTERNAL_ERROR (rm_ClassID rq) (rm_MethodID rq)
    (error_text err));
  match sent with
  | Err _ => mret false
  | Ok _ => modify (setConnectionClosingState conn);; mret true
  end.

(** A panic while the frame is parsed. *)
Definition handleConnectionPanic (conn : string) : brk unit :=
  _ ← attempt (sendConnectionClosing conn 0 INTERNAL_ERROR 0 0 "INTERNAL_ERROR");
  cleanupConnection fuel conn.

Definition serve (conn : string) (newState : incoming) : brk bool :=
  r ← attempt (processRequest conn newState);
  match r, in_MethodFrame newState with
  | Ok _, _ | Err _, None => mret true
  | Err e, Some rq => answer_error conn rq.2 e
  end.

(** The request that a header or a body frame continues: the one the last
    method's channel holds, whatever the channel of the frame itself. *)
Definition continue_request (conn : string) (channelNum : Z) (header : option HeaderFrame)
    (body : option (list Byte.byte)) : brk (option Z) :=
  known ← get (getConnInfo conn);
  match known with
  | None => mret None
  | Some _ =>
      previous ← get (channelState conn channelNum);
      match previous with
      | None => mret (Some channelNum)
      | Some st =>
          continues ← serve conn (MkIncoming (cs_MethodFrame st) header body);
          mret (if continues : bool then Some channelNum else None)
      end
  end.

(** One frame: [None] ends the loop, otherwise the channel of the last method. *)
Definition serve_frame (conn : string) (channelNum : Z) (frame : list Byte.byte) : brk (option Z) :=
  alive ← get (getConnInfo conn);
  match alive with
  | None => mret None
  | Some _ =>
      match parseFrame frame with
      | Err (Panic _) => handleConnectionPanic conn;; mret None
      | Err _ => mret None
      | Ok Heartbeat => mret (Some channelNum)
      | Ok (MethodFrame m) =>
          n ← fresh;
          continues ← serve conn (MkIncoming (Some (n, m)) None None);
          mret (if continues : bool then Some (rm_Channel m) else None)
      | Ok (ContentHeader header) => continue_request conn channelNum (Some header) None
      | Ok (ContentBody body) => continue_request conn channelNum None (Some body)
      end
  end.

(** The loop over the bytes a client sends; every frame takes some, so their
    number is fuel enough.  Whatever ends it, the connection is cleaned up. *)
Fixpoint frame_loop (steps : nat) (conn : string) (frameMax channelNum : Z) (input : list Byte.byte)
    : brk unit :=
  match steps with
  | O => stops FuelSpent
  | S steps =>
      match readFrame frameMax input with
      | Err (FrameTooLargeError payloadSize limit) =>
          _ ← attempt (sendConnectionClosing conn 0 FRAME_ERROR 0 0 (too_large_text payloadSize limit));
          mret tt
      | Err _ => mret tt
      | Ok (frame, rest) =>
          next ← serve_frame conn channelNum frame;
          match next with
          | None => mret tt
          | Some channelNum => frame_loop steps conn frameMax channelNum rest
          end
      end
  end.

Definition handleConnection (conn : string) (frameMax : Z) (input : list Byte.byte) : brk unit :=
  frame_loop (S (length input)) conn frameMax 0 input;;
  cleanupConnection fuel conn.
End server.

(** ** A closing channel *)

Section closing_channel.
Context `{Runtime, Environment}.
Variable fuel : nat.

Lemma channelState_update conn channel f b :
  channelState conn channel (updateChannelState conn channel f b) = f <$> channelState conn channel b.
Proof.
  unfold channelState, updateChannelState. cbn. rewrite lookup_alter_eq.
  destruct (br_connInfos b !! conn) as [c|]; [|done]. cbn. by rewrite lookup_alter_eq.
Qed.

(** A call on a virtual host changes the virtual hosts and what was written. *)
Lemma on_vhost_infos {A} vh (f : VHost → res stop (handled A)) b b' r :
  on_vhost vh f b = Ok (b', r) →
  br_connInfos b' = br_connInfos b ∧ br_out b' = br_out b ∧ br_connections b' = br_connections b.
Proof. unfold on_vhost. intros Hf. repeat case_match; by simplify_eq. Qed.

Lemma release_infos conn channel b b' r :
  releaseChannelDeliveries fuel conn channel b = Ok (b', r) →
  br_connInfos b' = br_connInfos b ∧ br_out b' = br_out b ∧ br_connections b' = br_connections b.
Proof.
  unfold releaseChannelDeliveries, on_channel_vhost. intros Hr. run_brk_in Hr.
  destruct (channelVHost conn b); run_brk_in Hr; [by apply on_vhost_infos in Hr|by simplify_eq].
Qed.

Lemma write_infos conn frame b b' r :
  write conn frame b = Ok (b', r) → br_connInfos b' = br_connInfos b.
Proof. unfold write. case_match; by intros [= <- <-]. Qed.

Lemma sendChannelClosing_marks conn channel code class method text b b' r :
  0 < channel → is_Some (channelState conn channel b) →
  sendChannelClosing fuel conn channel code class method text b = Ok (b', r) →
  channel_closing conn channel b' = true.
Proof.
  intros Hch [st Hst] Hs. unfold channel_closing. rewrite bool_decide_true by done. cbn [andb].
  unfold sendChannelClosing in Hs. run_brk_in Hs. unfold getConnInfo in Hs.
  pose proof Hst as Hst'. unfold channelState in Hst'.
  destruct (br_connInfos b !! conn) as [c|] eqn:Hc; [|done]. cbn in Hst'. rewrite Hst' in Hs. run_brk_in Hs.
  set (b1 := updateChannelState conn channel set_ClosingChannel b) in *.
  assert (Hb1 : channelState conn channel b1 = Some (set_ClosingChannel st))
    by (unfold b1; by rewrite channelState_update, Hst).
  assert (Hsame : ∀ b2, br_connInfos b2 = br_connInfos b1 →
    from_option cs_ClosingChannel false (channelState conn channel b2) = true).
  { intros b2 E. unfold channelState. rewrite E. fold (channelState conn channel b1). by rewrite Hb1. }
  rewrite bind_eq in Hs.
  destruct (releaseChannelDeliveries fuel conn channel b1) as [[b2 [[]|e]]|s] eqn:Hr; [| |done];
    apply release_infos in Hr as (E & _); [|by simplify_eq; apply Hsame].
  run_brk_in Hs. case_match; [|by simplify_eq; apply Hsame].
  apply write_infos in Hs. apply Hsame. congruence.
Qed.

Lemma closing_ignores conn newState rq b :
  in_MethodFrame newState = Some rq → channel_closing conn (rm_Channel rq.2) b = true →
  closes_channel rq.2 = false → closes_connection rq.2 = false →
  processRequest fuel conn newState b = Ok (b, Ok tt).
Proof.
  intros Hrq Hclosing Hch Hcn. unfold processRequest. rewrite Hrq. run_brk.
  destruct (getConnInfo conn b) as [info|] eqn:Hinfo; [|done]. rewrite bind_eq.
  unfold isConnectionClosing. rewrite Hinfo. run_brk. rewrite Hcn. cbn [negb]. rewrite andb_true_r.
  destruct (cn_ClosingConnection info || br_ShuttingDown b); [done|]. run_brk.
  destruct (GetVHost _ b); [|done]. run_brk. by rewrite Hclosing, Hch.
Qed.

(** C22. A channel the broker has closed is quiet until the client agrees.  Once
    sendChannelClosing has run, however it ended, every request on that channel
    but channel.close and channel.close-ok is ignored, in any number: nothing is
    written and neither the broker nor any virtual host changes.  (A request of
    the connection class is never on such a channel.) *)
Theorem closed_channel_is_quiet (conn : string) (channel code class method : Z) (text : string)
    (b b' : Broker) (r : res broker_err unit) (requests : list (incoming * request)) :
  0 < channel → is_Some (channelState conn channel b) →
  sendChannelClosing fuel conn channel code class method text b = Ok (b', r) →
  Forall (λ nr, in_MethodFrame nr.1 = Some nr.2 ∧ rm_Channel nr.2.2 = channel ∧
    closes_channel nr.2.2 = false ∧ closes_connection nr.2.2 = false) requests →
  for_each (λ nr b, br ← processRequest fuel conn nr.1 b; Ok br.1) requests b' = Ok b' ∧
  Forall (λ nr, processRequest fuel conn nr.1 b' = Ok (b', Ok tt)) requests.
Proof.
  intros Hch Hst Hs Hrqs. pose proof (sendChannelClosing_marks _ _ _ _ _ _ _ _ _ Hch Hst Hs) as Hclosing.
  induction requests as [|[newState rq] requests IH]; [done|].
  apply Forall_cons in Hrqs as [(Hin & Hchan & Hcc & Hcn) Hrqs]. cbn [fst snd] in *.
  assert (Hone : processRequest fuel conn newState b' = Ok (b', Ok tt))
    by (apply (closing_ignores _ _ rq); by rewrite ?Hchan).
  destruct (IH Hrqs) as [Hall Hf]. cbn [for_each fst]. rewrite Hone. split; [exact Hall|by constructor].
Qed.
End closing_channel.

Section server_sample.
#[local] Existing Instance sample_runtime.
#[local] Existing Instance sample_environment.

(** Channel 1 of "conn-1", open and idle. *)
Definition sample_open : Broker :=
  MkBroker {["/" := sample_vhost]}
    {["conn-1" := MkConnection (MkConnInfo "/" "guest" (MkTuning 100 4096 60) false) {[1 := empty_channel]} false]}
    {["conn-1"]} ∅ false 7 [].

Lemma closed_channel_is_quiet_witness :
  ∃ b' r, sendChannelClosing 5 "conn-1" 1 NOT_FOUND BASIC BASIC_CONSUME "no queue" sample_open = Ok (b', r) ∧
    let rq := (9%nat, MkRequest 1 QUEUE QUEUE_DECLARE
      (QueueDeclare "late" false false false false false None)) in
    processRequest 5 "conn-1" (MkIncoming (Some rq) None None) b' = Ok (b', Ok tt).
Proof.
  assert (Hok : is_ok (sendChannelClosing 5 "conn-1" 1 NOT_FOUND BASIC BASIC_CONSUME "no queue" sample_open) = true)
    by by vm_compute.
  destruct (sendChannelClosing 5 "conn-1" 1 NOT_FOUND BASIC BASIC_CONSUME "no queue" sample_open)
    as [[b' r]|s] eqn:Hs; [|discriminate Hok].
  exists b', r. split; [done|]. set (rq := (9%nat, _)).
  destruct (closed_channel_is_quiet 5 "conn-1" 1 NOT_FOUND BASIC BASIC_CONSUME "no queue" sample_open b' r
    [(MkIncoming (Some rq) None None, rq)]) as [_ Hf].
  - done.
  - apply (bool_decide_unpack _). by vm_compute.
  - exact Hs.
  - by repeat constructor.
  - by apply Forall_cons in Hf as [? _].
Defined.
End server_sample.
