(* ===== verification/Invariant.v ===== *)
(** * The broker's invariant: no request breaks a virtual host

    [names_well_formed] (Lifecycle.v) is about single operations on a virtual
    host.  Here it is carried through cleaning up channels and connections and
    through every handler of the broker, to whole requests. *)

From stdpp Require Import base list gmap strings pretty.
From Stdlib Require Import ZArith Lia.
From S2P Require Import Prelude Bytes Paths Values FieldTable Reader Properties Methods Frames Handshake Args Queue.
From S2P Require Import Deliveries Consumers Json VHost Store Lifecycle Routing Declare Expiry Publish Settle.
From S2P Require Import Purge Preserve Recovery Catalogue Loop Cleanup Broker Transaction Handlers Server Management.

Local Open Scope Z_scope.
Local Open Scope string_scope.
Local Open Scope list_scope.

(** ** Cleaning up *)

Section cleanup_wf.
Context `{Runtime}.

Lemma transactions_wf C txs vh : wf_names_but C vh → wf_names_but C (set_ChannelTransactions txs vh).
Proof.
  apply wf_names_alike; [done..|]. intros n. cbn. destruct (vh_Queues vh !! n); constructor. done.
Qed.

Lemma take_wf key vh : wf_names vh → wf_names (takeChannelDeliveriesLocked key vh).2.
Proof.
  intros Hwf. unfold takeChannelDeliveriesLocked. destruct (vh_ChannelDeliveries vh !! key); [|done].
  apply wf_names_channels; [done|]. intros k c' [_ Hk]%lookup_delete_Some. by apply (wn_channel _ _ Hwf k).
Qed.

Lemma requeue_frame now fuel work vh vh' :
  named vh → requeue now fuel work vh = Ok vh' → same_frame vh vh'.
Proof.
  unfold requeue. intros Hn Hr. eapply for_each_frame; [|exact Hn|exact Hr].
  intros w vh1 vh2 Hn1 Hw. eapply for_each_frame; [|exact Hn1|exact Hw].
  intros r vh3 vh4 Hn3 Hp. destruct (w_redelivered w); [by eapply marked_push_frame|by eapply Push_frame].
Qed.

Lemma ReleaseChannelDeliveries_wf now fuel key vh vh' :
  wf_names vh → ReleaseChannelDeliveries now fuel key vh = Ok vh' → wf_names vh'.
Proof.
  intros Hwf Hr. unfold ReleaseChannelDeliveries in Hr.
  pose proof (cancelChannelConsumers_spec key vh Hwf) as Hc.
  destruct (cancelChannelConsumersLocked key vh) as [cancelled vh1]. destruct Hc as (Hwf1 & _).
  pose proof (take_wf key vh1 Hwf1) as Hwf2. destruct (takeChannelDeliveriesLocked key vh1) as [work vh2].
  eapply wf_names_frame; [|exact Hwf2]. eapply requeue_frame; [by eapply wf_named|exact Hr].
Qed.

Lemma CleanupChannel_wf now fuel key vh vh' :
  wf_names vh → CleanupChannel now fuel key vh = Ok vh' → wf_names vh'.
Proof.
  intros Hwf Hc. unfold CleanupChannel in Hc. apply res_bind_ok in Hc as (vh1 & Hr & E).
  apply (inj Ok) in E as <-. by eapply transactions_wf, ReleaseChannelDeliveries_wf.
Qed.

Lemma cleanup_channels_wf keys vh : wf_names vh → wf_names (cleanup_channels keys vh).2.
Proof.
  intros Hwf. unfold cleanup_channels.
  apply (foldl_keeps (λ st : list requeueWork * VHost, wf_names st.2)); [|done].
  intros [work vh1] key Hwf1. cbn [snd] in Hwf1.
  pose proof (cancelChannelConsumers_spec key vh1 Hwf1) as Hc.
  destruct (cancelChannelConsumersLocked key vh1) as [cancelled vh2]. destruct Hc as (Hwf2 & _).
  pose proof (take_wf key vh2 Hwf2) as Hwf3. destruct (takeChannelDeliveriesLocked key vh2) as [more vh3].
  by apply transactions_wf.
Qed.

Lemma cancel_leftover_wf connID vh : wf_names vh → wf_names (cancel_leftover connID vh).
Proof.
  apply (foldl_keeps wf_names). intros vh1 [key addr] Hwf. cbn [fst snd].
  destruct (ix_heap (vh_index vh1) !! addr) as [c|] eqn:Hc; [|done]. case_decide as Hd; [|done].
  destruct Hd as [_ Ha]. destruct (wi_key _ _ _ (wn_index _ _ Hwf) _ _ Ha) as (c' & Hreg & Hk & _).
  assert (c' = c) as -> by (destruct Hreg; congruence). by apply cancelConsumerLocked_wf.
Qed.

Lemma disown_wf connID vh : wf_names vh → wf_names (disown connID vh).
Proof.
  apply wf_names_alike; [done..|]. intros n. cbn. rewrite lookup_fmap.
  destruct (vh_Queues vh !! n); constructor. by case_decide.
Qed.

Lemma delete_owned_wf connID vh : wf_names vh → wf_names (delete_owned connID vh).2.
Proof.
  intros Hwf. unfold delete_owned. apply (foldl_keeps (λ st : list nat * VHost, wf_names st.2)); [|by apply disown_wf].
  intros [removed vh1] name Hwf1. cbn [snd] in Hwf1. pose proof (deleteQueue_wf ∅ name vh1 Hwf1) as Hd.
  by destruct (deleteQueuebyNameUnlocked name vh1) as [vh2 []].
Qed.

Lemma CleanupConnection_wf `{FrameSender} now fuel connID channels vh out vh' out' :
  wf_names vh → CleanupConnection now fuel connID channels vh out = Ok (vh', out') → wf_names vh'.
Proof.
  intros Hwf Hc. unfold CleanupConnection in Hc.
  pose proof (cleanup_channels_wf channels vh Hwf) as Hwf1. destruct (cleanup_channels channels vh) as [work vh1].
  pose proof (delete_owned_wf connID _ (cancel_leftover_wf connID _ Hwf1)) as Hwf2. cbn [snd] in *.
  destruct (delete_owned connID _) as [removed vh2]. apply res_bind_ok in Hc as (vh3 & Hr & E).
  apply (inj Ok) in E. injection E as <- _. eapply wf_names_frame; [|exact Hwf2].
  eapply requeue_frame; [by eapply wf_named|exact Hr].
Qed.

Lemma DeleteQueuebyName_wf `{FrameSender} name vh out :
  wf_names vh → wf_names (DeleteQueuebyName name vh out).1.1.
Proof.
  intros Hwf. unfold DeleteQueuebyName. pose proof (deleteQueue_wf ∅ name vh Hwf) as Hd.
  by destruct (deleteQueuebyNameUnlocked name vh) as [vh2 []].
Qed.
End cleanup_wf.

(** ** Handlers *)

(** Every virtual host is well formed, and as [T] says. *)
Definition inv (T : VHost → Prop) (b : Broker) : Prop :=
  ∀ n v, br_vhosts b !! n = Some v → wf_names v ∧ T v.
Definition any : VHost → Prop := λ _, True.
Definition wf_broker : Broker → Prop := inv any.

(** Whatever its result, [m] leads from [T] to [U]. *)
Definition keeps (T U : VHost → Prop) {A} (m : brk A) : Prop :=
  ∀ b b' r, inv T b → m b = Ok (b', r) → inv U b'.

Section keeping.
Context {A : Type}.
Implicit Types m : brk A.

Lemma keeps_weaken T U V m : (∀ v, U v → V v) → keeps T U m → keeps T V m.
Proof. intros HUV Hm b b' r Hb Hr n v Hv. destruct (Hm _ _ _ Hb Hr n v Hv). auto. Qed.
Lemma keeps_any T U m : keeps T U m → keeps T any m.
Proof. by apply keeps_weaken. Qed.
Lemma keeps_from T m : keeps any any m → keeps T any m.
Proof. intros Hm b b' r Hb. apply Hm. intros n v Hv. split; [apply (Hb n v Hv)|done]. Qed.

Lemma keeps_same T m : (∀ b b' r, m b = Ok (b', r) → br_vhosts b' = br_vhosts b) → keeps T T m.
Proof. intros Hm b b' r Hb Hr n v. rewrite (Hm _ _ _ Hr). apply Hb. Qed.

Lemma keeps_bind {B} T U V m (f : A → brk B) :
  keeps T U m → (∀ a, keeps U V (f a)) → (∀ v, U v → V v) → keeps T V (m ≫= f).
Proof.
  intros Hm Hf HUV b b' r Hb Hr. rewrite bind_eq in Hr.
  destruct (m b) as [[b1 [a|e]]|s] eqn:E; [| |done].
  - eapply Hf; [|exact Hr]. by eapply Hm.
  - injection Hr as <- _. eapply keeps_weaken; [done|exact Hm|exact Hb|exact E].
Qed.
Lemma keeps_attempt T U m : keeps T U m → keeps T U (attempt m).
Proof.
  intros Hm b b' r Hb Hr. unfold attempt in Hr. destruct (m b) as [[b1 r1]|s] eqn:E; [|done].
  injection Hr as <- _. by eapply Hm.
Qed.

Lemma keeps_on_vhost T U vh (f : VHost → res stop (handled A)) :
  (∀ v, T v → U v) → (∀ v v' r, wf_names v → T v → f v = Ok (v', r) → wf_names v' ∧ U v') →
  keeps T U (on_vhost vh f).
Proof.
  intros HTU Hf b b' r Hb Hr. unfold on_vhost in Hr. destruct (br_vhosts b !! vh) as [v|] eqn:Hv.
  - destruct (f v) as [[v' r']|s] eqn:Ef; [|done]. injection Hr as <- _. intros n w. cbn.
    rewrite lookup_insert_Some. intros [[_ <-]|[_ Hw]].
    + destruct (Hb _ _ Hv). by eapply Hf.
    + destruct (Hb _ _ Hw). auto.
  - injection Hr as <- _. intros n w Hw. destruct (Hb _ _ Hw). auto.
Qed.

Lemma keeps_on_vhost_out `{Environment} T vh
    (f : FrameSender → VHost → list sent_frames → res stop (handled A * list sent_frames)) :
  (∀ s v out v' r out', wf_names v → T v → f s v out = Ok ((v', r), out') → wf_names v') →
  keeps T any (on_vhost_out vh f).
Proof.
  intros Hf b b' r Hb Hr. unfold on_vhost_out in Hr. destruct (br_vhosts b !! vh) as [v|] eqn:Hv.
  - destruct (f _ v _) as [[[v' r'] out]|s] eqn:Ef; [|done]. injection Hr as <- _. intros n w. cbn.
    rewrite lookup_insert_Some. intros [[_ <-]|[_ Hw]].
    + destruct (Hb _ _ Hv). split; [by eapply Hf|done].
    + by destruct (Hb _ _ Hw).
  - injection Hr as <- _. intros n w Hw. by destruct (Hb _ _ Hw).
Qed.
End keeping.

Lemma keeps_ret {A} T (a : A) : keeps T T (mret a).
Proof. apply keeps_same. by intros b b' r [= <- _]. Qed.
Lemma keeps_fails {A} T e : keeps T T (fails (A := A) e).
Proof. apply keeps_same. by intros b b' r [= <- _]. Qed.
Lemma keeps_stops {A} T U s : keeps T U (stops (A := A) s).
Proof. by intros b b' r _. Qed.
Lemma keeps_get {A} T (f : Broker → A) : keeps T T (get f).
Proof. apply keeps_same. by intros b b' r [= <- _]. Qed.
Lemma keeps_fresh T : keeps T T fresh.
Proof. apply keeps_same. by intros b b' r [= <- _]. Qed.
Lemma keeps_frame_of T r : keeps T T (frame_of r).
Proof. apply keeps_same. by intros b b' r' [= <- _]. Qed.
Lemma keeps_modify T f : (∀ b, br_vhosts (f b) = br_vhosts b) → keeps T T (modify f).
Proof. intros Hf. apply keeps_same. by intros b b' r [= <- _]. Qed.
Lemma keeps_GetConnectionID T conn : keeps T T (GetConnectionID conn).
Proof. apply keeps_same. unfold GetConnectionID. intros b b' r. case_match; by intros [= <- _]. Qed.
Lemma keeps_isConnectionClosing T conn : keeps T T (isConnectionClosing conn).
Proof. apply keeps_same. unfold isConnectionClosing. intros b b' r. case_match; by intros [= <- _]. Qed.
Lemma keeps_write `{Environment} T conn frame : keeps T T (write conn frame).
Proof. apply keeps_same. unfold write. intros b b' r. case_match; by intros [= <- _]. Qed.

(** Reads and total updates of a virtual host. *)
Lemma keeps_read {A} T vh (f : VHost → A) : keeps T T (read_vhost vh f).
Proof. apply keeps_on_vhost; [done|]. by intros v v' r Hwf HT [= <- _]. Qed.
Lemma keeps_check {A} T vh (f : VHost → res vh_err A) : keeps T T (on_vhost vh (λ v, Ok (v, f v))).
Proof. apply keeps_on_vhost; [done|]. by intros v v' r Hwf HT [= <- _]. Qed.
Lemma keeps_pure {A} vh (f : VHost → handled A) :
  (∀ v, wf_names v → wf_names (f v).1) → keeps any any (on_vhost vh (λ v, Ok (f v))).
Proof.
  intros Hf. apply keeps_on_vhost; [done|]. intros v v' r Hwf _ E. apply (inj Ok) in E.
  split; [|done]. specialize (Hf v Hwf). by rewrite E in Hf.
Qed.
Lemma keeps_change vh f : (∀ v, wf_names v → wf_names (f v)) → keeps any any (change_vhost vh f).
Proof. intros Hf. by apply keeps_pure. Qed.
Lemma keeps_stop {A} vh (f : VHost → res stop (handled A)) :
  (∀ v v' r, wf_names v → f v = Ok (v', r) → wf_names v') → keeps any any (on_vhost vh f).
Proof. intros Hf. apply keeps_on_vhost; [done|]. intros v v' r Hwf _ E. split; [by eapply Hf|done]. Qed.
Lemma keeps_out `{Environment} {A} vh
    (f : FrameSender → VHost → list sent_frames → res stop (handled A * list sent_frames)) :
  (∀ s v out v' r out', wf_names v → f s v out = Ok ((v', r), out') → wf_names v') →
  keeps any any (on_vhost_out vh f).
Proof. intros Hf. apply keeps_on_vhost_out. intros. by eapply Hf. Qed.

Lemma keeps_seq {A B} (m : brk A) (f : A → brk B) :
  keeps any any m → (∀ a, keeps any any (f a)) → keeps any any (m ≫= f).
Proof. intros Hm Hf. by eapply keeps_bind. Qed.

Create HintDb sound.
Create HintDb wf.
#[local] Hint Resolve keeps_ret keeps_fails keeps_stops keeps_get keeps_fresh keeps_frame_of
  keeps_GetConnectionID keeps_isConnectionClosing keeps_write keeps_read keeps_check : sound.

#[local] Hint Resolve CreateExchange_wf deleteExchange_wf CreateQueue_wf BindQueue_wf UnbindQueue_wf
  RegisterConsumer_wf cancelConsumer_wf HandleBasicQos_wf HandleChannelFlow_wf HandleBasicAck_wf
  PurgeQueue_wf Publish_wf handleBasicNack_wf DeleteQueuebyName_wf transactions_wf : wf.

(** Takes a handler apart, down to what it does to virtual hosts. *)
Ltac sound :=
  intros;
  lazymatch goal with
  | |- keeps _ _ (_ ≫= _) => apply keeps_seq; [sound|intros ?; sound]
  | |- keeps _ _ (attempt _) => apply keeps_attempt; sound
  | |- keeps _ _ (modify _) => apply keeps_modify; reflexivity
  | |- keeps _ _ (match ?x with _ => _ end) => destruct x; sound
  | |- keeps _ _ (let '_ := ?x in _) => destruct x; sound
  | |- keeps _ _ _ =>
      try (solve [ auto with sound
                 | apply keeps_pure; intros ? ?; auto with wf
                 | apply keeps_change; intros ? ?; auto with wf
                 | apply keeps_stop; eauto with wf ])
  | |- _ => idtac
  end.

Section handlers.
Context `{Runtime, Environment}.
Variable fuel : nat.

Lemma write_logged_sound conn frame : keeps any any (write_logged conn frame).
Proof. unfold write_logged. sound. Qed.
#[local] Hint Resolve write_logged_sound : sound.

Lemma on_channel_vhost_sound conn f :
  (∀ now v v', wf_names v → f now v = Ok v' → wf_names v') → keeps any any (on_channel_vhost conn f).
Proof.
  intros Hf. unfold on_channel_vhost. sound. apply keeps_stop. intros v v' r Hwf Hr.
  apply res_bind_ok in Hr as (v1 & Hv & E). apply (inj Ok) in E. injection E as <- _. by eapply Hf.
Qed.
Lemma cleanupChannel_sound conn channel : keeps any any (cleanupChannel fuel conn channel).
Proof. apply on_channel_vhost_sound. intros now v v'. apply CleanupChannel_wf. Qed.
Lemma releaseChannelDeliveries_sound conn channel : keeps any any (releaseChannelDeliveries fuel conn channel).
Proof. apply on_channel_vhost_sound. intros now v v'. apply ReleaseChannelDeliveries_wf. Qed.
#[local] Hint Resolve cleanupChannel_sound releaseChannelDeliveries_sound : sound.

Lemma sendChannelClosing_sound conn channel code class method text :
  keeps any any (sendChannelClosing fuel conn channel code class method text).
Proof. unfold sendChannelClosing. sound. Qed.
Lemma sendConnectionClosing_sound conn channel code class method text :
  keeps any any (sendConnectionClosing conn channel code class method text).
Proof. unfold sendConnectionClosing. sound. Qed.
#[local] Hint Resolve sendChannelClosing_sound sendConnectionClosing_sound : sound.
Lemma sendChannelErrorResponse_sound e conn rq : keeps any any (sendChannelErrorResponse fuel e conn rq).
Proof. unfold sendChannelErrorResponse. sound. Qed.
#[local] Hint Resolve sendChannelErrorResponse_sound : sound.
Lemma close_and_fail_sound conn channel e code class method :
  keeps any any (close_and_fail fuel conn channel e code class method).
Proof. unfold close_and_fail. sound. Qed.
#[local] Hint Resolve close_and_fail_sound : sound.

(** *** The channel and connection classes *)

Lemma channelHandler_sound rq vh conn : keeps any any (channelHandler fuel rq vh conn).
Proof.
  unfold channelHandler, handleOpenChannel, handleChannelFlow, handleChannelFlowOk, handleChannelClose,
    handleChannelCloseOk.
  sound.
Qed.

Lemma cleanupConnection_sound conn : keeps any any (cleanupConnection fuel conn).
Proof.
  unfold cleanupConnection. sound. apply keeps_out. intros ? w out w' r out' Hwf Hc.
  apply res_bind_ok in Hc as ([w1 out1] & Hc & E). apply (inj Ok) in E. injection E as <- _ _.
  by eapply CleanupConnection_wf.
Qed.
#[local] Hint Resolve cleanupConnection_sound : sound.
Lemma connectionHandler_sound rq conn : keeps any any (connectionHandler fuel rq conn).
Proof. unfold connectionHandler, closeConnectionRequested. sound. Qed.

(** *** The queue and exchange classes *)

Lemma queueHandler_sound rq vh conn : keeps any any (queueHandler fuel rq vh conn).
Proof.
  unfold queueHandler, queueDeclareHandler, queueBindHandler, queueUnbindHandler, queuePurgeHandler,
    queueDeleteHandler, BindToDefaultExchange.
  sound. apply keeps_out. intros ? w out w' r out' Hwf Hd. apply (inj Ok) in Hd.
  apply (f_equal (λ x, x.1.1)) in Hd. cbn [fst] in Hd. rewrite <- Hd. by apply DeleteQueuebyName_wf.
Qed.

Lemma exchangeHandler_sound rq vh conn : keeps any any (exchangeHandler rq vh conn).
Proof. unfold exchangeHandler, handleExchangeDelete, handleExchangeDeclare. sound. Qed.

(** *** Transactions *)

Lemma transaction_of_sound vh conn channel : keeps any any (transaction_of vh conn channel).
Proof.
  unfold transaction_of, GetOrCreateTransactionState, put_transaction. apply keeps_on_vhost; [done|].
  intros v v' r Hwf _ E. destruct (_ !! _); injection E as <- _; [done|].
  split; [by apply transactions_wf|done].
Qed.
Lemma store_transaction_sound vh conn channel tx : keeps any any (store_transaction vh conn channel tx).
Proof. apply keeps_change. intros v Hwf. by apply transactions_wf. Qed.
#[local] Hint Resolve transaction_of_sound store_transaction_sound : sound.
Lemma bufferInTransaction_sound vh conn channel full_ add :
  keeps any any (bufferInTransaction vh conn channel full_ add).
Proof. unfold bufferInTransaction. sound. Qed.
Lemma BasicReturn_sound conn channel exchange key msg : keeps any any (BasicReturn conn channel exchange key msg).
Proof. unfold BasicReturn. sound. Qed.
Lemma publish_message_sound vh exchange key msg : keeps any any (publish_message fuel vh exchange key msg).
Proof. unfold publish_message. sound. Qed.
#[local] Hint Resolve bufferInTransaction_sound BasicReturn_sound publish_message_sound : sound.

Lemma dry_run_sound vh pubs : keeps any any (dry_run vh pubs).
Proof. induction pubs; cbn [dry_run]; sound. Qed.
Lemma collect_sound {A} (f : A → brk (option broker_err)) l :
  (∀ x, keeps any any (f x)) → keeps any any (collect f l).
Proof. intros Hf. induction l; cbn [collect]; sound. Qed.
Lemma commit_publish_sound vh conn channel pub : keeps any any (commit_publish fuel vh conn channel pub).
Proof. unfold commit_publish. sound. Qed.
Lemma commit_ack_sound vh conn channel ack : keeps any any (commit_ack fuel vh conn channel ack).
Proof. unfold commit_ack, HandleBasicNack, HandleBasicReject. sound. destruct (ba_Operation ack); sound. Qed.
#[local] Hint Resolve dry_run_sound collect_sound commit_publish_sound commit_ack_sound : sound.

Lemma txHandler_sound rq vh conn : keeps any any (txHandler fuel rq vh conn).
Proof.
  unfold txHandler, txSelectHandler, txCommitHandler, txRollbackHandler, commit_failed, ensureInTransaction,
    createTxResponse.
  sound.
Qed.
#[local] Hint Resolve channelHandler_sound connectionHandler_sound queueHandler_sound exchangeHandler_sound
  txHandler_sound : sound.

(** *** The basic class *)

Lemma settle_handler_sound rq vh conn tag multiple requeue op settle :
  (∀ now v v' r, wf_names v → settle now v = Ok (v', r) → wf_names v') →
  keeps any any (settle_handler fuel rq vh conn tag multiple requeue op settle).
Proof. intros Hs. unfold settle_handler, bufferAcknowledgeTransaction. sound. Qed.

Lemma acknowledgements_sound rq vh conn :
  keeps any any (basicAckHandler fuel rq vh conn) ∧ keeps any any (basicRejectHandler fuel rq vh conn) ∧
  keeps any any (basicNackHandler fuel rq vh conn).
Proof.
  unfold basicAckHandler, basicRejectHandler, basicNackHandler.
  split_and!; sound; apply settle_handler_sound; intros now v v' r Hwf Hs; [|by eapply handleBasicNack_wf..].
  apply (inj Ok) in Hs. apply (f_equal fst) in Hs. cbn in Hs. rewrite <- Hs. by apply HandleBasicAck_wf.
Qed.

Lemma basicQoSHandler_sound rq vh conn : keeps any any (basicQoSHandler rq vh conn).
Proof. unfold basicQoSHandler. sound. Qed.
Lemma basicConsumeHandler_sound rq vh conn : keeps any any (basicConsumeHandler fuel rq vh conn).
Proof. unfold basicConsumeHandler. sound. Qed.
Lemma basicCancelHandler_sound rq vh conn : keeps any any (basicCancelHandler fuel rq vh conn).
Proof. unfold basicCancelHandler, CancelConsumer. sound. Qed.

Lemma publish_now_sound vh conn channel exchange key mandatory hasRouting msg :
  keeps any any (publish_now fuel vh conn channel exchange key mandatory hasRouting msg).
Proof. unfold publish_now. sound. Qed.
#[local] Hint Resolve publish_now_sound : sound.
Lemma publish_complete_sound vh conn channel st content header body :
  keeps any any (publish_complete fuel vh conn channel st content header body).
Proof. unfold publish_complete, bufferPublishInTransaction. sound. Qed.
#[local] Hint Resolve publish_complete_sound : sound.
Lemma basicPublishHandler_sound newState rq vh conn :
  keeps any any (basicPublishHandler fuel newState rq vh conn).
Proof. unfold basicPublishHandler. sound. Qed.
#[local] Hint Resolve basicQoSHandler_sound basicConsumeHandler_sound basicCancelHandler_sound
  basicPublishHandler_sound : sound.

(** *** Handing out delivery tags *)

(** No channel has used half of its 64-bit delivery tags. *)
Definition half_left (v : VHost) : Prop :=
  ∀ key ch, vh_ChannelDeliveries v !! key = Some ch → LastDeliveryTag ch < 2 ^ 63 - 1.

Lemma half_left_room v : half_left v → tags_left (2 ^ 63 - 1) v.
Proof. intros Hh. split; [lia|]. intros key ch Hch. specialize (Hh _ _ Hch). lia. Qed.

Lemma half_left_frame v v' : same_frame v v' → half_left v → half_left v'.
Proof. intros Hs Hh. unfold half_left. by rewrite (sf_channels _ _ Hs). Qed.

Lemma unacked_bounded ch : wf_channel ch → Z.of_nat (size (UnackedByTag ch)) <= LastDeliveryTag ch.
Proof.
  intros (Hlast & Htags & _). rewrite <-(size_dom (D := gset Z)).
  assert (Hsub : (dom (UnackedByTag ch) : gset Z) ⊆ list_to_set (seqZ 1 (LastDeliveryTag ch))).
  { intros t [r Hr]%elem_of_dom. apply elem_of_list_to_set, elem_of_seqZ. destruct (Htags t r Hr). lia. }
  apply subseteq_size in Hsub. rewrite size_list_to_set in Hsub by apply NoDup_seqZ.
  rewrite length_seqZ in Hsub. lia.
Qed.

Lemma basicGetHandler_sound rq vh conn : keeps half_left any (basicGetHandler fuel rq vh conn).
Proof.
  unfold basicGetHandler. destruct (rm_Content rq); try apply keeps_stops.
  eapply keeps_bind; [apply keeps_GetConnectionID|intros _|done].
  eapply keeps_bind; [apply keeps_attempt, keeps_check|intros [_|e]|done]; [|apply keeps_from; sound].
  eapply keeps_bind; [apply keeps_read|intros [count|]|done]; [|apply keeps_from; sound].
  eapply keeps_bind; [apply keeps_fresh|intros n|done].
  eapply (keeps_bind _ half_left).
  - case_decide; [|apply keeps_ret]. apply keeps_on_vhost; [done|]. intros v v' r Hwf Hh Hg.
    apply res_bind_ok in Hg as ([v1 msg] & Hg & E). apply (inj Ok) in E. injection E as <- _.
    apply GetMessage_frame in Hg; [|by eapply wf_named].
    split; [by eapply wf_names_frame|by eapply half_left_frame].
  - intros [msg|]; [|apply keeps_from; unfold send_get_empty; sound].
    eapply (keeps_bind _ any); [|intros tag; unfold send_get_ok; sound|done].
    apply keeps_on_vhost; [done|]. intros v v' r Hwf Hh Hg. split; [|done].
    pose proof (get_or_create_wf (conn, rm_Channel rq) v Hwf) as [Hwf1 Hch].
    pose proof (channel_of_left _ (conn, rm_Channel rq) _ (half_left_room _ Hh)) as Hlast.
    rewrite get_or_create in *. cbn [fst snd] in *.
    assert (Hstep : channel_step (channel_of v (conn, rm_Channel rq))
      (TrackDelivery NoAck msg Queue (channel_of v (conn, rm_Channel rq))).2) by (apply step_get; lia).
    destruct (TrackDelivery _ _ _ _) as [tag ch']. apply (inj Ok) in Hg. injection Hg as <- _.
    by eapply put_step_wf.
  - done.
Qed.

Lemma basicRecoverHandler_sound rq vh conn async : keeps half_left any (basicRecoverHandler fuel rq vh conn async).
Proof.
  unfold basicRecoverHandler. destruct (rm_Content rq); try (apply keeps_from; sound; fail).
  eapply keeps_bind; [apply keeps_GetConnectionID|intros _|done].
  eapply keeps_bind; [apply keeps_fresh|intros n|done].
  eapply (keeps_bind _ any); [|intros _; sound|done].
  apply keeps_on_vhost_out. intros s v out v' r out' Hwf Hh Hr. eapply HandleBasicRecover_wf; [done| |exact Hr].
  intros ch Hch. eapply tags_left_less; [|by apply half_left_room].
  pose proof (unacked_bounded ch (wn_channel _ _ Hwf _ _ Hch)). specialize (Hh _ _ Hch). lia.
Qed.

Lemma basicHandler_sound newState rq vh conn : keeps half_left any (basicHandler fuel newState rq vh conn).
Proof.
  destruct (acknowledgements_sound rq.2 vh conn) as (Ha & Hr & Hn). unfold basicHandler.
  repeat case_decide; try apply basicGetHandler_sound; try apply basicRecoverHandler_sound;
    apply keeps_from; auto with sound.
Qed.

(** ** Requests *)

Lemma processRequest_sound conn newState : keeps half_left any (processRequest fuel conn newState).
Proof.
  unfold processRequest. destruct (in_MethodFrame newState) as [rq|]; [|apply keeps_from; sound].
  eapply keeps_bind; [apply keeps_get|intros [info|]|done]; [|apply keeps_from; sound].
  eapply keeps_bind; [apply keeps_isConnectionClosing|intros closing|done].
  eapply keeps_bind; [apply keeps_get|intros shutting|done].
  destruct (_ && _); [apply keeps_from; sound|].
  eapply keeps_bind; [apply keeps_get|intros [v|]|done]; [|apply keeps_from; sound].
  eapply keeps_bind; [apply keeps_get|intros chClosing|done].
  destruct (_ && _); [apply keeps_from; sound|]. unfold dispatch.
  repeat case_decide; try apply basicHandler_sound; apply keeps_from; sound.
Qed.
End handlers.

(** ** The management's operations *)

Section management_tags.
Context `{Runtime}.

Lemma delete_unacked_last r ch : LastDeliveryTag (deleteUnackedDelivery r ch) = LastDeliveryTag ch.
Proof.
  unfold deleteUnackedDelivery.
  destruct (untrack_spec r (set_unacked (UnackedByConsumer ch) (UnackedByGet ch)
    (delete (dr_DeliveryTag r) (UnackedByTag ch)) ch)) as (_ & -> & _). done.
Qed.

(** Settling hands out no tag. *)
Lemma pop_unacked_left k key tag multiple method vh :
  tags_left k vh → tags_left k (pop_unacked key tag multiple method vh).1.
Proof.
  intros Hleft. unfold pop_unacked. destruct (popUnackedRecords _ _ _ _ _) as [[removed [ch|]]|e] eqn:Hp; [|done..].
  cbn [fst]. destruct (vh_ChannelDeliveries vh !! key) as [ch0|] eqn:Hch; unfold popUnackedRecords in Hp;
    [|by repeat case_match].
  apply tags_left_put; [|done]. pose proof (proj2 Hleft _ _ Hch) as Hlast.
  assert (LastDeliveryTag ch = LastDeliveryTag ch0) as ->; [|done].
  destruct multiple; [|case_match; [|done]; injection Hp as <- <-; apply delete_unacked_last].
  case_decide; [done|]. injection Hp as <- <-. generalize (filter (λ kv : Z * DeliveryRecord, tag = 0 ∨ kv.1 <= tag)
    (range_records (UnackedByTag ch0))). intros l. clear. revert ch0.
  induction l as [|kv l IH]; intros ch0; [done|]. cbn. rewrite IH. apply delete_unacked_last.
Qed.

Lemma HandleBasicAck_left k key tag multiple vh :
  tags_left k vh → tags_left k (HandleBasicAck key tag multiple vh).1.
Proof.
  intros Hleft. unfold HandleBasicAck. pose proof (pop_unacked_left k key tag multiple BASIC_ACK vh Hleft) as Hp.
  destruct (pop_unacked _ _ _ _ _) as [vh' [removed|e]]; cbn [fst] in *; [|done].
  eapply tags_left_frame; [apply ack_records_frame|done].
Qed.

Lemma handleBasicNack_left now fuel k key tag multiple requeue method vh vh' r :
  wf_names vh → tags_left k vh → handleBasicNack now fuel key tag multiple requeue method vh = Ok (vh', r) →
  tags_left k vh'.
Proof.
  intros Hwf Hleft Hn. unfold handleBasicNack in Hn.
  pose proof (pop_unacked_left k key tag multiple method vh Hleft) as Hl.
  pose proof (pop_unacked_wf key tag multiple method vh Hwf) as Hw.
  destruct (pop_unacked _ _ _ _ _) as [vh1 [records|e]]; cbn [fst] in Hl, Hw; [|by inv_ok].
  apply res_bind_ok in Hn as (vh2 & Hf & E). apply (inj Ok) in E. injection E as <- _.
  eapply tags_left_frame; [|exact Hl]. eapply for_each_frame; [|by eapply wf_named|exact Hf].
  destruct requeue; [apply nack_requeue_frame|apply nack_discard_frame].
Qed.

(** A delivery takes one of the tags that are left. *)
Lemma track_get_left k key noAck msg queue vh :
  0 <= k → tags_left (1 + k) vh → wf_names vh →
  let vh' := put_channel key (TrackDelivery noAck msg queue (channel_of vh key)).2 vh in
  wf_names vh' ∧ tags_left k vh'.
Proof.
  intros Hk Hleft Hwf. pose proof (channel_of_left _ key _ Hleft) as Hlast.
  assert (Hch : wf_channel (channel_of vh key)).
  { unfold channel_of. destruct (vh_ChannelDeliveries vh !! key) as [ch|] eqn:E; [|apply new_channel_wf].
    by apply (wn_channel _ _ Hwf key). }
  split; [eapply put_step_wf; [done|done|apply step_get; lia]|].
  apply tags_left_put; [|eapply tags_left_less; [|done]; lia].
  unfold TrackDelivery. pose proof (proj1 Hch).
  destruct noAck; cbn; rewrite next_tag_small by lia; lia.
Qed.
End management_tags.

Section management_sound.
Context `{Runtime, Environment}.
Variable fuel : nat.
#[local] Hint Resolve DeleteQueuebyName_wf : wf.

Lemma with_vhost_sound T vh : keeps T T (with_vhost vh).
Proof. apply keeps_read. Qed.
#[local] Hint Resolve with_vhost_sound : sound.

Lemma manage_CreateQueue_sound vh name req : keeps any any (CreateQueue vh name req).
Proof. unfold CreateQueue, BindToDefaultExchange. sound. Qed.
Lemma manage_DeleteQueue_sound vh name ifUnused ifEmpty : keeps any any (DeleteQueue vh name ifUnused ifEmpty).
Proof.
  unfold DeleteQueue. sound. apply keeps_out. intros ? w out w' r out' Hwf Hd. apply (inj Ok) in Hd.
  apply (f_equal (λ x, x.1.1)) in Hd. cbn [fst] in Hd. rewrite <- Hd. by apply DeleteQueuebyName_wf.
Qed.
Lemma manage_PurgeQueue_sound vh name : keeps any any (PurgeQueue fuel vh name).
Proof. unfold PurgeQueue. sound. Qed.
Lemma manage_CreateExchange_sound vh name req : keeps any any (CreateExchange vh name req).
Proof. unfold CreateExchange. sound. Qed.
Lemma manage_DeleteExchange_sound vh name ifUnused : keeps any any (DeleteExchange vh name ifUnused).
Proof. unfold DeleteExchange. sound. Qed.
Lemma manage_bindings_sound req : keeps any any (CreateBinding req) ∧ keeps any any (DeleteBinding req).
Proof. unfold CreateBinding, DeleteBinding. split; sound. Qed.
Lemma PublishMessage_sound vh name req : keeps any any (PublishMessage fuel vh name req).
Proof. unfold PublishMessage. sound. Qed.

(** *** basic.get for the management *)

Lemma tags_left_weaken k v : 0 <= k → tags_left (1 + k) v → tags_left k v.
Proof. intros Hk. apply tags_left_less. lia. Qed.

Lemma settle_left k vh (f : VHost → res stop (handled unit)) :
  (∀ v v' r, wf_names v → tags_left k v → f v = Ok (v', r) → wf_names v' ∧ tags_left k v') →
  keeps (tags_left k) (tags_left k) (_ ← attempt (on_vhost vh f); mret tt).
Proof.
  intros Hf. eapply keeps_bind; [apply keeps_attempt, keeps_on_vhost; [done|exact Hf]|intros _; apply keeps_ret|done].
Qed.

Lemma created_left k key v : tags_left k v → tags_left k (GetOrCreateChannelDelivery key v).2.
Proof.
  intros Hleft. unfold GetOrCreateChannelDelivery. destruct (vh_ChannelDeliveries v !! _); [done|].
  apply tags_left_put; [|done]. change (LastDeliveryTag new_channel_state) with 0. destruct Hleft. lia.
Qed.
Lemma created_channel key v : channel_of (GetOrCreateChannelDelivery key v).2 key = channel_of v key.
Proof.
  unfold GetOrCreateChannelDelivery, channel_of. destruct (vh_ChannelDeliveries v !! key) eqn:E; cbn [snd]; [by rewrite E|].
  unfold put_channel. cbn. by rewrite lookup_insert_eq.
Qed.

Lemma get_one_sound k vh queue mode :
  0 <= k → keeps (tags_left (1 + k)) (tags_left k) (get_one fuel vh queue mode).
Proof.
  intros Hk. unfold get_one. eapply (keeps_bind _ (tags_left (1 + k))); [apply keeps_fresh|intros n|intros v; by apply tags_left_weaken].
  eapply (keeps_bind _ (tags_left (1 + k))); [| |intros v; by apply tags_left_weaken].
  { apply keeps_on_vhost; [done|]. intros v v' r Hwf Hleft Hg.
    apply res_bind_ok in Hg as ([v1 msg] & Hg & E). apply (inj Ok) in E. injection E as <- _.
    apply GetMessage_frame in Hg; [|by eapply wf_named].
    split; [by eapply wf_names_frame|by eapply tags_left_frame]. }
  intros [msg|]; [|eapply (keeps_weaken _ (tags_left (1 + k))); [by intros v; apply tags_left_weaken|apply keeps_ret]].
  eapply (keeps_bind _ (tags_left k)); [| |done].
  { apply keeps_on_vhost; [by intros v; apply tags_left_weaken|]. intros v v' r Hwf Hleft Hg.
    destruct (track_get_left k management_channel (bool_decide (mode = NoAckMode)) msg queue _ Hk
      (created_left (1 + k) management_channel v Hleft) (proj1 (get_or_create_wf management_channel v Hwf))) as [Hw Hl].
    rewrite created_channel in Hw, Hl. rewrite get_or_create in Hg, Hw, Hl. cbn [snd] in Hw, Hl.
    destruct (TrackDelivery _ _ _ _) as [tag ch]. apply (inj Ok) in Hg. injection Hg as <- _. done. }
  intros tag. eapply (keeps_bind _ (tags_left k)); [apply keeps_fresh|intros n'|done].
  eapply (keeps_bind _ (tags_left k)); [|intros _; eapply (keeps_bind _ (tags_left k));
    [apply keeps_read|intros b; apply keeps_ret|done]|done].
  destruct mode; try apply keeps_ret; apply settle_left; intros v v' r Hwf Hleft Hs.
  - apply (inj Ok) in Hs. apply (f_equal fst) in Hs. cbn in Hs. rewrite <- Hs.
    split; [by apply HandleBasicAck_wf|by apply HandleBasicAck_left].
  - split; [by eapply handleBasicNack_wf|by eapply handleBasicNack_left].
  - split; [by eapply handleBasicNack_wf|by eapply handleBasicNack_left].
Qed.

Lemma get_messages_sound count vh queue mode k msgs :
  0 <= k → keeps (tags_left (Z.of_nat count + k)) any (get_messages fuel count vh queue mode msgs).
Proof.
  revert msgs k. induction count as [|count IH]; intros msgs k Hk; cbn [get_messages].
  { eapply (keeps_any _ (tags_left (Z.of_nat 0 + k))), keeps_ret. }
  eapply (keeps_bind _ (tags_left (Z.of_nat count + k))); [| |done].
  - replace (Z.of_nat (S count) + k) with (1 + (Z.of_nat count + k)) by lia. apply get_one_sound. lia.
  - intros [dto|]; [by apply IH|]. eapply (keeps_any _ (tags_left (Z.of_nat count + k))), keeps_ret.
Qed.

(** A Go [int] counts the messages asked for. *)
Lemma GetMessages_sound vh queue count mode :
  count < 2 ^ 63 → keeps half_left any (GetMessages fuel vh queue count mode).
Proof.
  intros Hcount. unfold GetMessages.
  eapply keeps_bind; [apply with_vhost_sound|intros v|done].
  case_decide; [apply keeps_from; sound|]. case_decide; [apply keeps_from; sound|].
  destruct (GetMessageCount queue v) as [n|]; [|apply keeps_from; sound].
  eapply (keeps_bind _ half_left); [| |done].
  - apply keeps_on_vhost; [done|]. intros w w' r Hwf Hh E. apply (inj Ok) in E. injection E as <- _.
    split; [apply get_or_create_wf; exact Hwf|]. intros key ch Hch.
    unfold GetOrCreateChannelDelivery in Hch. destruct (vh_ChannelDeliveries w !! _); [by eapply Hh|].
    cbn in Hch. apply lookup_insert_Some in Hch as [[_ <-]|[_ Hch]]; [by cbn|by eapply Hh].
  - intros _. intros b b' r Hb Hr. eapply get_messages_sound; [|intros name w Hw|exact Hr]; [|split; [apply (Hb _ _ Hw)|]].
    + apply Z.le_refl.
    + eapply tags_left_less; [|apply half_left_room; by apply (Hb _ _ Hw)]. case_decide; lia.
Qed.
End management_sound.

(** ** Everything that happens in a broker *)

Section broker_steps.
Context `{Runtime, Environment, JsonReader, Sha256}.
Variable fuel : nat.

(** *** Starting *)

Inductive start_err : Type :=
| Fatal (e : store_err)
| Stopped (s : stop).

(** The vhosts but the default one, among those that have a directory. *)
Definition recover_vhost (initializeVHost : string → res stop VHost) (name : string)
    (vhosts : gmap string VHost) : res stop (gmap string VHost) :=
  if decide (name = DEFAULT_VHOST) then Ok vhosts else
  vh ← initializeVHost name; Ok (<[name := vh]> vhosts).

(** [d] is the data directory.  The process exits when it cannot be used. *)
Definition NewBroker (bufferSize maxPriority : Z) (dlx ttl qll : bool) (d : disk) : res start_err Broker :=
  let '(d, initialized) := JsonPersistence.Initialize d in
  _ ← map_err Fatal initialized;
  let initializeVHost name := NewVhost name bufferSize maxPriority dlx ttl qll d in
  vh ← map_err Stopped (initializeVHost DEFAULT_VHOST);
  vhosts ← map_err Stopped
    (for_each (recover_vhost initializeVHost) (JsonPersistence.LoadAllVHosts d) {[DEFAULT_VHOST := vh]});
  Ok (MkBroker vhosts ∅ ∅ ∅ false 0 []).

Lemma NewVhost_wf name bufferSize maxPriority dlx ttl qll d vh :
  NewVhost name bufferSize maxPriority dlx ttl qll d = Ok vh → wf_names vh.
Proof.
  intros Hv. destruct (NewVhost_loading name bufferSize maxPriority dlx ttl qll d) as (vh' & E & Hld).
  assert (vh' = vh) as <- by congruence. apply Hld.
Qed.

(** Every data directory that can be used gives a broker, whatever is in its
    files, and its vhosts are well formed. *)
Lemma NewBroker_starts bufferSize maxPriority dlx ttl qll d :
  (JsonPersistence.Initialize d).2 = Ok tt →
  ∃ b, NewBroker bufferSize maxPriority dlx ttl qll d = Ok b ∧ wf_broker b.
Proof.
  intros Hi. unfold NewBroker. destruct (JsonPersistence.Initialize d) as [d' r]. cbn [snd] in Hi. subst r.
  cbn [map_err mbind res_mbind res_bind].
  destruct (NewVhost_loading DEFAULT_VHOST bufferSize maxPriority dlx ttl qll d') as (vh & -> & Hld).
  cbn [map_err mbind res_mbind res_bind].
  destruct (for_each_ok (map_Forall (λ _ v, wf_names v))
    (recover_vhost (λ name, NewVhost name bufferSize maxPriority dlx ttl qll d'))
    (JsonPersistence.LoadAllVHosts d') {[DEFAULT_VHOST := vh]}) as (vhosts & -> & Hwf).
  - by apply map_Forall_singleton, Hld.
  - intros name vs _ Hvs. unfold recover_vhost. case_decide; [by eexists|].
    destruct (NewVhost_loading name bufferSize maxPriority dlx ttl qll d') as (v & -> & Hv).
    eexists. split; [done|]. apply map_Forall_insert_2; [apply Hv|exact Hvs].
  - eexists. split; [done|]. intros n v Hv. split; [by apply (Hwf n v)|done].
Qed.
Lemma NewBroker_wf bufferSize maxPriority dlx ttl qll d b :
  NewBroker bufferSize maxPriority dlx ttl qll d = Ok b → wf_broker b.
Proof.
  intros Hb. destruct (JsonPersistence.Initialize d).2 as [[]|e] eqn:Hi.
  - destruct (NewBroker_starts bufferSize maxPriority dlx ttl qll d Hi) as (b' & E & Hwf).
    assert (b' = b) as <- by congruence. exact Hwf.
  - unfold NewBroker in Hb. destruct (JsonPersistence.Initialize d) as [d' r]. cbn [snd] in Hi. by subst r.
Qed.

(** *** Running *)

Definition tags_half_left (b : Broker) : Prop := ∀ n v, br_vhosts b !! n = Some v → half_left v.

(** A virtual host as the delivery loop of one of its queues shares it. *)
Definition shares (name : string) (sh : shared) (b : Broker) : Prop :=
  br_vhosts b !! name = Some (sh_vh sh) ∧ br_out b = sh_out sh.
Definition put_shared (name : string) (sh : shared) (b : Broker) : Broker :=
  set_out (sh_out sh) (set_vhosts (<[name := sh_vh sh]> (br_vhosts b)) b).

(** The operations of the management service; the number of messages asked for
    is a Go [int]. *)
Inductive management_call : ∀ A : Type, brk A → Prop :=
| mc_create_queue vh name req : management_call _ (CreateQueue vh name req)
| mc_delete_queue vh name ifUnused ifEmpty : management_call _ (DeleteQueue vh name ifUnused ifEmpty)
| mc_purge_queue vh name : management_call _ (PurgeQueue fuel vh name)
| mc_create_exchange vh name req : management_call _ (CreateExchange vh name req)
| mc_delete_exchange vh name ifUnused : management_call _ (DeleteExchange vh name ifUnused)
| mc_create_binding req : management_call _ (CreateBinding req)
| mc_delete_binding req : management_call _ (DeleteBinding req)
| mc_publish vh exchange req : management_call _ (PublishMessage fuel vh exchange req)
| mc_get vh queue count mode : count < 2 ^ 63 → management_call _ (GetMessages fuel vh queue count mode).

Lemma management_sound A (m : brk A) : management_call A m → keeps half_left any m.
Proof.
  destruct 1 as [| | | | |req|req| |vh queue count mode Hc]; [..|by apply GetMessages_sound]; apply keeps_from;
    try apply manage_bindings_sound; auto using manage_CreateQueue_sound, manage_DeleteQueue_sound,
    manage_PurgeQueue_sound, manage_CreateExchange_sound, manage_DeleteExchange_sound, PublishMessage_sound.
Qed.

(** Connections come, send requests and go; the management closes connections,
    makes and removes virtual hosts and works on their contents; the delivery loops
    run, one section at a time.  Requests and deliveries hand out tags, of which
    half are left. *)
Inductive broker_step (b : Broker) : Broker → Prop :=
| bs_connect conn info b' r : registerConnection conn info b = Ok (b', r) → broker_step b b'
| bs_request conn newState b' r :
    tags_half_left b → processRequest fuel conn newState b = Ok (b', r) → broker_step b b'
| bs_disconnect conn b' r : cleanupConnection fuel conn b = Ok (b', r) → broker_step b b'
| bs_close_connection name reason b' r : CloseConnection name reason b = Ok (b', r) → broker_step b b'
| bs_create_vhost bufferSize maxPriority dlx ttl qll d vh saved name b' r :
    NewVhost name bufferSize maxPriority dlx ttl qll d = Ok vh →
    CreateVHost vh saved name b = Ok (b', r) → broker_step b b'
| bs_delete_vhost name b' r : DeleteVHost name b = Ok (b', r) → broker_step b b'
| bs_manage A (m : brk A) b' r :
    tags_half_left b → management_call A m → m b = Ok (b', r) → broker_step b b'
| bs_shutdown : broker_step b (BeginShutdown b)
| bs_loop name queue sh sh' :
    tags_half_left b → shares name sh b → loop_section (broker_sender b) fuel queue sh sh' →
    broker_step b (put_shared name sh' b).

Lemma section_wf s queue sh sh' :
  wf_names (sh_vh sh) → half_left (sh_vh sh) → loop_section s fuel queue sh sh' → wf_names (sh_vh sh').
Proof.
  intros Hwf Hh Hs. destruct Hs as [|q Hq|q signal Hq|now msg vh' e He|now msg vh' Hp|c msg vh' out' r Hd|]; cbn.
  - done.
  - eapply wf_names_frame; [|exact Hwf]. apply (put_popped_frame (q_Name queue)); [by eapply wf_named|done].
  - eapply wf_names_frame; [|exact Hwf]. eapply put_queue_frame; [by eapply wf_named|exact Hq|done].
  - eapply wf_names_frame; [|exact Hwf]. eapply expiration_frame; [apply Push_frame|by eapply wf_named|exact He].
  - eapply wf_names_frame; [|exact Hwf]. eapply Push_frame; [by eapply wf_named|exact Hp].
  - destruct (deliverToConsumer_wf (2 ^ 63 - 2) c msg false (sh_vh sh) (sh_out sh)) as [Hw _]; [lia| |done|].
    + by apply half_left_room.
    + by rewrite Hd in Hw.
  - by apply cancelConsumer_wf.
Qed.

Lemma vhosts_wf (b b' : Broker) : br_vhosts b' = br_vhosts b → wf_broker b → wf_broker b'.
Proof. unfold wf_broker, inv. by intros ->. Qed.

Lemma broker_step_wf b b' : wf_broker b → broker_step b b' → wf_broker b'.
Proof.
  intros Hb Hs. destruct Hs as [conn info b' r Hr|conn st b' r Hh Hr|conn b' r Hr|name reason b' r Hr
    |bufferSize maxPriority dlx ttl qll d vh saved name b' r Hvh Hr|name b' r Hr|A m b' r Hh Hm Hr| |name queue sh sh' Hh [Hv Ho] Hs].
  - unfold registerConnection in Hr. destruct (br_ShuttingDown b); injection Hr as <- _; [done|].
    by eapply vhosts_wf.
  - eapply processRequest_sound; [|exact Hr]. intros n v Hv. split; [apply (Hb n v Hv)|by eapply Hh].
  - by eapply cleanupConnection_sound.
  - assert (Hk : keeps any any (CloseConnection name reason)).
    { unfold CloseConnection, sendConnectionClosing. sound. }
    by eapply Hk.
  - unfold CreateVHost in Hr. destruct (br_vhosts b !! name) as [u|]; [by injection Hr as <- _|].
    destruct saved; injection Hr as <- _; [|done]. intros n v. cbn. rewrite lookup_insert_Some.
    intros [[_ <-]|[_ Hv]]; [split; [by eapply NewVhost_wf|done]|by apply Hb in Hv].
  - unfold DeleteVHost in Hr. case_decide; [by injection Hr as <- _|].
    destruct (br_vhosts b !! name) as [u|]; [|by injection Hr as <- _].
    destruct (existsb _ _); injection Hr as <- _; [done|]. intros n v. cbn.
    rewrite lookup_delete_Some. intros [_ Hv]. by apply Hb in Hv.
  - eapply (management_sound A m Hm); [|exact Hr]. intros n v Hv. split; [apply (Hb n v Hv)|by eapply Hh].
  - by eapply vhosts_wf.
  - intros n v. cbn. rewrite lookup_insert_Some. intros [[_ <-]|[_ Hv']]; [|by apply Hb in Hv'].
    split; [|done]. eapply section_wf; [apply (Hb _ _ Hv)|by eapply Hh|exact Hs].
Qed.

Lemma broker_steps_wf b b' : rtc broker_step b b' → wf_broker b → wf_broker b'.
Proof. induction 1 as [|b1 b2 b3 Hs _ IH]; [done|]. intros Hb. by eapply IH, broker_step_wf. Qed.

(** C1. Nothing a client sends, and nothing the broker does by itself, breaks a
    virtual host.  Start a broker on any data directory, whatever its files hold,
    and let, in any order, connections come and go, send any requests on any channels (including those that fail, close
    channels or commit transactions), the delivery loops of its queues run, and
    the management make and delete virtual hosts, close connections and create,
    delete, bind, purge, publish to and read from queues and exchanges: as long
    as no channel has used half of its 2^64 delivery tags, the names, bindings,
    consumers, counts and delivery indexes of every virtual host fit together. *)
Theorem broker_stays_well_formed (bufferSize maxPriority : Z) (dlx ttl qll : bool) (d : disk) (new b : Broker) :
  NewBroker bufferSize maxPriority dlx ttl qll d = Ok new → rtc broker_step new b →
  ∀ name v, br_vhosts b !! name = Some v → wf_names v.
Proof.
  intros Hn Hr name v Hv. eapply broker_steps_wf in Hr; [|by eapply NewBroker_wf]. apply (Hr _ _ Hv).
Qed.
End broker_steps.

Section invariant_sample.
#[local] Existing Instance sample_runtime.
#[local] Existing Instance sample_environment.
#[local] Existing Instance sample_reader.
#[local] Existing Instance sample_sha256.

Definition after {A} (m : brk A) (b : Broker) : Broker := match m b with Ok (b', _) => b' | Err _ => b end.
Definition few_tags (b : Broker) : bool :=
  bool_decide (map_Forall (λ _ v, map_Forall (λ _ ch, LastDeliveryTag ch < 2 ^ 63 - 1) (vh_ChannelDeliveries v))
    (br_vhosts b)).

Lemma after_request conn newState b :
  few_tags b && is_ok (processRequest 5 conn newState b) = true →
  broker_step 5 b (after (processRequest 5 conn newState) b).
Proof.
  intros [Hf Hok]%andb_true_iff. apply bool_decide_eq_true in Hf.
  unfold after. destruct (processRequest _ _ _ b) as [[b' r]|] eqn:Hr; [|discriminate Hok].
  apply (bs_request 5 b conn newState b' r); [|exact Hr]. intros n v Hv key ch Hch. by apply (Hf n v Hv key ch).
Qed.

(** A broker starts on the files a former one left, with a queue in them; a
    client connects, opens channel 1 and declares a queue. *)
Definition sample_info : ConnectionInfo := MkConnInfo "/" "guest" (MkTuning 100 4096 60) false.
Definition sample_files : disk := stored "/" sample_calls (MkDisk (Some (Some 2)) ∅).
Definition sample_new : Broker :=
  match NewBroker 100 10 true true true sample_files with
  | Ok b => b
  | Err _ => MkBroker ∅ ∅ ∅ ∅ false 0 []
  end.
Lemma sample_starts : NewBroker 100 10 true true true sample_files = Ok sample_new.
Proof.
  assert (Hi : is_ok (JsonPersistence.Initialize sample_files).2 = true) by by vm_compute.
  destruct (JsonPersistence.Initialize sample_files).2 as [[]|e] eqn:E; [|discriminate Hi].
  destruct (NewBroker_starts 100 10 true true true _ E) as (b & Hb & _). unfold sample_new. by rewrite Hb.
Qed.
Definition sample_connected : Broker := after (registerConnection "conn-1" sample_info) sample_new.
Definition sample_opened : Broker := after (processRequest 5 "conn-1"
  (MkIncoming (Some (0%nat, MkRequest 1 CHANNEL CHANNEL_OPEN CNil)) None None)) sample_connected.
Definition sample_declared : Broker := after (processRequest 5 "conn-1"
  (MkIncoming (Some (1%nat, MkRequest 1 QUEUE QUEUE_DECLARE
    (QueueDeclare "bills" false true false false false None))) None None)) sample_opened.

Lemma broker_stays_well_formed_witness : ∃ b v,
  NewBroker 100 10 true true true sample_files = Ok sample_new ∧
  rtc (broker_step 5) sample_new b ∧ br_vhosts b !! "/" = Some v ∧
  is_Some (vh_Queues v !! "orders") ∧ is_Some (vh_Queues v !! "bills") ∧ wf_names v.
Proof.
  assert (Hr : rtc (broker_step 5) sample_new sample_declared).
  { apply (rtc_l _ _ sample_connected);
      [by apply (bs_connect 5 sample_new "conn-1" sample_info sample_connected (Ok true))|].
    apply (rtc_l _ _ sample_opened); [apply after_request; by vm_compute|].
    apply (rtc_l _ _ sample_declared); [apply after_request; by vm_compute|]. apply rtc_refl. }
  assert (Hq : match br_vhosts sample_declared !! "/" with
    | Some v => bool_decide (is_Some (vh_Queues v !! "orders") ∧ is_Some (vh_Queues v !! "bills"))
    | None => false end = true) by by vm_compute.
  destruct (br_vhosts sample_declared !! "/") as [v|] eqn:Hv; [|discriminate Hq].
  apply bool_decide_eq_true in Hq as [Ho Hb].
  exists sample_declared, v. split; [exact sample_starts|]. split; [exact Hr|]. split; [exact Hv|].
  split; [exact Ho|]. split; [exact Hb|].
  exact (broker_stays_well_formed 5 100 10 true true true _ _ sample_declared sample_starts Hr "/" v Hv).
Defined.
End invariant_sample.
