(* ===== verification/Ledger.v ===== *)
(** * What a queue promises: a ledger of messages

    The abstract specification of a queue is a ledger with three columns: the
    messages ready, those a delivery loop (or basic.get) has in hand, and those
    delivered and not yet settled.  Here the operations of a virtual host are
    shown to implement it, queue by queue, and a message to be nowhere lost or
    duplicated: what was published is ready, in hand, outstanding or settled. *)

From stdpp Require Import base list gmap strings.
From Stdlib Require Import ZArith Lia.
From S2P Require Import Prelude Values Properties Methods Args Queue Deliveries Consumers Json VHost Lifecycle Expiry.
From S2P Require Import Publish Settle Purge Preserve Cleanup Invariant.

Local Open Scope Z_scope.
Local Open Scope string_scope.
Local Open Scope list_scope.

(** ** The specification *)

Record ledger : Type := MkLedger {
  l_ready : list Message;
  l_hand : list Message;
  l_out : list Message;
}.

Inductive event : Type :=
| Published (msg : Message)
| Taken (msg : Message)
| Written (msg : Message) (acknowledged : bool)
| Returned (msg : Message)
| Settled (msgs : list Message)
| Requeued (msgs : list Message)
| Unrelated.

(** Messages join the ready ones; at the end when the queue has no priorities. *)
Definition joins (fifo : Prop) (msgs ready ready' : list Message) : Prop :=
  ready' ≡ₚ ready ++ msgs ∧ (fifo → ready' = ready ++ msgs).

(** The columns in hand and outstanding are bags: lists up to their order. *)
Inductive ledger_step (fifo : Prop) : event → ledger → ledger → Prop :=
| ls_publish msg R R' H O :
    joins fifo [msg] R R' → ledger_step fifo (Published msg) (MkLedger R H O) (MkLedger R' H O)
| ls_take msg R H O :
    ledger_step fifo (Taken msg) (MkLedger (msg :: R) H O) (MkLedger R (msg :: H) O)
| ls_write msg R H H' O O' :
    H ≡ₚ msg :: H' → O' ≡ₚ msg :: O →
    ledger_step fifo (Written msg true) (MkLedger R H O) (MkLedger R H' O')
| ls_forget msg R H H' O O' :
    H ≡ₚ msg :: H' → O' ≡ₚ O →
    ledger_step fifo (Written msg false) (MkLedger R H O) (MkLedger R H' O')
| ls_return msg R R' H H' O :
    H ≡ₚ msg :: H' → joins fifo [msg] R R' →
    ledger_step fifo (Returned msg) (MkLedger R H O) (MkLedger R' H' O)
| ls_settle msgs R H O O' :
    O ≡ₚ msgs ++ O' → ledger_step fifo (Settled msgs) (MkLedger R H O) (MkLedger R H O')
| ls_requeue msgs R R' H O O' :
    O ≡ₚ msgs ++ O' → joins fifo msgs R R' →
    ledger_step fifo (Requeued msgs) (MkLedger R H O) (MkLedger R' H O')
| ls_unrelated R H H' O O' :
    H' ≡ₚ H → O' ≡ₚ O → ledger_step fifo Unrelated (MkLedger R H O) (MkLedger R H' O').

Inductive ledger_run (fifo : Prop) : list event → ledger → ledger → Prop :=
| lr_nil L : ledger_run fifo [] L L
| lr_cons e es L1 L2 L3 :
    ledger_step fifo e L1 L2 → ledger_run fifo es L2 L3 → ledger_run fifo (e :: es) L1 L3.

(** What enters and leaves by an event. *)
Definition published (es : list event) : list Message :=
  es ≫= λ e, match e with Published msg => [msg] | _ => [] end.
Definition settled (es : list event) : list Message :=
  es ≫= λ e, match e with Settled msgs => msgs | Written msg false => [msg] | _ => [] end.
Definition held (L : ledger) : list Message := l_ready L ++ l_hand L ++ l_out L.

Lemma ledger_step_conserves fifo e L L' :
  ledger_step fifo e L L' → held L' ++ settled [e] ≡ₚ held L ++ published [e].
Proof.
  unfold held, settled, published. intros Hs. destruct Hs; unfold joins in *; destruct_and?; cbn;
    repeat match goal with H : _ ≡ₚ _ |- _ => rewrite H; clear H end; solve_Permutation.
Qed.

Lemma ledger_conserves fifo es L L' :
  ledger_run fifo es L L' → held L' ++ settled es ≡ₚ held L ++ published es.
Proof.
  induction 1 as [L|e es L1 L2 L3 Hs _ IH]; [done|]. apply ledger_step_conserves in Hs.
  assert (Hset : settled (e :: es) = settled [e] ++ settled es) by (unfold settled; cbn; by rewrite app_nil_r).
  assert (Hpub : published (e :: es) = published [e] ++ published es) by (unfold published; cbn; by rewrite app_nil_r).
  rewrite Hset, Hpub.
  transitivity ((held L3 ++ settled es) ++ settled [e]); [solve_Permutation|]. rewrite IH.
  transitivity ((held L2 ++ settled [e]) ++ published es); [solve_Permutation|]. rewrite Hs. solve_Permutation.
Qed.

(** ** The virtual host's side *)

(** The virtual host, and the messages its loops and handlers have in hand, with
    the queue each was taken from. *)
Record scene : Type := MkScene {
  sc_vh : VHost;
  sc_hand : list (string * Message);
}.

Definition in_hand_of (n : string) (hand : list (string * Message)) : list Message :=
  snd <$> filter (λ x, x.1 = n) hand.
Definition ledger_of (n : string) (s : scene) : ledger :=
  MkLedger (ready (sc_vh s) n) (in_hand_of n (sc_hand s)) (outstanding (sc_vh s) n).

(** Nothing is dropped: the queue is live, has no length limit and has room. *)
Definition accepts (n : string) (msg : Message) (vh : VHost) : Prop :=
  0 <= Priority (m_Properties msg) ∧ ∃ q, hosts vh n q ∧ Z.of_nat (length (contents q)) < capacity q.

(** *** The columns *)

Lemma in_hand_cons n n' msg hand :
  in_hand_of n ((n', msg) :: hand) = (if decide (n' = n) then [msg] else []) ++ in_hand_of n hand.
Proof. unfold in_hand_of. rewrite filter_cons. cbn. by case_decide. Qed.
#[export] Instance in_hand_proper n : Proper ((≡ₚ) ==> (≡ₚ)) (in_hand_of n).
Proof. intros l1 l2 Hl. unfold in_hand_of. by rewrite Hl. Qed.

Lemma outstanding_same vh vh' n :
  vh_ChannelDeliveries vh' = vh_ChannelDeliveries vh → outstanding vh' n = outstanding vh n.
Proof. unfold outstanding. by intros ->. Qed.

Lemma outstanding_channel vh key ch' n :
  outstanding (put_channel key ch' vh) n ++ returned n (records_of (channel_of vh key)) ≡ₚ
  outstanding vh n ++ returned n (records_of ch').
Proof.
  destruct (vh_ChannelDeliveries vh !! key) as [ch|] eqn:Hch.
  - unfold channel_of. rewrite Hch. by apply outstanding_put.
  - unfold channel_of. rewrite Hch. unfold outstanding, put_channel. cbn [vh_ChannelDeliveries set_ChannelDeliveries].
    assert (Hnew : records_of (default new_channel_state None) = [])
      by (unfold records_of; cbn [default UnackedByTag new_channel_state]; by rewrite map_to_list_empty).
    rewrite map_to_list_insert, Hnew by done. cbn. solve_Permutation.
Qed.

(** One more delivery of a channel, under a tag not given out before. *)
Lemma records_track ch ch' tag r :
  wf_channel ch → LastDeliveryTag ch < tag → UnackedByTag ch' = <[tag := r]> (UnackedByTag ch) →
  records_of ch' ≡ₚ r :: records_of ch.
Proof.
  intros (_ & Htags & _) Htag E. unfold records_of. rewrite E, map_to_list_insert; [done|].
  destruct (UnackedByTag ch !! tag) as [r'|] eqn:Hr; [|done]. apply Htags in Hr as [_ Hr]. lia.
Qed.

(** Tracking a delivery of queue [n] adds its message to what is outstanding. *)
Lemma outstanding_track vh key ch' (noAck : bool) tag r n :
  wf_channel (channel_of vh key) → LastDeliveryTag (channel_of vh key) < tag → dr_QueueDeleted r = false →
  UnackedByTag ch' = (if noAck then UnackedByTag (channel_of vh key) else <[tag := r]> (UnackedByTag (channel_of vh key))) →
  outstanding (put_channel key ch' vh) n ≡ₚ
    (if decide (noAck = false ∧ dr_QueueName r = n) then [dr_Message r] else []) ++ outstanding vh n.
Proof.
  intros Hwf Htag Hd E. pose proof (outstanding_channel vh key ch' n) as Ho.
  apply (Permutation_app_inv_r (returned n (records_of (channel_of vh key)))). rewrite Ho.
  destruct noAck; cbn [app].
  - assert (Hr : records_of ch' = records_of (channel_of vh key)) by (unfold records_of; by rewrite E).
    rewrite Hr. by rewrite decide_False by naive_solver.
  - rewrite (records_track (channel_of vh key) ch' tag r) by done. rewrite returned_cons.
    destruct (decide (dr_QueueName r = n)); [rewrite !decide_True by done|rewrite !decide_False by naive_solver];
      solve_Permutation.
Qed.

(** A cancellation that leaves the queue leaves its column. *)
Lemma outstanding_kept `{Runtime} vh vh' n :
  wf_names vh → wf_names vh' → kept vh vh' → is_Some (vh_Queues vh' !! n) → outstanding vh' n ≡ₚ outstanding vh n.
Proof.
  intros Hwf Hwf' Hk Hn.
  assert (Howed : ∀ v, wf_names v →
    outstanding v n ≡ₚ map_to_list (owed n <$> vh_ChannelDeliveries v) ≫= λ kl, kl.2.*2).
  { intros v Hv. unfold outstanding. rewrite map_to_list_fmap.
    assert (Hall : Forall (λ kc : _ * ChannelDeliveryState, wf_channel kc.2) (map_to_list (vh_ChannelDeliveries v))).
    { apply Forall_forall. intros [k c] Hc%elem_of_map_to_list. by apply (wn_channel _ _ Hv k). }
    induction Hall as [|[k c] l Hc _ IH]; [done|]. cbn. rewrite IH. f_equiv. symmetry. by apply owed_returned. }
  rewrite !Howed by done.
  assert (Heq : owed n <$> vh_ChannelDeliveries vh' = owed n <$> vh_ChannelDeliveries vh); [|by rewrite Heq].
  apply map_eq. intros k. rewrite !lookup_fmap. pose proof (k_channel _ _ Hk k) as Hc.
  destruct Hc as [ch ch' Hsame|]; [|done]. cbn. f_equal. by eapply owed_same.
Qed.

Section implementation.
Context `{Runtime}.

(** What happens to messages, operation by operation; a message expired, dropped
    or dead-lettered is left out. *)
Inductive scene_step : scene → scene → Prop :=
| sc_publish now fuel n msg vh vh' hand :
    (0 < fuel)%nat → accepts n msg vh → Push now fuel n msg vh = Ok vh' →
    scene_step (MkScene vh hand) (MkScene vh' hand)
| sc_take n q msg vh hand :
    vh_Queues vh !! n = Some q → (Pop q).1 = Some msg →
    scene_step (MkScene vh hand) (MkScene (put_queue (Pop q).2 vh) ((n, msg) :: hand))
| sc_get now fuel n msg vh vh' hand :
    GetMessage now fuel n vh = Ok (vh', Some msg) →
    scene_step (MkScene vh hand) (MkScene vh' ((n, msg) :: hand))
| sc_track key noAck n msg vh hand hand' ch vh1 :
    half_left vh → hand ≡ₚ (n, msg) :: hand' → GetOrCreateChannelDelivery key vh = (ch, vh1) →
    scene_step (MkScene vh hand) (MkScene (put_channel key (TrackDelivery noAck msg n ch).2 vh1) hand')
| sc_deliver (s : FrameSender) c msg vh out vh' out' r hand hand' :
    half_left vh → hand ≡ₚ (c_QueueName c, msg) :: hand' →
    deliverToConsumer c msg false vh out = (vh', out', r) →
    scene_step (MkScene vh hand) (MkScene vh' (if is_ok r then hand' else hand))
| sc_put_back now fuel n msg vh vh' hand hand' :
    (0 < fuel)%nat → accepts n msg vh → Push now fuel n msg vh = Ok vh' → hand ≡ₚ (n, msg) :: hand' →
    scene_step (MkScene vh hand) (MkScene vh' hand')
| sc_ack key deliveryTag multiple vh hand :
    scene_step (MkScene vh hand) (MkScene (HandleBasicAck key deliveryTag multiple vh).1 hand)
| sc_nack now fuel key ch deliveryTag multiple methodID vh vh' r hand :
    (0 < fuel)%nat → vh_ChannelDeliveries vh !! key = Some ch →
    takes_back (records_of ch) vh → unexpired now (records_of ch) vh →
    handleBasicNack now fuel key deliveryTag multiple true methodID vh = Ok (vh', r) →
    scene_step (MkScene vh hand) (MkScene vh' hand)
| sc_cancel channel tag guard vh hand :
    scene_step (MkScene vh hand) (MkScene (cancelConsumer channel tag guard vh).1 hand)
| sc_close now fuel key ch vh vh' hand :
    (0 < fuel)%nat → vh_ChannelDeliveries vh !! key = Some ch →
    takes_back (live (records_of ch)) vh → CleanupChannel now fuel key vh = Ok vh' →
    scene_step (MkScene vh hand) (MkScene vh' hand).

(** *** Each operation *)

(** A queue in [vh'] was in [vh], with the same maximum priority. *)
Definition stays (vh vh' : VHost) : Prop := ∀ n q', vh_Queues vh' !! n = Some q' →
  ∃ q, vh_Queues vh !! n = Some q ∧ q_maxPriority q' = q_maxPriority q.

(** From [s] to [s'], the ledger of every queue that is left makes a step. *)
Definition implements (s s' : scene) : Prop :=
  stays (sc_vh s) (sc_vh s') ∧
  ∀ n q, vh_Queues (sc_vh s') !! n = Some q →
    ∃ e, ledger_step (q_maxPriority q = 0) e (ledger_of n s) (ledger_of n s').

Lemma stays_frame vh vh' : same_frame vh vh' → stays vh vh'.
Proof.
  intros Hf n q' Hq'. pose proof (ss_queues _ _ (sf_shape _ _ Hf) n) as Hq. rewrite Hq' in Hq.
  destruct (vh_Queues vh !! n) as [q|]; [|done]. exists q. split; [done|]. apply Hq.
Qed.
Lemma stays_same vh vh' : vh_Queues vh' = vh_Queues vh → stays vh vh'.
Proof. intros E n q'. rewrite E. eauto. Qed.
Lemma stays_kept vh vh' : kept vh vh' → stays vh vh'.
Proof. intros Hk n q' Hq'. destruct (k_queue _ _ Hk _ _ Hq') as (q & k & Hq & ->). by exists q. Qed.

(** Queues the operation does not concern. *)
Lemma ledger_unrelated fifo n s s' :
  ready (sc_vh s') n = ready (sc_vh s) n → in_hand_of n (sc_hand s') ≡ₚ in_hand_of n (sc_hand s) →
  outstanding (sc_vh s') n ≡ₚ outstanding (sc_vh s) n → ∃ e, ledger_step fifo e (ledger_of n s) (ledger_of n s').
Proof. intros Hr Hh Ho. exists Unrelated. unfold ledger_of. rewrite Hr. by apply ls_unrelated. Qed.

Lemma push_joins now fuel n msg vh vh' :
  (0 < fuel)%nat → accepts n msg vh → Push now fuel n msg vh = Ok vh' →
  (∀ q', vh_Queues vh' !! n = Some q' → joins (q_maxPriority q' = 0) [msg] (ready vh n) (ready vh' n)) ∧
  (∀ n', n' ≠ n → ready vh' n' = ready vh n') ∧ vh_ChannelDeliveries vh' = vh_ChannelDeliveries vh.
Proof.
  intros Hfuel (Hprio & q & Hq & Hroom) Hp.
  destruct (push_one now fuel n msg vh q Hfuel Hq Hprio Hroom)
    as (vh1 & q1 & Hp1 & (_ & _ & Hc & _) & _ & Hq1 & Hs & Hne & Hperm & Hfifo).
  rewrite Hp in Hp1. apply (inj Ok) in Hp1 as <-. split; [|split; [|done]].
  - intros q' Hq'. destruct Hq1 as [Hq1 _]. rewrite Hq1 in Hq'. injection Hq' as <-. unfold joins, ready.
    rewrite Hq1, (proj1 Hq). cbn. split; [done|]. intros H0. apply Hfifo. destruct Hs as (_ & _ & _ & Hm & _). congruence.
  - intros n' Hn. unfold ready. by rewrite Hne.
Qed.

Lemma publish_implements now fuel n msg vh vh' hand :
  wf_names vh → (0 < fuel)%nat → accepts n msg vh → Push now fuel n msg vh = Ok vh' →
  implements (MkScene vh hand) (MkScene vh' hand).
Proof.
  intros Hwf Hfuel Ha Hp. destruct (push_joins _ _ _ _ _ _ Hfuel Ha Hp) as (Hj & Hne & Hc).
  split; [apply stays_frame; by eapply Push_frame; [eapply wf_named|]|]. intros n' q' Hq'. cbn in Hq'.
  destruct (decide (n' = n)) as [->|Hn].
  - exists (Published msg). unfold ledger_of. cbn [sc_vh sc_hand]. rewrite (outstanding_same vh vh' n Hc).
    apply ls_publish. by apply Hj.
  - apply ledger_unrelated; cbn; [by apply Hne|done|by rewrite (outstanding_same vh vh' n' Hc)].
Qed.

Lemma put_back_implements now fuel n msg vh vh' hand hand' :
  wf_names vh → (0 < fuel)%nat → accepts n msg vh → Push now fuel n msg vh = Ok vh' →
  hand ≡ₚ (n, msg) :: hand' → implements (MkScene vh hand) (MkScene vh' hand').
Proof.
  intros Hwf Hfuel Ha Hp Hh. destruct (push_joins _ _ _ _ _ _ Hfuel Ha Hp) as (Hj & Hne & Hc).
  split; [apply stays_frame; by eapply Push_frame; [eapply wf_named|]|]. intros n' q' Hq'. cbn in Hq'.
  assert (Hi : in_hand_of n' hand ≡ₚ (if decide (n = n') then [msg] else []) ++ in_hand_of n' hand')
    by by rewrite Hh, in_hand_cons.
  destruct (decide (n = n')) as [->|Hn].
  - exists (Returned msg). unfold ledger_of. cbn [sc_vh sc_hand]. rewrite (outstanding_same vh vh' n' Hc).
    apply ls_return; [done|by apply Hj].
  - apply ledger_unrelated; cbn; [by apply Hne|by rewrite Hi|by rewrite (outstanding_same vh vh' n' Hc)].
Qed.

Lemma take_implements n q msg vh hand :
  wf_names vh → vh_Queues vh !! n = Some q → (Pop q).1 = Some msg →
  implements (MkScene vh hand) (MkScene (put_queue (Pop q).2 vh) ((n, msg) :: hand)).
Proof.
  intros Hwf Hq Hp. pose proof (pop_settings q) as Hs. pose proof (Pop_contents q) as Hc.
  pose proof (wn_queue _ _ Hwf _ _ Hq) as [Hname _].
  destruct (Pop q) as [popped q']. cbn [fst snd] in *. subst popped. destruct Hc as [Hc _].
  assert (Hn : q_Name q' = n) by (by rewrite (proj1 Hs)). split.
  { apply stays_frame. eapply put_queue_frame; [by eapply wf_named|exact Hq|done]. }
  intros n' q1 Hq1. cbn in Hq1. destruct (decide (n = n')) as [<-|Hne].
  - exists (Taken msg). unfold ledger_of. cbn [sc_vh sc_hand]. rewrite in_hand_cons, decide_True by done.
    unfold ready at 2. cbn. rewrite Hn, lookup_insert_eq. unfold ready. rewrite Hq. cbn. rewrite Hc. apply ls_take.
  - apply ledger_unrelated; [|cbn [sc_hand]; by rewrite in_hand_cons, decide_False|done]. unfold ready. cbn.
    by rewrite Hn, lookup_insert_ne.
Qed.

Lemma get_implements now fuel n msg vh vh' hand :
  wf_names vh → GetMessage now fuel n vh = Ok (vh', Some msg) →
  implements (MkScene vh hand) (MkScene vh' ((n, msg) :: hand)).
Proof.
  intros Hwf Hg. unfold GetMessage in Hg. destruct (vh_Queues vh !! n) as [q|] eqn:Hq; [|by inv_ok].
  destruct (Pop q) as [[m|] q'] eqn:Hp; [|by inv_ok].
  apply res_bind_ok in Hg as ([vh1 expired] & Ht & E). apply (inj Ok) in E. destruct expired; [done|].
  injection E as -> ->. unfold handleTTLExpiration, handleTTLExpiration_with in Ht.
  assert (vh' = put_queue q' vh) as ->.
  { destruct (negb _); [by inv_ok|]. destruct (CheckExpiration _ _ _ _) as [[]|]; [|by inv_ok..].
    apply res_bind_ok in Ht as (d & _ & E). by inv_ok. }
  pose proof (take_implements n q msg vh hand Hwf Hq) as Htake. rewrite Hp in Htake. by apply Htake.
Qed.

Lemma half_left_channel key vh : half_left vh → LastDeliveryTag (channel_of vh key) < 2 ^ 64 - 1.
Proof.
  intros Hh. unfold channel_of. destruct (vh_ChannelDeliveries vh !! key) as [ch|] eqn:Hch; [|done].
  specialize (Hh _ _ Hch). cbn. lia.
Qed.

(** A delivery tracked on a channel, by a handler or a loop. *)
Lemma tracked_implements key ch' (noAck : bool) tag r n msg vh vh' hand hand' :
  wf_names vh → LastDeliveryTag (channel_of vh key) < tag → hand ≡ₚ (n, msg) :: hand' →
  dr_QueueDeleted r = false → dr_QueueName r = n → dr_Message r = msg →
  UnackedByTag ch' = (if noAck then UnackedByTag (channel_of vh key) else <[tag := r]> (UnackedByTag (channel_of vh key))) →
  vh_Queues vh' = vh_Queues vh → vh_ChannelDeliveries vh' = <[key := ch']> (vh_ChannelDeliveries vh) →
  implements (MkScene vh hand) (MkScene vh' hand').
Proof.
  intros Hwf Htag Hh Hd Hn Hm Hu Hqs Hcs. split; [by apply stays_same|]. intros n' q _.
  assert (Hready : ready vh' n' = ready vh n') by (unfold ready; by rewrite Hqs).
  assert (Ho : outstanding vh' n' ≡ₚ (if decide (noAck = false ∧ n = n') then [msg] else []) ++ outstanding vh n').
  { rewrite (outstanding_same (put_channel key ch' vh) vh' n') by done. rewrite <-Hn, <-Hm.
    apply (outstanding_track vh key ch' noAck tag r n'); [by apply channel_of_wf|done..]. }
  assert (Hi : in_hand_of n' hand ≡ₚ (if decide (n = n') then [msg] else []) ++ in_hand_of n' hand')
    by by rewrite Hh, in_hand_cons.
  destruct (decide (n = n')) as [<-|Hne].
  - destruct noAck; [rewrite decide_False in Ho by naive_solver|rewrite decide_True in Ho by done];
      eexists; unfold ledger_of; cbn [sc_vh sc_hand]; rewrite Hready; [by apply ls_forget|by apply ls_write].
  - apply ledger_unrelated; [done|by rewrite Hi|]. by rewrite decide_False in Ho by naive_solver.
Qed.

Lemma track_implements key noAck n msg vh hand hand' ch vh1 :
  wf_names vh → half_left vh → hand ≡ₚ (n, msg) :: hand' →
  GetOrCreateChannelDelivery key vh = (ch, vh1) →
  implements (MkScene vh hand) (MkScene (put_channel key (TrackDelivery noAck msg n ch).2 vh1) hand').
Proof.
  intros Hwf Hhalf Hh Hg. rewrite get_or_create in Hg. injection Hg as <- <-.
  pose proof (half_left_channel key vh Hhalf) as Hlast.
  assert (Hput : ∀ c, put_channel key c (if vh_ChannelDeliveries vh !! key then vh else put_channel key new_channel_state vh)
    = put_channel key c vh) by (intros c; case_match; [done|apply put_channel_twice]).
  rewrite Hput. pose proof (channel_of_wf key vh Hwf) as Hch.
  apply (tracked_implements key (TrackDelivery noAck msg n (channel_of vh key)).2 noAck
    (LastDeliveryTag (channel_of vh key) + 1)
    (MkRecord (LastDeliveryTag (channel_of vh key) + 1) "" true n msg (is_persistent msg) false false) n msg);
    try done; [lia|].
  unfold TrackDelivery. rewrite next_tag_small by (split; [apply Hch|done]). by destruct noAck.
Qed.

(** A delivery touches only its own channel. *)
Lemma deliver_channels (s : FrameSender) c msg vh out vh' out' r :
  deliverToConsumer c msg false vh out = (vh', out', r) →
  vh' = vh ∧ is_ok r = false ∨
  vh_ChannelDeliveries vh' =
    <[channel_key c := channel_of vh' (channel_key c)]> (vh_ChannelDeliveries vh).
Proof.
  unfold deliverToConsumer. destruct (negb (c_Active c)); [intros [= <- _ <-]; by left|].
  rewrite get_or_create. set (vh1 := if vh_ChannelDeliveries vh !! channel_key c then vh else _).
  destruct (track_consumer_delivery _ _ _ _ _) as [tag ch].
  assert (Hput : put_channel (channel_key c) ch vh1 = put_channel (channel_key c) ch vh).
  { unfold vh1. case_match; [done|apply put_channel_twice]. }
  rewrite Hput. intros Hr. right.
  assert (Hch : ∃ ch', vh_ChannelDeliveries vh' = <[channel_key c := ch']> (vh_ChannelDeliveries vh)).
  { assert (Hfail : ∀ noAck, ∃ ch', vh_ChannelDeliveries
        (untrack_failed noAck (channel_key c) tag ch (put_channel (channel_key c) ch vh))
        = <[channel_key c := ch']> (vh_ChannelDeliveries vh)).
    { intros noAck. unfold untrack_failed. destruct (_ !! tag) as [r0|]; [|by exists ch].
      destruct noAck; [by exists ch|]. rewrite put_channel_twice. by eexists. }
    destruct (delivery_frames _ _ _ _); [|injection Hr as <- _ _; apply Hfail].
    destruct (SendFrame _ _ _); injection Hr as <- _ _; [|apply Hfail].
    exists ch. etrans; [apply (sf_channels _ _ (after_send_frame _ _ _ _))|done]. }
  destruct Hch as [ch' E]. rewrite E. unfold channel_of. by rewrite E, lookup_insert_eq.
Qed.

Lemma deliver_implements (s : FrameSender) c msg vh out vh' out' r hand hand' :
  wf_names vh → half_left vh → hand ≡ₚ (c_QueueName c, msg) :: hand' →
  deliverToConsumer c msg false vh out = (vh', out', r) →
  implements (MkScene vh hand) (MkScene vh' (if is_ok r then hand' else hand)).
Proof.
  intros Hwf Hhalf Hh Hd. pose proof (half_left_channel (channel_key c) vh Hhalf) as Hlast.
  pose proof (channel_of_wf (channel_key c) vh Hwf) as Hch.
  pose proof (delivery_spec c msg false vh out Hch Hlast) as Hspec. rewrite Hd in Hspec. cbv zeta in Hspec.
  destruct Hspec as (_ & Hqs & Hr). apply deliver_channels in Hd.
  destruct r as [[]|e]; cbn [is_ok].
  - destruct Hr as (frames & _ & _ & _ & _ & _ & Hu). destruct Hd as [[_ ?]|Hcs]; [done|].
    eapply (tracked_implements _ _ (c_NoAck c)); [done| |exact Hh| | | |exact Hu|done|exact Hcs]; [lia|done..].
  - destruct Hr as (_ & _ & _ & Hu & _). destruct Hd as [[-> _]|Hcs].
    { split; [by apply stays_same|]. intros n q _. by apply ledger_unrelated. }
    split; [by apply stays_same|]. intros n q _. apply ledger_unrelated; cbn [sc_vh sc_hand].
    + unfold ready. by rewrite Hqs.
    + done.
    + rewrite (outstanding_same (put_channel (channel_key c) (channel_of vh' (channel_key c)) vh) vh') by done.
      pose proof (outstanding_channel vh (channel_key c) (channel_of vh' (channel_key c)) n) as Ho.
      unfold records_of in Ho. rewrite Hu in Ho. by apply Permutation_app_inv_r in Ho.
Qed.

(** Records taken off a channel are no longer outstanding. *)
Lemma outstanding_taken vh vh' key ch ch' removed n :
  vh_ChannelDeliveries vh !! key = Some ch → vh_ChannelDeliveries vh' = <[key := ch']> (vh_ChannelDeliveries vh) →
  records_of ch ≡ₚ removed ++ records_of ch' → outstanding vh n ≡ₚ returned n removed ++ outstanding vh' n.
Proof.
  intros Hch Hcs Hperm. pose proof (outstanding_put vh key ch ch' n Hch) as Ho.
  rewrite (outstanding_same (put_channel key ch' vh) vh') by done. rewrite Hperm, returned_app in Ho.
  apply (Permutation_app_inv_r (returned n (records_of ch'))). rewrite <-Ho. solve_Permutation.
Qed.

Lemma ack_records_queues records : ∀ vh, vh_Queues (foldl ack_record vh records) = vh_Queues vh.
Proof.
  induction records as [|r records IH]; intros vh; [done|]. cbn [foldl]. rewrite IH.
  unfold ack_record, forget_persisted. by destruct (dr_QueueDeleted r), (dr_Persistent r).
Qed.

Lemma implements_refl vh hand : implements (MkScene vh hand) (MkScene vh hand).
Proof. split; [by apply stays_same|]. intros n q _. by apply ledger_unrelated. Qed.

#[local] Instance acceptable_dec deliveryTag multiple ch : Decision (acceptable deliveryTag multiple ch).
Proof. unfold acceptable. apply _. Defined.

Lemma ack_implements key deliveryTag multiple vh hand :
  wf_names vh → implements (MkScene vh hand) (MkScene (HandleBasicAck key deliveryTag multiple vh).1 hand).
Proof.
  intros Hwf. unfold HandleBasicAck, pop_unacked. destruct (vh_ChannelDeliveries vh !! key) as [ch|] eqn:Hch.
  - pose proof (wn_channel _ _ Hwf _ _ Hch) as Hwfc. destruct (decide (acceptable deliveryTag multiple ch)) as [Ha|Ha].
    + destruct (pop_ok range_records range_records_visits deliveryTag multiple BASIC_ACK ch Hwfc Ha)
        as (removed & ch' & -> & _ & Hnd & Hin & Hrest).
      pose proof (pop_records range_records _ _ _ _ _ Hwfc Hnd Hin Hrest) as Hperm. cbn [fst].
      pose proof (ack_records_queues removed (put_channel key ch' vh)) as Hqs.
      split; [by apply stays_same|]. intros n q _. exists (Settled (returned n removed)).
      unfold ledger_of. cbn [sc_vh sc_hand].
      assert (Hr : ready (foldl ack_record (put_channel key ch' vh) removed) n = ready vh n)
        by (unfold ready; by rewrite Hqs).
      rewrite Hr. apply ls_settle. eapply outstanding_taken; [exact Hch| |exact Hperm].
      etrans; [apply (sf_channels _ _ (ack_records_frame removed _))|done].
    + rewrite (pop_unknown range_records) by done. apply implements_refl.
  - unfold popUnackedRecords. case_decide; apply implements_refl.
Qed.

Lemma nack_implements now fuel key ch deliveryTag multiple methodID vh vh' r hand :
  wf_names vh → (0 < fuel)%nat → vh_ChannelDeliveries vh !! key = Some ch →
  takes_back (records_of ch) vh → unexpired now (records_of ch) vh →
  handleBasicNack now fuel key deliveryTag multiple true methodID vh = Ok (vh', r) →
  implements (MkScene vh hand) (MkScene vh' hand).
Proof.
  intros Hwf Hfuel Hch Htake Hun Hn. pose proof (wn_channel _ _ Hwf _ _ Hch) as Hwfc.
  destruct (decide (acceptable deliveryTag multiple ch)) as [Ha|Ha].
  - assert (Hstays : stays vh vh').
    { unfold handleBasicNack, pop_unacked in Hn. rewrite Hch in Hn.
      destruct (popUnackedRecords _ _ _ _ _) as [[removed [ch'|]]|]; [| |by injection Hn as <- _; apply stays_same];
        apply res_bind_ok in Hn as (vh2 & Hf & E); injection E as <- _.
      - assert (Hfr : same_frame (put_channel key ch' vh) vh2).
        { eapply for_each_frame; [apply nack_requeue_frame| |exact Hf]. exact (wf_named _ _ Hwf). }
        intros n q' Hq'. exact (stays_frame _ _ Hfr n q' Hq').
      - apply stays_frame. eapply for_each_frame; [apply nack_requeue_frame| |exact Hf]. by eapply wf_named. }
    destruct (nack_requeue_spec now fuel key deliveryTag multiple methodID vh ch Hfuel Hwfc Hch Ha Htake Hun)
      as (removed & vh2 & ch' & Heq & _ & _ & Hperm & Hcs & _ & Hready).
    rewrite Hn in Heq. apply (inj Ok) in Heq. injection Heq as <- _.
    split; [done|]. intros n q Hq. exists (Requeued (returned n removed)).
    apply ls_requeue; [by eapply outstanding_taken|]. destruct (Hready n) as [Hr Hfifo]. split; [done|].
    intros H0. destruct (Hstays n q Hq) as (q0 & Hq0 & Hm). apply (Hfifo q0); [done|congruence].
  - unfold handleBasicNack, pop_unacked in Hn. rewrite Hch, (pop_unknown range_records) in Hn by done.
    apply (inj Ok) in Hn. injection Hn as <- _. apply implements_refl.
Qed.

Lemma kept_implements vh vh' hand :
  wf_names vh → wf_names vh' → kept vh vh' → implements (MkScene vh hand) (MkScene vh' hand).
Proof.
  intros Hwf Hwf' Hk. split; [by apply stays_kept|]. intros n q Hq. cbn in Hq.
  apply ledger_unrelated; cbn; [|done|]; [apply ready_kept|apply outstanding_kept]; by eauto.
Qed.

Lemma cancel_implements channel tag guard vh hand :
  wf_names vh → implements (MkScene vh hand) (MkScene (cancelConsumer channel tag guard vh).1 hand).
Proof.
  intros Hwf. unfold cancelConsumer. destruct (negb (guard vh)); [apply implements_refl|].
  destruct (ix_Consumers (vh_index vh) !! (channel, tag)) as [addr|] eqn:Ha; [|apply implements_refl].
  destruct (wi_key _ _ _ (wn_index _ _ Hwf) _ _ Ha) as (c & Hreg & Hk & _). rewrite (proj1 Hreg). cbn [fst].
  destruct (cancelConsumerLocked_spec (channel, tag) addr c vh Hwf Hreg Hk) as (Hwf' & Hkept & _).
  by apply kept_implements.
Qed.

Lemma release_parts now fuel key ch vh vh' :
  wf_names vh → vh_ChannelDeliveries vh !! key = Some ch → ReleaseChannelDeliveries now fuel key vh = Ok vh' →
  ∃ vh1 ch1, wf_names vh1 ∧ kept vh vh1 ∧ stays vh1 vh' ∧ vh_ChannelDeliveries vh1 !! key = Some ch1 ∧
    (∀ t, option_Forall2 (same_delivery vh vh1) (UnackedByTag ch !! t) (UnackedByTag ch1 !! t)) ∧
    vh_ChannelDeliveries vh' = delete key (vh_ChannelDeliveries vh1).
Proof.
  intros Hwf Hch Hr. unfold ReleaseChannelDeliveries in Hr.
  pose proof (cancelChannelConsumers_spec key vh Hwf) as Hc.
  destruct (cancelChannelConsumersLocked key vh) as [cancelled vh1]. destruct Hc as (Hwf1 & Hk & _).
  pose proof (k_channel _ _ Hk key) as Hs. rewrite Hch in Hs. inversion Hs as [? ch1 Hsame E1 E2|]; subst.
  destruct (takeChannelDeliveries_spec key vh1 ch1 (eq_sym E2)) as (work & Htake & _). rewrite Htake in Hr.
  assert (Hf : same_frame (set_ChannelDeliveries (delete key (vh_ChannelDeliveries vh1)) vh1) vh').
  { eapply requeue_frame; [|exact Hr]. intros n q Hq. apply (wn_queue _ _ Hwf1 _ _ Hq). }
  exists vh1, ch1. split_and!; try done.
  - intros n q' Hq'. by apply (stays_frame _ _ Hf).
  - apply (sf_channels _ _ Hf).
Qed.

Lemma close_implements now fuel key ch vh vh' hand :
  wf_names vh → (0 < fuel)%nat → vh_ChannelDeliveries vh !! key = Some ch →
  takes_back (live (records_of ch)) vh → CleanupChannel now fuel key vh = Ok vh' →
  implements (MkScene vh hand) (MkScene vh' hand).
Proof.
  intros Hwf Hfuel Hch Htake Hc. unfold CleanupChannel in Hc.
  destruct (release_spec now fuel key vh ch Hfuel Hwf Hch Htake) as (vh2 & Hr & _ & _ & Hback).
  rewrite Hr in Hc. apply (inj Ok) in Hc as <-.
  destruct (release_parts now fuel key ch vh vh2 Hwf Hch Hr) as (vh1 & ch1 & Hwf1 & Hk & Hst & Hch1 & Hsame & Hcs).
  assert (Hstays : stays vh vh2).
  { intros n q Hq. destruct (Hst n q Hq) as (q1 & Hq1 & E1). destruct (stays_kept _ _ Hk n q1 Hq1) as (q0 & Hq0 & E0).
    exists q0. split; [done|congruence]. }
  split; [exact Hstays|]. intros n q Hq. cbn in Hq. destruct (Hst n q Hq) as (q1 & Hq1 & _).
  destruct (Hback n) as (back & Hb & _ & Hready & Hfifo & _); [by eauto|].
  exists (Requeued back.*2). apply ls_requeue.
  - cbn [sc_vh]. rewrite <-(outstanding_kept vh vh1 n Hwf Hwf1 Hk) by eauto.
    rewrite <-(outstanding_delete vh1 key ch1 n Hch1).
    rewrite (outstanding_same (set_ChannelDeliveries (delete key (vh_ChannelDeliveries vh1)) vh1)
      (set_ChannelTransactions (delete key (vh_ChannelTransactions vh2)) vh2)) by done.
    rewrite <-(owed_returned n ch1) by apply (wn_channel _ _ Hwf1 _ _ Hch1).
    rewrite (owed_same vh vh1 n ch ch1 Hsame), <-Hb by eauto. solve_Permutation.
  - split; [exact Hready|]. intros H0. destruct (Hstays n q Hq) as (q0 & Hq0 & Hm).
    apply (Hfifo q0 Hq0). left. congruence.
Qed.

Lemma scene_step_wf s s' : wf_names (sc_vh s) → scene_step s s' → wf_names (sc_vh s').
Proof.
  intros Hwf Hs. pose proof (wf_named _ _ Hwf) as Hn.
  destruct Hs as [now fuel n msg vh vh' hand _ _ Hp|n q msg vh hand Hq _|now fuel n msg vh vh' hand Hg
    |key noAck n msg vh hand hand' ch vh1 Hh _ Hg|s c msg vh out vh' out' r hand hand' Hh _ Hd
    |now fuel n msg vh vh' hand hand' _ _ Hp _|key deliveryTag multiple vh hand
    |now fuel key ch deliveryTag multiple methodID vh vh' r hand _ _ _ _ Hp|channel tag guard vh hand
    |now fuel key ch vh vh' hand _ _ _ Hc]; cbn [sc_vh] in *.
  - by eapply wf_names_frame; [eapply Push_frame|].
  - eapply wf_names_frame; [|exact Hwf]. eapply put_queue_frame; [done|exact Hq|apply pop_settings].
  - by eapply wf_names_frame; [eapply GetMessage_frame|].
  - pose proof (half_left_channel key vh Hh) as Hlast.
    destruct (get_or_create_wf key vh Hwf) as [Hv Hc]. rewrite get_or_create in *. injection Hg as <- <-.
    apply put_channel_wf; [|done]. by apply TrackDelivery_wf.
  - destruct (deliverToConsumer_wf (2 ^ 63 - 2) c msg false vh out) as [Hw _]; [lia|by apply half_left_room|done|].
    by rewrite Hd in Hw.
  - by eapply wf_names_frame; [eapply Push_frame|].
  - by apply HandleBasicAck_wf.
  - by eapply handleBasicNack_wf.
  - by apply cancelConsumer_wf.
  - by eapply CleanupChannel_wf.
Qed.

Lemma scene_step_implements s s' : wf_names (sc_vh s) → scene_step s s' → implements s s'.
Proof.
  intros Hwf Hs. destruct Hs; cbn [sc_vh] in Hwf.
  - by eapply publish_implements.
  - by apply take_implements.
  - by eapply get_implements.
  - by eapply track_implements.
  - by eapply deliver_implements.
  - by eapply put_back_implements.
  - by apply ack_implements.
  - by eapply nack_implements.
  - by apply cancel_implements.
  - by eapply close_implements.
Qed.

End implementation.

Section ledger_sample.
#[local] Existing Instance sample_runtime.

(** A message is published to "orders", got over channel 1 of "conn-1", and
    acknowledged. *)
Definition kept_or (r : res stop VHost) : VHost := match r with Ok vh => vh | Err _ => sample_vhost end.
Definition sample_pushed : VHost := kept_or (Push 0 1 "orders" sample_delivered sample_vhost).
Definition sample_got : VHost := kept_or (r ← GetMessage 0 1 "orders" sample_pushed; Ok r.1).
Definition sample_tracked : VHost :=
  let '(ch, vh) := GetOrCreateChannelDelivery ("conn-1", 1) sample_got in
  put_channel ("conn-1", 1) (TrackDelivery false sample_delivered "orders" ch).2 vh.
Definition sample_acked : VHost := (HandleBasicAck ("conn-1", 1) 1 false sample_tracked).1.

Lemma sample_accepts : accepts "orders" sample_delivered sample_vhost.
Proof.
  split; [by vm_compute|]. destruct (vh_Queues sample_vhost !! "orders") as [q|] eqn:Hq; [|by vm_compute in Hq].
  assert (Hb : (λ q, bool_decide (q_Name q = "orders" ∧ q_stopped q = false ∧ wf_queue q ∧ q_maxPriority q < 255 ∧
      q_maxLength q = 0) && bool_decide (Z.of_nat (length (contents q)) < capacity q))
    <$> vh_Queues sample_vhost !! "orders" = Some true) by by vm_compute.
  rewrite Hq in Hb. injection Hb as [Hb%bool_decide_eq_true Hr%bool_decide_eq_true]%andb_true_iff.
  exists q. split; [by split|done].
Qed.

End ledger_sample.
