(* ===== verification/TxSpec.v ===== *)
(** * What a transaction promises

    A channel in a transaction defers its acknowledgements: nothing happens until
    tx.commit, which then does what the acknowledgements would have done one by
    one, and after tx.rollback it is as if they had never been sent. *)

From stdpp Require Import base list gmap strings pretty.
From Stdlib Require Import ZArith Lia.
From S2P Require Import Prelude Bytes Values FieldTable Properties Methods Frames Handshake Args Queue.
From S2P Require Import Deliveries Consumers Json VHost Lifecycle Routing Expiry Publish Settle Cleanup.
From S2P Require Import Broker Transaction Handlers Server.

Local Open Scope Z_scope.
Local Open Scope string_scope.
Local Open Scope list_scope.

(** ** Operations that do not see the transactions *)

Definition swap (ts : gmap ConnectionChannelKey ChannelTransactionState) : VHost → VHost :=
  set_ChannelTransactions ts.

(** The same step on a vhost with other transactions. *)
Definition blind (f : VHost → res stop VHost) : Prop :=
  ∀ ts v, f (swap ts v) = res_map (swap ts) (f v).
Definition blind_pair {A} (f : VHost → res stop (VHost * A)) : Prop :=
  ∀ ts v, f (swap ts v) = res_map (λ x, (swap ts x.1, x.2)) (f v).

Lemma persist_if_swap b call ts v : persist_if b call (swap ts v) = swap ts (persist_if b call v).
Proof. by destruct b. Qed.

Lemma routeLocked_swap exchange key msg ts v :
  routeLocked exchange key msg (swap ts v) =
  (swap ts (routeLocked exchange key msg v).1, (routeLocked exchange key msg v).2).
Proof.
  unfold routeLocked. cbn [vh_Exchanges swap set_ChannelTransactions].
  destruct (vh_Exchanges v !! _) as [e|]; [|done]. destruct (ep_Internal _); [done|].
  destruct (route_targets e key) as [targets|err]; [|done]. cbn [fst snd]. f_equal.
  revert v. induction targets as [|q targets IH]; intros v; [done|]. cbn [foldl]. rewrite <-IH. f_equal.
  unfold saveMessageIfDurable. rewrite persist_if_swap. done.
Qed.

Section blind_push.
Variables (now : Z) (push_to : string → Message → VHost → res stop VHost).
Hypothesis Hpush : ∀ q msg, blind (push_to q msg).

Lemma push_targets_blind targets msg : blind (push_targets push_to targets msg).
Proof.
  intros ts v. revert v. induction targets as [|q targets IH]; intros v; [done|]. cbn.
  rewrite Hpush. destruct (push_to q msg v); cbn; [apply IH|done].
Qed.

Lemma handleDeadLetter_blind queue msg reason :
  blind_pair (handleDeadLetter_with now push_to queue msg reason).
Proof.
  intros ts v. unfold handleDeadLetter_with, Publish_with. cbn [vh_EnableDLX swap set_ChannelTransactions].
  destruct (negb _); [done|]. destruct (dead_letter_exchange queue) as [dlx|]; [|done].
  destruct (dead_letter msg queue dlx reason now) as [m key]. rewrite routeLocked_swap.
  destruct (routeLocked dlx key m v) as [v' [targets|e]]; cbn; [|done].
  rewrite push_targets_blind. by destruct (push_targets push_to targets m v').
Qed.

Lemma deleteMessage_swap msg queue ts v : deleteMessage msg queue (swap ts v) = swap ts (deleteMessage msg queue v).
Proof. apply persist_if_swap. Qed.

Lemma EnforceMaxLength_blind queue : blind (EnforceMaxLength_with now push_to queue).
Proof.
  intros ts v. unfold EnforceMaxLength_with. cbn [vh_EnableQLL swap set_ChannelTransactions].
  destruct (negb _); [done|]. destruct (evict (excess queue) queue) as [evicted q].
  change (put_queue q (swap ts v)) with (swap ts (put_queue q v)). generalize (put_queue q v).
  induction evicted as [|m evicted IH]; intros v'; [done|]. cbn.
  rewrite handleDeadLetter_blind. destruct (handleDeadLetter_with _ _ _ _ _ v') as [[v2 ok]|s]; cbn; [|done].
  rewrite deleteMessage_swap. apply IH.
Qed.
End blind_push.

Lemma Push_blind now fuel : ∀ q msg, blind (Push now fuel q msg).
Proof.
  induction fuel as [|fuel IH]; intros q msg ts v; [done|]. cbn [Push].
  change (vh_Queues (swap ts v)) with (vh_Queues v). destruct (vh_Queues v !! q) as [queue|]; [|done].
  assert (Hroom : (if decide (0 < q_maxLength queue) then EnforceMaxLength_with now (Push now fuel) queue (swap ts v)
    else Ok (swap ts v)) = res_map (swap ts) (if decide (0 < q_maxLength queue)
      then EnforceMaxLength_with now (Push now fuel) queue v else Ok v)).
  { case_decide; [|done]. by apply EnforceMaxLength_blind. }
  rewrite Hroom. clear Hroom.
  destruct (if decide (0 < q_maxLength queue) then EnforceMaxLength_with now (Push now fuel) queue v else Ok v)
    as [v1|s]; [|done]. cbn.
  destruct (vh_Queues v1 !! q); [|done]. by destruct (push_unlimited msg q0).
Qed.

Section blind_settle.
Context `{Runtime}.
Variables (now : Z) (fuel : nat).

Lemma handleTTLExpiration_blind msg queue : blind_pair (handleTTLExpiration now fuel msg queue).
Proof.
  intros ts v. unfold handleTTLExpiration, handleTTLExpiration_with.
  cbn [vh_EnableTTL swap set_ChannelTransactions]. destruct (negb _); [done|].
  destruct (CheckExpiration _ _ _ _) as [[]|]; [|done|done].
  rewrite (handleDeadLetter_blind now (Push now fuel) (Push_blind now fuel)).
  destruct (handleDeadLetter_with _ _ _ _ _ v) as [[v' ok]|s]; cbn; [|done]. by rewrite deleteMessage_swap.
Qed.

Lemma nack_requeue_blind record : blind (nack_requeue now fuel record).
Proof.
  intros ts v. unfold nack_requeue. destruct (dr_QueueDeleted record); [done|].
  change (vh_Queues (swap ts v)) with (vh_Queues v). destruct (vh_Queues v !! _) as [queue|]; [|done].
  rewrite handleTTLExpiration_blind.
  destruct (handleTTLExpiration now fuel (dr_Message record) queue v) as [[v' []]|s]; cbn; try done.
  by rewrite <-Push_blind.
Qed.

Lemma nack_discard_blind record : blind (nack_discard now fuel record).
Proof.
  intros ts v. unfold nack_discard. destruct (dr_QueueDeleted record); [done|].
  change (vh_Queues (swap ts v)) with (vh_Queues v). destruct (vh_Queues v !! _) as [queue|]; [|done].
  unfold handleDeadLetter. rewrite (handleDeadLetter_blind now (Push now fuel) (Push_blind now fuel)).
  destruct (handleDeadLetter_with _ _ _ _ _ v) as [[v' []]|s]; cbn; try done.
  unfold forget_persisted. by rewrite persist_if_swap.
Qed.

Lemma for_each_blind {A} (f : A → VHost → res stop VHost) l :
  (∀ x, blind (f x)) → blind (for_each f l).
Proof.
  intros Hf ts v. revert v. induction l as [|x l IH]; intros v; [done|]. cbn. rewrite Hf.
  destruct (f x v); cbn; [apply IH|done].
Qed.

Lemma pop_unacked_swap key tag multiple method ts v :
  pop_unacked key tag multiple method (swap ts v) =
  (swap ts (pop_unacked key tag multiple method v).1, (pop_unacked key tag multiple method v).2).
Proof.
  unfold pop_unacked. change (vh_ChannelDeliveries (swap ts v)) with (vh_ChannelDeliveries v).
  by destruct (popUnackedRecords _ _ _ _ _) as [[removed []]|e].
Qed.

Lemma HandleBasicAck_swap key tag multiple ts v :
  HandleBasicAck key tag multiple (swap ts v) =
  (swap ts (HandleBasicAck key tag multiple v).1, (HandleBasicAck key tag multiple v).2).
Proof.
  unfold HandleBasicAck. rewrite pop_unacked_swap.
  destruct (pop_unacked key tag multiple BASIC_ACK v) as [v' [records|e]]; [|done]. cbn. f_equal.
  revert v'. induction records as [|r records IH]; intros v'; [done|]. cbn. rewrite <-IH. f_equal.
  unfold ack_record, forget_persisted. destruct (dr_QueueDeleted r); [done|]. by rewrite persist_if_swap.
Qed.

Lemma handleBasicNack_blind key tag multiple requeue method :
  blind_pair (handleBasicNack now fuel key tag multiple requeue method).
Proof.
  intros ts v. unfold handleBasicNack. rewrite pop_unacked_swap.
  destruct (pop_unacked key tag multiple method v) as [v' [records|e]]; [|done]. cbn.
  rewrite for_each_blind by (intros r; destruct requeue; [apply nack_requeue_blind|apply nack_discard_blind]).
  by destruct (for_each _ records v').
Qed.
End blind_settle.

(** ** Acknowledgements as requests *)

(** The method by which a client makes a buffered acknowledgement. *)
Definition ack_content (ack : BufferedAck) : method_content :=
  match ba_Operation ack with
  | AckOperationAck => BasicAck (ba_DeliveryTag ack) (ba_Multiple ack)
  | AckOperationNack => BasicNack (ba_DeliveryTag ack) (ba_Multiple ack) (ba_Requeue ack)
  | AckOperationReject => BasicReject (ba_DeliveryTag ack) (ba_Requeue ack)
  end.
Definition ack_method (ack : BufferedAck) : Z :=
  match ba_Operation ack with
  | AckOperationAck => BASIC_ACK
  | AckOperationNack => BASIC_NACK
  | AckOperationReject => BASIC_REJECT
  end.
Definition ack_request (channel : Z) (ack : BufferedAck) : request :=
  (0%nat, MkRequest channel BASIC (ack_method ack) (ack_content ack)).
(** The flags a method does not carry are off. *)
Definition wf_ack (ack : BufferedAck) : Prop :=
  match ba_Operation ack with
  | AckOperationAck => ba_Requeue ack = false
  | AckOperationNack => True
  | AckOperationReject => ba_Multiple ack = false
  end.

Definition method_frame (rq : request) : incoming := MkIncoming (Some rq) None None.

Section deferred.
Context `{Runtime, Environment}.
Variables (fuel : nat) (vh conn : string) (channel : Z).

(** What an acknowledgement does to the virtual host. *)
Definition settle (now : Z) (ack : BufferedAck) : VHost → res stop (handled unit) :=
  match ba_Operation ack with
  | AckOperationAck => λ v, Ok (HandleBasicAck (conn, channel) (ba_DeliveryTag ack) (ba_Multiple ack) v)
  | AckOperationNack =>
      HandleBasicNack now fuel (conn, channel) (ba_DeliveryTag ack) (ba_Multiple ack) (ba_Requeue ack)
  | AckOperationReject =>
      HandleBasicReject now fuel (conn, channel) (ba_DeliveryTag ack) (ba_Requeue ack)
  end.

Lemma settle_blind now ack ts v :
  settle now ack (swap ts v) = res_map (λ x, (swap ts x.1, x.2)) (settle now ack v).
Proof.
  unfold settle. destruct (ba_Operation ack); [by rewrite HandleBasicAck_swap|apply handleBasicNack_blind..].
Qed.

Lemma commit_ack_eq ack b :
  commit_ack fuel vh conn channel ack b =
  match on_vhost vh (settle (clock (br_next b)) ack) (set_next (S (br_next b)) b) with
  | Ok (b, Ok _) => Ok (b, Ok None)
  | Ok (b, Err e) => Ok (b, Ok (Some e))
  | Err s => Err s
  end.
Proof.
  unfold commit_ack. run_brk. unfold settle.
  destruct (ba_Operation ack); (destruct (on_vhost _ _ _) as [[b' []]|s]; done).
Qed.

Lemma basicHandler_ack ack b :
  wf_ack ack →
  basicHandler fuel (method_frame (ack_request channel ack)) (ack_request channel ack) vh conn b =
  settle_handler fuel (ack_request channel ack).2 vh conn (ba_DeliveryTag ack) (ba_Multiple ack)
    (ba_Requeue ack) (ba_Operation ack) (λ now, settle now ack) b.
Proof.
  intros Hwf. unfold basicHandler, ack_request, ack_method, ack_content, wf_ack, settle in *.
  destruct ack as [[] tag multiple requeue]; cbn in *; subst; reflexivity.
Qed.

(** The channel's transaction in the broker's state. *)
Definition channel_tx (b : Broker) : option ChannelTransactionState :=
  v ← br_vhosts b !! vh; vh_ChannelTransactions v !! (conn, channel).
Definition in_tx (b : Broker) : bool := from_option InTransaction false (channel_tx b).
(** The state with another transaction on the channel. *)
Definition with_tx (tx : ChannelTransactionState) (b : Broker) : Broker :=
  set_vhosts (alter (put_transaction (conn, channel) tx) vh (br_vhosts b)) b.

Lemma set_vhosts_id b : set_vhosts (br_vhosts b) b = b.
Proof. by destruct b. Qed.

Lemma read_vhost_eq {A} (f : VHost → A) b v :
  br_vhosts b !! vh = Some v → read_vhost vh f b = Ok (b, Ok (f v)).
Proof.
  intros Hv. unfold read_vhost, on_vhost. rewrite Hv, insert_id by done. by rewrite set_vhosts_id.
Qed.

Lemma change_vhost_eq f b v :
  br_vhosts b !! vh = Some v →
  change_vhost vh f b = Ok (set_vhosts (<[vh := f v]> (br_vhosts b)) b, Ok tt).
Proof. intros Hv. unfold change_vhost, on_vhost. by rewrite Hv. Qed.

Lemma GetConnectionID_eq b : connByID conn b = true → GetConnectionID conn b = Ok (b, Ok tt).
Proof. intros Hc. unfold GetConnectionID. by rewrite Hc. Qed.

(** ** Serving them *)

Definition tx_request (method : Z) : request :=
  (0%nat, MkRequest channel TX method CNil).

Fixpoint serve_each (rqs : list request) : brk unit :=
  match rqs with
  | [] => mret tt
  | rq :: rqs => dispatch fuel (method_frame rq) rq vh conn;; serve_each rqs
  end.

Lemma serve_each_app l1 l2 b :
  serve_each (l1 ++ l2) b = (serve_each l1;; serve_each l2) b.
Proof.
  revert b. induction l1 as [|rq l1 IH]; intros b; [done|]. cbn [app serve_each].
  rewrite !bind_eq. destruct (dispatch _ _ _ _ _ b) as [[b' [[]|e]]|s]; [|done..].
  rewrite IH. by rewrite bind_eq.
Qed.

(** The reference: the acknowledgements made one by one, while they succeed. *)
Fixpoint settle_list (n : nat) (acks : list BufferedAck) (v : VHost) : res stop (handled unit) :=
  match acks with
  | [] => Ok (v, Ok tt)
  | ack :: acks =>
      match settle (clock n) ack v with
      | Err s => Err s
      | Ok (v, Err e) => Ok (v, Err e)
      | Ok (v, Ok _) => settle_list (S n) acks v
      end
  end.

Lemma settle_list_blind n acks ts v :
  settle_list n acks (swap ts v) = res_map (λ x, (swap ts x.1, x.2)) (settle_list n acks v).
Proof.
  revert n v. induction acks as [|ack acks IH]; intros n v; [done|]. cbn. rewrite settle_blind.
  destruct (settle (clock n) ack v) as [[v' [[]|e]]|s]; cbn; [apply IH|done..].
Qed.

Lemma settle_tx n ack v v' r :
  settle n ack v = Ok (v', r) → vh_ChannelTransactions v' = vh_ChannelTransactions v.
Proof.
  intros Hs. pose proof (settle_blind n ack (vh_ChannelTransactions v) v) as Hb.
  assert (swap (vh_ChannelTransactions v) v = v) as E by by destruct v. rewrite E, Hs in Hb. cbn in Hb.
  apply (inj Ok) in Hb. injection Hb as Hv. rewrite Hv. done.
Qed.

Definition moved (n : nat) (v : VHost) (b : Broker) : Broker :=
  set_next n (set_vhosts (<[vh := v]> (br_vhosts b)) b).

Lemma moved_moved n n' v v' b : moved n' v' (moved n v b) = moved n' v' b.
Proof. unfold moved, set_next, set_vhosts. cbn. by rewrite insert_insert_eq. Qed.

Lemma dispatch_ack ack b :
  wf_ack ack →
  dispatch fuel (method_frame (ack_request channel ack)) (ack_request channel ack) vh conn b =
  settle_handler fuel (ack_request channel ack).2 vh conn (ba_DeliveryTag ack) (ba_Multiple ack)
    (ba_Requeue ack) (ba_Operation ack) (λ now, settle now ack) b.
Proof. intros Hwf. rewrite <-basicHandler_ack by done. reflexivity. Qed.

Lemma buffer_idle full add b v :
  br_vhosts b !! vh = Some v →
  from_option InTransaction false (GetTransactionState (conn, channel) v) = false →
  bufferInTransaction vh conn channel full add b = Ok (b, Ok None).
Proof.
  intros Hv Htx. unfold bufferInTransaction. run_brk. destruct (negb (connByID conn b)); [done|].
  rewrite bind_eq, (read_vhost_eq _ _ v) by done.
  destruct (GetTransactionState (conn, channel) v) as [tx|]; [|done]. cbn in Htx. by rewrite Htx.
Qed.

Lemma buffer_active full add b v tx :
  connByID conn b = true → br_vhosts b !! vh = Some v →
  GetTransactionState (conn, channel) v = Some tx → InTransaction tx = true → full tx = false →
  bufferInTransaction vh conn channel full add b =
  Ok (set_vhosts (<[vh := put_transaction (conn, channel) (add tx) v]> (br_vhosts b)) b, Ok (Some (Ok tt))).
Proof.
  intros Hc Hv Htx Hin Hfull. unfold bufferInTransaction. run_brk. rewrite Hc. cbn [negb].
  rewrite bind_eq, (read_vhost_eq _ _ v) by done. rewrite Htx, Hin. cbn [negb].
  rewrite Hfull, bind_eq. unfold store_transaction. by rewrite (change_vhost_eq _ _ v) by done.
Qed.

(** Outside a transaction an acknowledgement is settled at once. *)
Lemma serve_direct ack b v v' :
  wf_ack ack → connByID conn b = true → br_vhosts b !! vh = Some v →
  from_option InTransaction false (GetTransactionState (conn, channel) v) = false →
  settle (clock (br_next b)) ack v = Ok (v', Ok tt) →
  dispatch fuel (method_frame (ack_request channel ack)) (ack_request channel ack) vh conn b =
  Ok (moved (S (br_next b)) v' b, Ok tt).
Proof.
  intros Hwf Hc Hv Htx Hs. rewrite dispatch_ack by done.
  unfold settle_handler, bufferAcknowledgeTransaction. cbn [rm_Channel ack_request snd].
  rewrite bind_eq, (buffer_idle _ _ _ v) by done. rewrite bind_eq, GetConnectionID_eq by done. run_brk.
  unfold on_vhost. cbn [br_vhosts set_next]. by rewrite Hv, Hs.
Qed.

(** In one, it joins the buffer. *)
Lemma serve_buffered ack b v tx :
  wf_ack ack → connByID conn b = true → br_vhosts b !! vh = Some v →
  GetTransactionState (conn, channel) v = Some tx → InTransaction tx = true →
  (length (BufferedAcks tx) < MaxTransactionBufferSize)%nat →
  dispatch fuel (method_frame (ack_request channel ack)) (ack_request channel ack) vh conn b =
  Ok (set_vhosts (<[vh := put_transaction (conn, channel) (add_ack ack tx) v]> (br_vhosts b)) b, Ok tt).
Proof.
  intros Hwf Hc Hv Htx Hin Hroom. rewrite dispatch_ack by done.
  unfold settle_handler, bufferAcknowledgeTransaction. cbn [rm_Channel ack_request snd].
  rewrite bind_eq, (buffer_active _ _ _ v tx) by (try done; by apply bool_decide_eq_false; lia).
  by destruct ack.
Qed.

Lemma moved_id b v : br_vhosts b !! vh = Some v → moved (br_next b) v b = b.
Proof. intros Hv. unfold moved. rewrite insert_id by done. by destruct b. Qed.

Lemma serve_acks_direct acks : ∀ b v v',
  Forall wf_ack acks → connByID conn b = true → br_vhosts b !! vh = Some v →
  from_option InTransaction false (GetTransactionState (conn, channel) v) = false →
  settle_list (br_next b) acks v = Ok (v', Ok tt) →
  serve_each (ack_request channel <$> acks) b = Ok (moved (br_next b + length acks) v' b, Ok tt).
Proof.
  induction acks as [|ack acks IH]; intros b v v' Hwf Hc Hv Htx Hs.
  { cbn in *. apply (inj Ok) in Hs. injection Hs as <-. by rewrite Nat.add_0_r, moved_id. }
  apply Forall_cons in Hwf as [Hack Hwf]. cbn [settle_list] in Hs.
  destruct (settle (clock (br_next b)) ack v) as [[v1 [[]|e]]|stop] eqn:H1; [|done..].
  cbn [fmap list_fmap serve_each]. rewrite bind_eq, (serve_direct ack b v v1) by done.
  rewrite (IH _ v1 v'); [|done|done|apply lookup_insert_eq| |done].
  - rewrite moved_moved. cbn [br_next moved set_next length]. by rewrite Nat.add_succ_r.
  - apply settle_tx in H1. unfold GetTransactionState in *. by rewrite H1.
Qed.

Lemma put_transaction_twice tx tx' v :
  put_transaction (conn, channel) tx (put_transaction (conn, channel) tx' v) =
  put_transaction (conn, channel) tx v.
Proof. unfold put_transaction, set_ChannelTransactions. cbn. by rewrite insert_insert_eq. Qed.

Definition placed (v : VHost) (b : Broker) : Broker := set_vhosts (<[vh := v]> (br_vhosts b)) b.

Lemma placed_placed v v' b : placed v (placed v' b) = placed v b.
Proof. unfold placed, set_vhosts. cbn. by rewrite insert_insert_eq. Qed.

Lemma serve_acks_buffered acks : ∀ b v pubs done_,
  Forall wf_ack acks → connByID conn b = true →
  br_vhosts b !! vh = Some (put_transaction (conn, channel) (MkTransaction true pubs done_) v) →
  (length done_ + length acks <= MaxTransactionBufferSize)%nat →
  serve_each (ack_request channel <$> acks) b =
  Ok (placed (put_transaction (conn, channel) (MkTransaction true pubs (done_ ++ acks)) v) b, Ok tt).
Proof.
  induction acks as [|ack acks IH]; intros b v pubs done_ Hwf Hc Hv Hroom.
  { cbn. rewrite app_nil_r. unfold placed. rewrite insert_id by done. by rewrite set_vhosts_id. }
  apply Forall_cons in Hwf as [Hack Hwf]. cbn [fmap list_fmap serve_each]. cbn [length] in Hroom.
  rewrite bind_eq. erewrite serve_buffered;
    [|done|done|exact Hv|apply lookup_insert_eq|done|cbn [BufferedAcks]; lia].
  rewrite put_transaction_twice. fold (placed (put_transaction (conn, channel)
    (add_ack ack (MkTransaction true pubs done_)) v) b).
  rewrite (IH _ v pubs (done_ ++ [ack])); [|done|done|apply lookup_insert_eq|rewrite length_app; cbn [length]; lia].
  by rewrite placed_placed, <-app_assoc.
Qed.

(** The commit makes them in the order they were buffered. *)
Lemma collect_acks acks : ∀ b v v',
  br_vhosts b !! vh = Some v → settle_list (br_next b) acks v = Ok (v', Ok tt) →
  collect (commit_ack fuel vh conn channel) acks b = Ok (moved (br_next b + length acks) v' b, Ok []).
Proof.
  induction acks as [|ack acks IH]; intros b v v' Hv Hs.
  { cbn in *. apply (inj Ok) in Hs. injection Hs as <-. by rewrite Nat.add_0_r, moved_id. }
  cbn [settle_list] in Hs. destruct (settle (clock (br_next b)) ack v) as [[v1 [[]|e]]|stop] eqn:H1; [|done..].
  cbn [collect]. rewrite bind_eq, commit_ack_eq. unfold on_vhost. cbn [br_vhosts set_next].
  rewrite Hv, H1. cbn [map_err]. rewrite bind_eq.
  rewrite (IH _ v1 v'); [|apply lookup_insert_eq|done]. rewrite ret_eq. cbn [br_next length set_vhosts set_next].
  rewrite Nat.add_succ_comm. unfold moved, set_next, set_vhosts. cbn. by rewrite insert_insert_eq.
Qed.

Lemma settle_list_put n acks tx v v' :
  settle_list n acks v = Ok (v', Ok tt) →
  settle_list n acks (put_transaction (conn, channel) tx v) =
    Ok (put_transaction (conn, channel) tx v', Ok tt).
Proof.
  intros Hs. unfold put_transaction at 1. fold (swap (<[(conn, channel) := tx]> (vh_ChannelTransactions v))).
  rewrite settle_list_blind, Hs. cbn. f_equal. f_equal. unfold put_transaction.
  assert (Ht : vh_ChannelTransactions v' = vh_ChannelTransactions v).
  { pose proof (settle_list_blind n acks (vh_ChannelTransactions v) v) as Hb.
    assert (swap (vh_ChannelTransactions v) v = v) as E by by destruct v. rewrite E, Hs in Hb.
    cbn in Hb. apply (inj Ok) in Hb. injection Hb as Hv. by rewrite Hv. }
  by rewrite Ht.
Qed.

(** ** tx.select, tx.commit, tx.rollback *)

(** The frame that answers one of them. *)
Definition tx_frame (method : Z) : list Byte.byte :=
  match createTxAckFrame channel method with Ok frame => frame | Err _ => [] end.

Definition answered (method : Z) (b : Broker) : Broker :=
  set_out (br_out b ++ [(conn, tx_frame method)]) b.

Lemma createTxResponse_eq method b :
  write_ok (br_out b) conn (tx_frame method) = true →
  createTxResponse conn channel method b = Ok (answered method b, Ok tt).
Proof.
  intros Hw. unfold createTxResponse, answered, tx_frame in *. run_brk.
  destruct (createTxAckFrame channel method) as [frame|e] eqn:Hf; [|by cbn in Hf].
  unfold write. by rewrite Hw.
Qed.

Lemma transaction_of_eq b v tx :
  br_vhosts b !! vh = Some v → GetTransactionState (conn, channel) v = Some tx →
  transaction_of vh conn channel b = Ok (b, Ok tx).
Proof.
  intros Hv Htx. unfold transaction_of, on_vhost, GetOrCreateTransactionState. rewrite Hv.
  unfold GetTransactionState in Htx. rewrite Htx, insert_id by done. by rewrite set_vhosts_id.
Qed.

Lemma transaction_of_new b v :
  br_vhosts b !! vh = Some v → GetTransactionState (conn, channel) v = None →
  transaction_of vh conn channel b =
    Ok (placed (put_transaction (conn, channel) new_transaction v) b, Ok new_transaction).
Proof.
  intros Hv Htx. unfold transaction_of, on_vhost, GetOrCreateTransactionState. rewrite Hv.
  unfold GetTransactionState in Htx. by rewrite Htx.
Qed.

Lemma store_transaction_eq b v tx :
  br_vhosts b !! vh = Some v →
  store_transaction vh conn channel tx b = Ok (placed (put_transaction (conn, channel) tx v) b, Ok tt).
Proof. intros Hv. unfold store_transaction. by rewrite (change_vhost_eq _ _ v). Qed.

Lemma serve_select b v :
  connByID conn b = true → br_vhosts b !! vh = Some v →
  from_option InTransaction false (GetTransactionState (conn, channel) v) = false →
  write_ok (br_out b) conn (tx_frame TX_SELECT_OK) = true →
  dispatch fuel (method_frame (tx_request TX_SELECT)) (tx_request TX_SELECT) vh conn b =
  Ok (answered TX_SELECT_OK (placed (put_transaction (conn, channel) (MkTransaction true [] []) v) b), Ok tt).
Proof.
  intros Hc Hv Htx Hw. change (dispatch _ _ _ _ _ b) with (txSelectHandler (tx_request TX_SELECT).2 vh conn b).
  unfold txSelectHandler. cbn [rm_Channel tx_request snd]. rewrite bind_eq, GetConnectionID_eq by done.
  rewrite bind_eq. destruct (GetTransactionState (conn, channel) v) as [tx|] eqn:Hs.
  - rewrite (transaction_of_eq b v tx) by done. cbn in Htx. rewrite Htx.
    rewrite bind_eq, (store_transaction_eq b v) by done. by apply createTxResponse_eq.
  - rewrite (transaction_of_new b v) by done. cbn [InTransaction new_transaction].
    rewrite bind_eq. erewrite store_transaction_eq by apply lookup_insert_eq.
    rewrite put_transaction_twice, placed_placed. by apply createTxResponse_eq.
Qed.

Lemma serve_rollback b v pubs acks :
  connByID conn b = true →
  br_vhosts b !! vh = Some (put_transaction (conn, channel) (MkTransaction true pubs acks) v) →
  write_ok (br_out b) conn (tx_frame TX_ROLLBACK_OK) = true →
  dispatch fuel (method_frame (tx_request TX_ROLLBACK)) (tx_request TX_ROLLBACK) vh conn b =
  Ok (answered TX_ROLLBACK_OK (placed (put_transaction (conn, channel) (MkTransaction true [] []) v) b), Ok tt).
Proof.
  intros Hc Hv Hw.
  change (dispatch _ _ _ _ _ b) with (txRollbackHandler (tx_request TX_ROLLBACK).2 vh conn b).
  unfold txRollbackHandler. cbn [rm_Channel tx_request snd]. rewrite bind_eq, GetConnectionID_eq by done.
  rewrite bind_eq. erewrite transaction_of_eq by (exact Hv || apply lookup_insert_eq).
  unfold ensureInTransaction. cbn [InTransaction]. run_brk.
  rewrite bind_eq. erewrite store_transaction_eq by exact Hv. rewrite put_transaction_twice.
  by apply createTxResponse_eq.
Qed.

Lemma serve_commit b v v' acks :
  connByID conn b = true →
  br_vhosts b !! vh = Some (put_transaction (conn, channel) (MkTransaction true [] acks) v) →
  settle_list (br_next b) acks v = Ok (v', Ok tt) →
  write_ok (br_out b) conn (tx_frame TX_COMMIT_OK) = true →
  dispatch fuel (method_frame (tx_request TX_COMMIT)) (tx_request TX_COMMIT) vh conn b =
  Ok (answered TX_COMMIT_OK (moved (br_next b + length acks)
        (put_transaction (conn, channel) (MkTransaction true [] []) v') b), Ok tt).
Proof.
  intros Hc Hv Hs Hw.
  change (dispatch _ _ _ _ _ b) with (txCommitHandler fuel (tx_request TX_COMMIT).2 vh conn b).
  unfold txCommitHandler. cbn [rm_Channel tx_request snd]. rewrite bind_eq, GetConnectionID_eq by done.
  rewrite bind_eq. erewrite transaction_of_eq by (exact Hv || apply lookup_insert_eq).
  unfold ensureInTransaction. cbn [InTransaction BufferedPublishes BufferedAcks dry_run collect]. run_brk.
  rewrite bool_decide_true by done. cbn [negb]. run_brk. rewrite bind_eq.
  erewrite collect_acks by (exact Hv || by apply settle_list_put). rewrite bool_decide_true by done. cbn [negb].
  rewrite bind_eq. erewrite store_transaction_eq by apply lookup_insert_eq.
  rewrite put_transaction_twice. unfold clearBufferedTransactionDataUnlocked. cbn [InTransaction].
  assert (E : ∀ w w', placed w (moved (br_next b + length acks) w' b) = moved (br_next b + length acks) w b).
  { intros w w'. unfold placed, moved, set_next, set_vhosts. cbn. by rewrite insert_insert_eq. }
  rewrite E. by apply createTxResponse_eq.
Qed.
End deferred.

Section deferral.
Context `{Runtime, Environment}.

(** C12. A transaction defers acknowledgements and makes them all or none.
    Take acks, nacks and rejects that would succeed one after the other on a
    channel, leaving the virtual host [v'].  Sent outside a transaction they do
    just that.  Sent between tx.select and tx.commit they leave the same virtual
    host, having changed nothing before the commit, and the transaction is empty
    again; sent between tx.select and tx.rollback they leave the virtual host as
    it was.  Nothing else is written but the three answers. *)
Theorem transaction_defers (fuel : nat) (vh conn : string) (channel : Z) (acks : list BufferedAck)
    (b : Broker) (v v' : VHost) :
  let serve := serve_each fuel vh conn in
  let requests := ack_request channel <$> acks in
  let key := (conn, channel) in
  let empty := MkTransaction true [] [] in
  Forall wf_ack acks → (length acks <= MaxTransactionBufferSize)%nat →
  connByID conn b = true → br_vhosts b !! vh = Some v →
  from_option InTransaction false (GetTransactionState key v) = false →
  (∀ out frame, write_ok out conn frame = true) →
  settle_list fuel conn channel (br_next b) acks v = Ok (v', Ok tt) →
  serve requests b = Ok (moved vh (br_next b + length acks) v' b, Ok tt) ∧
  serve ([tx_request channel TX_SELECT] ++ requests ++ [tx_request channel TX_COMMIT]) b =
    Ok (moved vh (br_next b + length acks) (put_transaction key empty v')
         (answered conn channel TX_COMMIT_OK (answered conn channel TX_SELECT_OK b)), Ok tt) ∧
  serve ([tx_request channel TX_SELECT] ++ requests) b =
    Ok (answered conn channel TX_SELECT_OK (placed vh (put_transaction key (MkTransaction true [] acks) v) b), Ok tt) ∧
  serve ([tx_request channel TX_SELECT] ++ requests ++ [tx_request channel TX_ROLLBACK]) b =
    Ok (placed vh (put_transaction key empty v)
         (answered conn channel TX_ROLLBACK_OK (answered conn channel TX_SELECT_OK b)), Ok tt).
Proof.
  intros serve requests key empty Hwf Hroom Hc Hv Htx Hw Hs. split; [by eapply serve_acks_direct|].
  set (b1 := answered conn channel TX_SELECT_OK (placed vh (put_transaction key empty v) b)).
  assert (Hsel : ∀ rest, serve ([tx_request channel TX_SELECT] ++ rest) b = serve rest b1).
  { intros rest. unfold serve. rewrite serve_each_app, bind_eq. cbn [serve_each]. rewrite bind_eq.
    by rewrite (serve_select fuel vh conn channel b v). }
  assert (Hbuf : serve requests b1 =
    Ok (placed vh (put_transaction key (MkTransaction true [] acks) v) b1, Ok tt)).
  { apply (serve_acks_buffered fuel vh conn channel acks b1 v [] []); [done|done|apply lookup_insert_eq|done]. }
  set (b2 := placed vh (put_transaction key (MkTransaction true [] acks) v) b1) in *.
  assert (Hthen : ∀ rq, serve ([tx_request channel TX_SELECT] ++ requests ++ [rq]) b =
    match dispatch fuel (method_frame rq) rq vh conn b2 with
    | Ok (b, Ok _) => Ok (b, Ok tt) | Ok (b, Err e) => Ok (b, Err e) | Err s => Err s end).
  { intros rq. rewrite Hsel. unfold serve. rewrite serve_each_app, bind_eq. fold serve. by rewrite Hbuf. }
  assert (Hb2 : br_vhosts b2 !! vh = Some (put_transaction key (MkTransaction true [] acks) v))
    by apply lookup_insert_eq.
  split; [|split].
  - rewrite Hthen, (serve_commit fuel vh conn channel b2 v v' acks) by done.
    unfold b2, b1, answered, moved, placed, set_next, set_vhosts, set_out. cbn. by rewrite !insert_insert_eq.
  - rewrite Hsel, Hbuf. unfold b2, b1, answered, placed, set_vhosts, set_out. cbn. by rewrite !insert_insert_eq.
  - rewrite Hthen, (serve_rollback fuel vh conn channel b2 v [] acks) by done.
    unfold b2, b1, answered, placed, set_vhosts, set_out. cbn. by rewrite !insert_insert_eq.
Qed.
End deferral.

Section tx_sample.
#[local] Existing Instance sample_runtime.
#[local] Existing Instance sample_environment.

Definition sample_broker : Broker :=
  MkBroker {["/" := sample_unacked]} ∅ {["conn-1"]} ∅ false 0 [].
Definition sample_acks : list BufferedAck :=
  [MkBufferedAck AckOperationAck 1 false false; MkBufferedAck AckOperationNack 3 true true].
Definition sample_settled : VHost :=
  match settle_list 5 "conn-1" 1 0 sample_acks sample_unacked with Ok (v, _) => v | Err _ => sample_unacked end.

Lemma sample_settles : settle_list 5 "conn-1" 1 0 sample_acks sample_unacked = Ok (sample_settled, Ok tt).
Proof.
  unfold sample_settled.
  assert (Hok : match settle_list 5 "conn-1" 1 0 sample_acks sample_unacked with
    Ok (_, Ok _) => true | _ => false end = true) by by vm_compute.
  by destruct (settle_list _ _ _ _ _ _) as [[v [[]|e]]|s].
Qed.

Lemma transaction_defers_witness :
  serve_each 5 "/" "conn-1"
    ([tx_request 1 TX_SELECT] ++ (ack_request 1 <$> sample_acks) ++ [tx_request 1 TX_COMMIT]) sample_broker =
  Ok (moved "/" 2 (put_transaction ("conn-1", 1) (MkTransaction true [] []) sample_settled)
        (answered "conn-1" 1 TX_COMMIT_OK (answered "conn-1" 1 TX_SELECT_OK sample_broker)), Ok tt).
Proof.
  refine (proj1 (proj2 (transaction_defers 5 "/" "conn-1" 1 sample_acks sample_broker sample_unacked
    sample_settled _ _ _ _ _ _ sample_settles))).
  - by repeat constructor.
  - apply Nat.leb_le. by vm_compute.
  - by vm_compute.
  - by vm_compute.
  - by vm_compute.
  - done.
Defined.
End tx_sample.
