(* ===== verification/Wire.v ===== *)
(** * A publish from the client's bytes to the queues

    The frames of a published message are read off the connection one by one,
    and assembled in the state of the channel; the last one makes the virtual
    host route the message. *)

From stdpp Require Import base list gmap strings pretty.
From Stdlib Require Import ZArith Lia.
From S2P Require Import Prelude Bytes Values FieldTable Reader Properties Methods ClientMethods Frames Handshake.
From S2P Require Import Args Queue Deliveries Consumers Json VHost Lifecycle Routing Declare Expiry Publish.
From S2P Require Import Settle Purge Cleanup Broker Transaction Handlers Server TxSpec.

Local Open Scope Z_scope.
Local Open Scope string_scope.
Local Open Scope list_scope.

(** A method as a client writes it on a channel. *)
Definition channel_frame (channel : Z) (c : method_content) : list Byte.byte :=
  formatHeader TYPE_METHOD channel (Z.of_nat (length (method_payload c))) ++ method_payload c
    ++ [FRAME_END].

Section wire.
Context `{Runtime, Environment}.
Variables (fuel : nat) (vh conn : string) (channel : Z).

(** ** A channel in use *)

(** Connection, virtual host and channel are there, and none is closing. *)
Record serving (v : VHost) (st : ChannelState) (b : Broker) : Prop := {
  sv_conn : ∃ c, br_connInfos b !! conn = Some c ∧ ci_VHostName (cn_Info c) = vh ∧
    cn_ClosingConnection c = false ∧ cn_Channels c !! channel = Some st;
  sv_known : connByID conn b = true;
  sv_running : br_ShuttingDown b = false;
  sv_vhost : br_vhosts b !! vh = Some v;
  sv_open : cs_ClosingChannel st = false;
}.

Lemma serving_channel v st b : serving v st b → channelState conn channel b = Some st.
Proof.
  intros Hs. destruct (sv_conn _ _ _ Hs) as (c & Hc & _ & _ & Hst).
  unfold channelState. rewrite Hc. cbn. exact Hst.
Qed.

Lemma serving_info v st b : serving v st b → is_Some (getConnInfo conn b).
Proof. intros Hs. destruct (sv_conn _ _ _ Hs) as (c & Hc & _). by exists c. Qed.

Lemma serving_update v st b f :
  serving v st b → cs_ClosingChannel (f st) = false →
  serving v (f st) (updateChannelState conn channel f b).
Proof.
  intros Hs Hf. destruct (sv_conn _ _ _ Hs) as (c & Hc & Hvh & Hcl & Hst).
  split; try apply Hs; [|done]. eexists. cbn. rewrite lookup_alter_eq, Hc. split; [done|].
  cbn. rewrite lookup_alter_eq, Hst. done.
Qed.

Lemma serving_next v st b n : serving v st b → serving v st (set_next n b).
Proof. intros Hs. split; apply Hs. Qed.

(** Such a request reaches its handler. *)
Lemma processRequest_serving v st b newState rq :
  serving v st b → in_MethodFrame newState = Some rq → rm_Channel rq.2 = channel →
  processRequest fuel conn newState b = dispatch fuel newState rq vh conn b.
Proof.
  intros Hs Hrq Hch. pose proof (serving_channel _ _ _ Hs) as Hst.
  destruct (sv_conn _ _ _ Hs) as (c & Hc & Hvh & Hcl & _).
  unfold processRequest. rewrite Hrq. run_brk. unfold getConnInfo. rewrite Hc.
  rewrite bind_eq. unfold isConnectionClosing, getConnInfo. rewrite Hc. run_brk.
  rewrite Hcl, (sv_running _ _ _ Hs). cbn [orb andb]. run_brk. unfold GetVHost. rewrite Hvh, (sv_vhost _ _ _ Hs).
  run_brk. unfold channel_closing. rewrite Hch, Hst. cbn [from_option]. rewrite (sv_open _ _ _ Hs).
  by rewrite andb_false_r.
Qed.

(** ** The three frames of a publish *)

Definition publish_request (exchange routingKey : string) (mandatory immediate : bool) : RequestMethodMessage :=
  MkRequest channel BASIC BASIC_PUBLISH (BasicPublish exchange routingKey mandatory immediate).

(** No publish is under way on the channel, and its request is an old one. *)
Definition idle (st : ChannelState) (b : Broker) : Prop :=
  cs_HeaderFrame st = None ∧ cs_Body st = None ∧
  from_option (λ rq : request, (rq.1 < br_next b)%nat) True (cs_MethodFrame st).

Section publish.
Variables (exchange routingKey : string) (mandatory immediate : bool).
Let m := publish_request exchange routingKey mandatory immediate.

Lemma dispatch_publish newState rq b :
  rq.2 = m → dispatch fuel newState rq vh conn b = basicPublishHandler fuel newState rq vh conn b.
Proof. intros Hm. destruct rq as [k r]. cbn in Hm. rewrite Hm. reflexivity. Qed.

Lemma serve_method v st b n :
  serving v st b → from_option (λ rq : request, (rq.1 < n)%nat) True (cs_MethodFrame st) →
  serve fuel conn (MkIncoming (Some (n, m)) None None) b =
  Ok (updateChannelState conn channel (set_MethodFrame (Some (n, m))) b, Ok true).
Proof.
  intros Hs Hold. unfold serve. run_brk. rewrite (processRequest_serving v st b _ (n, m)) by done.
  rewrite dispatch_publish by done. unfold basicPublishHandler. run_brk. cbn [snd rm_Channel m publish_request].
  rewrite (serving_channel v st b Hs).
  assert (same_request (cs_MethodFrame st) (n, m) = false) as Hsame.
  { unfold same_request. destruct (cs_MethodFrame st) as [rq|]; [|done]. cbn in Hold |- *.
    apply bool_decide_eq_false. lia. }
  fold m. by rewrite Hsame.
Qed.

Lemma serve_header v st b n header :
  serving v st b → cs_MethodFrame st = Some (n, m) → cs_HeaderFrame st = None →
  serve fuel conn (MkIncoming (cs_MethodFrame st) (Some header) None) b =
  Ok (updateChannelState conn channel (set_HeaderFrame header) b, Ok true).
Proof.
  intros Hs Hm Hh. unfold serve. run_brk. rewrite (processRequest_serving v st b _ (n, m)) by done.
  rewrite dispatch_publish by done. unfold basicPublishHandler. run_brk. cbn [snd rm_Channel m publish_request].
  rewrite (serving_channel v st b Hs), Hm. fold m. unfold same_request. cbn [fst].
  rewrite bool_decide_true by done. cbn [negb]. by rewrite Hh.
Qed.

Lemma serve_body v st b n header body :
  serving v st b → cs_MethodFrame st = Some (n, m) → cs_HeaderFrame st = Some header →
  cs_BodySize st = Z.of_nat (length body) → body ≠ [] → cs_Body st = None →
  serve fuel conn (MkIncoming (cs_MethodFrame st) None (Some body)) b =
  match publish_complete fuel vh conn channel (set_Body body st) (rm_Content m) header body
          (updateChannelState conn channel (λ _, set_Body body st) b) with
  | Err s => Err s
  | Ok (b, Ok _) => Ok (b, Ok true)
  | Ok (b, Err e) => answer_error conn m e b
  end.
Proof.
  intros Hs Hm Hh Hsize Hbody Hb. unfold serve. run_brk.
  rewrite (processRequest_serving v st b _ (n, m)) by done.
  rewrite dispatch_publish by done. unfold basicPublishHandler. run_brk. cbn [snd rm_Channel m publish_request].
  rewrite (serving_channel v st b Hs). rewrite Hm. fold m. unfold same_request. cbn [fst].
  rewrite bool_decide_true by done. cbn [negb]. rewrite Hh, Hb. cbn [in_HeaderFrame in_Body]. run_brk.
  cbn [cs_HeaderFrame cs_Body set_Body]. rewrite Hh. cbn [cs_BodySize set_Body has_content rm_Content m publish_request andb].
  rewrite bool_decide_true by (rewrite Hsize; destruct body; [done|cbn [length]; lia]). fold m.
  destruct (publish_complete _ _ _ _ _ _ _ _ _) as [[b' [[]|e]]|s]; done.
Qed.

(** The message the virtual host routes. *)
Definition published (n : nat) (body : list Byte.byte) (props : BasicProperties) : Message :=
  NewMessage body props exchange routingKey (GenerateMessageId n) (clock n) (clock n).

Lemma publish_complete_routes v v' st b header body id :
  connByID conn b = true → br_vhosts b !! vh = Some v → cs_BodySize st = Z.of_nat (length body) →
  Z.of_nat (length body) < 2 ^ 63 →
  HasRoutingForMessage exchange routingKey v = Ok true →
  from_option InTransaction false (GetTransactionState (conn, channel) v) = false →
  Publish (clock (br_next b)) fuel exchange routingKey (published (br_next b) body (hf_Properties header)) v
    = Ok (v', Ok id) →
  (GetChannelFlowState (conn, channel) v').2 = false →
  publish_complete fuel vh conn channel st (BasicPublish exchange routingKey mandatory immediate) header body b =
  Ok (moved vh (S (br_next b)) v' (resetChannelState conn channel b), Ok tt).
Proof.
  intros Hc Hv Hsize Hlen Hr Htx Hp Hflow. unfold publish_complete.
  rewrite decide_False by (rewrite Hsize, int64_small by lia; tauto).
  rewrite bind_eq, (read_vhost_eq vh _ b v) by done. rewrite Hr, bind_eq.
  unfold bufferPublishInTransaction. rewrite (buffer_idle vh conn channel _ _ b v) by done.
  unfold publish_now. cbn [negb]. run_brk.
  assert (Hmsg : publish_message fuel vh exchange routingKey
      (MkAmqpMessage body (hf_Properties header) exchange routingKey) b
    = Ok (moved vh (S (br_next b)) v' b, Ok tt)).
  { unfold publish_message. run_brk. rewrite bind_eq. unfold on_vhost. cbn [br_vhosts set_next].
    rewrite Hv. unfold published in Hp. cbn [am_Body am_Properties am_Exchange am_RoutingKey]. by rewrite Hp. }
  rewrite Hmsg. run_brk. rewrite bind_eq, GetConnectionID_eq by done. rewrite bind_eq.
  rewrite (read_vhost_eq vh _ _ v') by apply lookup_insert_eq.
  destruct (GetChannelFlowState (conn, channel) v') as [active byBroker]. cbn in Hflow. subst byBroker.
  by rewrite andb_false_r.
Qed.

(** Whatever was assembled, a reset channel is empty. *)
Lemma reset_update f b :
  resetChannelState conn channel (updateChannelState conn channel f b) = resetChannelState conn channel b.
Proof.
  unfold resetChannelState, put_channel_state, updateChannelState, set_connInfos. cbn. f_equal.
  apply map_eq. intros k. destruct (decide (k = conn)) as [->|Hk].
  - rewrite !lookup_alter_eq. destruct (br_connInfos b !! conn) as [c|]; [|done]. cbn. f_equal.
    unfold set_Channels. cbn. by rewrite insert_alter_eq.
  - by rewrite !lookup_alter_ne by done.
Qed.

Lemma serve_frame_method v st b channelNum frame next_ :
  serving v st b → parseFrame frame = Ok (MethodFrame m) →
  serve fuel conn (MkIncoming (Some (br_next b, m)) None None) (set_next (S (br_next b)) b) = Ok (next_, Ok true) →
  serve_frame fuel conn channelNum frame b = Ok (next_, Ok (Some channel)).
Proof.
  intros Hs Hf Hsv. unfold serve_frame. run_brk. destruct (serving_info v st b Hs) as [c ->]. rewrite Hf. run_brk.
  by rewrite bind_eq, Hsv.
Qed.

Lemma serve_frame_content v st b frame header body next_ :
  serving v st b →
  parseFrame frame = Ok (match header, body with
    | Some h, _ => ContentHeader h | None, Some body => ContentBody body | None, None => Heartbeat end) →
  (header = None ↔ is_Some body) →
  serve fuel conn (MkIncoming (cs_MethodFrame st) header body) b = Ok (next_, Ok true) →
  serve_frame fuel conn channel frame b = Ok (next_, Ok (Some channel)).
Proof.
  intros Hs Hf Hone Hsv. unfold serve_frame. run_brk. destruct (serving_info v st b Hs) as [c Hc].
  rewrite Hc, Hf.
  assert (Hcont : continue_request fuel conn channel header body b = Ok (next_, Ok (Some channel))).
  { unfold continue_request. run_brk. rewrite Hc. run_brk. rewrite (serving_channel v st b Hs).
    by rewrite bind_eq, Hsv. }
  destruct header as [h|], body as [body|]; [|exact Hcont..|].
  - destruct Hone as [_ Hone]. discriminate Hone. by exists body.
  - destruct Hone as [Hone _]. by destruct (Hone eq_refl).
Qed.

Section frames.
Variables (v : VHost) (st : ChannelState) (b : Broker).
Hypothesis Hs : serving v st b.
Variables (frameMax : Z) (steps : nat) (rest : list Byte.byte).
Hypothesis Hmax : frameMax < 2 ^ 32.
Hypothesis Hch : u16 channel.

(** One turn of the loop per frame. *)
Lemma loop_method channelNum :
  let c := BasicPublish exchange routingKey mandatory immediate in
  from_option (λ rq : request, (rq.1 < br_next b)%nat) True (cs_MethodFrame st) → wf_method c →
  Z.of_nat (length (method_payload c)) + FRAME_OVERHEAD <= frameMax →
  let st' := set_MethodFrame (Some (br_next b, m)) st in
  let b' := updateChannelState conn channel (set_MethodFrame (Some (br_next b, m)))
              (set_next (S (br_next b)) b) in
  serving v st' b' ∧
  frame_loop fuel (S steps) conn frameMax channelNum (channel_frame channel c ++ rest) b =
  frame_loop fuel steps conn frameMax channel rest b'.
Proof.
  intros c Hold Hwf Hlen st' b'. unfold FRAME_OVERHEAD in Hlen.
  pose proof (serving_next _ _ _ (S (br_next b)) Hs) as Hs0.
  split; [by apply serving_update; [|apply Hs]|].
  cbn [frame_loop]. unfold channel_frame. rewrite <-!app_assoc.
  rewrite readFrame_format by (unfold u32, FRAME_OVERHEAD; lia). rewrite bind_eq.
  erewrite serve_frame_method; [done|exact Hs| |by apply (serve_method v st)].
  rewrite parseFrame_format by (done || lia). rewrite decide_True by done. by rewrite parseMethodFrame_enc.
Qed.

Lemma loop_header n header body props :
  cs_MethodFrame st = Some (n, m) → cs_HeaderFrame st = None →
  Z.of_nat (length body) < 2 ^ 64 → wf_props props →
  createHeaderFrame channel BASIC body props = Ok header → Z.of_nat (length header) <= frameMax →
  let h := MkHeader channel BASIC (Z.of_nat (length body)) (relay_props props) in
  let b' := updateChannelState conn channel (set_HeaderFrame h) b in
  serving v (set_HeaderFrame h st) b' ∧
  frame_loop fuel (S steps) conn frameMax channel (header ++ rest) b =
  frame_loop fuel steps conn frameMax channel rest b'.
Proof.
  intros Hm Hh Hlen Hprops Hheader Hhlen h b'.
  split; [by apply serving_update; [|apply Hs]|]. cbn [frame_loop].
  destruct (header_frame_reads channel BASIC frameMax body rest header props) as (input & -> & Hparse);
    [done|done|unfold u64; lia|done|done|lia|].
  rewrite bind_eq. erewrite (serve_frame_content v st b input (Some h) None);
    [done|done|exact Hparse|by split; [|intros []]|]. by apply (serve_header v st b n).
Qed.

Lemma loop_body v' n header body id :
  cs_MethodFrame st = Some (n, m) → cs_HeaderFrame st = Some header →
  cs_BodySize st = Z.of_nat (length body) → body ≠ [] → cs_Body st = None →
  Z.of_nat (length body) + FRAME_OVERHEAD <= frameMax →
  HasRoutingForMessage exchange routingKey v = Ok true →
  from_option InTransaction false (GetTransactionState (conn, channel) v) = false →
  Publish (clock (br_next b)) fuel exchange routingKey (published (br_next b) body (hf_Properties header)) v
    = Ok (v', Ok id) →
  (GetChannelFlowState (conn, channel) v').2 = false →
  frame_loop fuel (S steps) conn frameMax channel (body_frame channel body ++ rest) b =
  frame_loop fuel steps conn frameMax channel rest
    (moved vh (S (br_next b)) v' (resetChannelState conn channel b)).
Proof.
  intros Hm Hh Hsize Hbody Hb Hlen Hr Htx Hp Hflow. unfold FRAME_OVERHEAD in Hlen.
  cbn [frame_loop]. unfold body_frame. rewrite <-!app_assoc.
  rewrite readFrame_format by (unfold u32, FRAME_OVERHEAD; lia). rewrite bind_eq.
  erewrite (serve_frame_content v st b _ None (Some body)); [done|done| |split; [by eexists|done]|].
  - rewrite parseFrame_format by (done || lia). by rewrite !decide_False, decide_True by done.
  - rewrite (serve_body v st b n header body) by done.
    rewrite (publish_complete_routes v v' _ _ header body id);
      [|apply Hs|apply Hs|done|lia|done|done|exact Hp|done].
    by rewrite reset_update.
Qed.
End frames.
End publish.
End wire.

Section end_to_end.
Context `{Runtime, Environment}.

End end_to_end.

Section wire_sample.
#[local] Existing Instance sample_runtime.
#[local] Existing Instance sample_environment.

Definition sample_body : list Byte.byte := bytes_of "hello".
Definition sample_header : list Byte.byte :=
  match createHeaderFrame 1 BASIC sample_body empty_props with Ok f => f | Err _ => [] end.
Definition sample_message : Message :=
  NewMessage sample_body (relay_props empty_props) "logs" "app.x" (GenerateMessageId 8) (clock 8) (clock 8).
Definition sample_published : VHost :=
  match Publish (clock 8) 5 "logs" "app.x" sample_message sample_vhost with Ok (v, _) => v | Err _ => sample_vhost end.

Lemma sample_publishes : Publish (clock 8) 5 "logs" "app.x" sample_message sample_vhost = Ok (sample_published, Ok "m-8").
Proof.
  unfold sample_published.
  assert (Hok : match Publish (clock 8) 5 "logs" "app.x" sample_message sample_vhost with
    Ok (_, Ok id) => bool_decide (id = "m-8") | _ => false end = true) by by vm_compute.
  destruct (Publish _ _ _ _ _ _) as [[v [id|e]]|s]; [|done..]. by apply bool_decide_eq_true in Hok as ->.
Qed.

Lemma sample_serving : serving "/" "conn-1" 1 sample_vhost empty_channel sample_open.
Proof.
  split; [|by vm_compute..]. eexists. split; [by vm_compute|]. split; [done|]. split; [done|by vm_compute].
Qed.

End wire_sample.
